(* ===== verification/_CoqProject ===== *)
-Q . S2P
Prelude.v
IO.v
Interleave.v
Info.v
Cdev.v
Sram.v
SramFile.v
SramConc.v
Update.v
Flash.v
UpdateFile.v
CdevFiles.v
Gpio.v
GpioConc.v
Systemtime.v
Core.v
NetFifo.v
Netdev.v
NetProbe.v
NetTx.v
NetRace.v
NetDma.v
NetRx.v
TxEngine.v
RxEngine.v
NetTxWire.v
NetRxWire.v
NetEim.v
NetEimRx.v
System.v
Lifecycle.v
EtherCat.v
