(* ===== verification/Prelude.v ===== *)
(** * Verification of the Linux drivers for the Beckhoff CCAT FPGA

    ** The program

    A CCAT is an FPGA on an industrial PC, reached through PCI or through a memory bus (EIM).  It
    offers a number of functions, described by a table of 16-byte information blocks at the start
    of its first register window (BAR 0).  The repository holds the kernel modules for it:

    - module.c, module.h: the core.  It acquires the device ([ccat_pci_probe],
      [ccat_eim_probe]), scans the table ([ccat_functions_init]) and creates a sub-device per
      function, for which the kernel then calls the probe function of one of the drivers below.
      It also holds the character-device helper that sram.c and update.c share.
    - sram.c: a character device over a memory window of the FPGA.
    - update.c: a character device over the configuration flash of the FPGA.
    - gpio.c: a GPIO chip.
    - systemtime.c: a clock source.
    - netdev.c: a network device with a ring of frames per direction, in DMA memory or (EIM) in
      memory of the FPGA, polled by a timer since the FPGA has no interrupts.
    - unittest/: an EtherCAT application that checks wired outputs and inputs through the network
      device (main.c), two programs that inject frames (udp_burst.c, forward_frames.c), and shell
      scripts.

    ** How it is modelled

    A function is a computation of the monad [M E] of IO.v.  All it does to the outside
    world (register accesses, loads and stores to memory shared with the FPGA, barriers, services
    of the kernel and of the libraries) is a [call] answered by an environment, a type [E] with a
    transition function (class [Env]); the computation returns the sequence of its calls with their
    answers and ends in a value, in an oops (a NULL pointer dereferenced, an access outside an
    object, undefined arithmetic), or out of fuel.  The kernel, the FPGA and the libraries are not
    under src/ and so are parameters: theorems hold for every environment, or for those that
    satisfy a type class that states what the code relies on.  The classes and who relies on them:

    - [CdevKernel], [CdevRegisters], [UserMem] (Cdev.v): the kernel's character-device services and
      copies from user space, and that a granted region has a major number ([ChrdevKernel]);
      [FileKernel] (SramFile.v): the position of a file;
    - [IoMem] (IO.v): a register window that behaves like memory (SRAM, MAC counters);
    - [FlashCtl] (Flash.v): the flash controller and the serial flash behind it;
    - [GpioRegs] (Gpio.v): the GPIO registers;
    - [InfoRom] (Core.v): the table of information blocks;
    - [DmaKernel] (NetFifo.v): DMA allocation;
    - [NetKernel], [TxRing] (NetTx.v), [RxRing] (NetRx.v), [TxFpga] (TxEngine.v),
      [RxFpga] (RxEngine.v): the network stack, and what the FPGA does with the frames of the two
      rings ([TxFpga], a machine that fetches what the descriptors name, keeps the promises of
      [TxRing]; [RxFpga] is one that fills the frames it was given); [EimTx] (NetEim.v), [EimRx]
      (NetEimRx.v): its FIFO and its mailbox on the EIM bus;
    - [Wired] (EtherCat.v): outputs wired to inputs.

    Each class has an instance by a concrete environment, on which the theorems that use it are
    applied (the lemmas [..._witness]).  [Ledger] (IO.v) is an account of resources in which
    neither the order nor what else is held matters.

    C structures are records with the fields of the source, enumerations and callback tables are
    inductive types, pointers and integers are [Z] with the conversions of their C types written
    out ([u8] ... [u64]; LP64).  State that the source mutates through pointers is passed and
    returned.  [printk] messages are left out.  Reading conventions: [wp m e Q] says that [m] run
    from [e] returns normally and value, events and final environment satisfy [Q] (so it excludes
    faults and loops); [wpo X m e Q] also allows it to end in an oops if the events before satisfy [X]
    ([no_buffer] of NetTx.v: the last was [dev_alloc_skb] without memory); [forall_calls R m] speaks of
    every call of every run.

    ** The files

    - Prelude.v: machine integers, bit and byte-sequence lemmas, tactics [mach] and [zcases], hint
      databases.
    - IO.v: calls, monad, weakest preconditions and their tactics [wp_run], [fc_run], [of_run],
      [ev_run], the account of resources ([held_from], [Ledger]).
    - Interleave.v: functions as trees of calls and the interleaving of several of them under a
      mutex.
    - Info.v: the structures of module.h; the layout of an information block
      (C23).
    - Cdev.v: the character-device helper of module.c.  Class and slots over any sequence
      of probes and removes (C38), exclusive open under any interleaving of its
      atomic operations (C11), of which the functions are runs, a fault in an
      error path (C40).
    - Sram.v: sram.c.  No access outside window and buffer ([ccat_sram_read_safe],
      [ccat_sram_write_safe]), contents, probe.
    - SramFile.v: a function block with an SRAM becomes a file of fixed size
      (C10), whatever the block sizes (C19).
    - SramConc.v: tasks that share an open file: the accesses stay where they belong
      (C32), the data need not.
    - Update.v: update.c.  The command protocol and the bit reversal
      ([ccat_update_cmd_addr_protocol], C35), register safety
      (C30), collecting writes.
    - Flash.v: what update.c does to the flash: reading, programming, and the round trip of a
      configuration written in chunks (C5).
    - UpdateFile.v: an update function becomes a device with a staging area, whatever sequence of
      reads and writes a program does (C26).
    - CdevFiles.v: the interface between module.c and the two character-device drivers
      ([CdevDriver]), and the life of the open files of any driver that satisfies it: one file per
      device, counters in step, no fault (C27); what goes wrong when a device is
      removed under an open file.
    - Gpio.v: gpio.c.  Refinement of an abstract bank of lines (C17), locking,
      what happens beyond line 31 where [unsigned long] has 64 bits (C37).
    - GpioConc.v: any number of tasks on the first 32 lines of a chip, interleaved call by call, are
      linearizable to that bank (C6).
    - Systemtime.v: systemtime.c ([ccat_systemtime_probe_result]).
    - Core.v: the rest of module.c.  The scan of the table against its reference reading
      (C7), the resources of both front ends on every path
      (C13, C36): device, regions, mappings and sub-devices.  The
      account does not tell the register windows apart, and leaves the function records to the scan,
      where they are followed: after a scan that succeeded none of those used is ever freed.
    - NetFifo.v: the FIFOs and callbacks of netdev.c.  Ring invariant, reset
      (C22), DMA memory (C12), the descriptor of a
      queued frame (C16, C39).
    - Netdev.v: the rest of netdev.c, definitions.
    - NetProbe.v: resources of both variants on every path, with what an invalid MAC address and DMA
      memory at the device address 0 leave behind (C14), one
      transmission on every branch (C24), statistics, lack of memory
      ([ccat_eth_no_memory]).
    - NetTx.v: each call into the device, run to its end, keeps "an awake queue has a free frame",
      which the probe establishes (C29); carrier and queue follow link and ring (C28, C31).  Its
      Section [Reception] says once what reception does to anything one may watch.
    - NetRace.v: what remains true when a transmission comes in the middle of [poll_tx], which takes
      no lock (C21), and the device over time: a transmission is refused at most
      once for each that came there (C1).
    - NetDma.v: the FPGA's FIFOs are reset before DMA memory goes back to the kernel, on all paths
      but one (C15).
    - NetRx.v: received frames reach the stack in order, those without a buffer are dropped and
      counted (C4).
    - TxEngine.v, NetTxWire.v: the FPGA's TX engine, a FIFO channel as specification, and the
      refinement: what is on the wire is what the driver accepted, in order and unchanged, while the
      engine fetches from memory between any two calls of the driver (C2), frames
      of 2024 bytes excepted.  Resetting the ring at a link-up is the only loss; [dma_probe_sound]
      starts the channel empty.
    - RxEngine.v, NetRxWire.v: the other direction: what the stack gets is what the FPGA received, in
      order and unchanged, while the RX engine stores frames between any two calls of the driver;
      link-ups and failed allocations are the only losses (C3);
      [dma_probe_rx_sound] says that probing gives the FPGA all frames.
    - NetEim.v, NetEimRx.v: the EIM variant.  How often its queue is awake without room
      (C34); its mailbox repeats and reorders nothing and loses only what gets
      no buffer (C33).
    - System.v: the drivers together.  The scan, the names in [ccat_cells] and the drivers' tables
      bring every function to its driver (C18); any sequence of probes
      and removes of all drivers keeps the modules' static data and the resources in step, up to
      exactly what failed probes leave behind (C9).
    - Lifecycle.v: the front ends (class [FrontEnd], PCI and EIM) and the bus from plugging a CCAT in
      to unplugging it: no register is used while none is mapped, and everything goes back but what
      failed probes leave behind (C8).
    - EtherCat.v: the programs of unittest/.  The inner loop serves every alarm once
      (C25); a working wire is never reported (C20).

    ** Fuel and bounds

    The two loops of update.c that wait for the hardware take an explicit fuel: [FlashCtl] bounds
    the waits by [bound], and every theorem about them is proved for any fuel above it, as total
    correctness.  The inner loop of unittest/main.c takes a fuel above the alarms it has to serve.
    The other loops get enough fuel by construction: the block loops of update.c one round per
    byte, the reset of a ring one per frame ([nslots], proved to suffice for every ring in
    C22).  All other recursion is structural; the endless loop of
    unittest/main.c is taken for any number of rounds.

    ** What is not modelled

    Messages of the drivers; the tables of PCI and device-tree identifiers; the wrappers for old
    kernels, which only rename; memory ordering beyond the order of calls (barriers are calls);
    interleavings inside functions other than those of GpioConc.v, SramConc.v, NetRace.v, the
    FPGA's own steps (TxEngine.v, RxEngine.v) and the opens of Cdev.v: elsewhere a function is an
    atomic step, in particular [ccat_eth_start_xmit] and, of the timer callback, [poll_link] with
    [poll_rx]; operations of a file other than those of the examples in CdevFiles.v once its device
    has been removed under it; what happens after [class_create] or [device_create] returned an error
    pointer, which the code, and so the model, takes for success; what a bit operation on a line from
    64 on does to the stack, and builds with a 32-bit [unsigned long]; scripts, reference data and
    patches of the repository.  [user_puts] (IO.v) counts the bytes [put_user] was asked to
    store, since the code does not look at its answers. *)

From Stdlib Require Export ZArith Lia.
From stdpp Require Export prelude numbers list strings.

Global Open Scope Z_scope.

Declare Scope ccat_scope.
Delimit Scope ccat_scope with ccat.
Global Open Scope ccat_scope.

(** ** Machine integers

    A C unsigned integer of [w] bits is a [Z] in [[0, 2^w)]; the conversions of the code are
    the explicit wrap-arounds below (LP64: [size_t], [unsigned long] and pointers are 64 bits
    wide). *)

Definition u8 (z : Z) : Z := z mod 256.
Definition u16 (z : Z) : Z := z mod 65536.
Definition u32 (z : Z) : Z := z mod 4294967296.
Definition u64 (z : Z) : Z := z mod 18446744073709551616.

Arguments u8 : simpl never.
Arguments u16 : simpl never.
Arguments u32 : simpl never.
Arguments u64 : simpl never.

(** [is_byte z]: [z] is the value of a [u8]. *)
Definition is_byte (z : Z) : Prop := 0 <= z < 256.

#[export] Instance is_byte_dec z : Decision (is_byte z).
Proof. unfold is_byte. apply _. Defined.

(** C truth values: a non-zero integer is true, [!x] is 0 or 1. *)
Definition istrue (z : Z) : bool := negb (z =? 0).
Definition b2z (b : bool) : Z := if b then 1 else 0.
Definition lnot_c (z : Z) : Z := b2z (z =? 0).

(** [PTR_ALIGN(p, a)] of the kernel: the next multiple of the power of two [a]. *)
Definition ptr_align (p a : Z) : Z := Z.land (p + (a - 1)) (Z.lnot (a - 1)).

(** Negative errno values the drivers return. *)
Definition ENOMEM : Z := 12.
Definition EFAULT : Z := 14.
Definition EIO : Z := 5.
Definition EBUSY : Z := 16.
Definition ENODEV : Z := 19.
Definition EINVAL : Z := 22.
Definition EADDRNOTAVAIL : Z := 99.

(** ** Tactics and hint databases *)

Create HintDb ccat discriminated.
Create Rewrite HintDb ccat.
#[export] Hint Constants Opaque : ccat.
#[export] Hint Variables Opaque : ccat.

(** Unfold every machine-integer conversion and hand the goal to [lia]. *)
Ltac mach := unfold u8, u16, u32, u64, is_byte, istrue, b2z, lnot_c in *;
             Z.to_euclidean_division_equations; lia.

(** Case analysis on the boolean comparisons of the goal, each with its arithmetic meaning. *)
Ltac zcases :=
  repeat match goal with
  | |- context [?a =? ?b] => destruct (Z.eqb_spec a b); try lia
  | |- context [?a <? ?b] => destruct (Z.ltb_spec a b); try lia
  | |- context [?a <=? ?b] => destruct (Z.leb_spec a b); try lia
  end.

(** ** Machine-integer lemmas *)

Lemma u8_small z : is_byte z -> u8 z = z.
Proof. unfold u8, is_byte. intros. by apply Z.mod_small. Qed.

Lemma u16_small z : 0 <= z < 65536 -> u16 z = z.
Proof. unfold u16. intros. by apply Z.mod_small. Qed.

Lemma u32_small z : 0 <= z < 4294967296 -> u32 z = z.
Proof. unfold u32. intros. by apply Z.mod_small. Qed.

Lemma u64_small z : 0 <= z < 18446744073709551616 -> u64 z = z.
Proof. unfold u64. intros. by apply Z.mod_small. Qed.

Lemma u8_byte z : is_byte (u8 z).
Proof. unfold u8, is_byte. apply Z.mod_pos_bound. lia. Qed.

#[export] Hint Resolve u8_byte : ccat.

Lemma istrue_0 : istrue 0 = false.
Proof. done. Qed.

Lemma istrue_nz z : z <> 0 -> istrue z = true.
Proof. unfold istrue. intros. by destruct (Z.eqb_spec z 0). Qed.

Lemma land_mask_mod (x n : Z) : 0 <= n -> Z.land x (2 ^ n - 1) = x mod 2 ^ n.
Proof.
  intros. rewrite <- Z.land_ones by lia. f_equal. rewrite Z.ones_equiv. lia.
Qed.

(** Bits of a value below [2^n] stop at [n]; concatenating bit fields is addition. *)
Lemma testbit_high x n i : 0 <= x < 2 ^ n -> n <= i -> Z.testbit x i = false.
Proof.
  intros Hx Hi. destruct (Z.eq_dec x 0) as [-> | Hne]; [apply Z.testbit_0_l |].
  apply Z.bits_above_log2; [lia |].
  assert (0 <= n) by (destruct (Z.lt_ge_cases n 0); [rewrite Z.pow_neg_r in Hx; lia | lia]).
  assert (Z.log2 x < n) by (apply Z.log2_lt_pow2; lia). lia.
Qed.

Lemma lor_shiftl_add a b n : 0 <= n -> 0 <= b < 2 ^ n -> Z.lor (Z.shiftl a n) b = a * 2 ^ n + b.
Proof.
  intros Hn Hb. rewrite <- Z.shiftl_mul_pow2 by lia.
  assert (Hland : Z.land (Z.shiftl a n) b = 0).
  { apply Z.bits_inj'. intros i Hi. rewrite Z.land_spec, Z.testbit_0_l.
    destruct (Z.lt_ge_cases i n).
    - by rewrite Z.shiftl_spec_low by lia.
    - by rewrite (testbit_high b n i), andb_false_r. }
  rewrite Z.add_nocarry_lxor by done. symmetry. by apply Z.lxor_lor.
Qed.

(** Testing one bit with a mask. *)
Lemma land_pow2 x n : 0 <= n -> Z.land x (2 ^ n) = if Z.testbit x n then 2 ^ n else 0.
Proof.
  intros Hn. apply Z.bits_inj'. intros i Hi. rewrite Z.land_spec, Z.pow2_bits_eqb by lia.
  destruct (Z.eqb_spec n i) as [->|Hne].
  - rewrite andb_true_r. destruct (Z.testbit x i) eqn:Hx; [|by rewrite Z.testbit_0_l].
    by rewrite Z.pow2_bits_true by lia.
  - rewrite andb_false_r. destruct (Z.testbit x n); [|by rewrite Z.testbit_0_l].
    by rewrite Z.pow2_bits_false by lia.
Qed.

Lemma istrue_land_pow2 x n : 0 <= n -> istrue (Z.land x (Z.shiftl 1 n)) = Z.testbit x n.
Proof.
  intros Hn. rewrite Z.shiftl_1_l, land_pow2 by done. destruct (Z.testbit x n); [|done].
  apply istrue_nz. assert (0 < 2 ^ n) by (apply Z.pow_pos_nonneg; lia). lia.
Qed.

(** Two values below [2^8] that agree on their eight bits are equal. *)
Lemma byte_eq_bits a b :
  is_byte a -> is_byte b ->
  (forall i, 0 <= i < 8 -> Z.testbit a i = Z.testbit b i) -> a = b.
Proof.
  unfold is_byte. intros Ha Hb H. apply Z.bits_inj'. intros n Hn.
  destruct (Z.lt_ge_cases n 8) as [Hlt | Hge]; [apply H; lia |].
  by rewrite !(testbit_high _ 8 n).
Qed.

(** Rounding up with a mask of a power of two, as arithmetic. *)
Lemma ptr_align_arith p k :
  0 <= k -> ptr_align p (2 ^ k) = (p + (2 ^ k - 1)) - (p + (2 ^ k - 1)) mod 2 ^ k.
Proof.
  intros Hk. unfold ptr_align.
  rewrite <- Z.ldiff_land.
  replace (2 ^ k - 1) with (Z.ones k) at 2 by (rewrite Z.ones_equiv; lia).
  rewrite Z.ldiff_ones_r by lia.
  rewrite Z.shiftl_mul_pow2, Z.shiftr_div_pow2 by lia.
  pose proof (Z.div_mod (p + (2 ^ k - 1)) (2 ^ k)). lia.
Qed.

(** ** Byte sequences *)

(** [slice o n l]: the [n] elements of [l] from index [o]; [splice o x l]: [l] with [x] written
    at index [o] (what [memcpy] to [l + o] does to a buffer it fits in). *)
Definition slice {A} (o n : Z) (l : list A) : list A := take (Z.to_nat n) (drop (Z.to_nat o) l).
Definition splice {A} (o : Z) (x l : list A) : list A :=
  take (Z.to_nat o) l ++ x ++ drop (Z.to_nat o + length x)%nat l.
Definition zlen {A} (l : list A) : Z := Z.of_nat (length l).

Lemma zlen_nonneg {A} (l : list A) : 0 <= zlen l.
Proof. unfold zlen. lia. Qed.

Lemma zlen_app {A} (l k : list A) : zlen (l ++ k) = zlen l + zlen k.
Proof. unfold zlen. rewrite length_app. lia. Qed.

Lemma length_slice {A} o n (l : list A) :
  0 <= o -> 0 <= n -> o + n <= zlen l -> length (slice o n l) = Z.to_nat n.
Proof. unfold slice, zlen. intros. rewrite length_take, length_drop. lia. Qed.

Lemma zlen_slice_le {A} o n (l : list A) : 0 <= n -> zlen (slice o n l) <= n.
Proof. unfold slice, zlen. intros. rewrite length_take. lia. Qed.

Lemma length_splice {A} o (x l : list A) :
  0 <= o -> o + zlen x <= zlen l -> length (splice o x l) = length l.
Proof.
  unfold splice, zlen. intros. rewrite !length_app, length_take, length_drop. lia.
Qed.

Lemma zlen_splice {A} o (x l : list A) :
  0 <= o -> o + zlen x <= zlen l -> zlen (splice o x l) = zlen l.
Proof. intros. unfold zlen. by rewrite length_splice. Qed.

(** Reading back what was spliced in. *)
Lemma slice_splice_eq {A} o (x l : list A) :
  0 <= o -> o + zlen x <= zlen l -> slice o (zlen x) (splice o x l) = x.
Proof.
  unfold slice, splice, zlen. intros. rewrite Nat2Z.id.
  rewrite drop_app_ge by (rewrite length_take; lia).
  rewrite length_take, Nat.min_l by lia. rewrite Nat.sub_diag, drop_0.
  rewrite take_app_le by lia. apply take_ge. lia.
Qed.

(** Appending at the end of the part of a buffer that is filled. *)
Lemma take_splice_append {A} o (x l : list A) :
  0 <= o -> o + zlen x <= zlen l ->
  take (Z.to_nat (o + zlen x)) (splice o x l) = take (Z.to_nat o) l ++ x.
Proof.
  unfold splice, zlen. intros. rewrite app_assoc, take_app_le.
  - apply take_ge. rewrite length_app, length_take. lia.
  - rewrite length_app, length_take. lia.
Qed.

Lemma Forall_splice {A} (P : A -> Prop) o (x l : list A) :
  Forall P x -> Forall P l -> Forall P (splice o x l).
Proof.
  intros Hx Hl. unfold splice. rewrite !Forall_app. split_and!; auto using Forall_take, Forall_drop.
Qed.

(** Element-wise view of a splice. *)
Lemma lookup_splice_in {A} o (x l : list A) (i : nat) :
  0 <= o -> o + zlen x <= zlen l -> (Z.to_nat o <= i < Z.to_nat o + length x)%nat ->
  splice o x l !! i = x !! (i - Z.to_nat o)%nat.
Proof.
  unfold splice, zlen. intros. rewrite lookup_app_r by (rewrite length_take; lia).
  rewrite length_take, Nat.min_l by lia. by rewrite lookup_app_l by lia.
Qed.

Lemma lookup_splice_out {A} o (x l : list A) (i : nat) :
  0 <= o -> o + zlen x <= zlen l -> (i < Z.to_nat o \/ Z.to_nat o + length x <= i)%nat ->
  splice o x l !! i = l !! i.
Proof.
  unfold splice, zlen. intros Ho Hl [Hi | Hi].
  - rewrite lookup_app_l by (rewrite length_take; lia). by apply lookup_take_lt.
  - rewrite lookup_app_r by (rewrite length_take; lia).
    rewrite length_take, Nat.min_l by lia. rewrite lookup_app_r by lia.
    rewrite lookup_drop. f_equal. lia.
Qed.

Lemma alter_insert {A} (f : A -> A) (l : list A) i x :
  l !! i = Some x -> alter f i l = <[i := f x]> l.
Proof.
  revert i. induction l as [|y l IH]; intros [|i] Hi; simplify_eq/=; [done|].
  f_equal. by apply IH.
Qed.

Lemma alter_of_insert {A} (f : A -> A) (l : list A) i x :
  (i < length l)%nat -> alter f i (<[i := x]> l) = <[i := f x]> l.
Proof.
  intros Hi. rewrite (alter_insert _ _ _ x) by (by apply list_lookup_insert_eq).
  apply list_insert_insert_eq.
Qed.

(** Little-endian decoding and encoding of a byte list ([le16_to_cpu] and friends, and the
    layout of structs copied with [memcpy_fromio]). *)
Fixpoint le_val (l : list Z) : Z :=
  match l with
  | [] => 0
  | b :: l' => b + 256 * le_val l'
  end.

Fixpoint le_bytes (n : nat) (z : Z) : list Z :=
  match n with
  | O => []
  | S n' => u8 z :: le_bytes n' (z / 256)
  end.

Lemma length_le_bytes n z : length (le_bytes n z) = n.
Proof. revert z. induction n; simpl; auto. Qed.

Lemma zlen_le_bytes n z : zlen (le_bytes n z) = Z.of_nat n.
Proof. unfold zlen. by rewrite length_le_bytes. Qed.

Lemma le_bytes_byte n z : Forall is_byte (le_bytes n z).
Proof. revert z. induction n; simpl; constructor; auto with ccat. Qed.

Lemma le_val_bytes n z : le_val (le_bytes n z) = z mod 256 ^ Z.of_nat n.
Proof.
  revert z. induction n as [|n IH]; intros z.
  - change (256 ^ Z.of_nat 0) with 1. by rewrite Z.mod_1_r.
  - cbn [le_bytes le_val]. rewrite IH. unfold u8.
    replace (Z.of_nat (S n)) with (Z.succ (Z.of_nat n)) by lia.
    rewrite Z.pow_succ_r by lia. rewrite Z.rem_mul_r by lia. lia.
Qed.

Lemma le_val_bound l : Forall is_byte l -> 0 <= le_val l < 256 ^ zlen l.
Proof.
  unfold zlen. induction 1 as [|b l Hb _ IH]; [simpl; lia |].
  cbn [le_val length]. rewrite Nat2Z.inj_succ, Z.pow_succ_r by lia.
  unfold is_byte in Hb. lia.
Qed.

Lemma le_bytes_val l : Forall is_byte l -> le_bytes (length l) (le_val l) = l.
Proof.
  induction 1 as [|b l Hb _ IH]; [done|]. cbn [le_val length le_bytes]. unfold u8, is_byte in *.
  f_equal; [mach|]. by replace ((b + 256 * le_val l) / 256) with (le_val l) by mach.
Qed.

#[export] Hint Resolve le_bytes_byte : ccat.

(** ** Byte-addressed stores

    The contents of a memory as a function from addresses to bytes: one update, the bytes of a
    range, and a range overwritten with a list. *)
Definition upd (f : Z -> Z) (a v : Z) : Z -> Z := fun b => if b =? a then v else f b.

Fixpoint fslice (f : Z -> Z) (a : Z) (n : nat) : list Z :=
  match n with
  | O => []
  | S n' => f a :: fslice f (a + 1) n'
  end.

Definition fwrite (f : Z -> Z) (a : Z) (l : list Z) : Z -> Z := fun b =>
  if (a <=? b) && (b <? a + zlen l) then nth (Z.to_nat (b - a)) l 0 else f b.

Lemma length_fslice f a n : length (fslice f a n) = n.
Proof. revert a. induction n; simpl; auto. Qed.

Lemma fslice_ext f g a n :
  (forall b, a <= b < a + Z.of_nat n -> f b = g b) -> fslice f a n = fslice g a n.
Proof.
  revert a. induction n as [|n IH]; intros a H; simpl; [done|].
  rewrite H by lia. f_equal. apply IH. intros. apply H. lia.
Qed.

Lemma lookup_fslice f a n i :
  (i < n)%nat -> fslice f a n !! i = Some (f (a + Z.of_nat i)).
Proof.
  revert a i. induction n as [|n IH]; intros a [|i] Hi; simpl; try lia.
  - do 2 f_equal. lia.
  - rewrite IH by lia. do 2 f_equal. lia.
Qed.

Lemma fslice_app f a n m :
  fslice f a (n + m) = fslice f a n ++ fslice f (a + Z.of_nat n) m.
Proof.
  revert a. induction n as [|n IH]; intros a; simpl.
  - f_equal. lia.
  - rewrite IH. do 3 f_equal; lia.
Qed.

Lemma fslice_nth l n :
  (n <= length l)%nat -> fslice (fun b => nth (Z.to_nat b) l 0) 0 n = take n l.
Proof.
  intros Hn. apply list_eq. intros i. destruct (decide (i < n)%nat).
  - rewrite lookup_fslice, lookup_take_lt by done. rewrite Z.add_0_l, Nat2Z.id.
    symmetry. destruct (lookup_lt_is_Some_2 l i) as [x Hx]; [lia|].
    rewrite Hx. f_equal. symmetry. by apply nth_lookup_Some.
  - by rewrite !lookup_ge_None_2 by (rewrite ?length_fslice, ?length_take; lia).
Qed.

Lemma fwrite_nil f a b : fwrite f a [] b = f b.
Proof. unfold fwrite, zlen. simpl. zcases; simpl; done || lia. Qed.

Lemma fwrite_cons f a x l b : fwrite f a (x :: l) b = fwrite (upd f a x) (a + 1) l b.
Proof.
  unfold fwrite, upd, zlen. simpl length. rewrite Nat2Z.inj_succ.
  destruct (Z.eqb_spec b a) as [->|Hne].
  - rewrite Z.sub_diag. zcases; simpl; done || lia.
  - zcases; simpl; try done || lia.
    replace (Z.to_nat (b - a)) with (S (Z.to_nat (b - (a + 1)))) by lia. done.
Qed.

Lemma fwrite_out f a l b : b < a \/ a + zlen l <= b -> fwrite f a l b = f b.
Proof. unfold fwrite. intros. zcases; simpl; done || lia. Qed.

Lemma fwrite_ext f g a l b : f b = g b -> fwrite f a l b = fwrite g a l b.
Proof. unfold fwrite. intros ->. done. Qed.

Lemma fslice_fwrite f a l : fslice (fwrite f a l) a (length l) = l.
Proof.
  apply list_eq. intros i. destruct (decide (i < length l)%nat) as [Hi|Hi].
  - rewrite lookup_fslice by done. unfold fwrite, zlen. zcases; simpl; try lia.
    destruct (lookup_lt_is_Some_2 l i Hi) as [x Hx]. rewrite Hx. f_equal.
    apply nth_lookup_Some with (d := 0) in Hx. rewrite <- Hx. f_equal. lia.
  - by rewrite !lookup_ge_None_2 by (rewrite ?length_fslice; lia).
Qed.

(** Writing a sequence in two pieces. *)
Lemma fwrite_app f a l l' b : fwrite (fwrite f a l) (a + zlen l) l' b = fwrite f a (l ++ l') b.
Proof.
  revert f a. induction l as [|x l IH]; intros f a; simpl app.
  - rewrite Z.add_0_r. apply fwrite_ext, fwrite_nil.
  - rewrite fwrite_cons, <- IH. unfold zlen in *. simpl length.
    replace (a + Z.of_nat (S (length l))) with (a + 1 + Z.of_nat (length l)) by lia.
    apply fwrite_ext, fwrite_cons.
Qed.
