(* ===== verification/IO.v ===== *)
(** * The effects of the drivers

    Everything a driver does to the outside world goes through one of the calls below: register
    accesses of the FPGA ([ioread8] ... [readq], [iowrite8] ... [iowrite32]), plain loads and
    stores to memory the FPGA shares with the CPU by DMA, memory barriers, and the services of
    the Linux kernel.  The outside world is a parameter: an environment type [E] with one
    transition function [ext] (class [Env]).  A driver function is a computation of the monad
    [M E]: it threads the environment, returns the sequence of the calls it made with their
    answers, and ends in a value, in a kernel oops (dereferencing NULL, undefined behaviour) or
    out of fuel (a loop that waits for the hardware longer than its bound). *)

From S2P Require Import Prelude.

(** ** Calls *)

Inductive width := W8 | W16 | W32 | W64.

Definition wbytes (w : width) : nat :=
  match w with W8 => 1 | W16 => 2 | W32 => 4 | W64 => 8 end.

(** The kernel services the drivers use, with the arguments the model needs.  Messages
    ([pr_info] and the like) are not calls. *)
Inductive kcall :=
  (* memory, scheduling, user space *)
  | Schedule
  | MutexInit (m : Z) | MutexLock (m : Z) | MutexUnlock (m : Z)
  | Kzalloc (size : Z) | DevmKzalloc (size : Z) | Kfree (p : Z)
  | CopyFromUser (n : Z) | CopyToUser (data : list Z) | PutUser (addr v : Z)
  | FixedSizeLlseek (pos offset whence size : Z)
  (* character devices *)
  | AllocChrdevRegion (count : Z) | UnregisterChrdevRegion (dev count : Z)
  | ClassCreate (name : string) | ClassDestroy (cls : Z)
  | DeviceCreate (cls dev : Z) | DeviceDestroy (cls dev : Z)
  | CdevInit (cdev : Z) | CdevAdd (cdev dev : Z) | CdevDel (cdev : Z)
  (* multi-function device, PCI and memory-mapped devices *)
  | MfdAddDevices (dev : Z) (name : string) (pdata : list Z) | MfdRemoveDevices (dev : Z)
  | PciEnableDeviceMem (p : Z) | PciDisableDevice (p : Z)
  | PciReadRevision (p : Z)
  | PciRequestRegions (p : Z) | PciReleaseRegions (p : Z)
  | DmaSetMaskAndCoherent (p bits : Z)
  | PciIomap (p bar : Z) | PciIounmap (p addr : Z) | PciSetMaster (p : Z)
  | RequestMemRegion (addr len : Z) | ReleaseMemRegion (addr len : Z)
  | Ioremap (addr len : Z) | Iounmap (addr : Z)
  | PlatformDriverRegister (name : string) | PlatformDriverUnregister (name : string)
  (* function drivers *)
  | GpiochipAddData (ngpio : Z) | GpiochipRemove (gpio : Z)
  | DevmKasprintf (name : string) (n : Z)
  | ClocksourceRegisterHz (ioaddr hz : Z) | ClocksourceUnregister (ioaddr : Z)
  (* network *)
  | DmaAllocCoherent (size : Z) | DmaFreeCoherent (size base phys : Z)
  | AllocEtherdev | FreeNetdev (dev : Z) | RegisterNetdev (dev : Z) | UnregisterNetdev (dev : Z)
  | IsValidEtherAddr (mac : list Z) | EthHwAddrSet (dev : Z) (mac : list Z)
  | NetifStopQueue (dev : Z) | NetifStartQueue (dev : Z) | NetifWakeQueue (dev : Z)
  | NetifCarrierOff (dev : Z) | NetifCarrierOn (dev : Z) | NetifCarrierOk (dev : Z)
  | DevAllocSkb (len : Z) | DevKfreeSkbAny (skb : Z)
  | NetifRx (skb : Z) (data : list Z)
  | HrtimerStart | HrtimerCancel | HrtimerForwardNow
  (* user space: signals and output, the EtherCAT master library, the packet capture library *)
  | Print (msg : string) (v : Z) | Pause | Sigaction (signum : Z) | Setitimer (interval first : Z)
  | EcrtRequestMaster (index : Z) | EcrtMasterCreateDomain (master : Z)
  | EcrtMasterSlaveConfig (master alias position vendor product : Z)
  | EcrtSlaveConfigPdos (sc : Z) (syncs : list Z)
  | EcrtSlaveConfigRegPdoEntry (sc index subindex domain : Z)
  | EcrtMasterActivate (master : Z) | EcrtDomainData (domain : Z)
  | EcrtMasterReceive (master : Z) | EcrtDomainProcess (domain : Z)
  | EcrtDomainQueue (domain : Z) | EcrtMasterSend (master : Z)
  | EcrtDomainState (domain : Z) | EcrtMasterState (master : Z) | EcrtSlaveConfigState (sc : Z)
  | PcapOpenLive (dev : string) (snaplen : Z) | PcapInject (pcap : Z) (data : list Z)
  | PcapClose (pcap : Z).

Inductive call :=
  | IoRead (w : width) (a : Z)
  | IoWrite (w : width) (a v : Z)
  | MemRead (w : width) (a : Z)
  | MemWrite (w : width) (a v : Z)
  | Wmb
  | Kernel (k : kcall).

#[export] Instance width_eq_dec : EqDecision width.
Proof. solve_decision. Defined.
#[export] Instance kcall_eq_dec : EqDecision kcall.
Proof. solve_decision. Defined.
#[export] Instance call_eq_dec : EqDecision call.
Proof. solve_decision. Defined.

(** An answer: the returned value and the value of the out-parameter ([&dma->phys],
    [&base->dev]), 0 where the call has none. *)
Record resp := Resp { r_val : Z; r_out : Z }.
Record event := Ev { ev_call : call; ev_resp : resp }.

Class Env (E : Type) := ext : call -> E -> resp * E.

(** ** The monad *)

Inductive outcome (A : Type) :=
  | Ret (a : A)
  | Oops
  | Hang.
Arguments Ret {A} a.
Arguments Oops {A}.
Arguments Hang {A}.

Definition M (E A : Type) : Type := E -> outcome A * list event * E.

#[export] Instance M_ret E : MRet (M E) := fun A a e => (Ret a, [], e).

#[export] Instance M_bind E : MBind (M E) := fun A B f m e =>
  match m e with
  | (Ret a, t, e') =>
      let '(o, t', e'') := f a e' in (o, t ++ t', e'')
  | (Oops, t, e') => (Oops, t, e')
  | (Hang, t, e') => (Hang, t, e')
  end.

(** A computation together with the events of its run. *)
Definition listen {E A} (m : M E A) : M E (A * list event) := fun e =>
  match m e with
  | (Ret a, t, e') => (Ret (a, t), t, e')
  | (Oops, t, e') => (Oops, t, e')
  | (Hang, t, e') => (Hang, t, e')
  end.

Definition oops {E A} : M E A := fun e => (Oops, [], e).
Definition hang {E A} : M E A := fun e => (Hang, [], e).

Section Calls.
Context {E : Type} `{Env E}.

Definition do_call (c : call) : M E resp := fun e =>
  let '(r, e') := ext c e in (Ret r, [Ev c r], e').

Definition do_val (c : call) : M E Z := r ← do_call c; mret (r_val r).
Definition do_unit (c : call) : M E unit := _ ← do_call c; mret tt.

Definition kern (k : kcall) : M E Z := do_val (Kernel k).
Definition kern_ (k : kcall) : M E unit := do_unit (Kernel k).

(** A register read returns a value of its width; a write truncates what it is given. *)
Definition trunc (w : width) (v : Z) : Z := v mod 256 ^ Z.of_nat (wbytes w).
Definition ioread (w : width) (a : Z) : M E Z := v ← do_val (IoRead w a); mret (trunc w v).
Definition iowrite (w : width) (v a : Z) : M E unit := do_unit (IoWrite w a (trunc w v)).
Definition memread (w : width) (a : Z) : M E Z := v ← do_val (MemRead w a); mret (trunc w v).
Definition memwrite (w : width) (a v : Z) : M E unit := do_unit (MemWrite w a (trunc w v)).
Definition wmb : M E unit := do_unit Wmb.

(** [memcpy_fromio], [memcpy_toio] and [memcpy] on shared memory, byte by byte. *)
Fixpoint ioread_bytes (a : Z) (n : nat) : M E (list Z) :=
  match n with
  | O => mret []
  | S n' => b ← ioread W8 a; l ← ioread_bytes (a + 1) n'; mret (b :: l)
  end.

Fixpoint iowrite_bytes (a : Z) (l : list Z) : M E unit :=
  match l with
  | [] => mret tt
  | b :: l' => iowrite W8 b a ;; iowrite_bytes (a + 1) l'
  end.

Fixpoint memread_bytes (a : Z) (n : nat) : M E (list Z) :=
  match n with
  | O => mret []
  | S n' => b ← memread W8 a; l ← memread_bytes (a + 1) n'; mret (b :: l)
  end.

Fixpoint memwrite_bytes (a : Z) (l : list Z) : M E unit :=
  match l with
  | [] => mret tt
  | b :: l' => memwrite W8 a b ;; memwrite_bytes (a + 1) l'
  end.

End Calls.

(** ** Weakest preconditions

    [wpx F m e Q]: if the run of [m] from [e] returns normally, the value, the events and the
    final environment satisfy [Q]; otherwise (an oops, fuel exhausted) [F] holds.  [wp] is the
    total reading, in which neither happens, and [wlp] the partial one. *)
Definition wpx {E A} (F : Prop) (m : M E A) (e : E) (Q : A -> list event -> E -> Prop) : Prop :=
  match m e with
  | (Ret a, t, e') => Q a t e'
  | _ => F
  end.

Abbreviation wp := (wpx False).
Abbreviation wlp := (wpx True).

Definition calls (t : list event) : list call := ev_call <$> t.
Definition outcome_of {E A} (m : M E A) (e : E) : outcome A := (m e).1.1.
Definition trace_of {E A} (m : M E A) (e : E) : list event := (m e).1.2.
Definition env_of {E A} (m : M E A) (e : E) : E := (m e).2.

Lemma wp_ret {E A} F (a : A) (e : E) Q : Q a [] e -> wpx F (mret a) e Q.
Proof. done. Qed.

Lemma wp_bind {E A B} F (m : M E A) (f : A -> M E B) (e : E) Q :
  wpx F m e (fun a t e' => wpx F (f a) e' (fun b t' e'' => Q b (t ++ t') e'')) ->
  wpx F (m ≫= f) e Q.
Proof.
  unfold wpx, mbind, M_bind. destruct (m e) as [[[a| |] t] e']; try done.
  by destruct (f a e') as [[[b| |] t'] e''].
Qed.

Lemma wp_assoc {E A B C} F (m : M E A) (f : A -> M E B) (g : B -> M E C) (e : E) Q :
  wpx F ((m ≫= f) ≫= g) e Q -> wpx F (m ≫= (fun a => f a ≫= g)) e Q.
Proof.
  unfold wpx, mbind, M_bind. destruct (m e) as [[[a| |] t] e']; try done.
  destruct (f a e') as [[[b| |] t'] e'']; try done.
  destruct (g b e'') as [[[c| |] t''] e3]; try done. by rewrite app_assoc.
Qed.

Lemma wp_mono {E A} (F F' : Prop) (m : M E A) (e : E) (Q Q' : A -> list event -> E -> Prop) :
  wpx F m e Q -> (F -> F') -> (forall a t e', Q a t e' -> Q' a t e') -> wpx F' m e Q'.
Proof. unfold wpx. intros H HF HQ. destruct (m e) as [[[a| |] t] e']; auto. Qed.

Lemma wp_conseq {E A} F (m : M E A) (e : E) (Q Q' : A -> list event -> E -> Prop) :
  wpx F m e Q -> (forall a t e', Q a t e' -> Q' a t e') -> wpx F m e Q'.
Proof. intros H HQ. by eapply wp_mono. Qed.

Lemma wp_and {E A} (F : Prop) (m : M E A) (e : E) (Q Q' : A -> list event -> E -> Prop) :
  wpx F m e Q -> wpx F m e Q' -> wpx F m e (fun a t e' => Q a t e' /\ Q' a t e').
Proof. unfold wpx. destruct (m e) as [[[a| |] t] e']; auto. Qed.

(** A [wp] gives the run itself, and a run gives its [wp]. *)
Lemma wp_elim {E A} (m : M E A) (e : E) (Q : A -> list event -> E -> Prop) :
  wp m e Q -> exists a t e', m e = (Ret a, t, e') /\ Q a t e'.
Proof. unfold wpx. destruct (m e) as [[[a| |] t] e'] eqn:Hm; try done. eauto. Qed.

Lemma wp_intro {E A} F (m : M E A) (e : E) (Q : A -> list event -> E -> Prop) a t e' :
  m e = (Ret a, t, e') -> Q a t e' -> wpx F m e Q.
Proof. unfold wpx. by intros ->. Qed.

Lemma wpx_run {E A} F (m : M E A) (e : E) (Q : A -> list event -> E -> Prop) a t e' :
  wpx F m e Q -> m e = (Ret a, t, e') -> Q a t e'.
Proof. unfold wpx. intros HQ Hm. by rewrite Hm in HQ. Qed.

Lemma wlp_true {E A} (m : M E A) (e : E) : wlp m e (fun _ _ _ => True).
Proof. unfold wpx. by destruct (m e) as [[[a| |] t] e']. Qed.

Lemma wp_wlp {E A} (m : M E A) (e : E) (Q R : A -> list event -> E -> Prop) :
  wlp m e Q -> wp m e R -> wp m e (fun a t e' => Q a t e' /\ R a t e').
Proof. unfold wpx. destruct (m e) as [[[a| |] t] e']; auto. Qed.

Lemma wp_listen {E A} F (m : M E A) (e : E) Q :
  wpx F m e (fun a t e' => Q (a, t) t e') -> wpx F (listen m) e Q.
Proof. unfold wpx, listen. by destruct (m e) as [[[a| |] t] e']. Qed.

(** Runs that fault. *)
Lemma outcome_bind_oops {E A B} (m : M E A) (f : A -> M E B) (e : E) :
  outcome_of m e = Oops -> outcome_of (m ≫= f) e = Oops.
Proof. unfold outcome_of, mbind, M_bind. by destruct (m e) as [[[a| |] t] e']. Qed.

Lemma outcome_bind {E A B} (m : M E A) (f : A -> M E B) (e : E) (o : outcome B) :
  wp m e (fun a _ e' => outcome_of (f a) e' = o) -> outcome_of (m ≫= f) e = o.
Proof.
  unfold wpx, outcome_of, mbind, M_bind. destruct (m e) as [[[a| |] t] e']; try done.
  by destruct (f a e') as [[o' t'] e''].
Qed.

Lemma wp_oops {E A} (F : Prop) (e : E) (Q : A -> list event -> E -> Prop) :
  F -> wpx F oops e Q.
Proof. done. Qed.

Lemma wp_hang {E A} (F : Prop) (e : E) (Q : A -> list event -> E -> Prop) :
  F -> wpx F hang e Q.
Proof. done. Qed.

(** [wpo X m e Q]: the run of [m] from [e] returns with [Q], or faults with events that satisfy [X];
    it does not run out of fuel. *)
Definition wpo {E A} (X : list event -> Prop) (m : M E A) (e : E) (Q : A -> list event -> E -> Prop) : Prop :=
  match m e with
  | (Ret a, t, e') => Q a t e'
  | (Oops, t, _) => X t
  | (Hang, _, _) => False
  end.

(** What is said of the end of a run only. *)
Definition at_end (X : list event -> Prop) : Prop := forall t t', X t' -> X (t ++ t').

Lemma wp_wpo {E A} X (m : M E A) (e : E) Q : wp m e Q -> wpo X m e Q.
Proof. unfold wpx, wpo. by destruct (m e) as [[[a| |] t] e']. Qed.

Lemma wpo_conseq {E A} X (m : M E A) (e : E) (Q Q' : A -> list event -> E -> Prop) :
  wpo X m e Q -> (forall a t e', Q a t e' -> Q' a t e') -> wpo X m e Q'.
Proof. unfold wpo. intros Hm HQ. destruct (m e) as [[[a| |] t] e']; auto. Qed.

Lemma wpo_and {E A} X (m : M E A) (e : E) (Q Q' : A -> list event -> E -> Prop) :
  wpo X m e Q -> wpo X m e Q' -> wpo X m e (fun a t e' => Q a t e' /\ Q' a t e').
Proof. unfold wpo. destruct (m e) as [[[a| |] t] e']; auto. Qed.

Lemma wpo_bind {E A B} X (m : M E A) (f : A -> M E B) (e : E) Q :
  wpo X m e (fun a t e' => wpo (fun t' => X (t ++ t')) (f a) e' (fun b t' e'' => Q b (t ++ t') e'')) ->
  wpo X (m ≫= f) e Q.
Proof.
  unfold wpo, mbind, M_bind. destruct (m e) as [[[a| |] t] e']; try done.
  by destruct (f a e') as [[[b| |] t'] e''].
Qed.

Lemma wpo_seq {E A B} X (m : M E A) (f : A -> M E B) (e : E) Q :
  at_end X -> wpo X m e (fun a t e' => wpo X (f a) e' (fun b t' e'' => Q b (t ++ t') e'')) ->
  wpo X (m ≫= f) e Q.
Proof.
  intros HX Hm. apply wpo_bind. eapply wpo_conseq; [exact Hm|]. intros a t e'. unfold wpo.
  destruct (f a e') as [[[b| |] t'] e'']; auto.
Qed.

Lemma wpo_run {E A} X (m : M E A) (e : E) (Q : A -> list event -> E -> Prop) a t e' :
  wpo X m e Q -> m e = (Ret a, t, e') -> Q a t e'.
Proof. unfold wpo. intros HQ Hm. by rewrite Hm in HQ. Qed.

Lemma wpo_wlp {E A} X (m : M E A) (e : E) (Q : A -> list event -> E -> Prop) : wpo X m e Q -> wlp m e Q.
Proof. unfold wpo, wpx. by destruct (m e) as [[[a| |] t] e']. Qed.

(** A run that returned. *)
Definition is_ret {A} (o : outcome A) : bool := match o with Ret _ => true | _ => false end.

Lemma wpo_elim {E A} X (m : M E A) (e : E) (Q : A -> list event -> E -> Prop) :
  wpo X m e Q -> is_ret (outcome_of m e) = true -> exists a t e', m e = (Ret a, t, e') /\ Q a t e'.
Proof. unfold wpo, outcome_of. destruct (m e) as [[[a| |] t] e']; simpl; try done. eauto. Qed.

(** A run that did not end in what [X] says returned. *)
Lemma wpo_returns {E A} (X : list event -> Prop) (m : M E A) (e : E) (Q : A -> list event -> E -> Prop) :
  wpo X m e Q -> ~ X (trace_of m e) -> wp m e Q.
Proof. unfold wpo, wpx, trace_of. destruct (m e) as [[[a| |] t] e']; simpl; tauto. Qed.

(** Branching on an error code or a pointer. *)
Lemma wp_istrue {E A} F x (m1 m2 : M E A) (e : E) Q :
  (x <> 0 -> wpx F m1 e Q) -> (x = 0 -> wpx F m2 e Q) -> wpx F (if istrue x then m1 else m2) e Q.
Proof. unfold istrue. destruct (Z.eqb_spec x 0); auto. Qed.

Lemma wp_null {E A} F x (m1 m2 : M E A) (e : E) Q :
  (x = 0 -> wpx F m1 e Q) -> (x <> 0 -> wpx F m2 e Q) -> wpx F (if x =? 0 then m1 else m2) e Q.
Proof. destruct (Z.eqb_spec x 0); auto. Qed.

Section CallRules.
Context {E : Type} `{Env E} (F : Prop).

Lemma wp_call (c : call) (e : E) (Q : resp -> list event -> E -> Prop) :
  Q (ext c e).1 [Ev c (ext c e).1] (ext c e).2 -> wpx F (do_call c) e Q.
Proof. unfold wpx, do_call. by destruct (ext c e) as [r e']. Qed.

Lemma wp_do_val (c : call) (e : E) (Q : Z -> list event -> E -> Prop) :
  Q (r_val (ext c e).1) [Ev c (ext c e).1] (ext c e).2 -> wpx F (do_val c) e Q.
Proof. intros HQ. by apply wp_bind, wp_call. Qed.

Lemma wp_do_unit (c : call) (e : E) (Q : unit -> list event -> E -> Prop) :
  Q tt [Ev c (ext c e).1] (ext c e).2 -> wpx F (do_unit c) e Q.
Proof. intros HQ. by apply wp_bind, wp_call. Qed.

Lemma wp_kern (k : kcall) (e : E) (Q : Z -> list event -> E -> Prop) :
  Q (r_val (ext (Kernel k) e).1) [Ev (Kernel k) (ext (Kernel k) e).1] (ext (Kernel k) e).2 ->
  wpx F (kern k) e Q.
Proof. apply wp_do_val. Qed.

Lemma wp_kern_ (k : kcall) (e : E) (Q : unit -> list event -> E -> Prop) :
  Q tt [Ev (Kernel k) (ext (Kernel k) e).1] (ext (Kernel k) e).2 -> wpx F (kern_ k) e Q.
Proof. apply wp_do_unit. Qed.

Lemma wp_wmb (e : E) (Q : unit -> list event -> E -> Prop) :
  Q tt [Ev Wmb (ext Wmb e).1] (ext Wmb e).2 -> wpx F wmb e Q.
Proof. apply wp_do_unit. Qed.

Lemma wp_ioread w a (e : E) (Q : Z -> list event -> E -> Prop) :
  Q (trunc w (r_val (ext (IoRead w a) e).1)) [Ev (IoRead w a) (ext (IoRead w a) e).1]
    (ext (IoRead w a) e).2 ->
  wpx F (ioread w a) e Q.
Proof. intros HQ. apply wp_bind, wp_do_val. by apply wp_ret. Qed.

Lemma wp_iowrite w v a (e : E) (Q : unit -> list event -> E -> Prop) :
  Q tt [Ev (IoWrite w a (trunc w v)) (ext (IoWrite w a (trunc w v)) e).1]
    (ext (IoWrite w a (trunc w v)) e).2 ->
  wpx F (iowrite w v a) e Q.
Proof. apply wp_do_unit. Qed.

Lemma wp_memread w a (e : E) (Q : Z -> list event -> E -> Prop) :
  Q (trunc w (r_val (ext (MemRead w a) e).1)) [Ev (MemRead w a) (ext (MemRead w a) e).1]
    (ext (MemRead w a) e).2 ->
  wpx F (memread w a) e Q.
Proof. intros HQ. apply wp_bind, wp_do_val. by apply wp_ret. Qed.

Lemma wp_memwrite w a v (e : E) (Q : unit -> list event -> E -> Prop) :
  Q tt [Ev (MemWrite w a (trunc w v)) (ext (MemWrite w a (trunc w v)) e).1]
    (ext (MemWrite w a (trunc w v)) e).2 ->
  wpx F (memwrite w a v) e Q.
Proof. apply wp_do_unit. Qed.

End CallRules.

(** Symbolic execution of one monadic step. *)
Ltac wp_step :=
  match goal with
  | |- wpx _ (mbind _ _) _ _ => apply wp_bind
  | |- wpx _ (mret _) _ _ => apply wp_ret
  | |- wpx _ (listen _) _ _ => apply wp_listen
  | |- wpx _ (kern _) _ _ => apply wp_kern
  | |- wpx _ (kern_ _) _ _ => apply wp_kern_
  | |- wpx _ wmb _ _ => apply wp_wmb
  | |- wpx _ (ioread _ _) _ _ => apply wp_ioread
  | |- wpx _ (iowrite _ _ _) _ _ => apply wp_iowrite
  | |- wpx _ (memread _ _) _ _ => apply wp_memread
  | |- wpx _ (memwrite _ _ _) _ _ => apply wp_memwrite
  | |- wpx _ (do_call _) _ _ => apply wp_call
  | |- wpx _ (do_val _) _ _ => apply wp_do_val
  | |- wpx _ (do_unit _) _ _ => apply wp_do_unit
  | |- wpx _ (if istrue 0 then _ else _) _ _ => change (istrue 0) with false; cbv iota
  | |- wpx _ oops _ _ => apply wp_oops; try exact I
  | |- wpx _ hang _ _ => apply wp_hang; try exact I
  end.
Ltac wp_run := repeat (wp_step; cbv beta).

(** Decide the comparisons with 0 that the context knows. *)
Ltac zknown :=
  repeat match goal with
  | Hx : ?x <> 0 |- context [?x =? 0] => rewrite (proj2 (Z.eqb_neq x 0) Hx)
  | Hx : ?x = 0 |- context [?x =? 0] => rewrite (proj2 (Z.eqb_eq x 0) Hx)
  end.

Arguments trunc : simpl never.

Lemma trunc_small w v : 0 <= v < 256 ^ Z.of_nat (wbytes w) -> trunc w v = v.
Proof. apply Z.mod_small. Qed.

Lemma trunc8 v : trunc W8 v = u8 v.
Proof. done. Qed.
Lemma trunc32 v : trunc W32 v = u32 v.
Proof. done. Qed.
Lemma trunc16 v : trunc W16 v = u16 v.
Proof. done. Qed.

(** Show the truncations of the accesses as the conversions of their types. *)
Ltac untrunc :=
  change (trunc W8) with u8 in *; change (trunc W16) with u16 in *;
  change (trunc W32) with u32 in *; change (trunc W64) with u64 in *.

Lemma trunc8_byte v : is_byte v -> trunc W8 v = v.
Proof. rewrite trunc8. apply u8_small. Qed.

(** ** The calls of a run

    [forall_calls R m]: every call that a run of [m] makes satisfies [R], whatever the
    environment answers and however the run ends. *)
Definition forall_calls {E A} (R : call -> Prop) (m : M E A) : Prop :=
  forall e, Forall R (calls (trace_of m e)).

Lemma calls_app t t' : calls (t ++ t') = calls t ++ calls t'.
Proof. apply fmap_app. Qed.

Lemma forall_calls_ret {E A} R (a : A) : forall_calls R (mret a : M E A).
Proof. intros e. constructor. Qed.

Lemma forall_calls_oops {E A} R : forall_calls R (oops : M E A).
Proof. intros e. constructor. Qed.

Lemma forall_calls_hang {E A} R : forall_calls R (hang : M E A).
Proof. intros e. constructor. Qed.

Lemma forall_calls_bind {E A B} R (m : M E A) (f : A -> M E B) :
  forall_calls R m -> (forall a, forall_calls R (f a)) -> forall_calls R (m ≫= f).
Proof.
  intros Hm Hf e. specialize (Hm e). unfold trace_of, mbind, M_bind in *.
  destruct (m e) as [[[a| |] t] e']; try done.
  specialize (Hf a e'). unfold trace_of in Hf. destruct (f a e') as [[o t'] e'']; simpl in *.
  rewrite calls_app. by apply Forall_app.
Qed.

Lemma forall_calls_call {E} `{Env E} (R : call -> Prop) c :
  R c -> forall_calls R (do_call c : M E resp).
Proof.
  intros HR e. unfold trace_of, do_call. destruct (ext c e). by repeat constructor.
Qed.

Lemma forall_calls_impl {E A} (R R' : call -> Prop) (m : M E A) :
  (forall c, R c -> R' c) -> forall_calls R m -> forall_calls R' m.
Proof. intros HR Hm e. eapply Forall_impl; [apply Hm | done]. Qed.

#[export] Hint Resolve @forall_calls_ret @forall_calls_oops @forall_calls_hang : ccat.

(** Decompose [forall_calls] along the code; the calls themselves are left as goals. *)
Ltac fc_step :=
  match goal with
  | |- forall_calls _ (mbind _ _) => apply forall_calls_bind; [| intros ?]
  | |- forall_calls _ (mret _) => apply forall_calls_ret
  | |- forall_calls _ oops => apply forall_calls_oops
  | |- forall_calls _ hang => apply forall_calls_hang
  | |- forall_calls _ (do_call _) => apply forall_calls_call
  | |- forall_calls _ (do_val _) => unfold do_val
  | |- forall_calls _ (do_unit _) => unfold do_unit
  | |- forall_calls _ (kern _) => unfold kern
  | |- forall_calls _ (kern_ _) => unfold kern_
  | |- forall_calls _ (ioread _ _) => unfold ioread
  | |- forall_calls _ (iowrite _ _ _) => unfold iowrite
  | |- forall_calls _ (memread _ _) => unfold memread
  | |- forall_calls _ (memwrite _ _ _) => unfold memwrite
  | |- forall_calls _ wmb => unfold wmb
  | |- forall_calls _ (match ?x with _ => _ end) => destruct x eqn:?
  end.
Ltac fc_run := repeat (fc_step; cbv beta).

Lemma wp_forall_calls {E A} F R (m : M E A) (e : E) (Q : A -> list event -> E -> Prop) :
  forall_calls R m -> wpx F m e Q -> wpx F m e (fun a t e' => Q a t e' /\ Forall R (calls t)).
Proof.
  intros HR. specialize (HR e). unfold wpx, trace_of in *. by destruct (m e) as [[[a| |] t] e'].
Qed.

(** ** Runs that do not fault

    [oops_free m]: no run of [m] faults, whatever the environment answers; it may still wait for
    the hardware longer than its fuel lasts. *)
Definition oops_free {E A} (m : M E A) : Prop := forall e, outcome_of m e <> Oops.

Lemma oops_free_ret {E A} (a : A) : oops_free (mret a : M E A).
Proof. done. Qed.

Lemma oops_free_hang {E A} : oops_free (hang : M E A).
Proof. done. Qed.

Lemma oops_free_call {E} `{Env E} c : oops_free (do_call c : M E resp).
Proof. intros e. unfold outcome_of, do_call. by destruct (ext c e). Qed.

Lemma oops_free_bind {E A B} (m : M E A) (f : A -> M E B) :
  oops_free m -> (forall a, oops_free (f a)) -> oops_free (m ≫= f).
Proof.
  intros Hm Hf e. specialize (Hm e). unfold outcome_of, mbind, M_bind in *.
  destruct (m e) as [[[a| |] t] e']; try done.
  specialize (Hf a e'). unfold outcome_of in Hf. by destruct (f a e') as [[o t'] e''].
Qed.

Lemma wp_oops_free {E A} (m : M E A) (Q : E -> A -> list event -> E -> Prop) :
  (forall e, wp m e (Q e)) -> oops_free m.
Proof.
  intros Hw e. specialize (Hw e). unfold wpx, outcome_of in *. by destruct (m e) as [[[a| |] t] e'].
Qed.

Ltac of_step :=
  match goal with
  | |- oops_free (mbind _ _) => apply oops_free_bind; [| intros ?]
  | |- oops_free (mret _) => apply oops_free_ret
  | |- oops_free hang => apply oops_free_hang
  | |- oops_free (do_call _) => apply oops_free_call
  | |- oops_free (do_val _) => unfold do_val
  | |- oops_free (do_unit _) => unfold do_unit
  | |- oops_free (kern _) => unfold kern
  | |- oops_free (kern_ _) => unfold kern_
  | |- oops_free (ioread _ _) => unfold ioread
  | |- oops_free (iowrite _ _ _) => unfold iowrite
  | |- oops_free wmb => unfold wmb
  | |- oops_free (match ?x with _ => _ end) => destruct x eqn:?
  end.
Ltac of_run := repeat (of_step; cbv beta).

(** ** How the environment evolves

    [evolves R m]: whatever the outcome of a run of [m], the environment before and after it are
    related by the preorder [R]. *)
Definition evolves {E A} (R : E -> E -> Prop) (m : M E A) : Prop := forall e, R e (env_of m e).

Section Evolves.
Context {E : Type} (R : E -> E -> Prop) `{!PreOrder R}.

Lemma evolves_ret {A} (a : A) : evolves R (mret a : M E A).
Proof. intros e. reflexivity. Qed.

Lemma evolves_oops {A} : evolves R (oops : M E A).
Proof. intros e. reflexivity. Qed.

Lemma evolves_hang {A} : evolves R (hang : M E A).
Proof. intros e. reflexivity. Qed.

Lemma evolves_bind {A B} (m : M E A) (f : A -> M E B) :
  evolves R m -> (forall a, evolves R (f a)) -> evolves R (m ≫= f).
Proof.
  intros Hm Hf e. specialize (Hm e). unfold env_of, mbind, M_bind in *.
  destruct (m e) as [[[a| |] t] e']; try done. simpl in Hm. specialize (Hf a e'). unfold env_of in Hf.
  destruct (f a e') as [[o t'] e'']. simpl in *. by etrans.
Qed.

Lemma evolves_call `{Env E} c : (forall e, R e (ext c e).2) -> evolves R (do_call c : M E resp).
Proof. intros Hc e. specialize (Hc e). unfold env_of, do_call. by destruct (ext c e). Qed.

Lemma evolves_run {A} (m : M E A) e o t e' : evolves R m -> m e = (o, t, e') -> R e e'.
Proof. intros Hm Hrun. specialize (Hm e). unfold env_of in Hm. by rewrite Hrun in Hm. Qed.

Lemma wp_evolves {A} F (m : M E A) (e : E) (Q : A -> list event -> E -> Prop) :
  evolves R m -> wpx F m e Q -> wpx F m e (fun a t e' => Q a t e' /\ R e e').
Proof.
  intros HR. specialize (HR e). unfold wpx, env_of in *. by destruct (m e) as [[[a| |] t] e'].
Qed.
Lemma wpo_evolves {A} X (m : M E A) (e : E) (Q : A -> list event -> E -> Prop) :
  evolves R m -> wpo X m e Q -> wpo X m e (fun a t e' => Q a t e' /\ R e e').
Proof.
  intros HR. specialize (HR e). unfold wpo, env_of in *. by destruct (m e) as [[[a| |] t] e'].
Qed.

End Evolves.

(** Decompose [evolves] along the code; the calls are left as goals. *)
Ltac ev_step :=
  match goal with
  | |- evolves _ (mbind _ _) => apply evolves_bind; [exact _ | | intros ?]
  | |- evolves _ (mret _) => apply evolves_ret; exact _
  | |- evolves _ oops => apply evolves_oops; exact _
  | |- evolves _ hang => apply evolves_hang; exact _
  | |- evolves _ (do_call _) => apply evolves_call; intros ?
  | |- evolves _ (do_val _) => unfold do_val
  | |- evolves _ (do_unit _) => unfold do_unit
  | |- evolves _ (kern _) => unfold kern
  | |- evolves _ (kern_ _) => unfold kern_
  | |- evolves _ (ioread _ _) => unfold ioread
  | |- evolves _ (iowrite _ _ _) => unfold iowrite
  | |- evolves _ (memread _ _) => unfold memread
  | |- evolves _ (memwrite _ _ _) => unfold memwrite
  | |- evolves _ wmb => unfold wmb
  | |- evolves _ (match ?x with _ => _ end) => destruct x eqn:?
  end.
Ltac ev_run := repeat (ev_step; cbv beta).

(** The block copies always return, with a list of bytes of the right length. *)
Lemma ioread_bytes_any {E} `{Env E} n a (e : E) :
  wp (ioread_bytes a n) e (fun l _ _ => length l = n /\ Forall is_byte l).
Proof.
  revert a e. induction n as [|n IH]; intros a e; simpl; wp_run; [done|].
  eapply wp_mono; [apply IH | done |]. intros l t e' [Hl Hb]. wp_run. simpl. split; [lia|].
  constructor; [apply u8_byte | done].
Qed.

Lemma iowrite_bytes_any {E} `{Env E} a l (e : E) : wp (iowrite_bytes a l) e (fun _ _ _ => True).
Proof.
  revert a e. induction l as [|x l IH]; intros a e; simpl; wp_run; [done|].
  eapply wp_mono; [apply IH | done | done].
Qed.

(** ** Devices that behave like memory

    The interface a byte-addressable window of the FPGA offers to the drivers that copy to and
    from it with [memcpy_toio] and [memcpy_fromio]: [im e] are its bytes by offset from [io]. *)
Definition user_copy (k : kcall) : Prop :=
  match k with CopyFromUser _ | CopyToUser _ | PutUser _ _ => True | _ => False end.

Class IoMem (E : Type) `{Env E} (io size : Z) := {
  im : E -> Z -> Z;
  im_byte : forall e a, is_byte (im e a);
  im_read : forall e a, 0 <= a < size ->
    r_val (ext (IoRead W8 (io + a)) e).1 = im e a /\
    forall b, im (ext (IoRead W8 (io + a)) e).2 b = im e b;
  im_write : forall e a v, 0 <= a < size -> is_byte v ->
    forall b, im (ext (IoWrite W8 (io + a) v) e).2 b = upd (im e) a v b;
  im_user : forall e k, user_copy k -> forall b, im (ext (Kernel k) e).2 b = im e b;
}.
Arguments im {E _} io size {_} e a.

Section IoMemFacts.
Context {E : Type} `{Env E} {io size : Z} `{!IoMem E io size}.

Lemma ioread_bytes_mem n a (e : E) :
  0 <= a -> a + Z.of_nat n <= size ->
  wp (ioread_bytes (io + a) n) e (fun l t e' =>
    l = fslice (im io size e) a n /\ forall b, im io size e' b = im io size e b).
Proof.
  revert a e. induction n as [|n IH]; intros a e Ha Hn; simpl; wp_run; [done|].
  destruct (im_read e a) as [Hv Hs]; [lia|]. rewrite Hv, trunc8_byte by apply im_byte.
  rewrite <- Z.add_assoc. eapply wp_mono; [apply IH; lia | done |].
  intros l t e' [-> He']. wp_run. split.
  - f_equal. by apply fslice_ext.
  - intros b. by rewrite He'.
Qed.

Lemma iowrite_bytes_mem l a (e : E) :
  0 <= a -> a + zlen l <= size -> Forall is_byte l ->
  wp (iowrite_bytes (io + a) l) e (fun _ t e' =>
    forall b, im io size e' b = fwrite (im io size e) a l b).
Proof.
  unfold zlen. revert a e. induction l as [|x l IH]; intros a e Ha Hn Hl; simpl; wp_run.
  { intros b. by rewrite fwrite_nil. }
  apply Forall_cons in Hl as [Hx Hl]. simpl in Hn. rewrite trunc8_byte by done.
  rewrite <- Z.add_assoc. eapply wp_mono; [apply IH; [lia.. | done] | done |].
  intros ? t e' He' b. rewrite He', fwrite_cons. apply fwrite_ext. apply im_write; [lia | done].
Qed.

End IoMemFacts.

(** What a run copied out to user space. *)
Definition user_out (t : list event) : list (list Z) :=
  omap (fun ev => match ev_call ev with Kernel (CopyToUser l) => Some l | _ => None end) t.

(** The single bytes a run asked [put_user] to store to user space; the driver does not look at the
    answers. *)
Definition user_puts (t : list event) : list (Z * Z) :=
  omap (fun ev => match ev_call ev with Kernel (PutUser a v) => Some (a, v) | _ => None end) t.

Lemma user_puts_app t t' : user_puts (t ++ t') = user_puts t ++ user_puts t'.
Proof. apply omap_app. Qed.

Lemma user_out_app t t' : user_out (t ++ t') = user_out t ++ user_out t'.
Proof. apply omap_app. Qed.

Lemma user_out_none t :
  Forall (fun c => forall l, c <> Kernel (CopyToUser l)) (calls t) -> user_out t = [].
Proof.
  unfold calls. induction t as [|[c r] t IH]; [done|]. intros Hf.
  apply Forall_cons in Hf as [Hc Ht]. simpl in *. rewrite IH by done.
  destruct c as [| | | | |[]]; try done. by destruct (Hc data).
Qed.

Definition not_user_out (c : call) : Prop := forall l, c <> Kernel (CopyToUser l).

Lemma ioread_bytes_not_out {E} `{Env E} a n :
  forall_calls not_user_out (ioread_bytes a n : M E (list Z)).
Proof. revert a. induction n as [|n IH]; intros a; simpl; fc_run; done || apply IH. Qed.

Lemma iowrite_bytes_not_out {E} `{Env E} a l :
  forall_calls not_user_out (iowrite_bytes a l : M E unit).
Proof. revert a. induction l as [|x l IH]; intros a; simpl; fc_run; done || apply IH. Qed.

(** The addresses of the register accesses of a run. *)
Definition in_window (lo hi : Z) (c : call) : Prop :=
  match c with
  | IoRead w a | IoWrite w a _ => lo <= a /\ a + Z.of_nat (wbytes w) <= hi
  | _ => True
  end.

Lemma ioread_bytes_window {E} `{Env E} lo hi a n :
  lo <= a -> a + Z.of_nat n <= hi ->
  forall_calls (in_window lo hi) (ioread_bytes a n : M E (list Z)).
Proof.
  revert a. induction n as [|n IH]; intros a Ha Hn; simpl; fc_run; [simpl; lia|].
  apply IH; lia.
Qed.

Lemma iowrite_bytes_window {E} `{Env E} lo hi a l :
  lo <= a -> a + zlen l <= hi ->
  forall_calls (in_window lo hi) (iowrite_bytes a l : M E unit).
Proof.
  unfold zlen. revert a. induction l as [|x l IH]; intros a Ha Hn; simpl in *; fc_run; [simpl; lia|].
  apply IH; lia.
Qed.

#[export] Hint Resolve @ioread_bytes_window @iowrite_bytes_window : ccat.

(** ** Resources

    An account of what a run holds: [hold ev h] is what is held after the event [ev], [None] when
    it gives back something that is not held. *)
Section Resources.
Context {R : Type} `{EqDecision R} (hold : event -> list R -> option (list R)).

Fixpoint give_back (x : R) (h : list R) : option (list R) :=
  match h with
  | [] => None
  | y :: h' => if decide (x = y) then Some h' else (y ::.) <$> give_back x h'
  end.

Fixpoint held_from (h : list R) (t : list event) : option (list R) :=
  match t with
  | [] => Some h
  | ev :: t' => h' ← hold ev h; held_from h' t'
  end.

Lemma held_from_app h t t' : held_from h (t ++ t') = held_from h t ≫= fun h' => held_from h' t'.
Proof.
  revert h. induction t as [|ev t IH]; intros h; simpl; [done|].
  destruct (hold ev h) as [h'|]; simpl; [apply IH | done].
Qed.

Lemma held_cons h h' ev t : hold ev h = Some h' -> held_from h (ev :: t) = held_from h' t.
Proof. simpl. by intros ->. Qed.

Lemma give_back_head x h : give_back x (x :: h) = Some h.
Proof. simpl. by rewrite decide_True. Qed.

(** Giving back the second of two: which of two equal ones is taken does not matter. *)
Lemma give_back_second x y h : give_back x (y :: x :: h) = Some (y :: h).
Proof.
  simpl. destruct (decide (x = y)) as [->|]; [done|]. by rewrite decide_True.
Qed.

(** Calls that have nothing to do with the resources. *)
Lemma held_neutral (neutral : call -> Prop) h t :
  (forall ev, neutral (ev_call ev) -> hold ev h = Some h) ->
  Forall neutral (calls t) -> held_from h t = Some h.
Proof.
  intros Hn. unfold calls. induction t as [|ev t IH]; [done|]. intros [Hc Ht]%Forall_cons. simpl.
  rewrite Hn by done. by apply IH.
Qed.

(** What is given back is taken out of the account, wherever in it it is. *)
Lemma give_back_Permutation x h h' : give_back x h = Some h' -> h ≡ₚ x :: h'.
Proof.
  revert h'. induction h as [|y h IH]; intros h'; simpl; [done|]. destruct (decide (x = y)) as [->|].
  - by intros [= ->].
  - destruct (give_back x h) as [k|]; [|done]. intros [= <-]. rewrite (IH k eq_refl). apply Permutation_swap.
Qed.

Lemma give_back_elem x h : x ∈ h -> is_Some (give_back x h).
Proof.
  induction 1 as [x h|x y h _ [k Hk]]; simpl; [rewrite decide_True by done; by eexists|].
  rewrite Hk. destruct (decide (x = y)); by eexists.
Qed.

Lemma give_back_frame x h h' k : give_back x h = Some h' -> give_back x (h ++ k) = Some (h' ++ k).
Proof.
  revert h'. induction h as [|y h IH]; intros h'; simpl; [done|]. destruct (decide (x = y)) as [->|].
  - by intros [= ->].
  - destruct (give_back x h) as [l|]; [|done]. intros [= <-]. by rewrite (IH l eq_refl).
Qed.

(** An account in which neither what else is held nor the order matters. *)
Class Ledger : Prop := {
  ledger_frame : forall ev h h' k, hold ev h = Some h' -> hold ev (h ++ k) = Some (h' ++ k);
  ledger_perm : forall ev h1 h1' h2, hold ev h1 = Some h1' -> h1 ≡ₚ h2 ->
    exists h2', hold ev h2 = Some h2' /\ h1' ≡ₚ h2';
}.

Lemma held_frame `{!Ledger} t h h' k : held_from h t = Some h' -> held_from (h ++ k) t = Some (h' ++ k).
Proof.
  revert h. induction t as [|ev t IH]; intros h; simpl; [by intros [= ->]|].
  destruct (hold ev h) as [h1|] eqn:Hev; [|done]. simpl. intros Ht.
  rewrite (ledger_frame _ _ _ k Hev). by apply IH.
Qed.

Lemma held_perm `{!Ledger} t h1 h1' h2 :
  held_from h1 t = Some h1' -> h1 ≡ₚ h2 -> exists h2', held_from h2 t = Some h2' /\ h1' ≡ₚ h2'.
Proof.
  revert h1 h2. induction t as [|ev t IH]; intros h1 h2; simpl; [intros [= ->]; by exists h2|].
  destruct (hold ev h1) as [k1|] eqn:Hev; [|done]. simpl. intros Ht Hp.
  destruct (ledger_perm _ _ _ _ Hev Hp) as (k2 & -> & Hk). simpl. eauto.
Qed.

Lemma give_back_perm x h1 h1' h2 :
  give_back x h1 = Some h1' -> h1 ≡ₚ h2 -> exists h2', give_back x h2 = Some h2' /\ h1' ≡ₚ h2'.
Proof.
  intros Hb Hp. pose proof (give_back_Permutation _ _ _ Hb) as H1.
  destruct (give_back_elem x h2) as [h2' Hb2]; [rewrite <- Hp, H1; constructor|].
  exists h2'. split; [done|]. apply (Permutation_cons_inv (a := x)).
  by rewrite <- H1, Hp, (give_back_Permutation _ _ _ Hb2).
Qed.

End Resources.
