(* ===== verification/Interleave.v ===== *)
(** * Interleaving of driver functions, call by call

    A computation of [M E] is a function of the environment and so runs without interruption.  To
    let several of them run at once, a driver function is described by the tree of its calls
    ([prog]): [interp] gives the tree its meaning in the monad, and [conc_step] interleaves
    several trees, one call at a time, under the kernel's rule for a mutex. *)

From S2P Require Import Prelude IO.

(** ** Trees of calls *)

Inductive prog (A : Type) :=
  | PRet (a : A)
  | POops
  | PCall (c : call) (k : resp -> prog A).
Arguments PRet {A} a.
Arguments POops {A}.
Arguments PCall {A} c k.

Fixpoint pbind {A B} (p : prog A) (f : A -> prog B) : prog B :=
  match p with
  | PRet a => f a
  | POops => POops
  | PCall c k => PCall c (fun r => pbind (k r) f)
  end.

Section Interp.
Context {E : Type} `{Env E}.

Fixpoint interp {A} (p : prog A) : M E A :=
  match p with
  | PRet a => mret a
  | POops => oops
  | PCall c k => r ← do_call c; interp (k r)
  end.

(** One call at the head of a computation. *)
Lemma bind_call {A} c (f : resp -> M E A) (e : E) :
  (do_call c ≫= f) e =
    (let '(o, t, e') := f (ext c e).1 (ext c e).2 in (o, Ev c (ext c e).1 :: t, e')).
Proof.
  unfold mbind, M_bind, do_call. destruct (ext c e) as [r e']. simpl.
  by destruct (f r e') as [[[]]].
Qed.

(** The monad laws, pointwise. *)
Lemma bind_ret_l {A B} (a : A) (f : A -> M E B) (e : E) : (mret a ≫= f) e = f a e.
Proof. unfold mbind, M_bind, mret, M_ret. by destruct (f a e) as [[]]. Qed.

Lemma bind_ret_r {A} (m : M E A) (e : E) : (m ≫= mret) e = m e.
Proof. unfold mbind, M_bind. destruct (m e) as [[[a| |] t] e1]; [|done..]. simpl. by rewrite app_nil_r. Qed.

Lemma bind_assoc {A B C} (m : M E A) (f : A -> M E B) (g : B -> M E C) (e : E) :
  ((m ≫= f) ≫= g) e = (m ≫= fun a => f a ≫= g) e.
Proof.
  unfold mbind, M_bind. destruct (m e) as [[[a| |] t] e1]; try done.
  destruct (f a e1) as [[[b| |] t1] e2]; try done.
  destruct (g b e2) as [[o t2] e3]. by rewrite app_assoc.
Qed.

Lemma bind_ext {A B} (m m' : M E A) (f f' : A -> M E B) (e : E) :
  m e = m' e -> (forall a e', f a e' = f' a e') -> (m ≫= f) e = (m' ≫= f') e.
Proof.
  intros Hm Hf. unfold mbind, M_bind. rewrite Hm. destruct (m' e) as [[[a| |] t] e1]; try done.
  by rewrite Hf.
Qed.

Lemma interp_bind {A B} (p : prog A) (f : A -> prog B) (e : E) :
  interp (pbind p f) e = (interp p ≫= fun a => interp (f a)) e.
Proof.
  revert e. induction p as [a| |c k IH]; intros e; simpl.
  - by rewrite bind_ret_l.
  - done.
  - rewrite bind_assoc. by apply bind_ext.
Qed.

End Interp.

(** ** Threads that share a mutex *)

(** The environment, the thread that holds the mutex, the threads. *)
Record conc (E A : Type) := Conc {
  c_env : E;
  c_holder : option nat;
  c_threads : list (prog A);
}.
Arguments Conc {E A} c_env c_holder c_threads.
Arguments c_env {E A} c.
Arguments c_holder {E A} c.
Arguments c_threads {E A} c.

Definition mutex_call (lock : Z) (c : call) : bool :=
  bool_decide (c = Kernel (MutexLock lock)) || bool_decide (c = Kernel (MutexUnlock lock)).

(** One call of thread [i].  [mutex_lock] returns to a thread only while nobody holds the mutex;
    [mutex_unlock] is for its holder. *)
Inductive conc_step {E A} `{Env E} (lock : Z) : conc E A -> conc E A -> Prop :=
  | step_lock i k e ths :
      ths !! i = Some (PCall (Kernel (MutexLock lock)) k) ->
      conc_step lock (Conc e None ths)
        (Conc (ext (Kernel (MutexLock lock)) e).2 (Some i)
              (<[i := k (ext (Kernel (MutexLock lock)) e).1]> ths))
  | step_unlock i k e ths :
      ths !! i = Some (PCall (Kernel (MutexUnlock lock)) k) ->
      conc_step lock (Conc e (Some i) ths)
        (Conc (ext (Kernel (MutexUnlock lock)) e).2 None
              (<[i := k (ext (Kernel (MutexUnlock lock)) e).1]> ths))
  | step_other i c k e h ths :
      ths !! i = Some (PCall c k) -> mutex_call lock c = false ->
      conc_step lock (Conc e h ths) (Conc (ext c e).2 h (<[i := k (ext c e).1]> ths)).

(** A thread that has returned. *)
Definition finished {A} (p : prog A) : Prop := match p with PRet _ => True | _ => False end.
