(* ===== verification/Info.v ===== *)
(** * Data shared by all CCAT drivers (module.h)

    The device, the information block that describes one function of the FPGA, its decoding from
    the sixteen bytes [memcpy_fromio] reads out of BAR 0, and the function handed to the function
    drivers. *)

From S2P Require Import Prelude.

(** [enum ccat_info_t] *)
Inductive ccat_info_t :=
  | CCATINFO_NOTUSED
  | CCATINFO_ETHERCAT_NODMA
  | CCATINFO_GPIO
  | CCATINFO_EPCS_PROM
  | CCATINFO_SYSTEMTIME
  | CCATINFO_ETHERCAT_MASTER_DMA
  | CCATINFO_SRAM.

Definition info_code (t : ccat_info_t) : Z :=
  match t with
  | CCATINFO_NOTUSED => 0
  | CCATINFO_ETHERCAT_NODMA => 0x3
  | CCATINFO_GPIO => 0xd
  | CCATINFO_EPCS_PROM => 0xf
  | CCATINFO_SYSTEMTIME => 0x10
  | CCATINFO_ETHERCAT_MASTER_DMA => 0x14
  | CCATINFO_SRAM => 0x16
  end.

#[export] Instance ccat_info_t_eq_dec : EqDecision ccat_info_t.
Proof. solve_decision. Defined.

(** [struct ccat_device]; pointers are addresses, 0 is NULL. *)
Record ccat_device := Device {
  d_pdev : Z;
  d_dev : Z;
  bar_0 : Z;
  bar_2 : Z;
}.

(** [struct ccat_info_block]: the union is its 32 bits, read through the views below. *)
Record ccat_info_block := Info {
  i_type : Z;
  i_rev : Z;
  i_config : Z;
  i_addr : Z;
  i_size : Z;
}.

Definition num_gpios (i : ccat_info_block) : Z := u8 (i_config i).
Definition tx_size (i : ccat_info_block) : Z := u16 (i_config i).
Definition rx_size (i : ccat_info_block) : Z := u16 (Z.shiftr (i_config i) 16).
Definition tx_dma_chan (i : ccat_info_block) : Z := u8 (i_config i).
Definition rx_dma_chan (i : ccat_info_block) : Z := u8 (Z.shiftr (i_config i) 8).
Definition sram_width (i : ccat_info_block) : Z := u8 (i_config i).
Definition sram_size (i : ccat_info_block) : Z := u8 (Z.shiftr (i_config i) 8).

(** [sizeof(struct ccat_info_block)] *)
Definition sizeof_info_block : Z := 16.

(** The struct as the bytes of BAR 0 give it, and back. *)
Definition info_of_bytes (l : list Z) : ccat_info_block :=
  Info (le_val (slice 0 2 l)) (le_val (slice 2 2 l)) (le_val (slice 4 4 l))
       (le_val (slice 8 4 l)) (le_val (slice 12 4 l)).

Definition bytes_of_info (i : ccat_info_block) : list Z :=
  le_bytes 2 (i_type i) ++ le_bytes 2 (i_rev i) ++ le_bytes 4 (i_config i) ++
  le_bytes 4 (i_addr i) ++ le_bytes 4 (i_size i).

(** [struct ccat_function]; [private_data] is kept by the drivers that set it. *)
Record ccat_function := Function_ {
  f_ccat : ccat_device;
  f_info : ccat_info_block;
}.

(** [func->ccat->bar_0 + func->info.addr], the registers of a function. *)
Definition func_base (f : ccat_function) : Z := bar_0 (f_ccat f) + i_addr (f_info f).

(** An information block whose fields fit their types. *)
Definition info_wf (i : ccat_info_block) : Prop :=
  0 <= i_type i < 2 ^ 16 /\ 0 <= i_rev i < 2 ^ 16 /\ 0 <= i_config i < 2 ^ 32 /\
  0 <= i_addr i < 2 ^ 32 /\ 0 <= i_size i < 2 ^ 32.

Lemma le_val_bytes_small n z : 0 <= z < 256 ^ Z.of_nat n -> le_val (le_bytes n z) = z.
Proof. intros. rewrite le_val_bytes. by apply Z.mod_small. Qed.

(** The layout of the struct: decoding what was encoded gives every field back. *)
Lemma info_bytes_roundtrip i : info_wf i -> info_of_bytes (bytes_of_info i) = i.
Proof.
  intros (Ht & Hr & Hc & Ha & Hs). destruct i as [ty rv cf ad sz]. simpl in *.
  unfold info_of_bytes. f_equal.
  - transitivity (le_val (le_bytes 2 ty)); [reflexivity | by apply le_val_bytes_small].
  - transitivity (le_val (le_bytes 2 rv)); [reflexivity | by apply le_val_bytes_small].
  - transitivity (le_val (le_bytes 4 cf)); [reflexivity | by apply le_val_bytes_small].
  - transitivity (le_val (le_bytes 4 ad)); [reflexivity | by apply le_val_bytes_small].
  - transitivity (le_val (le_bytes 4 sz)); [reflexivity | by apply le_val_bytes_small].
Qed.

Lemma le_bytes_slice o n l :
  Forall is_byte l -> 0 <= o -> 0 <= n -> o + n <= zlen l ->
  le_bytes (Z.to_nat n) (le_val (slice o n l)) = slice o n l.
Proof.
  intros Hl Ho Hn Hol. rewrite <- (length_slice o n l) at 1 by done.
  apply le_bytes_val. unfold slice. auto using Forall_take, Forall_drop.
Qed.

(** Encoding what was decoded from the 16 bytes of a block gives the bytes back. *)
Lemma bytes_info_roundtrip l :
  length l = 16%nat -> Forall is_byte l -> bytes_of_info (info_of_bytes l) = l.
Proof.
  intros Hlen Hl. unfold bytes_of_info, info_of_bytes. simpl i_type. simpl i_rev. simpl i_config.
  simpl i_addr. simpl i_size.
  rewrite (le_bytes_slice 0 2), (le_bytes_slice 2 2), (le_bytes_slice 4 4), (le_bytes_slice 8 4),
    (le_bytes_slice 12 4) by (done || unfold zlen; lia).
  do 17 (destruct l as [|? l]; try done).
Qed.

Lemma le_val_slice o n l :
  Forall is_byte l -> 0 <= o -> 0 <= n -> o + n <= zlen l -> 0 <= le_val (slice o n l) < 256 ^ n.
Proof.
  intros Hl Ho Hn Hol. replace n with (zlen (slice o n l)) at 3.
  - apply le_val_bound. unfold slice. auto using Forall_take, Forall_drop.
  - unfold zlen. rewrite length_slice by done. lia.
Qed.

Lemma le_val4 a b c d : le_val [a; b; c; d] = a + 256 * b + 65536 * c + 16777216 * d.
Proof. simpl. lia. Qed.

(** C23: the layout of an information block.  Whatever 16 bytes the hardware shows, decoding them
    gives a block whose fields fit their types, nothing of the bytes is lost, and the members of
    the union are the bytes at their offsets in the struct; in turn every block whose fields fit
    is what its bytes decode to. *)
Theorem ccat_info_block_layout l :
  length l = 16%nat -> Forall is_byte l ->
  let i := info_of_bytes l in
  info_wf i /\ bytes_of_info i = l /\
  l !! 4%nat = Some (num_gpios i) /\ l !! 4%nat = Some (sram_width i) /\ l !! 4%nat = Some (tx_dma_chan i) /\
  l !! 5%nat = Some (sram_size i) /\ l !! 5%nat = Some (rx_dma_chan i) /\
  tx_size i = le_val (slice 4 2 l) /\ rx_size i = le_val (slice 6 2 l) /\
  forall i', info_wf i' -> info_of_bytes (bytes_of_info i') = i'.
Proof.
  intros Hlen Hl. cbv zeta. split; [|split; [by apply bytes_info_roundtrip|]].
  - assert (zlen l = 16) by (unfold zlen; lia).
    split_and!; apply le_val_slice; done || lia.
  - do 16 (destruct l as [|? l]; [done|]). destruct l; [|done].
    rewrite !Forall_cons in Hl. destruct_and!. unfold is_byte in *.
    unfold num_gpios, sram_width, tx_dma_chan, sram_size, rx_dma_chan, tx_size, rx_size.
    change (i_config _) with (le_val [z3; z4; z5; z6]). rewrite le_val4.
    split_and!; [..|exact info_bytes_roundtrip]; simpl; rewrite ?Z.shiftr_div_pow2 by lia; try f_equal; mach.
Qed.

Lemma ccat_info_block_layout_witness :
  let l := [0x16; 0; 0; 0; 0x01; 0x0b; 0; 0; 0; 1; 0; 0; 0; 8; 0; 0] in
  Some 11 = Some (sram_size (info_of_bytes l)) /\ bytes_of_info (info_of_bytes l) = l.
Proof.
  cbv zeta.
  pose proof (ccat_info_block_layout [0x16; 0; 0; 0; 0x01; 0x0b; 0; 0; 0; 1; 0; 0; 0; 8; 0; 0] eq_refl
    ltac:(repeat constructor; unfold is_byte; lia)) as (_ & Hb & _ & _ & _ & Hs & _).
  split; [exact Hs | exact Hb].
Defined.
