(* ===== verification/Cdev.v ===== *)
(** * Character devices shared by the SRAM and update drivers (module.c, module.h)

    The class with its table of devices ([struct ccat_class], [struct ccat_cdev]), the buffer of
    an open file ([struct cdev_buffer]), and [ccat_cdev_probe], [ccat_cdev_remove],
    [ccat_cdev_open], [ccat_cdev_release] and [ccat_cdev_llseek]. *)

From S2P Require Import Prelude IO Info.

(** ** Data *)

(** [struct ccat_cdev].  The [class] pointer of a slot is NULL or the address of the one static
    class of its driver, so a boolean holds it; the embedded [struct cdev] is named by the index
    of the slot. *)
Record ccat_cdev := Cdev {
  in_use : Z;
  ioaddr : Z;
  iosize : Z;
  dev : Z;
  class_set : bool;
}.

(** [struct ccat_class]; [cl_class] is the [struct class *] (0 for NULL).  The driver never resets it,
    so it may point to a class that was destroyed: [cl_live] says whether it points to one that
    exists. *)
Record ccat_class := Class_ {
  cl_dev : Z;
  cl_class : Z;
  instances : Z;
  count : Z;
  devices : list ccat_cdev;
  cl_name : string;
  cl_live : bool;
}.

(** [struct cdev_buffer]; [b_slot] is the index of [ccdev] in the table of its class, [b_ptr] the
    address of the allocation. *)
Record cdev_buffer := Buffer {
  b_slot : nat;
  b_ptr : Z;
  b_size : Z;
  b_data : list Z;
}.

#[export] Instance ccat_cdev_eq_dec : EqDecision ccat_cdev.
Proof. solve_decision. Defined.

Definition set_dev (d : Z) (c : ccat_cdev) : ccat_cdev :=
  Cdev (in_use c) (ioaddr c) (iosize c) d (class_set c).
Definition set_in_use (n : Z) (c : ccat_cdev) : ccat_cdev :=
  Cdev n (ioaddr c) (iosize c) (dev c) (class_set c).
Definition set_class_set (b : bool) (c : ccat_cdev) : ccat_cdev :=
  Cdev (in_use c) (ioaddr c) (iosize c) (dev c) b.

Definition set_instances (n : Z) (c : ccat_class) : ccat_class :=
  Class_ (cl_dev c) (cl_class c) n (count c) (devices c) (cl_name c) (cl_live c).
Definition set_region (d cls : Z) (c : ccat_class) : ccat_class :=
  Class_ d cls (instances c) (count c) (devices c) (cl_name c) (negb (cls =? 0)).
Definition set_devices (l : list ccat_cdev) (c : ccat_class) : ccat_class :=
  Class_ (cl_dev c) (cl_class c) (instances c) (count c) l (cl_name c) (cl_live c).
Definition set_live (b : bool) (c : ccat_class) : ccat_class :=
  Class_ (cl_dev c) (cl_class c) (instances c) (count c) (devices c) (cl_name c) b.

(** The class as far as it can be dereferenced: NULL and a destroyed one cannot. *)
Definition class_ptr (c : ccat_class) : Z := if cl_live c then cl_class c else 0.

Definition set_data (l : list Z) (b : cdev_buffer) : cdev_buffer :=
  Buffer (b_slot b) (b_ptr b) (b_size b) l.

(** The result of a file operation: the returned value, the file offset, the buffer. *)
Abbreviation file_result := (Z * Z * cdev_buffer)%type.

(** [MKDEV], [MAJOR]: 20 minor bits. *)
Definition MKDEV (ma mi : Z) : Z := Z.lor (Z.shiftl ma 20) mi.
Definition MAJOR (d : Z) : Z := Z.shiftr d 20.

(** [sizeof(struct cdev_buffer)] without its flexible array. *)
Definition sizeof_cdev_buffer : Z := 16.

(** The static class of a driver before its first probe. *)
Definition fresh_cdev : ccat_cdev := Cdev 0 0 0 0 false.
Definition fresh_class (n : nat) (name : string) : ccat_class :=
  Class_ 0 0 0 (Z.of_nat n) (replicate n fresh_cdev) name false.

Section Operations.
Context {E : Type} `{Env E}.

(** ** Class and slots *)

(** As in the code, any result of [class_create] other than NULL counts as a class, also one of the
    error pointers the kernel returns. *)
Definition ccat_class_init (base : ccat_class) : M E (Z * ccat_class) :=
  let base := set_instances (instances base + 1) base in
  if instances base =? 1 then
    r ← do_call (Kernel (AllocChrdevRegion (count base)));
    if istrue (r_val r) then mret (-1, base)
    else
      cls ← kern (ClassCreate (cl_name base));
      let base := set_region (r_out r) cls base in
      if cls =? 0 then
        kern_ (UnregisterChrdevRegion (cl_dev base) (count base)) ;; mret (-1, base)
      else mret (0, base)
  else mret (0, base).

Definition ccat_class_exit (base : ccat_class) : M E ccat_class :=
  let base := set_instances (instances base - 1) base in
  if instances base =? 0 then
    kern_ (ClassDestroy (cl_class base)) ;;
    kern_ (UnregisterChrdevRegion (cl_dev base) (count base)) ;;
    mret (set_live false base)
  else mret base.

(** [free_ccat_cdev]: the class is reached through [ccdev->class], NULL until a probe of the
    slot has succeeded once. *)
Definition free_ccat_cdev (i : nat) (base : ccat_class) : M E ccat_class :=
  match devices base !! i with
  | None => oops
  | Some c =>
      if class_set c then
        base ← ccat_class_exit base;
        mret (set_devices (<[i := set_dev 0 c]> (devices base)) base)
      else oops
  end.

(** The [for] loop of [alloc_ccat_cdev]: the first slot whose [dev] is 0. *)
Fixpoint first_free (i : nat) (l : list ccat_cdev) : option nat :=
  match l with
  | [] => None
  | c :: l' => if dev c =? 0 then Some i else first_free (S i) l'
  end.

Definition alloc_ccat_cdev (base : ccat_class) : M E (option nat * ccat_class) :=
  '(_, base) ← ccat_class_init base;
  match first_free 0 (take (Z.to_nat (count base)) (devices base)) with
  | Some i =>
      let d := MKDEV (MAJOR (cl_dev base)) (Z.of_nat i) in
      mret (Some i, set_devices (alter (set_dev d) i (devices base)) base)
  | None =>
      (* pr_warn(..., base->class->name, base->count) *)
      if class_ptr base =? 0 then oops
      else mret (None, set_instances (instances base - 1) base)
  end.

(** ** Probe and remove *)

Definition ccat_cdev_init (cdev d cls : Z) : M E Z :=
  if cls =? 0 then oops (* class->name *)
  else
    p ← kern (DeviceCreate cls d);
    if p =? 0 then mret (-1)
    else
      kern_ (CdevInit cdev) ;;
      r ← kern (CdevAdd cdev d);
      if istrue r then kern_ (DeviceDestroy cls d) ;; mret (-1)
      else mret 0.

(** The result carries [func->private_data]: the slot, if the probe set it. *)
Definition ccat_cdev_probe (func : ccat_function) (cdev_class : ccat_class) (size : Z)
  : M E (Z * ccat_class * option nat) :=
  '(slot, base) ← alloc_ccat_cdev cdev_class;
  match slot with
  | None => mret (- ENOMEM, base, None)
  | Some i =>
      let prepare c := Cdev 1 (func_base func) size (dev c) (class_set c) in
      let base := set_devices (alter prepare i (devices base)) base in
      match devices base !! i with
      | None => oops
      | Some c =>
          r ← ccat_cdev_init (Z.of_nat i) (dev c) (class_ptr base);
          if istrue r then
            base ← free_ccat_cdev i base; mret (-1, base, None)
          else
            mret (0, set_devices (alter (set_class_set true) i (devices base)) base, Some i)
      end
  end.

Definition ccat_cdev_remove (slot : option nat) (base : ccat_class) : M E ccat_class :=
  match slot with
  | None => oops
  | Some i =>
      match devices base !! i with
      | None => oops
      | Some c =>
          kern_ (CdevDel (Z.of_nat i)) ;;
          if class_set c then
            kern_ (DeviceDestroy (cl_class base) (dev c)) ;;
            free_ccat_cdev i base
          else oops
      end
  end.

(** ** Files *)

(** [fixed_size_llseek] gets the file for its position [pos]. *)
Definition ccat_cdev_llseek (c : ccat_cdev) (pos offset whence : Z) : M E Z :=
  let size := iosize c in
  kern (FixedSizeLlseek pos offset whence size).

(** [atomic_dec_and_test(&ccdev->in_use)] as one step: the decremented counter, and whether it
    is zero. *)
Definition atomic_dec_and_test (n : Z) : bool * Z := (n - 1 =? 0, n - 1).

Definition ccat_cdev_open (i : nat) (c : ccat_cdev)
  : M E (Z * ccat_cdev * option cdev_buffer) :=
  let '(last, n) := atomic_dec_and_test (in_use c) in
  if negb last then
    mret (- EBUSY, set_in_use (n + 1) c, None)
  else
    p ← kern (Kzalloc (sizeof_cdev_buffer + iosize c));
    if p =? 0 then mret (- ENOMEM, set_in_use (n + 1) c, None)
    else mret (0, set_in_use n c, Some (Buffer i p 0 (replicate (Z.to_nat (iosize c)) 0))).

Definition ccat_cdev_release (c : ccat_cdev) (buf : cdev_buffer) : M E (Z * ccat_cdev) :=
  kern_ (Kfree (b_ptr buf)) ;; mret (0, set_in_use (in_use c + 1) c).

(** *** The buffer of a file *)

(** [memcpy] of [len] bytes into [buffer->data + o]: outside the allocation it is a fault. *)
Definition buffer_copy (o : Z) (l : list Z) (b : cdev_buffer) : M E cdev_buffer :=
  if (0 <=? o) && (o + zlen l <=? zlen (b_data b))
  then mret (set_data (splice o l (b_data b)) b) else oops.

(** [copy_from_user(buffer->data + o, ubuf, len)]: the number of bytes not copied; what is
    missing at the end is filled with zeros. *)
Definition copy_from_user (o : Z) (ubuf : list Z) (len : Z) (b : cdev_buffer)
  : M E (Z * cdev_buffer) :=
  r ← kern (CopyFromUser len);
  let l := take (Z.to_nat (len - r)) ubuf ++ replicate (Z.to_nat r) 0 in
  b ← buffer_copy o l b;
  mret (r, b).

End Operations.

(** ** File buffers

    A device an open can have returned, its buffer, and the offsets and lengths the VFS passes
    to [read] and [write] ([rw_verify_area]: neither is negative and their sum is an offset). *)
Definition cdev_wf (c : ccat_cdev) : Prop := 0 <= iosize c < 2 ^ 63.
Definition buffer_wf (c : ccat_cdev) (b : cdev_buffer) : Prop := zlen (b_data b) = iosize c.
Definition vfs_range (off len : Z) : Prop := 0 <= off /\ 0 <= len /\ off + len < 2 ^ 63.

(** [copy_from_user] answers the number of bytes it did not copy. *)
Class UserMem (E : Type) `{Env E} : Prop :=
  um_from : forall (e : E) n, 0 <= n ->
    0 <= r_val (ext (Kernel (CopyFromUser n)) e).1 <= n.

Section BufferFacts.
Context {E : Type} `{Env E}.

Lemma buffer_copy_ok F (o : Z) (l : list Z) (b : cdev_buffer) (e : E) Q :
  0 <= o -> o + zlen l <= zlen (b_data b) ->
  Q (set_data (splice o l (b_data b)) b) [] e -> wpx F (buffer_copy o l b) e Q.
Proof. intros Ho Hl HQ. unfold buffer_copy. zcases. by apply wp_ret. Qed.

(** The copy writes [len] bytes at [o]: the user's, or when it failed some of them and zeros. *)
Lemma copy_from_user_splice `{!UserMem E} (o len : Z) (ubuf : list Z) (b : cdev_buffer) (e : E) Q :
  0 <= o -> zlen ubuf = len -> o + len <= zlen (b_data b) ->
  (forall r l, r = r_val (ext (Kernel (CopyFromUser len)) e).1 -> zlen l = len ->
     (r = 0 -> l = ubuf) -> (Forall is_byte ubuf -> Forall is_byte l) ->
     Q (r, set_data (splice o l (b_data b)) b)
       [Ev (Kernel (CopyFromUser len)) (ext (Kernel (CopyFromUser len)) e).1]
       (ext (Kernel (CopyFromUser len)) e).2) ->
  wp (copy_from_user o ubuf len b) e Q.
Proof.
  intros Ho Hu Hb HQ. unfold copy_from_user. wp_run. set (r := r_val _).
  assert (0 <= len) by (subst len; apply zlen_nonneg).
  pose proof (um_from e len ltac:(lia)) as Hr. fold r in Hr.
  assert (Hl : zlen (take (Z.to_nat (len - r)) ubuf ++ replicate (Z.to_nat r) 0) = len).
  { unfold zlen in *. rewrite length_app, length_take, length_replicate. lia. }
  apply buffer_copy_ok; [done | lia |]. wp_run. simpl. apply HQ; [done | done | |].
  - intros Hr0. rewrite Hr0. simpl. rewrite app_nil_r, take_ge; [done|]. unfold zlen in *. lia.
  - intros Hb'. apply Forall_app. split; [by apply Forall_take | by apply Forall_replicate].
Qed.

(** The copy succeeded and the buffer holds the user's bytes at [o], or it failed. *)
Lemma copy_from_user_ok `{!UserMem E} (o len : Z) (ubuf : list Z) (b : cdev_buffer) (e : E) Q :
  0 <= o -> zlen ubuf = len -> o + len <= zlen (b_data b) ->
  (forall r b' , r = r_val (ext (Kernel (CopyFromUser len)) e).1 ->
     zlen (b_data b') = zlen (b_data b) -> b_size b' = b_size b ->
     (r = 0 -> b' = set_data (splice o ubuf (b_data b)) b) ->
     Q (r, b') [Ev (Kernel (CopyFromUser len)) (ext (Kernel (CopyFromUser len)) e).1]
       (ext (Kernel (CopyFromUser len)) e).2) ->
  wp (copy_from_user o ubuf len b) e Q.
Proof.
  intros Ho Hu Hb HQ. apply copy_from_user_splice; [done..|]. intros r l Hr Hl Heq _.
  apply HQ; [done | | done |].
  - simpl. by rewrite zlen_splice by lia.
  - intros Hr0. by rewrite (Heq Hr0).
Qed.

End BufferFacts.

(** ** The class invariant

    [class_ok base]: the table has [count] slots, [instances] counts the slots in use (those
    with a device number), and while a slot is in use the class and a region with a non-zero
    major number exist and slot [i] holds minor [i] of that region. *)

Definition n_used (l : list ccat_cdev) : nat := length (filter (fun c => dev c <> 0) l).

Record class_ok (base : ccat_class) : Prop := {
  ok_len : Z.of_nat (length (devices base)) = count base;
  ok_count : 0 < count base <= 2 ^ 20;
  ok_inst : instances base = Z.of_nat (n_used (devices base));
  ok_region : 0 < instances base -> 0 < MAJOR (cl_dev base) /\ cl_class base <> 0;
  ok_live : cl_live base = bool_decide (0 < instances base);
  ok_slots : forall i c, devices base !! i = Some c -> dev c <> 0 ->
    dev c = MKDEV (MAJOR (cl_dev base)) (Z.of_nat i) /\ class_set c = true;
}.

(** The kernel registered what it was asked to register: no call of the trace to
    [alloc_chrdev_region] or [class_create] failed. *)
Definition registered (t : list event) : Prop :=
  Forall (fun ev => match ev_call ev with
                    | Kernel (AllocChrdevRegion _) =>
                        r_val (ev_resp ev) = 0 /\ 0 < MAJOR (r_out (ev_resp ev))
                    | Kernel (ClassCreate _) => r_val (ev_resp ev) <> 0
                    | _ => True
                    end) t.

(** *** Lists of slots *)

Lemma n_used_cons c l : n_used (c :: l) = (Nat.b2n (bool_decide (dev c <> 0%Z)) + n_used l)%nat.
Proof.
  unfold n_used. rewrite filter_cons. case_decide; case_bool_decide; simpl; done || lia.
Qed.

Lemma n_used_insert l i c x :
  l !! i = Some c ->
  (n_used (<[i := x]> l) + Nat.b2n (bool_decide (dev c <> 0%Z)) =
   n_used l + Nat.b2n (bool_decide (dev x <> 0%Z)))%nat.
Proof.
  revert i. induction l as [|y l IH]; intros [|i] Hi; simplify_eq/=.
  - rewrite !n_used_cons. lia.
  - specialize (IH i Hi). rewrite !n_used_cons. lia.
Qed.

Lemma n_used_full l : Forall (fun c => dev c <> 0) l -> n_used l = length l.
Proof. induction 1; [done|]. rewrite n_used_cons, bool_decide_true by done. simpl. lia. Qed.

Lemma first_free_Some l k i :
  first_free k l = Some i ->
  exists c, (k <= i)%nat /\ l !! (i - k)%nat = Some c /\ dev c = 0 /\
            Forall (fun c => dev c <> 0) (take (i - k) l).
Proof.
  revert k. induction l as [|c l IH]; intros k Hf; simplify_eq/=.
  destruct (Z.eqb_spec (dev c) 0) as [Hc|Hc]; simplify_eq.
  - exists c. rewrite Nat.sub_diag. repeat split; auto.
  - destruct (IH (S k) Hf) as (c' & Hk & Hl & Hd & Ht). exists c'.
    replace (i - k)%nat with (S (i - S k)) by lia. simpl. repeat split; auto; lia.
Qed.

Lemma first_free_None l k : first_free k l = None -> Forall (fun c => dev c <> 0) l.
Proof.
  revert k. induction l as [|c l IH]; intros k Hf; simplify_eq/=; constructor.
  - intros Hc. by rewrite Hc in Hf.
  - apply (IH (S k)). by destruct (dev c =? 0).
Qed.

Lemma MKDEV_arith ma mi : 0 <= mi < 2 ^ 20 -> MKDEV ma mi = ma * 2 ^ 20 + mi.
Proof. apply lor_shiftl_add. lia. Qed.

Lemma MKDEV_nonzero ma mi : 0 < ma -> 0 <= mi < 2 ^ 20 -> MKDEV ma mi <> 0.
Proof. intros. rewrite MKDEV_arith by done. lia. Qed.

(** *** Preservation *)

(** What a successful [ccat_class_init] leaves: one more instance, a region and a class. *)
Record opened (base base' : ccat_class) : Prop := {
  op_inst : instances base' = instances base + 1;
  op_devices : devices base' = devices base;
  op_count : count base' = count base;
  op_region : 0 < MAJOR (cl_dev base') /\ cl_class base' <> 0;
  op_live : cl_live base' = true;
  op_same : instances base <> 0 -> base' = set_instances (instances base + 1) base;
}.

Lemma opened_ptr base base' : opened base base' -> class_ptr base' = cl_class base' /\ class_ptr base' <> 0.
Proof. intros []. unfold class_ptr. rewrite op_live0. tauto. Qed.

(** What [ccat_class_exit] leaves. *)
Definition released (base : ccat_class) : ccat_class :=
  set_live (cl_live base && negb (instances base =? 1)) (set_instances (instances base - 1) base).

Lemma set_devices_twice l l' base : set_devices l (set_devices l' base) = set_devices l base.
Proof. done. Qed.

Lemma class_ok_unused base i c :
  class_ok base -> instances base = 0 -> devices base !! i = Some c -> dev c = 0.
Proof.
  intros [] Hz Hi. destruct (decide (dev c = 0)) as [|Hne]; [done|].
  pose proof (n_used_insert (devices base) i c (set_dev 0 c) Hi) as Hn.
  rewrite (bool_decide_true (dev c <> 0)) in Hn by done.
  simpl in Hn. lia.
Qed.

Lemma opened_slots base b1 :
  class_ok base -> opened base b1 ->
  forall i c, devices base !! i = Some c -> dev c <> 0 ->
    dev c = MKDEV (MAJOR (cl_dev b1)) (Z.of_nat i) /\ class_set c = true.
Proof.
  intros Hok Hop i c Hi Hc. destruct (decide (instances base = 0)) as [Hz|Hz].
  - destruct Hc. by eapply class_ok_unused.
  - rewrite (op_same _ _ Hop Hz). by apply (ok_slots _ Hok).
Qed.

Lemma class_ok_take base b1 i c x :
  class_ok base -> opened base b1 -> devices base !! i = Some c -> dev c = 0 ->
  dev x = MKDEV (MAJOR (cl_dev b1)) (Z.of_nat i) -> class_set x = true ->
  class_ok (set_devices (<[i := x]> (devices b1)) b1).
Proof.
  intros Hok Hop Hi Hc Hx Hxs. pose proof (opened_slots _ _ Hok Hop) as Hsl.
  pose proof (lookup_lt_Some _ _ _ Hi) as Hlt. destruct Hok, Hop.
  assert (Hxd : dev x <> 0) by (rewrite Hx; apply MKDEV_nonzero; lia).
  split; simpl; rewrite ?length_insert, ?op_devices0, ?op_count0; auto.
  - pose proof (n_used_insert (devices base) i c x Hi) as Hn.
    rewrite (bool_decide_true (dev x <> 0)), (bool_decide_false (dev c <> 0)) in Hn by auto.
    simpl in Hn. lia.
  - rewrite op_live0. symmetry. apply bool_decide_eq_true. lia.
  - intros j y Hj Hy. rewrite list_lookup_insert in Hj.
    case_decide as Hd; [destruct Hd as [-> _]; by simplify_eq | by apply Hsl].
Qed.

(** Writing a record without a device number into a free slot, or freeing a slot in use. *)
Lemma class_ok_free base b1 i c x :
  class_ok base -> (dev c = 0 /\ opened base b1 \/ dev c <> 0 /\ b1 = base) ->
  devices base !! i = Some c -> dev x = 0 ->
  class_ok (set_devices (<[i := x]> (devices base)) (released b1)).
Proof.
  intros Hok Hb1 Hi Hx.
  assert (Hsl : forall i c, devices base !! i = Some c -> dev c <> 0 ->
    dev c = MKDEV (MAJOR (cl_dev b1)) (Z.of_nat i) /\ class_set c = true).
  { destruct Hb1 as [[_ Hop] | [_ ->]]; [by apply opened_slots | apply (ok_slots _ Hok)]. }
  assert (Hcnt : count b1 = count base /\ instances b1 - 1 = Z.of_nat (n_used (<[i := x]> (devices base)))
                 /\ (0 < instances b1 - 1 -> 0 < MAJOR (cl_dev b1) /\ cl_class b1 <> 0)
                 /\ cl_live b1 = true /\ 0 < instances b1).
  { pose proof (n_used_insert (devices base) i c x Hi) as Hn.
    rewrite (bool_decide_false (dev x <> 0)) in Hn by auto.
    destruct Hok, Hb1 as [[Hc []] | [Hc ->]].
    - rewrite bool_decide_false in Hn by auto. simpl in Hn. repeat split; try tauto; lia.
    - rewrite bool_decide_true in Hn by auto. simpl in Hn.
      assert (0 < instances base) by lia. repeat split; try tauto; try lia;
        [apply ok_region0; lia.. | rewrite ok_live0; by apply bool_decide_eq_true]. }
  destruct Hok, Hcnt as (Hc1 & Hc2 & Hc3 & Hc4 & Hc5). split; simpl; rewrite ?length_insert, ?Hc1; auto.
  { rewrite Hc4. destruct (Z.eqb_spec (instances b1) 1); simpl; symmetry;
      [apply bool_decide_eq_false | apply bool_decide_eq_true]; lia. }
  intros j y Hj Hy. rewrite list_lookup_insert in Hj.
  case_decide as Hd; [destruct Hd as [-> _]; by simplify_eq | by apply Hsl].
Qed.

(** What the drivers rely on when nothing fails: every registration is granted. *)
Class CdevKernel (E : Type) `{Env E} : Prop := {
  ck_region : forall (e : E) n, r_val (ext (Kernel (AllocChrdevRegion n)) e).1 = 0 /\
    0 < MAJOR (r_out (ext (Kernel (AllocChrdevRegion n)) e).1);
  ck_class : forall (e : E) s, r_val (ext (Kernel (ClassCreate s)) e).1 <> 0;
}.

Class CdevRegisters (E : Type) `{Env E} : Prop := {
  cr_device : forall (e : E) cls d, r_val (ext (Kernel (DeviceCreate cls d)) e).1 <> 0;
  cr_add : forall (e : E) c d, r_val (ext (Kernel (CdevAdd c d)) e).1 = 0;
}.

Section Preservation.
Context {E : Type} `{Env E}.

Lemma ccat_class_init_opens base (e : E) :
  class_ok base ->
  wlp (ccat_class_init base) e (fun res t _ => registered t -> res.1 = 0 /\ opened base res.2).
Proof.
  intros Hok. unfold ccat_class_init. simpl. destruct (Z.eqb_spec (instances base + 1) 1) as [Hi|Hi].
  - wp_run. destruct (ext (Kernel (AllocChrdevRegion (count base))) e) as [r e1]. simpl.
    destruct (istrue (r_val r)) eqn:Hr; wp_run.
    + intros Hreg. apply Forall_cons in Hreg as [[Hr0 _] _]. simpl in Hr0. by rewrite Hr0 in Hr.
    + destruct (_ =? 0) eqn:Hcls; wp_run; intros Hreg;
        apply Forall_cons in Hreg as [[_ Hmaj] Hreg]; apply Forall_cons in Hreg as [Hcl _]; simpl in *.
      * apply Z.eqb_eq in Hcls. done.
      * split; [done|]. split; simpl; auto; [|lia]. by rewrite Hcls.
  - wp_run. intros _. split; [done|]. destruct Hok. split; simpl; auto.
    + apply ok_region0. lia.
    + rewrite ok_live0. apply bool_decide_eq_true. lia.
Qed.

Lemma ccat_class_init_total `{!CdevKernel E} base (e : E) :
  class_ok base ->
  wp (ccat_class_init base) e (fun res t _ => registered t /\ opened base res.2).
Proof.
  intros Hok.
  assert (wp (ccat_class_init base) e (fun _ t _ => registered t)) as Hreg.
  { unfold ccat_class_init. simpl. destruct (_ =? 1); wp_run; [|constructor].
    destruct (ck_region e (count base)) as [Hr Hm]. rewrite Hr, istrue_0. wp_run.
    set (e1 := (ext _ e).2). pose proof (ck_class e1 (cl_name base)) as Hc.
    rewrite (proj2 (Z.eqb_neq _ 0) Hc). wp_run.
    unfold registered. simpl. rewrite !Forall_cons. by split_and!. }
  eapply wp_mono; [apply wp_wlp; [by apply ccat_class_init_opens | exact Hreg] | done |].
  intros res t e' [Hop Ht]. split; [done|]. by apply Hop.
Qed.

Lemma ccat_class_exit_spec base (e : E) :
  wp (ccat_class_exit base) e (fun base' t _ =>
    base' = released base /\
    calls t = if instances base =? 1
              then [Kernel (ClassDestroy (cl_class base));
                    Kernel (UnregisterChrdevRegion (cl_dev base) (count base))]
              else []).
Proof.
  unfold ccat_class_exit. simpl. replace (instances base - 1 =? 0) with (instances base =? 1).
  - unfold released. destruct (instances base =? 1); wp_run; (split; [|done]); simpl.
    + by rewrite andb_false_r.
    + by rewrite andb_true_r.
  - destruct (Z.eqb_spec (instances base) 1), (Z.eqb_spec (instances base - 1) 0); lia || done.
Qed.

Lemma registered_app t t' : registered (t ++ t') <-> registered t /\ registered t'.
Proof. apply Forall_app. Qed.

Lemma alloc_ccat_cdev_spec base (e : E) :
  class_ok base ->
  wlp (alloc_ccat_cdev base) e (fun res t _ => registered t ->
    match res.1 with
    | Some i => exists b1 c, opened base b1 /\ devices base !! i = Some c /\ dev c = 0 /\
        Forall (fun c => dev c <> 0) (take i (devices base)) /\
        res.2 = set_devices (<[i := set_dev (MKDEV (MAJOR (cl_dev b1)) (Z.of_nat i)) c]>
                               (devices base)) b1
    | None => Forall (fun c => dev c <> 0) (devices base) /\ res.2 = base
    end).
Proof.
  intros Hok. unfold alloc_ccat_cdev. apply wp_bind.
  eapply wp_mono; [by apply ccat_class_init_opens | done |]. intros [r b1] t e1 Hop.
  assert (Hopen : registered t -> opened base b1) by (intros; by apply Hop). clear Hop.
  assert (Htake : opened base b1 -> take (Z.to_nat (count b1)) (devices b1) = devices base).
  { intros []. rewrite op_devices0, op_count0. apply take_ge. pose proof (ok_len _ Hok). lia. }
  destruct (first_free _ _) as [i|] eqn:Hf.
  - wp_run. simpl. rewrite app_nil_r. intros Hreg. specialize (Hopen Hreg).
    rewrite Htake in Hf by done.
    apply first_free_Some in Hf as (c & _ & Hi & Hc & Ht). rewrite Nat.sub_0_r in *.
    exists b1, c. split_and!; auto.
    rewrite (op_devices _ _ Hopen). by rewrite (alter_insert _ _ _ c).
  - destruct (class_ptr b1 =? 0); wp_run. simpl. rewrite app_nil_r. intros Hreg.
    specialize (Hopen Hreg). rewrite Htake in Hf by done. apply first_free_None in Hf.
    split; [done|]. rewrite (op_same _ _ Hopen).
    + simpl. rewrite Z.add_simpl_r. by destruct base.
    + pose proof (ok_len _ Hok). pose proof (ok_count _ Hok). pose proof (ok_inst _ Hok).
      rewrite n_used_full in * by done. lia.
Qed.

End Preservation.

(** ** Properties of probe, remove, open and release *)

Section Probe.
Context {E : Type} `{Env E}.

Lemma ccat_cdev_probe_spec func base size (e : E) :
  class_ok base ->
  wlp (ccat_cdev_probe func base size) e (fun '(r, base', slot) t _ => registered t ->
    class_ok base' /\
    match slot with
    | Some i => r = 0 /\ instances base' = instances base + 1 /\
        (exists c, devices base !! i = Some c /\ dev c = 0) /\
        Forall (fun c => dev c <> 0) (take i (devices base)) /\
        devices base' = <[i := Cdev 1 (func_base func) size
                            (MKDEV (MAJOR (cl_dev base')) (Z.of_nat i)) true]> (devices base)
    | None =>
        (r = - ENOMEM /\ base' = base /\ Forall (fun c => dev c <> 0) (devices base)) \/
        (r = -1 /\ instances base' = instances base /\
         exists i c x, devices base !! i = Some c /\ dev c = 0 /\ dev x = 0 /\
           devices base' = <[i := x]> (devices base))
    end).
Proof.
  intros Hok. unfold ccat_cdev_probe. apply wp_bind.
  eapply wp_mono; [by apply alloc_ccat_cdev_spec | done |]. intros [[i|] b] t e1 Hb.
  2: { wp_run. simpl. rewrite app_nil_r. intros Hreg. destruct (Hb Hreg) as [Hf Hb']. simpl in Hb'. subst b. auto. }
  simpl in *. destruct (alter _ i (devices b) !! i) as [c|] eqn:Hc; [|by apply wp_oops].
  rewrite list_lookup_alter_eq in Hc. apply fmap_Some in Hc as (c1 & Hc1 & ->).
  apply wp_bind. eapply wp_mono; [apply wlp_true | done |]. intros r t1 e2 _.
  destruct (istrue r).
  - unfold free_ccat_cdev. simpl. rewrite list_lookup_alter_eq, Hc1. simpl.
    destruct (class_set c1); wp_run; [|done..].
    eapply wp_mono; [apply ccat_class_exit_spec | done |]. intros b' t2 e3 [-> _].
    wp_run. simpl. rewrite !registered_app. intros [Hreg _].
    destruct (Hb Hreg) as (b1 & c0 & Hop & Hi & Hz & _ & ->). simpl in *.
    rewrite (alter_insert _ _ _ c1) by done.
    rewrite (list_lookup_insert_eq _ _ _) in Hc1 by (by eapply lookup_lt_Some). simplify_eq.
    rewrite !list_insert_insert_eq. split.
    + eapply (class_ok_free base b1); eauto.
    + right. split_and!; [done | destruct Hop; lia |]. eexists i, c0, _. split_and!; [done | done | | reflexivity]. done.
  - wp_run. simpl. rewrite !registered_app. intros (Hreg & _).
    destruct (Hb Hreg) as (b1 & c0 & Hop & Hi & Hz & Ht & ->). simpl in *.
    rewrite (list_lookup_insert_eq _ _ _) in Hc1 by (by eapply lookup_lt_Some). simplify_eq.
    pose proof (lookup_lt_Some _ _ _ Hi) as Hlt.
    rewrite !alter_of_insert by done. simpl. split; [|split_and!; eauto; apply Hop].
    rewrite !set_devices_twice, <- (op_devices _ _ Hop). by eapply class_ok_take.
Qed.

Lemma ccat_cdev_probe_total `{!CdevKernel E} `{!CdevRegisters E} func base size (e : E) :
  class_ok base -> Exists (fun c => dev c = 0) (devices base) ->
  wp (ccat_cdev_probe func base size) e (fun res t _ => registered t /\ res.1.1 = 0).
Proof.
  intros Hok Hfree. unfold ccat_cdev_probe, alloc_ccat_cdev. apply wp_bind, wp_bind.
  eapply wp_mono; [by apply ccat_class_init_total | done |]. intros [r b1] t e1 [Hreg Hop].
  simpl in Hop. assert (Htake : take (Z.to_nat (count b1)) (devices b1) = devices base).
  { destruct Hop. rewrite op_devices0, op_count0. apply take_ge. pose proof (ok_len _ Hok). lia. }
  rewrite Htake. destruct (first_free 0 (devices base)) as [i|] eqn:Hf.
  - wp_run. simpl. apply first_free_Some in Hf as (c & _ & Hi & _). rewrite Nat.sub_0_r in Hi.
    rewrite (op_devices _ _ Hop), list_lookup_alter_eq, list_lookup_alter_eq, Hi. simpl.
    unfold ccat_cdev_init. destruct (opened_ptr _ _ Hop) as [Hcls Hnz].
    change (class_ptr (set_devices _ _)) with (class_ptr b1).
    destruct (Z.eqb_spec (class_ptr b1) 0); [done|]. rewrite Hcls. wp_run.
    destruct (Z.eqb_spec (r_val (ext (Kernel (DeviceCreate (cl_class b1)
      (MKDEV (MAJOR (cl_dev b1)) (Z.of_nat i)))) e1).1) 0) as [Hd|_]; [by destruct (cr_device _ _ _ Hd)|].
    wp_run. rewrite cr_add. wp_run. simpl. rewrite app_nil_r. split; [|done].
    apply registered_app. split; [done|]. by repeat constructor.
  - apply first_free_None in Hf. exfalso. apply Exists_exists in Hfree as (c & Hin & Hc).
    by eapply Forall_forall in Hf.
Qed.

(** A region that is granted has a major number. *)
Class ChrdevKernel (E : Type) `{Env E} : Prop :=
  ck_major : forall (e : E) n, r_val (ext (Kernel (AllocChrdevRegion n)) e).1 = 0 ->
    0 < MAJOR (r_out (ext (Kernel (AllocChrdevRegion n)) e).1).

Lemma class_init_registered `{!ChrdevKernel E} base (e : E) :
  class_ok base ->
  wp (ccat_class_init base) e (fun res t _ => registered t \/ class_ptr res.2 = 0).
Proof.
  intros Hok. unfold ccat_class_init. simpl. destruct (Z.eqb_spec (instances base + 1) 1) as [Hi|Hi].
  - wp_run. pose proof (ck_major e (count base)) as Hm. set (c := Kernel (AllocChrdevRegion _)) in *.
    destruct (istrue (r_val (ext c e).1)) eqn:Hr; wp_run.
    + right. unfold class_ptr. simpl. rewrite (ok_live _ Hok), bool_decide_false by lia. done.
    + set (e1 := (ext c e).2). destruct (Z.eqb_spec (r_val (ext (Kernel (ClassCreate (cl_name base))) e1).1) 0)
        as [Hc|Hc]; wp_run.
      * right. unfold class_ptr. simpl. by rewrite Hc.
      * left. unfold istrue in Hr. apply negb_false_iff, Z.eqb_eq in Hr.
        unfold registered. simpl. rewrite !Forall_cons. split_and!; [by split; [|apply Hm] | done | done].
  - wp_run. left. constructor.
Qed.

(** A probe that returns found its registrations granted: without a region or a class it goes on
    and dereferences NULL, or a class that was destroyed. *)
Lemma cdev_probe_registered `{!ChrdevKernel E} func base size (e : E) :
  class_ok base -> wlp (ccat_cdev_probe func base size) e (fun _ t _ => registered t).
Proof.
  intros Hok. unfold ccat_cdev_probe, alloc_ccat_cdev. apply wp_bind, wp_bind.
  eapply wp_mono; [by apply class_init_registered | done |]. intros [r b1] t e1 Hreg. simpl in Hreg.
  destruct (first_free _ _) as [i|].
  2: { destruct (Z.eqb_spec (class_ptr b1) 0) as [|Hne]; wp_run. rewrite !app_nil_r. by destruct Hreg. }
  wp_run. destruct (_ !! i); [|done]. change (class_ptr (set_devices _ _)) with (class_ptr b1).
  unfold ccat_cdev_init at 1. destruct (Z.eqb_spec (class_ptr b1) 0) as [|Hne]; [done|].
  destruct Hreg as [Hreg|]; [|done]. rewrite app_nil_r.
  match goal with |- wpx _ ?m _ _ => assert (Hrest : forall_calls (fun c => match c with
    | Kernel (AllocChrdevRegion _) | Kernel (ClassCreate _) => False | _ => True end) m) end.
  { unfold free_ccat_cdev, ccat_class_exit. by fc_run. }
  eapply wp_mono; [by apply wp_forall_calls; [exact Hrest | apply wlp_true] | done|].
  intros res t' e' [_ Ht']. apply registered_app. split; [done|]. unfold registered, calls in *.
  apply Forall_fmap in Ht'. eapply Forall_impl; [exact Ht'|]. intros [kc x]. simpl. by destruct kc as [| | | | |[]].
Qed.

(** When the kernel grants the registrations and the table has a free slot, a probe succeeds (no
    oops, no error), takes the first free slot and fills it in. *)
Lemma ccat_cdev_probe_succeeds `{!CdevKernel E} `{!CdevRegisters E} func base size (e : E) :
  class_ok base -> Exists (fun c => dev c = 0) (devices base) ->
  wp (ccat_cdev_probe func base size) e (fun '(r, base', slot) _ _ =>
    r = 0 /\ exists i, slot = Some i /\
    (i < length (devices base))%nat /\ Forall (fun c => dev c <> 0) (take i (devices base)) /\
    devices base' = <[i := Cdev 1 (func_base func) size
                        (MKDEV (MAJOR (cl_dev base')) (Z.of_nat i)) true]> (devices base)).
Proof.
  intros Hok Hfree.
  eapply wp_mono; [apply wp_wlp; [by apply ccat_cdev_probe_spec |] | done |].
  - by apply ccat_cdev_probe_total.
  - intros [[r base'] slot] t e' [Hspec [Hreg Hr]]. simpl in Hr. subst r.
    destruct (Hspec Hreg) as [_ Hs]. destruct slot as [i|]; [|by destruct Hs as [[] | []]].
    destruct Hs as (_ & _ & (c & Hc & _) & Ht & Hd). eauto 8 using lookup_lt_Some.
Qed.

End Probe.

(** ** Exclusive open

    [ccat_cdev_open] and [ccat_cdev_release] of several tasks on one device, interleaved at the
    atomic operations on [in_use].  A task is where it is in the two functions. *)
Inductive opener :=
  | Idle           (* neither in open nor holding the file *)
  | Refused        (* decremented, counter not 0: about to increment and return -EBUSY *)
  | Allocating     (* decremented to 0: about to call kzalloc *)
  | NoMemory       (* kzalloc failed: about to increment and return -ENOMEM *)
  | Holding.       (* open returned 0 *)

#[export] Instance opener_eq_dec : EqDecision opener.
Proof. solve_decision. Defined.

(** One atomic operation of a task on the counter: [open_step kz n p] is what the task at [p] does
    next when [kzalloc] would answer [kz]. *)
Definition open_step (kz : bool) (n : Z) (p : opener) : Z * opener :=
  match p with
  | Idle => let '(last, n') := atomic_dec_and_test n in
            (n', if negb last then Refused else Allocating)
  | Refused => (n + 1, Idle)
  | Allocating => (n, if kz then Holding else NoMemory)
  | NoMemory => (n + 1, Idle)
  | Holding => (n + 1, Idle)
  end.

Inductive cdev_step : Z * list opener -> Z * list opener -> Prop :=
  | cdev_step_intro kz n ts k p n' p' :
      ts !! k = Some p -> open_step kz n p = (n', p') ->
      cdev_step (n, ts) (n', <[k := p']> ts).

(** Tasks that have decremented the counter and not yet given it back; those of them that won. *)
Definition active (p : opener) : nat := match p with Idle => 0 | _ => 1 end.
Definition owner (p : opener) : nat :=
  match p with Allocating | NoMemory | Holding => 1 | _ => 0 end.
Definition n_active (ts : list opener) : nat := sum_list_with active ts.
Definition n_owner (ts : list opener) : nat := sum_list_with owner ts.

Lemma sum_list_with_insert (f : opener -> nat) ts k p p' :
  ts !! k = Some p ->
  (sum_list_with f (<[k := p']> ts) + f p = sum_list_with f ts + f p')%nat.
Proof.
  revert k. induction ts as [|q ts IH]; intros [|k] Hk; simplify_eq/=; [lia|].
  specialize (IH k Hk). lia.
Qed.

Lemma n_owner_active ts : (n_owner ts <= n_active ts)%nat.
Proof. unfold n_owner, n_active. induction ts as [|[] ts IH]; simpl; lia. Qed.

Definition cdev_inv (s : Z * list opener) : Prop :=
  s.1 = 1 - Z.of_nat (n_active s.2) /\ (n_owner s.2 <= 1)%nat.

Lemma cdev_inv_step s s' : cdev_step s s' -> cdev_inv s -> cdev_inv s'.
Proof.
  intros [kz n ts k p n' p' Hk Hs] (Hn & Ho).
  pose proof (n_owner_active ts) as Hle. unfold cdev_inv, n_active, n_owner in *; simpl in *.
  pose proof (sum_list_with_insert active ts k p p' Hk) as Ha.
  pose proof (sum_list_with_insert owner ts k p p' Hk) as Hw.
  destruct p; simpl in Hs; injection Hs as <- <-; simpl in *; try lia.
  - revert Ha Hw. destruct (Z.eqb_spec (n - 1) 0); simpl in *; lia.
  - destruct kz; simpl in *; lia.
Qed.

Lemma sum_replicate_idle (f : opener -> nat) k :
  f Idle = 0%nat -> sum_list_with f (replicate k Idle) = 0%nat.
Proof. intros Hf. induction k; simpl; lia. Qed.

Lemma cdev_inv_init k : cdev_inv (1, replicate k Idle).
Proof.
  unfold cdev_inv, n_active, n_owner. simpl. rewrite !sum_replicate_idle by done. lia.
Qed.

Lemma cdev_inv_reachable k s : rtc cdev_step (1, replicate k Idle) s -> cdev_inv s.
Proof.
  intros Hr. assert (Hi := cdev_inv_init k). revert Hi.
  induction Hr; eauto using cdev_inv_step.
Qed.

Lemma n_owner_lookup ts i j :
  ts !! i = Some Holding -> ts !! j = Some Holding -> (n_owner ts <= 1)%nat -> i = j.
Proof.
  intros Hi Hj Hle. destruct (decide (i = j)) as [|Hne]; [done|].
  pose proof (sum_list_with_insert owner ts i Holding Idle Hi).
  assert (Hj' : <[i := Idle]> ts !! j = Some Holding) by (by rewrite list_lookup_insert_ne).
  pose proof (sum_list_with_insert owner (<[i := Idle]> ts) j Holding Idle Hj').
  unfold n_owner in *. simpl in *. lia.
Qed.

(** C11: under every interleaving of the atomic operations of any number of tasks, at most one
    task holds the device open, and when no task is inside, the counter is back to 1, the value
    from which the next [open] succeeds. *)
Theorem ccat_cdev_open_exclusive k n ts :
  rtc cdev_step (1, replicate k Idle) (n, ts) ->
  (forall i j, ts !! i = Some Holding -> ts !! j = Some Holding -> i = j) /\
  (Forall (fun p => p = Idle) ts -> n = 1).
Proof.
  intros Hr. destruct (cdev_inv_reachable _ _ Hr) as (Hn & Ho). simpl in *. split.
  - eauto using n_owner_lookup.
  - intros Hall. rewrite Hn. unfold n_active.
    assert (sum_list_with active ts = 0%nat) as ->; [|lia].
    clear -Hall. induction Hall as [|p ts ->]; simpl; auto.
Qed.

(** Closes the equivalences between a status and the shape of a result. *)
Ltac by_cases_on_status :=
  repeat split; intros; simplify_eq/=; eauto; try lia; try done;
  match goal with H : is_Some None |- _ => by destruct H end.

Lemma cdev_solo kz n p : cdev_step (n, [p]) ((open_step kz n p).1, [(open_step kz n p).2]).
Proof.
  apply (cdev_step_intro kz n [p] 0 p); [done|]. by destruct (open_step kz n p).
Qed.

(** The two functions are runs of these steps: whatever the environment answers, [open] takes
    the counter and the task from idle to where its result says, and [release] back. *)
Lemma ccat_cdev_open_refines {E} `{Env E} i c (e : E) :
  wp (ccat_cdev_open i c) e (fun '(r, c', buf) _ _ =>
    rtc cdev_step (in_use c, [Idle]) (in_use c', [if r =? 0 then Holding else Idle]) /\
    (r = 0 <-> is_Some buf) /\ (r = 0 \/ r = - EBUSY \/ r = - ENOMEM) /\
    (r = - EBUSY <-> in_use c <> 1) /\
    (forall b, buf = Some b -> b_slot b = i /\ b_size b = 0 /\
       b_data b = replicate (Z.to_nat (iosize c)) 0)).
Proof.
  unfold ccat_cdev_open, EBUSY, ENOMEM. simpl. destruct (Z.eqb_spec (in_use c - 1) 0) as [Hz|Hz]; simpl.
  - assert (in_use c = 1) as -> by lia.
    wp_run. destruct (_ =? 0); wp_run; simpl; (split; [|by_cases_on_status]).
    + eapply rtc_l; [by apply (cdev_solo true _ Idle)|]. simpl.
      eapply rtc_l; [by apply (cdev_solo false _ Allocating)|]. simpl.
      by eapply rtc_l; [by apply (cdev_solo true _ NoMemory)|].
    + eapply rtc_l; [by apply (cdev_solo true _ Idle)|]. simpl.
      by eapply rtc_l; [by apply (cdev_solo true _ Allocating)|].
  - wp_run. replace (in_use c - 1 + 1) with (in_use c) by lia. simpl.
    split; [|by_cases_on_status].
    eapply rtc_l; [by apply (cdev_solo true _ Idle)|]. simpl.
    rewrite (proj2 (Z.eqb_neq _ _) Hz). simpl.
    eapply rtc_l; [by apply (cdev_solo true _ Refused)|]. simpl.
    by replace (in_use c - 1 + 1) with (in_use c) by lia.
Qed.

(** ** The life of a class *)

Lemma fresh_class_ok n name : (0 < n)%nat -> Z.of_nat n <= 2 ^ 20 -> class_ok (fresh_class n name).
Proof.
  intros Hn Hle. assert (Hused : n_used (replicate n fresh_cdev) = 0%nat).
  { clear. induction n; [done|]. simpl. by rewrite n_used_cons. }
  split; simpl; rewrite ?length_replicate, ?Hused; try lia.
  intros i c Hi Hc. by apply lookup_replicate in Hi as [-> _].
Qed.

(** One probe or one remove of a device of the class, in some environment. *)
Inductive class_step {E} `{Env E} : ccat_class -> ccat_class -> Prop :=
  | step_probe func size (e e' : E) base r base' slot t :
      ccat_cdev_probe func base size e = (Ret (r, base', slot), t, e') ->
      class_step base base'
  | step_remove i c (e e' : E) base base' t :
      devices base !! i = Some c -> dev c <> 0 ->
      ccat_cdev_remove (Some i) base e = (Ret base', t, e') ->
      class_step base base'.

Section Life.
Context {E : Type} `{Env E}.

Lemma ccat_cdev_remove_spec base i c (e : E) :
  class_ok base -> devices base !! i = Some c -> dev c <> 0 ->
  wp (ccat_cdev_remove (Some i) base) e (fun base' t _ =>
    class_ok base' /\ devices base' = <[i := set_dev 0 c]> (devices base) /\
    instances base' = instances base - 1 /\
    calls t =
      [Kernel (CdevDel (Z.of_nat i)); Kernel (DeviceDestroy (cl_class base) (dev c))] ++
      if instances base =? 1
      then [Kernel (ClassDestroy (cl_class base));
            Kernel (UnregisterChrdevRegion (cl_dev base) (count base))]
      else []).
Proof.
  intros Hok Hi Hc. unfold ccat_cdev_remove. rewrite Hi.
  rewrite (proj2 (ok_slots _ Hok i c Hi Hc)). wp_run.
  unfold free_ccat_cdev. rewrite Hi, (proj2 (ok_slots _ Hok i c Hi Hc)). wp_run.
  eapply wp_mono; [apply ccat_class_exit_spec | done |]. intros b' t e' [-> Ht].
  wp_run. simpl. rewrite app_nil_r, Ht. split_and!; [|done..].
  by eapply (class_ok_free base base); eauto.
Qed.

Lemma class_step_ok `{!ChrdevKernel E} base base' :
  class_step (E := E) base base' -> class_ok base -> class_ok base'.
Proof.
  intros [func size e e' b r b' slot t Hrun | i c e e' b b' t Hi Hc Hrun] Hok.
  - pose proof (wpx_run _ _ _ _ _ _ _ (cdev_probe_registered func b size e Hok) Hrun) as Hreg.
    by apply (wpx_run _ _ _ _ _ _ _ (ccat_cdev_probe_spec func b size e Hok) Hrun) in Hreg as [].
  - by destruct (wpx_run _ _ _ _ _ _ _ (ccat_cdev_remove_spec b i c e Hok Hi Hc) Hrun).
Qed.

Lemma class_ok_dev_inj base i j ci cj :
  class_ok base -> devices base !! i = Some ci -> devices base !! j = Some cj ->
  dev ci <> 0 -> dev ci = dev cj -> i = j.
Proof.
  intros Hok Hi Hj Hne Heq. pose proof (lookup_lt_Some _ _ _ Hi). pose proof (lookup_lt_Some _ _ _ Hj).
  destruct (ok_slots _ Hok i ci Hi Hne) as [Hdi _].
  destruct (ok_slots _ Hok j cj Hj) as [Hdj _]; [by rewrite <- Heq|].
  pose proof (ok_len _ Hok). pose proof (ok_count _ Hok).
  rewrite Hdi, Hdj, !MKDEV_arith in Heq by lia. lia.
Qed.

(** Removing a device frees its slot, and the class and the region of device numbers are
    given back exactly when it was the last device. *)
Lemma ccat_cdev_remove_frees_slot base i c (e : E) :
  class_ok base -> devices base !! i = Some c -> dev c <> 0 ->
  wp (ccat_cdev_remove (Some i) base) e (fun base' t _ =>
    class_ok base' /\ devices base' = <[i := set_dev 0 c]> (devices base) /\
    (Kernel (UnregisterChrdevRegion (cl_dev base) (count base)) ∈ calls t <->
     n_used (devices base') = 0%nat) /\
    (Kernel (ClassDestroy (cl_class base)) ∈ calls t <-> n_used (devices base') = 0%nat)).
Proof.
  intros Hok Hi Hc.
  eapply wp_mono; [by apply ccat_cdev_remove_spec | done |].
  intros base' t e' (Hok' & Hd & Hinst & Ht). pose proof (ok_inst _ Hok') as Hn.
  rewrite Ht. split_and!; [done..| |]; destruct (Z.eqb_spec (instances base) 1);
    simpl; set_unfold; split; intros; destruct_or?; simplify_eq; auto; lia || (exfalso; lia).
Qed.

(** C38: the life of a character-device class.  After any sequence of probes, successful or not, and
    removes that return, whatever the kernel answers (a granted region has a major number),
    [instances] is the number of slots in use; while there is one, the class has a region of device
    numbers and a class pointer other than NULL; and no two slots in use share a device number.
    Removing any device in use returns, frees exactly its slot, and gives the class and the region
    back exactly when it was the last. *)
Theorem ccat_class_life `{!ChrdevKernel E} n name base :
  (0 < n)%nat -> Z.of_nat n <= 2 ^ 20 ->
  rtc (class_step (E := E)) (fresh_class n name) base ->
  instances base = Z.of_nat (n_used (devices base)) /\
  (0 < instances base -> 0 < MAJOR (cl_dev base) /\ cl_class base <> 0) /\
  (forall i j ci cj, devices base !! i = Some ci -> devices base !! j = Some cj ->
     dev ci <> 0 -> dev ci = dev cj -> i = j) /\
  forall i c (e : E), devices base !! i = Some c -> dev c <> 0 ->
    wp (ccat_cdev_remove (Some i) base) e (fun base' t _ =>
      devices base' = <[i := set_dev 0 c]> (devices base) /\
      (Kernel (UnregisterChrdevRegion (cl_dev base) (count base)) ∈ calls t <->
       n_used (devices base') = 0%nat) /\
      (Kernel (ClassDestroy (cl_class base)) ∈ calls t <-> n_used (devices base') = 0%nat)).
Proof.
  intros Hn Hle Hr. assert (Hok : class_ok base).
  { pose proof (fresh_class_ok n name Hn Hle) as Hok. revert Hok.
    induction Hr; eauto using class_step_ok. }
  split_and!; [apply (ok_inst _ Hok) | apply (ok_region _ Hok) | eauto using class_ok_dev_inj |].
  intros i c e Hi Hc. eapply wp_conseq; [by apply ccat_cdev_remove_frees_slot|]. by intros base' t e' (_ & ? & ? & ?).
Qed.

(** A probe that returns an error after it took a slot leaves the class as it found it: the
    same slots in use and the same number of instances. *)
Lemma ccat_cdev_probe_error_undone func base size (e : E) r base' slot t e' :
  class_ok base -> registered t ->
  ccat_cdev_probe func base size e = (Ret (r, base', slot), t, e') -> r <> 0 ->
  slot = None /\ class_ok base' /\ instances base' = instances base /\
  dev <$> devices base' = dev <$> devices base.
Proof.
  intros Hok Hreg Hrun Hr.
  destruct (wpx_run _ _ _ _ _ _ _ (ccat_cdev_probe_spec func base size e Hok) Hrun Hreg)
    as [Hok' Hs].
  destruct slot as [i|]; [by destruct Hs |].
  destruct Hs as [(_ & -> & _) | (_ & Hi & i & c & x & Hc & Hz & Hx & Hd)]; split_and!; auto.
  rewrite Hd, list_fmap_insert, Hx. apply list_insert_id.
  by rewrite list_lookup_fmap, Hc, <- Hz.
Qed.

(** Opening a file and closing it again leaves the device as it was, and the buffer the open
    allocated, no other, is freed; a refused open allocates nothing or nothing it keeps. *)
Lemma ccat_cdev_open_release_balanced i c (e : E) :
  wp ('(r, c1, ob) ← ccat_cdev_open i c;
      match ob with
      | None => mret (r, c1, None)
      | Some b => '(_, c2) ← ccat_cdev_release c1 b; mret (r, c2, Some (b_ptr b))
      end) e
    (fun '(r, c', p) t _ => c' = c /\
       match p with
       | Some p => r = 0 /\ p <> 0 /\
           calls t = [Kernel (Kzalloc (sizeof_cdev_buffer + iosize c)); Kernel (Kfree p)]
       | None => (r = - EBUSY /\ calls t = []) \/
           (r = - ENOMEM /\ t = [Ev (Kernel (Kzalloc (sizeof_cdev_buffer + iosize c)))
                                  (ext (Kernel (Kzalloc (sizeof_cdev_buffer + iosize c))) e).1] /\
            r_val (ext (Kernel (Kzalloc (sizeof_cdev_buffer + iosize c))) e).1 = 0)
       end).
Proof.
  unfold ccat_cdev_open, ccat_cdev_release. simpl.
  assert (Hid : set_in_use (in_use c - 1 + 1) c = c).
  { rewrite Z.sub_add. by destruct c. }
  destruct (in_use c - 1 =? 0); simpl; wp_run; [|by split; [|left]].
  set (k := Kernel (Kzalloc _)). destruct (Z.eqb_spec (r_val (ext k e).1) 0) as [Hz|Hz]; wp_run.
  - split; [done|]. right. by split_and!.
  - split; [done|]. by split_and!.
Qed.

(** C40: the error path of [ccat_cdev_probe] calls [free_ccat_cdev] before [ccdev->class] is set:
    when [cdev_add] fails on a slot that was never in use, the kernel dereferences NULL instead of
    returning the error.  Everything else may be granted. *)
Theorem ccat_cdev_probe_error_path_oops `{!CdevKernel E} func n name size (e : E) :
  (0 < n)%nat -> Z.of_nat n <= 2 ^ 20 ->
  (forall (e : E) cls d, r_val (ext (Kernel (DeviceCreate cls d)) e).1 <> 0) ->
  (forall (e : E) c d, r_val (ext (Kernel (CdevAdd c d)) e).1 <> 0) ->
  outcome_of (ccat_cdev_probe func (fresh_class n name) size) e = Oops.
Proof.
  intros Hn Hle Hdev Hfail. destruct n as [|n]; [lia|].
  unfold ccat_cdev_probe, alloc_ccat_cdev. apply outcome_bind, wp_bind.
  eapply wp_mono; [by apply ccat_class_init_total, fresh_class_ok | done |].
  intros [r b1] t e1 [_ Hop]. simpl in Hop.
  assert (Hd : devices b1 = fresh_cdev :: replicate n fresh_cdev) by apply Hop.
  assert (Hc : Z.to_nat (count b1) = S n) by (rewrite (op_count _ _ Hop); simpl; lia).
  rewrite Hd, Hc. wp_run. simpl. apply outcome_bind.
  unfold ccat_cdev_init. change (class_ptr (set_devices _ _)) with (class_ptr b1).
  rewrite (proj2 (Z.eqb_neq _ 0) (proj2 (opened_ptr _ _ Hop))).
  wp_run. rewrite (proj2 (Z.eqb_neq _ 0) (Hdev _ _ _)). wp_run. rewrite istrue_nz by apply Hfail. by wp_run.
Qed.

(** [alloc_ccat_cdev] ignores the result of [ccat_class_init]: when the first
    [alloc_chrdev_region] fails, the probe goes on without a class and dereferences NULL. *)
Lemma ccat_cdev_probe_ignores_class_init func n name size (e : E) :
  (0 < n)%nat ->
  (forall (e : E) k, r_val (ext (Kernel (AllocChrdevRegion k)) e).1 <> 0) ->
  outcome_of (ccat_cdev_probe func (fresh_class n name) size) e = Oops.
Proof.
  intros Hn Hfail. destruct n as [|n]; [lia|].
  unfold ccat_cdev_probe, alloc_ccat_cdev, ccat_class_init. simpl. apply outcome_bind.
  wp_run. rewrite istrue_nz by apply Hfail. wp_run. simpl.
  replace (Z.to_nat _) with (S n) by lia. simpl. by wp_run.
Qed.

End Life.

(** ** Witnesses *)

(** A kernel that grants every request, and ones in which one kind of request fails. *)
Definition grant : Env unit := fun c e =>
  (match c with
   | Kernel (AllocChrdevRegion _) => Resp 0 (MKDEV 240 0)
   | Kernel (ClassCreate _) | Kernel (DeviceCreate _ _) | Kernel (Kzalloc _) => Resp 4096 0
   | _ => Resp 0 0
   end, e).

Definition no_device : Env unit := fun c e =>
  match c with Kernel (DeviceCreate _ _) => (Resp 0 0, e) | _ => grant c e end.

Definition no_cdev : Env unit := fun c e =>
  match c with Kernel (CdevAdd _ _) => (Resp (- ENOMEM) 0, e) | _ => grant c e end.

Definition no_region : Env unit := fun c e =>
  match c with Kernel (AllocChrdevRegion _) => (Resp (- ENOMEM) 0, e) | _ => grant c e end.

Definition sram_class : ccat_class := fresh_class 4 "ccat_sram".
Definition sram_func : ccat_function :=
  Function_ (Device 1 1 65536 0) (Info (info_code CCATINFO_SRAM) 0 (1 + 256 * 11) 256 0).

(** The SRAM class with one device in use. *)
Definition sram_one : ccat_class :=
  Class_ (MKDEV 240 0) 4096 1 4
    [Cdev 1 65792 2048 (MKDEV 240 0) true; fresh_cdev; fresh_cdev; fresh_cdev] "ccat_sram" true.

Lemma sram_one_ok : class_ok sram_one.
Proof.
  split; simpl; [reflexivity | lia | reflexivity | intros _; split; [reflexivity | lia] | reflexivity |].
  intros [|[|[|[|i]]]] c Hi Hc; simpl in Hi; simplify_eq; done.
Qed.

Lemma grant_kernel : @CdevKernel unit grant.
Proof. split; intros; by vm_compute. Qed.
Lemma grant_chrdev : @ChrdevKernel unit grant.
Proof. intros e n _. by vm_compute. Qed.
Lemma grant_registers : @CdevRegisters unit grant.
Proof. split; intros; by vm_compute. Qed.
Lemma no_cdev_kernel : @CdevKernel unit no_cdev.
Proof. split; intros; by vm_compute. Qed.

Lemma ccat_class_life_witness :
  instances sram_one = 1 /\ n_used (devices sram_one) = 1%nat.
Proof.
  destruct (ccat_class_life (H := grant) (ChrdevKernel0 := grant_chrdev) 4 "ccat_sram" sram_one
    ltac:(lia) ltac:(lia)) as [Hi _].
  - eapply rtc_once. eapply (step_probe (H := grant) sram_func 2048 tt tt); reflexivity.
  - split; [reflexivity|]. change (instances sram_one) with 1 in Hi. lia.
Defined.

Lemma ccat_cdev_remove_frees_slot_witness :
  exists base' t, ccat_cdev_remove (H := grant) (Some 0%nat) sram_one tt = (Ret base', t, tt) /\
    n_used (devices base') = 0%nat.
Proof.
  pose proof (ccat_cdev_remove_frees_slot (H := grant) sram_one 0
    (Cdev 1 65792 2048 (MKDEV 240 0) true) tt sram_one_ok eq_refl ltac:(by simpl)) as Hw.
  apply wp_elim in Hw as (base' & t & [] & Hrun & _ & Hd & _). exists base', t.
  split; [done|]. by rewrite Hd.
Defined.

Lemma ccat_cdev_probe_error_undone_witness :
  exists base' t, ccat_cdev_probe (H := no_device) sram_func
      (set_devices (<[1%nat := Cdev 0 0 0 0 true]> (devices sram_one)) sram_one) 2048 tt
    = (Ret (-1, base', None), t, tt) /\ instances base' = 1.
Proof.
  set (base := set_devices _ sram_one).
  assert (Hok : class_ok base).
  { split; simpl; [reflexivity | lia | reflexivity | intros _; split; [reflexivity | lia] | reflexivity |].
    intros [|[|[|[|i]]]] c Hi Hc; simpl in Hi; simplify_eq; done. }
  eexists _, _. split; [reflexivity|].
  eapply (ccat_cdev_probe_error_undone (H := no_device) sram_func base 2048 tt);
    [exact Hok | | reflexivity | lia]. by repeat constructor.
Defined.

Lemma ccat_cdev_probe_error_path_oops_witness :
  outcome_of (ccat_cdev_probe (H := no_cdev) sram_func sram_class 2048) tt = Oops.
Proof.
  apply (ccat_cdev_probe_error_path_oops (H := no_cdev) (CdevKernel0 := no_cdev_kernel));
    [lia | lia | done | done].
Defined.

Lemma ccat_cdev_probe_ignores_class_init_witness :
  outcome_of (ccat_cdev_probe (H := no_region) sram_func sram_class 2048) tt = Oops.
Proof. apply (ccat_cdev_probe_ignores_class_init (H := no_region)); [lia | done]. Defined.

(** Two tasks: the first holds the device, the second has been refused and not yet returned. *)
Lemma ccat_cdev_open_exclusive_witness :
  rtc cdev_step (1, [Idle; Idle]) (-1, [Holding; Refused]) /\
  forall i j, [Holding; Refused] !! i = Some Holding ->
              [Holding; Refused] !! j = Some Holding -> i = j.
Proof.
  assert (Hr : rtc cdev_step (1, [Idle; Idle]) (-1, [Holding; Refused])).
  { eapply rtc_l; [by apply (cdev_step_intro true _ _ 0 Idle)|].
    eapply rtc_l; [by apply (cdev_step_intro true _ _ 0 Allocating)|].
    eapply rtc_l; [by apply (cdev_step_intro true _ _ 1 Idle)|]. done. }
  split; [exact Hr|]. exact (proj1 (ccat_cdev_open_exclusive 2 _ _ Hr)).
Defined.
