(* ===== verification/Sram.v ===== *)
(** * The SRAM driver (sram.c)

    A character device over a window of the FPGA that behaves like memory: [read] and [write]
    copy through the buffer of the open file. *)

From S2P Require Import Prelude IO Info Cdev.

Definition CCAT_SRAM_DEVICES_MAX : nat := 4.

Section Sram.
Context {E : Type} `{Env E}.

Definition __sram_read (c : ccat_cdev) (buffer : cdev_buffer) (len off : Z) : M E file_result :=
  l ← ioread_bytes (ioaddr c + off) (Z.to_nat len);
  buffer ← buffer_copy 0 l buffer;
  r ← kern (CopyToUser (slice 0 len (b_data buffer)));
  if istrue r then mret (- EFAULT, off, buffer)
  else mret (len, off + len, buffer).

Definition ccat_sram_read (c : ccat_cdev) (buffer : cdev_buffer) (len off : Z) : M E file_result :=
  let size := iosize c in
  if size <=? u64 off then mret (0, off, buffer)
  else
    let len := Z.min len (u64 (size - off)) in
    __sram_read c buffer len off.

(** [ubuf] are the [len] bytes of the user's buffer. *)
Definition ccat_sram_write (c : ccat_cdev) (buffer : cdev_buffer) (ubuf : list Z) (len off : Z)
  : M E file_result :=
  if iosize c <? u64 (off + len) then mret (0, off, buffer)
  else
    '(r, buffer) ← copy_from_user 0 ubuf len buffer;
    if istrue r then mret (- EFAULT, off, buffer)
    else
      iowrite_bytes (ioaddr c + off) (slice 0 len (b_data buffer)) ;;
      mret (len, off + len, buffer).

(** [1 << func->info.sram_size] is computed in [int]: undefined from 31 on. *)
Definition ccat_sram_probe (func : ccat_function) (cdev_class : ccat_class)
  : M E (Z * ccat_class * option nat) :=
  let NO_SRAM_CONNECTED := 0 in
  let type := Z.land (sram_width (f_info func)) 0x3 in
  if 31 <=? sram_size (f_info func) then oops
  else
    let size := Z.shiftl 1 (sram_size (f_info func)) in
    if type =? NO_SRAM_CONNECTED then mret (- ENODEV, cdev_class, None)
    else ccat_cdev_probe func cdev_class size.

End Sram.

(** ** Correctness *)

Section SramProofs.
Context {E : Type} `{Env E}.

(** The bytes a [read] of [len] bytes at [off] can give. *)
Definition sram_avail (c : ccat_cdev) (len off : Z) : Z :=
  Z.max 0 (Z.min len (iosize c - off)).

Lemma sram_read_guard c len off :
  cdev_wf c -> vfs_range off len ->
  (iosize c <=? u64 off) = (iosize c <=? off) /\
  (off < iosize c -> Z.min len (u64 (iosize c - off)) = sram_avail c len off).
Proof.
  unfold cdev_wf, vfs_range, sram_avail. intros Hc (Ho & Hl & Hv). split.
  - by rewrite u64_small by lia.
  - intros Hlt. rewrite u64_small by lia. lia.
Qed.

Lemma sram_write_guard c len off :
  cdev_wf c -> vfs_range off len -> (iosize c <? u64 (off + len)) = (iosize c <? off + len).
Proof. unfold cdev_wf, vfs_range. intros. by rewrite u64_small by lia. Qed.

Lemma slice_zero_splice {A} n (x l : list A) :
  zlen x = n -> n <= zlen l -> slice 0 n (splice 0 x l) = x.
Proof. intros <- Hl. by apply slice_splice_eq. Qed.

Lemma sram_read_window c b len off :
  cdev_wf c -> vfs_range off len ->
  forall_calls (in_window (ioaddr c) (ioaddr c + iosize c)) (ccat_sram_read c b len off : M E _).
Proof.
  intros Hc Hv. destruct (sram_read_guard c len off Hc Hv) as [Hg Hm].
  unfold ccat_sram_read, __sram_read. rewrite Hg. destruct (Z.leb_spec (iosize c) off); [fc_run|].
  rewrite Hm by done. unfold sram_avail, cdev_wf, vfs_range in *. fc_run.
  - apply ioread_bytes_window; lia.
  - unfold buffer_copy. fc_run.
  - done.
Qed.

Lemma sram_write_window c b ubuf len off :
  cdev_wf c -> vfs_range off len ->
  forall_calls (in_window (ioaddr c) (ioaddr c + iosize c))
    (ccat_sram_write c b ubuf len off : M E _).
Proof.
  intros Hc Hv. unfold ccat_sram_write. rewrite sram_write_guard by done.
  destruct (Z.ltb_spec (iosize c) (off + len)); [fc_run|].
  unfold cdev_wf, vfs_range, copy_from_user, buffer_copy in *. fc_run; try done.
  apply iowrite_bytes_window; [lia|].
  match goal with |- context [slice 0 len ?l] => pose proof (zlen_slice_le 0 len l) end. lia.
Qed.

(** The results of [read] and [write], and that neither overruns the buffer. *)
Lemma ccat_sram_read_spec c b len off (e : E) :
  cdev_wf c -> buffer_wf c b -> vfs_range off len ->
  wp (ccat_sram_read c b len off) e (fun '(r, off', b') _ _ =>
    buffer_wf c b' /\
    (r = - EFAULT /\ off' = off \/ r = sram_avail c len off /\ off' = off + r)).
Proof.
  intros Hc Hb Hv. destruct (sram_read_guard c len off Hc Hv) as [Hg Hm].
  unfold ccat_sram_read, __sram_read. rewrite Hg.
  unfold sram_avail, cdev_wf, vfs_range, buffer_wf in *.
  destruct (Z.leb_spec (iosize c) off); wp_run; [split; [done | right; lia]|].
  rewrite Hm by done. eapply wp_mono; [apply ioread_bytes_any | done |]. intros l t e1 [Hl _].
  wp_run. apply buffer_copy_ok; [done | unfold zlen in *; lia |]. wp_run.
  destruct (istrue _); wp_run; simpl; rewrite zlen_splice by (unfold zlen in *; lia); split; auto.
Qed.

Lemma ccat_sram_write_spec `{!UserMem E} c b ubuf len off (e : E) :
  cdev_wf c -> buffer_wf c b -> vfs_range off len -> zlen ubuf = len ->
  wp (ccat_sram_write c b ubuf len off) e (fun '(r, off', b') t _ =>
    buffer_wf c b' /\
    (iosize c < off + len -> r = 0 /\ off' = off /\ b' = b /\ t = []) /\
    (off + len <= iosize c -> r = - EFAULT /\ off' = off \/ r = len /\ off' = off + len)).
Proof.
  intros Hc Hb Hv Hu. unfold ccat_sram_write. rewrite sram_write_guard by done.
  unfold cdev_wf, vfs_range, buffer_wf in *.
  destruct (Z.ltb_spec (iosize c) (off + len)); wp_run; [split_and!; auto; lia|].
  apply copy_from_user_ok; [done | done | lia |]. intros r b' Hr Hlen _ _.
  destruct (istrue r); wp_run; [split_and!; auto; lia|].
  eapply wp_mono; [apply iowrite_bytes_any | done |]. intros ? t e' _. wp_run.
  split_and!; auto; lia.
Qed.

(** For every environment, every user range and every device, [read] neither overruns the
    buffer nor reads a register outside the SRAM, keeps the buffer's size, and the offset advances
    by what it returns (not at all on -EFAULT). *)
Lemma ccat_sram_read_safe c b len off (e : E) :
  cdev_wf c -> buffer_wf c b -> vfs_range off len ->
  wp (ccat_sram_read c b len off) e (fun '(r, off', b') t _ =>
    buffer_wf c b' /\
    Forall (in_window (ioaddr c) (ioaddr c + iosize c)) (calls t) /\
    (r = - EFAULT /\ off' = off \/ r = sram_avail c len off /\ off' = off + r)).
Proof.
  intros Hc Hb Hv. eapply wp_conseq.
  - apply wp_forall_calls; [by apply sram_read_window | by apply ccat_sram_read_spec].
  - intros [[r off'] b'] t e' [[] Hw]. auto.
Qed.

(** For every environment, [write] never overruns the buffer nor touches a register outside
    the SRAM; a write that does not fit is refused with 0 and no effect, and the offset advances
    by what it returns. *)
Lemma ccat_sram_write_safe `{!UserMem E} c b ubuf len off (e : E) :
  cdev_wf c -> buffer_wf c b -> vfs_range off len -> zlen ubuf = len ->
  wp (ccat_sram_write c b ubuf len off) e (fun '(r, off', b') t _ =>
    buffer_wf c b' /\
    Forall (in_window (ioaddr c) (ioaddr c + iosize c)) (calls t) /\
    (iosize c < off + len -> r = 0 /\ off' = off /\ b' = b /\ t = []) /\
    (off + len <= iosize c -> r = - EFAULT /\ off' = off \/ r = len /\ off' = off + len)).
Proof.
  intros Hc Hb Hv Hu. eapply wp_conseq.
  - apply wp_forall_calls; [by apply sram_write_window | by apply ccat_sram_write_spec].
  - intros [[r off'] b'] t e' [(H1 & H2 & H3) Hw]. auto.
Qed.

(** The probe refuses a function without SRAM, and otherwise registers a device of
    [2^sram_size] bytes at the registers of the function; a file opened on it has a buffer of
    exactly that size, which is what [read] and [write] rely on. *)
Lemma ccat_sram_probe_open `{!CdevKernel E} `{!CdevRegisters E} func base (e : E) :
  class_ok base -> Exists (fun c => dev c = 0) (devices base) -> sram_size (f_info func) < 31 ->
  wp (ccat_sram_probe func base) e (fun '(r, base', slot) t e' =>
    if Z.land (sram_width (f_info func)) 3 =? 0
    then r = - ENODEV /\ base' = base /\ slot = None /\ t = []
    else r = 0 /\ exists i c, slot = Some i /\ devices base' !! i = Some c /\
      ioaddr c = func_base func /\ iosize c = 2 ^ sram_size (f_info func) /\ cdev_wf c /\
      forall e2 : E, wp (ccat_cdev_open i c) e2 (fun '(r2, _, ob) _ _ =>
        r2 <> - EBUSY /\ forall b, ob = Some b -> buffer_wf c b)).
Proof.
  intros Hok Hfree Hsz. unfold ccat_sram_probe.
  assert (H0 : 0 <= sram_size (f_info func)) by apply u8_byte.
  destruct (Z.leb_spec 31 (sram_size (f_info func))); [lia|].
  destruct (_ =? 0); [by wp_run|].
  eapply wp_mono; [by apply ccat_cdev_probe_succeeds | done |].
  intros [[r base'] slot] t e' [-> (i & -> & Hi & _ & Hd)]. split; [done|].
  rewrite Z.shiftl_mul_pow2, Z.mul_1_l in Hd by lia.
  eexists i, _. rewrite Hd, list_lookup_insert_eq by done. split_and!; [done.. | |].
  - unfold cdev_wf. simpl. split; [apply Z.pow_nonneg; lia | apply Z.pow_lt_mono_r; lia].
  - intros e2. unfold ccat_cdev_open. simpl. wp_run.
    destruct (_ =? 0); wp_run; (split; [done|]); intros b Hb; simplify_eq.
    unfold buffer_wf, zlen. simpl. rewrite length_replicate.
    rewrite Z2Nat.id; [done | apply Z.pow_nonneg; lia].
Qed.

(** ** Contents, against the memory interface of the device *)

Section Contents.
Context (c : ccat_cdev) `{!IoMem E (ioaddr c) (iosize c)} `{!UserMem E}.
Local Abbreviation sram := (im (ioaddr c) (iosize c)).

Lemma sram_read_contents b len off (e : E) :
  cdev_wf c -> buffer_wf c b -> vfs_range off len -> off < iosize c ->
  wp (ccat_sram_read c b len off) e (fun '(r, off', b') t e' =>
    (forall a, sram e' a = sram e a) /\
    user_out t = [fslice (sram e) off (Z.to_nat (sram_avail c len off))] /\
    (r = sram_avail c len off \/ r = - EFAULT)).
Proof.
  intros Hc Hb Hv Hlt. destruct (sram_read_guard c len off Hc Hv) as [Hg Hm].
  unfold ccat_sram_read, __sram_read. rewrite Hg, (proj2 (Z.leb_gt _ _) Hlt), Hm by done.
  set (n := sram_avail c len off). unfold cdev_wf, vfs_range, buffer_wf in *.
  assert (Hn : 0 <= n /\ off + n <= iosize c) by (unfold n, sram_avail; lia).
  wp_run. eapply wp_mono.
  { apply wp_forall_calls; [apply ioread_bytes_not_out|]. apply ioread_bytes_mem; lia. }
  { done. }
  intros l t e1 [[-> He1] Ht]. wp_run.
  assert (Hz : zlen (fslice (sram e) off (Z.to_nat n)) = n) by (unfold zlen; rewrite length_fslice; lia).
  apply buffer_copy_ok; [done | lia |]. wp_run. simpl.
  rewrite slice_zero_splice by lia. apply user_out_none in Ht.
  destruct (istrue _); wp_run; simpl; rewrite user_out_app, Ht; (split; [|auto]);
    intros a; rewrite im_user by done; apply He1.
Qed.

Lemma sram_write_contents b ubuf len off (e : E) :
  cdev_wf c -> buffer_wf c b -> vfs_range off len -> zlen ubuf = len -> Forall is_byte ubuf ->
  off + len <= iosize c ->
  wp (ccat_sram_write c b ubuf len off) e (fun '(r, off', b') t e' =>
    user_out t = [] /\ buffer_wf c b' /\
    (r = len /\ (forall a, sram e' a = fwrite (sram e) off ubuf a) \/
     r = - EFAULT /\ (forall a, sram e' a = sram e a))).
Proof.
  intros Hc Hb Hv Hu Hbytes Hfit. unfold ccat_sram_write. rewrite sram_write_guard by done.
  rewrite (proj2 (Z.ltb_ge _ _)) by done. unfold cdev_wf, vfs_range, buffer_wf in *.
  wp_run. apply copy_from_user_ok; [done | done | lia |]. intros r b' Hr Hlen _ Hcopy.
  destruct (istrue r) eqn:Ht; wp_run.
  { split_and!; [done | lia |]. right. split; [done|]. intros a. by rewrite im_user. }
  assert (r = 0) as Hr0 by (unfold istrue in Ht; destruct (Z.eqb_spec r 0); done).
  rewrite (Hcopy Hr0). simpl. rewrite slice_zero_splice by lia.
  eapply wp_mono.
  { apply wp_forall_calls; [apply iowrite_bytes_not_out|]. apply iowrite_bytes_mem; [lia.. | done]. }
  { done. }
  intros ? t e' [He' Hout]. wp_run. simpl. apply user_out_none in Hout.
  rewrite app_nil_r, Hout. split_and!; [done | by rewrite zlen_splice by lia |]. left.
  split; [done|]. intros x. rewrite He'. apply fwrite_ext. by rewrite im_user.
Qed.

(** [read] gives the user exactly the bytes of the SRAM at the file offset, as many as were
    asked for up to the end of the device, and leaves the SRAM alone; at or past the end it gives
    nothing and returns 0. *)
Lemma ccat_sram_read_contents b len off (e : E) :
  cdev_wf c -> buffer_wf c b -> vfs_range off len ->
  wp (ccat_sram_read c b len off) e (fun '(r, off', b') t e' =>
    (forall a, sram e' a = sram e a) /\
    (iosize c <= off -> r = 0 /\ t = []) /\
    (off < iosize c ->
       user_out t = [fslice (sram e) off (Z.to_nat (Z.min len (iosize c - off)))] /\
       (r = Z.min len (iosize c - off) \/ r = - EFAULT))).
Proof.
  intros Hc Hb Hv. destruct (Z.lt_ge_cases off (iosize c)) as [Hlt|Hge].
  - eapply wp_mono; [by apply sram_read_contents | done |].
    intros [[r off'] b'] t e' (Hs & Hu & Hr).
    replace (sram_avail c len off) with (Z.min len (iosize c - off)) in *
      by (unfold sram_avail, vfs_range in *; lia).
    split_and!; [done | lia | done].
  - unfold ccat_sram_read. rewrite (proj1 (sram_read_guard c len off Hc Hv)).
    rewrite (proj2 (Z.leb_le _ _)) by lia. wp_run. split_and!; [done | done | lia].
Qed.

(** What was written to the SRAM is what a [read] of the same range gives back, and no byte
    outside the range changes. *)
Lemma ccat_sram_write_read_roundtrip b ubuf len off (e : E) :
  cdev_wf c -> buffer_wf c b -> 0 <= off -> 0 < len -> off + len <= iosize c ->
  zlen ubuf = len -> Forall is_byte ubuf ->
  wp ('(r1, _, b1) ← ccat_sram_write c b ubuf len off;
      '(r2, _, _) ← ccat_sram_read c b1 len off; mret (r1, r2)) e
    (fun '(r1, r2) t e' => r1 = len ->
       user_out t = [ubuf] /\ (r2 = len \/ r2 = - EFAULT) /\
       forall a, a < off \/ off + len <= a -> sram e' a = sram e a).
Proof.
  intros Hc Hb Ho Hl Hfit Hu Hbytes.
  assert (Hv : vfs_range off len) by (unfold cdev_wf, vfs_range in *; lia).
  apply wp_bind. eapply wp_mono; [by apply sram_write_contents | done |].
  intros [[r1 off1] b1] t e1 (Hout & Hb1 & Hw). apply wp_bind.
  eapply wp_mono; [apply sram_read_contents; try done; lia | done |].
  intros [[r2 off2] b2] t2 e2 (Hs & Hu2 & Hr2). wp_run. intros ->.
  destruct Hw as [[_ Hw] | [Hbad _]]; [|unfold EFAULT in *; lia].
  assert (Ha : sram_avail c len off = len) by (unfold sram_avail; lia).
  rewrite Ha in Hu2, Hr2. rewrite !user_out_app, Hout, Hu2. split_and!; [|done|].
  - simpl. f_equal. rewrite (fslice_ext _ (fwrite (sram e) off ubuf)) by done.
    replace (Z.to_nat len) with (length ubuf) by (unfold zlen in *; lia). apply fslice_fwrite.
  - intros a Haa. rewrite Hs, Hw. apply fwrite_out. lia.
Qed.

End Contents.
End SramProofs.

(** ** Witnesses: a window that is plain memory *)

Definition ram_env (io : Z) : Env (Z -> Z) := fun c m =>
  match c with
  | IoRead W8 a => (Resp (u8 (m (a - io))) 0, m)
  | IoWrite W8 a v => (Resp 0 0, upd m (a - io) v)
  | _ => (Resp 0 0, m)
  end.

#[export] Instance ram_env_mem io size : @IoMem (Z -> Z) (ram_env io) io size.
Proof.
  unshelve refine (@Build_IoMem _ (ram_env io) _ _ (fun m a => u8 (m a)) _ _ _ _).
  - intros. apply u8_byte.
  - intros m a Ha. simpl. by replace (io + a - io) with a by lia.
  - intros m a v Ha Hv b. simpl. replace (io + a - io) with a by lia. unfold upd.
    destruct (b =? a); [by apply u8_small | done].
  - intros m k Hk b. done.
Defined.

#[export] Instance ram_env_user io : @UserMem (Z -> Z) (ram_env io).
Proof. intros m n Hn. simpl. lia. Qed.

Definition sram_dev : ccat_cdev := Cdev 0 4096 8 (MKDEV 240 0) true.
Definition sram_buf : cdev_buffer := Buffer 0 8192 0 (replicate 8 0).
Definition sram_zero : Z -> Z := fun _ => 0.

Lemma ccat_sram_read_safe_witness :
  outcome_of (ccat_sram_read (H := ram_env 4096) sram_dev sram_buf 100 3) sram_zero <> Oops.
Proof.
  pose proof (ccat_sram_read_safe (H := ram_env 4096) sram_dev sram_buf 100 3 sram_zero) as Hw.
  unfold cdev_wf, buffer_wf, vfs_range in Hw.
  apply wp_elim in Hw as (res & t & e' & Hrun & _); [|simpl; lia | done | lia].
  unfold outcome_of. by rewrite Hrun.
Defined.

Lemma ccat_sram_write_safe_witness :
  (exists b t, ccat_sram_write (H := ram_env 4096) sram_dev sram_buf [1; 2; 3] 3 6 sram_zero
               = (Ret (0, 6, b), t, sram_zero) /\ t = []).
Proof.
  pose proof (ccat_sram_write_safe (H := ram_env 4096) sram_dev sram_buf [1; 2; 3] 3 6 sram_zero) as Hw.
  unfold cdev_wf, buffer_wf, vfs_range in Hw.
  apply wp_elim in Hw as ([[r o] b] & t & e' & Hrun & _ & _ & Hrej & _);
    [|simpl; lia | done | lia | done].
  destruct Hrej as (-> & -> & -> & ->); [simpl; lia|].
  eexists _, []. split; [|done]. reflexivity.
Defined.

Lemma ccat_sram_read_contents_witness :
  exists r o b t m', ccat_sram_read (H := ram_env 4096) sram_dev sram_buf 100 5 (fun a => a + 1)
    = (Ret (r, o, b), t, m') /\ user_out t = [[6; 7; 8]].
Proof.
  pose proof (ccat_sram_read_contents (H := ram_env 4096) sram_dev sram_buf 100 5 (fun a => a + 1)) as Hw.
  unfold cdev_wf, buffer_wf, vfs_range in Hw.
  apply wp_elim in Hw as ([[r o] b] & t & m' & Hrun & _ & _ & Hin); [|simpl; lia | done | lia].
  eexists _, _, _, _, _. split; [exact Hrun|]. apply Hin. simpl. lia.
Defined.

Lemma ccat_sram_write_read_roundtrip_witness :
  exists t m', ('(r1, _, b1) ← ccat_sram_write (H := ram_env 4096) sram_dev sram_buf [1; 2; 3] 3 4;
                '(r2, _, _) ← ccat_sram_read (H := ram_env 4096) sram_dev b1 3 4; mret (r1, r2))
               sram_zero = (Ret (3, 3), t, m') /\ user_out t = [[1; 2; 3]].
Proof.
  pose proof (ccat_sram_write_read_roundtrip (H := ram_env 4096) sram_dev sram_buf [1; 2; 3] 3 4
    sram_zero) as Hw.
  unfold cdev_wf, buffer_wf, vfs_range in Hw.
  apply wp_elim in Hw as ([r1 r2] & t & m' & Hrun & Hrt);
    [|simpl; lia | done | lia | lia | simpl; lia | done | repeat constructor; lia].
  assert (r1 = 3 /\ r2 = 3) as [-> ->] by (cbv in Hrun; split; congruence).
  exists t, m'. split; [exact Hrun|]. by apply Hrt.
Defined.

Lemma ccat_sram_probe_open_witness :
  exists base' i t, ccat_sram_probe (H := grant) sram_func sram_class tt
    = (Ret (0, base', Some i), t, tt).
Proof.
  pose proof (ccat_sram_probe_open (H := grant) (CdevKernel0 := grant_kernel)
    (CdevRegisters0 := grant_registers) sram_func sram_class tt
    (fresh_class_ok 4 "ccat_sram" ltac:(lia) ltac:(lia))
    ltac:(by apply Exists_cons; left) ltac:(vm_compute; done)) as Hw.
  apply wp_elim in Hw as ([[r b] s] & t & [] & Hrun & -> & i & c & -> & _). eauto.
Defined.
