(* ===== verification/SramFile.v ===== *)
(** * An SRAM device as a file (sram.c with the helper of module.c)

    What a program sees that opens [/dev/ccat_sram<n>]: [open], any sequence of [read], [write] and
    [lseek], [close].  The kernel calls the driver's functions with the position of the file and
    stores the position they leave.  The file shows that this is a file of fixed size over the
    bytes of the SRAM, whatever the block sizes. *)

From S2P Require Import Prelude IO Info Cdev Sram.

(** ** Sessions *)

(** The system calls on an open file. *)
Inductive file_op :=
  | FRead (len : Z)
  | FWrite (data : list Z)
  | FSeek (offset whence : Z).

Definition SEEK_SET : Z := 0.
Definition SEEK_CUR : Z := 1.
Definition SEEK_END : Z := 2.

(** What a system call returns, and the bytes a successful [read] delivered. *)
Abbreviation sys_result := (Z * list Z)%type.

Section Session.
Context {E : Type} `{Env E}.

(** [.read], [.write] and [.llseek] of [cdev_class.fops]. *)
Definition sram_fop (c : ccat_cdev) (op : file_op) (b : cdev_buffer) (pos : Z)
  : M E (sys_result * cdev_buffer * Z) :=
  match op with
  | FRead len =>
      '(r, pos', b', t) ← listen (ccat_sram_read c b len pos);
      mret ((r, if 0 <=? r then concat (user_out t) else []), b', pos')
  | FWrite data =>
      '(r, pos', b') ← ccat_sram_write c b data (zlen data) pos;
      mret ((r, []), b', pos')
  | FSeek offset whence =>
      r ← ccat_cdev_llseek c pos offset whence;
      mret ((r, []), b, if 0 <=? r then r else pos)
  end.

Fixpoint sram_fops (c : ccat_cdev) (ops : list file_op) (b : cdev_buffer) (pos : Z)
  : M E (list sys_result * cdev_buffer * Z) :=
  match ops with
  | [] => mret ([], b, pos)
  | op :: ops' =>
      '(r, b, pos) ← sram_fop c op b pos;
      '(rs, b, pos) ← sram_fops c ops' b pos;
      mret (r :: rs, b, pos)
  end.

(** The result of [open], the device afterwards, the results of the system calls. *)
Definition sram_session (i : nat) (c : ccat_cdev) (ops : list file_op)
  : M E (Z * ccat_cdev * list sys_result) :=
  '(r, c, ob) ← ccat_cdev_open i c;
  match ob with
  | None => mret (r, c, [])
  | Some b =>
      '(rs, b, _) ← sram_fops c ops b 0;
      '(_, c) ← ccat_cdev_release c b;
      mret (r, c, rs)
  end.

End Session.

(** ** The abstract file *)

(** Bytes by offset, and the position. *)
Record sram_file := SramFile { contents : Z -> Z; fpos : Z }.

Definition seek_target (size pos offset whence : Z) : Z :=
  if whence =? SEEK_SET then offset
  else if whence =? SEEK_CUR then pos + offset
  else if whence =? SEEK_END then size + offset
  else -1.

(** One system call on a file of [size] bytes.  A bad user buffer can fail every access that
    touches it, without effect; a [write] that does not fit is not done at all. *)
Inductive file_step (size : Z) : file_op -> sram_file -> sys_result -> sram_file -> Prop :=
  | file_read len f n :
      n = Z.max 0 (Z.min len (size - fpos f)) ->
      file_step size (FRead len) f (n, fslice (contents f) (fpos f) (Z.to_nat n))
                (SramFile (contents f) (fpos f + n))
  | file_read_fault len f :
      fpos f < size -> file_step size (FRead len) f (- EFAULT, []) f
  | file_write data f :
      fpos f + zlen data <= size ->
      file_step size (FWrite data) f (zlen data, [])
                (SramFile (fwrite (contents f) (fpos f) data) (fpos f + zlen data))
  | file_write_full data f :
      size < fpos f + zlen data -> file_step size (FWrite data) f (0, []) f
  | file_write_fault data f :
      fpos f + zlen data <= size -> file_step size (FWrite data) f (- EFAULT, []) f
  | file_seek offset whence f p :
      p = seek_target size (fpos f) offset whence -> 0 <= p <= size ->
      file_step size (FSeek offset whence) f (p, []) (SramFile (contents f) p)
  | file_seek_bad offset whence f p :
      p = seek_target size (fpos f) offset whence -> p < 0 \/ size < p ->
      file_step size (FSeek offset whence) f (- EINVAL, []) f.

Inductive file_steps (size : Z) : list file_op -> sram_file -> list sys_result -> sram_file -> Prop :=
  | file_done f : file_steps size [] f [] f
  | file_more op ops f r f1 rs f2 :
      file_step size op f r f1 -> file_steps size ops f1 rs f2 ->
      file_steps size (op :: ops) f (r :: rs) f2.

#[export] Hint Constructors file_steps : ccat.

(** ** Refinement *)

(** The kernel services of a session besides copying: they do not touch the SRAM, and
    [fixed_size_llseek] does what its documentation says. *)
Definition file_service (k : kcall) : Prop :=
  match k with Kzalloc _ | Kfree _ | FixedSizeLlseek _ _ _ _ => True | _ => False end.

Class FileKernel (E : Type) `{Env E} (io size : Z) `{!IoMem E io size} : Prop := {
  fk_mem : forall (e : E) k, file_service k -> forall a,
    im io size (ext (Kernel k) e).2 a = im io size e a;
  fk_seek : forall (e : E) pos offset whence, 0 <= pos <= size ->
    let p := seek_target size pos offset whence in
    r_val (ext (Kernel (FixedSizeLlseek pos offset whence size)) e).1 =
      if (0 <=? p) && (p <=? size) then p else - EINVAL;
}.

(** The kernel limits one transfer ([MAX_RW_COUNT]); the user's buffer holds bytes. *)
Definition op_ok (op : file_op) : Prop :=
  match op with
  | FRead len => 0 <= len < 2 ^ 31
  | FWrite data => zlen data < 2 ^ 31 /\ Forall is_byte data
  | FSeek _ _ => True
  end.

Section Refinement.
Context {E : Type} `{Env E} (c : ccat_cdev).
Context `{!IoMem E (ioaddr c) (iosize c)} `{!UserMem E} `{!FileKernel E (ioaddr c) (iosize c)}.
Context (Hsize : 0 <= iosize c < 2 ^ 62).
Local Abbreviation sram := (im (ioaddr c) (iosize c)).

(** The SRAM and the position are those of the abstract file. *)
Definition models (f : sram_file) (pos : Z) (e : E) : Prop :=
  (forall a, sram e a = contents f a) /\ pos = fpos f /\ 0 <= pos <= iosize c.

Lemma vfs_pos pos len : 0 <= pos <= iosize c -> 0 <= len < 2 ^ 31 -> vfs_range pos len.
Proof. unfold vfs_range. lia. Qed.

Lemma dev_wf : cdev_wf c.
Proof. unfold cdev_wf. lia. Qed.

Lemma fslice_nil f a : fslice f a 0 = [].
Proof. done. Qed.

Lemma sram_read_step b len pos f (e : E) :
  buffer_wf c b -> 0 <= len < 2 ^ 31 -> models f pos e ->
  wp (sram_fop c (FRead len) b pos) e (fun '(r, b', pos') _ e' =>
    buffer_wf c b' /\ exists f', file_step (iosize c) (FRead len) f r f' /\ models f' pos' e').
Proof.
  intros Hb Hl (Hm & -> & Hp). unfold sram_fop. apply wp_bind, wp_listen.
  pose proof (vfs_pos _ _ Hp Hl) as Hv. destruct (Z.lt_ge_cases (fpos f) (iosize c)) as [Hlt|Hge].
  - pose proof (ccat_sram_read_spec c b len (fpos f) e dev_wf Hb Hv) as Hsafe.
    pose proof (sram_read_contents c b len (fpos f) e dev_wf Hb Hv Hlt) as Hcont.
    eapply wp_conseq; [exact (wp_and _ _ _ _ _ Hsafe Hcont)|].
    intros [[r pos'] b'] t e' [[Hb' Hr] (Hs & Hu & _)].
    wp_run. split; [done|]. destruct Hr as [[-> ->] | [-> ->]].
    + exists f. split; [by constructor|]. split_and!; [|done|lia..].
      intros a. rewrite Hs. apply Hm.
    + rewrite (proj2 (Z.leb_le _ _)) by (unfold sram_avail; lia). rewrite Hu. cbn [concat].
      rewrite app_nil_r, (fslice_ext _ (contents f)) by done.
      eexists. split; [by constructor|]. unfold sram_avail. split_and!; simpl; [|done|lia..].
      intros a. rewrite Hs. apply Hm.
  - unfold ccat_sram_read. rewrite (proj1 (sram_read_guard c len (fpos f) dev_wf Hv)).
    rewrite (proj2 (Z.leb_le _ _)) by lia. wp_run. split; [done|].
    exists (SramFile (contents f) (fpos f + 0)). split; [|by split_and!; simpl; [|lia..]].
    rewrite <- (fslice_nil (contents f) (fpos f)). by apply (file_read _ len f 0); lia.
Qed.

Lemma sram_write_step b data pos f (e : E) :
  buffer_wf c b -> op_ok (FWrite data) -> models f pos e ->
  wp (sram_fop c (FWrite data) b pos) e (fun '(r, b', pos') _ e' =>
    buffer_wf c b' /\ exists f', file_step (iosize c) (FWrite data) f r f' /\ models f' pos' e').
Proof.
  intros Hb [Hl Hbytes] (Hm & -> & Hp). unfold sram_fop. apply wp_bind.
  pose proof (zlen_nonneg data) as Hz.
  pose proof (vfs_pos (fpos f) (zlen data) Hp ltac:(lia)) as Hv.
  destruct (Z.lt_ge_cases (iosize c) (fpos f + zlen data)) as [Hfull|Hfit].
  - unfold ccat_sram_write. rewrite (sram_write_guard c _ _ dev_wf Hv).
    rewrite (proj2 (Z.ltb_lt _ _)) by done. wp_run. split; [done|]. exists f.
    split; [by constructor | done].
  - pose proof (ccat_sram_write_spec c b data (zlen data) (fpos f) e dev_wf Hb Hv eq_refl) as Hsafe.
    pose proof (sram_write_contents c b data (zlen data) (fpos f) e dev_wf Hb Hv eq_refl Hbytes Hfit)
      as Hcont.
    eapply wp_conseq; [exact (wp_and _ _ _ _ _ Hsafe Hcont)|].
    intros [[r pos'] b'] t e' [(Hb' & _ & Hr) (_ & _ & Hs)]. wp_run. split; [done|].
    destruct (Hr Hfit) as [[-> ->] | [-> ->]], Hs as [[Hr' Hs] | [Hr' Hs]];
      try (unfold EFAULT in *; lia).
    + exists f. split; [by constructor|]. split_and!; [|done|lia..]. intros a. rewrite Hs. apply Hm.
    + eexists. split; [by constructor|]. split_and!; simpl; [|done|lia..].
      intros a. rewrite Hs. by apply fwrite_ext.
Qed.

Lemma sram_seek_step b offset whence pos f (e : E) :
  models f pos e ->
  wp (sram_fop c (FSeek offset whence) b pos) e (fun '(r, b', pos') _ e' =>
    b' = b /\ exists f', file_step (iosize c) (FSeek offset whence) f r f' /\ models f' pos' e').
Proof.
  intros (Hm & -> & Hp). unfold sram_fop, ccat_cdev_llseek. wp_run. split; [done|].
  rewrite fk_seek by done. set (p := seek_target _ _ _ _).
  assert (Hmem : forall a, sram (ext (Kernel (FixedSizeLlseek (fpos f) offset whence (iosize c))) e).2 a
                           = contents f a) by (intros a; rewrite fk_mem by done; apply Hm).
  destruct (Z.leb_spec 0 p) as [H0|H0], (Z.leb_spec p (iosize c)) as [H1|H1]; cbn [andb].
  1: rewrite (proj2 (Z.leb_le 0 p)) by done; exists (SramFile (contents f) p);
     split; [by constructor | split_and!; simpl; done || lia].
  all: exists f; (split; [by apply (file_seek_bad _ _ _ _ p); auto | split_and!; simpl; done || lia]).
Qed.

Lemma sram_fops_refine ops b pos f (e : E) :
  buffer_wf c b -> Forall op_ok ops -> models f pos e ->
  wp (sram_fops c ops b pos) e (fun '(rs, b', pos') _ e' =>
    exists f', file_steps (iosize c) ops f rs f' /\ models f' pos' e').
Proof.
  revert b pos f e. induction ops as [|op ops IH]; intros b pos f e Hb Hops Hm; cbn [sram_fops].
  { wp_run. eauto with ccat. }
  apply Forall_cons in Hops as [Hop Hops]. apply wp_bind.
  assert (Hstep : wp (sram_fop c op b pos) e (fun '(r, b', pos') _ e' =>
    buffer_wf c b' /\ exists f', file_step (iosize c) op f r f' /\ models f' pos' e')).
  { destruct op; [by apply sram_read_step | by apply sram_write_step |].
    eapply wp_conseq; [by apply sram_seek_step|]. by intros [[r b'] pos'] t e' [-> Hf]. }
  eapply wp_conseq; [exact Hstep|]. intros [[r b1] pos1] t1 e1 (Hb1 & f1 & Hs1 & Hm1).
  apply wp_bind. eapply wp_conseq; [by apply (IH b1 pos1 f1)|].
  intros [[rs b2] pos2] t2 e2 (f2 & Hs2 & Hm2). wp_run. eauto with ccat.
Qed.

End Refinement.

(** ** Whole sessions *)

Section Sessions.
Context {E : Type} `{Env E} (c : ccat_cdev).
Context `{!IoMem E (ioaddr c) (iosize c)} `{!UserMem E} `{!FileKernel E (ioaddr c) (iosize c)}.
Context (Hsize : 0 <= iosize c < 2 ^ 62).
Local Abbreviation sram := (im (ioaddr c) (iosize c)).

(** A session on an SRAM device is a session on a file of [iosize] bytes: every sequence of
    [read], [write] and [lseek] gives the results, delivers the bytes and leaves the contents that
    the abstract file gives, whatever the lengths and offsets, also past the end and when copying
    from or to the user fails; the device is free again afterwards, and an open that fails has no
    effect. *)
Lemma ccat_sram_session_refines i ops (e : E) :
  Forall op_ok ops ->
  wp (sram_session i c ops) e (fun '(r, c', rs) _ e' => c' = c /\
    ((r = - ENOMEM \/ r = - EBUSY /\ in_use c <> 1) /\ rs = [] /\ (forall a, sram e' a = sram e a) \/
     r = 0 /\ exists f', file_steps (iosize c) ops (SramFile (sram e) 0) rs f' /\
       forall a, sram e' a = contents f' a)).
Proof.
  intros Hops. unfold sram_session, ccat_cdev_open. apply wp_bind. simpl.
  assert (Hid : set_in_use (in_use c - 1 + 1) c = c) by (rewrite Z.sub_add; by destruct c).
  destruct (Z.eqb_spec (in_use c - 1) 0) as [Hu|Hu]; simpl; wp_run.
  2:{ split; [done|]. left. split_and!; [|done..]. right. split; [done | lia]. }
  apply wp_null; intros Hz; wp_run.
  { split; [done|]. left. split_and!; [by left | done |]. intros a. by rewrite fk_mem. }
  set (c1 := set_in_use (in_use c - 1) c). set (e1 := (ext _ e).2).
  eapply wp_conseq.
  { apply (sram_fops_refine c1 Hsize ops _ 0 (SramFile (sram e) 0) e1); [|done|].
    - unfold buffer_wf, zlen. simpl. rewrite length_replicate. lia.
    - split_and!; simpl; [|done|lia..]. intros a. by apply fk_mem. }
  intros [[rs b] pos] t e2 (f & Hs & Hm & _). unfold ccat_cdev_release. wp_run.
  split; [done|]. right. split; [done|]. exists f. split; [done|]. intros a.
  rewrite fk_mem by done. apply Hm.
Qed.

(** *** Block sizes do not matter *)

(** Successive writes are one write of all the bytes, successive reads one read. *)
Lemma file_writes size chunks f rs f' :
  fpos f + zlen (concat chunks) <= size ->
  file_steps size (FWrite <$> chunks) f rs f' -> Forall (fun r => r.1 <> - EFAULT) rs ->
  fpos f' = fpos f + zlen (concat chunks) /\ concat (snd <$> rs) = [] /\
  forall a, contents f' a = fwrite (contents f) (fpos f) (concat chunks) a.
Proof.
  revert f rs. induction chunks as [|l chunks IH]; intros f rs Hfit Hs Hr; inversion Hs; subst.
  - split_and!; [unfold zlen; simpl; lia | done |]. intros a. by rewrite fwrite_nil.
  - simpl concat in *. rewrite zlen_app in *. pose proof (zlen_nonneg (concat chunks)).
    apply Forall_cons in Hr as [Hr Hrs].
    match goal with Hstep : file_step _ _ _ _ _ |- _ => inversion Hstep; subst; simpl in Hr; try lia end.
    edestruct IH as (Hp & Hd & Hc); [|done|done|]; [simpl; lia|]. simpl in *.
    split_and!; [lia | done |]. intros a. by rewrite Hc, fwrite_app.
Qed.

Lemma file_reads size lens f rs f' :
  Forall (fun n => 0 <= n) lens -> 0 <= fpos f -> fpos f + foldr Z.add 0 lens <= size ->
  file_steps size (FRead <$> lens) f rs f' -> Forall (fun r => r.1 <> - EFAULT) rs ->
  contents f' = contents f /\
  concat (snd <$> rs) = fslice (contents f) (fpos f) (Z.to_nat (foldr Z.add 0 lens)).
Proof.
  intros Hl. revert f rs. induction Hl as [|n lens Hn Hl IH]; intros f rs Hp Hfit Hs Hr;
    inversion Hs; subst; [done|]. simpl foldr in *.
  assert (0 <= foldr Z.add 0 lens) by (clear -Hl; induction Hl; simpl; lia).
  apply Forall_cons in Hr as [Hr Hrs].
  match goal with Hstep : file_step _ _ _ _ _ |- _ => inversion Hstep; subst; simpl in Hr; try lia end.
  replace (Z.max 0 (Z.min n (size - fpos f))) with n in * by lia.
  edestruct IH as [Hc Hd]; [| |done|done|]; [simpl; lia..|].
  cbn [contents fpos] in *. split; [done|]. rewrite fmap_cons. cbn [concat snd].
  rewrite Hd, Z2Nat.inj_add, fslice_app, Z2Nat.id by lia. done.
Qed.

Lemma file_steps_app size ops ops' f rs f' :
  file_steps size (ops ++ ops') f rs f' ->
  exists rs1 rs2 f1, rs = rs1 ++ rs2 /\ file_steps size ops f rs1 f1 /\ file_steps size ops' f1 rs2 f'.
Proof.
  revert f rs. induction ops as [|op ops IH]; intros f rs Hs.
  - exists [], rs, f. by split_and!; [|constructor|].
  - inversion Hs as [|op' ops1 f0 r f1 rs' f2 Hstep Hrest]; subst.
    destruct (IH _ _ Hrest) as (rs1 & rs2 & g & -> & H1 & H2).
    exists (r :: rs1), rs2, g. split_and!; eauto with ccat.
Qed.

Lemma file_seek_to size o f rs f' :
  0 <= o <= size -> file_steps size [FSeek o SEEK_SET] f rs f' ->
  concat (snd <$> rs) = [] /\ f' = SramFile (contents f) o.
Proof.
  intros Ho Hs. inversion Hs; subst.
  match goal with Hn : file_steps _ [] _ _ _ |- _ => inversion Hn; subst end.
  match goal with Hstep : file_step _ _ _ _ _ |- _ => inversion Hstep; subst end; [done|].
  unfold seek_target in *. simpl in *. lia.
Qed.

(** C19: writing at any offset in blocks of any sizes and reading back in blocks of any other sizes
    gives exactly the bytes written, and no byte outside them changes: the file is independent of
    how the transfers are cut. *)
Theorem ccat_sram_blocks_roundtrip b pos o chunks lens (e : E) :
  buffer_wf c b -> 0 <= pos <= iosize c ->
  Forall (fun l => op_ok (FWrite l)) chunks -> Forall (fun n => op_ok (FRead n)) lens ->
  0 <= o -> o + zlen (concat chunks) <= iosize c -> foldr Z.add 0 lens = zlen (concat chunks) ->
  wp (sram_fops c ([FSeek o SEEK_SET] ++ (FWrite <$> chunks) ++ [FSeek o SEEK_SET] ++ (FRead <$> lens)) b pos) e
    (fun '(rs, _, _) _ e' => Forall (fun r => r.1 <> - EFAULT) rs ->
       concat (snd <$> rs) = concat chunks /\
       forall a, a < o \/ o + zlen (concat chunks) <= a -> sram e' a = sram e a).
Proof.
  intros Hb Hp Hch Hl Ho Hfit Hsum. pose proof (zlen_nonneg (concat chunks)) as Hz.
  eapply wp_conseq.
  { apply (sram_fops_refine c Hsize _ b pos (SramFile (sram e) pos)); [done | | by split_and!; simpl; done || lia].
    rewrite !Forall_app, !Forall_fmap. split_and!; try (by constructor); done. }
  intros [[rs b'] pos'] t e' (f & Hs & Hm & _). intros Hok.
  apply file_steps_app in Hs as (r1 & rs' & f1 & -> & Hs1 & Hs).
  apply file_steps_app in Hs as (r2 & rs'' & f2 & -> & Hs2 & Hs).
  apply file_steps_app in Hs as (r3 & r4 & f3 & -> & Hs3 & Hs4).
  rewrite !Forall_app in Hok. destruct Hok as (_ & Hok2 & _ & Hok4).
  apply file_seek_to in Hs1 as [Hd1 ->]; [|lia]. simpl in Hs2.
  apply file_writes in Hs2 as (Hp2 & Hd2 & Hc2); [|simpl; lia | done].
  apply file_seek_to in Hs3 as [Hd3 ->]; [|lia].
  apply file_reads in Hs4 as [Hc4 Hd4]; [|by eapply Forall_impl; [exact Hl|]; intros n []|simpl; lia..|done].
  rewrite !fmap_app, !concat_app, Hd1, Hd2, Hd3, Hd4. simpl in *. split.
  - rewrite (fslice_ext _ (fwrite (sram e) o (concat chunks))) by done.
    rewrite Hsum. unfold zlen. rewrite Nat2Z.id. apply fslice_fwrite.
  - intros a Ha. rewrite Hm, Hc4, Hc2. by apply fwrite_out.
Qed.

End Sessions.

(** ** From the function block to the file *)

Section Device.
Context {E : Type} `{Env E} `{!CdevKernel E} `{!CdevRegisters E} `{!UserMem E}.
Context (func : ccat_function) (Hbits : sram_size (f_info func) < 31).
Local Abbreviation io := (func_base func).
Local Abbreviation size := (Z.shiftl 1 (sram_size (f_info func))).
Context `{!IoMem E io size} `{!FileKernel E io size}.

Lemma sram_size_range : size = 2 ^ sram_size (f_info func) /\ 0 <= size < 2 ^ 62.
Proof.
  assert (0 <= sram_size (f_info func)) by apply u8_byte. rewrite Z.shiftl_1_l.
  split; [done|]. split; [apply Z.pow_nonneg; lia | apply Z.pow_lt_mono_r; lia].
Qed.

(** C10: a function block with an SRAM becomes a file.  The probe registers a free device, and
    whenever a program later opens it, every sequence of [read], [write] and [lseek] gives the
    results, delivers the bytes and leaves the contents of a file of [2^sram_size] bytes over the
    registers of the function, whatever the lengths and offsets, also past the end and when copying
    from or to the user fails; an open that fails has no effect, and after the close the device is
    as before.  A block without an SRAM is refused and registers nothing. *)
Theorem ccat_sram_device_refines base (e : E) :
  class_ok base -> Exists (fun c => dev c = 0) (devices base) ->
  wp (ccat_sram_probe func base) e (fun '(r, base', slot) t _ =>
    if Z.land (sram_width (f_info func)) 3 =? 0
    then r = - ENODEV /\ base' = base /\ slot = None /\ t = []
    else r = 0 /\ exists i c, slot = Some i /\ devices base' !! i = Some c /\
      forall ops (e1 : E), Forall op_ok ops ->
      wp (sram_session i c ops) e1 (fun '(r', c', rs) _ e2 => c' = c /\
        (r' = - ENOMEM /\ rs = [] /\ (forall a, im io size e2 a = im io size e1 a) \/
         r' = 0 /\ exists f', file_steps (2 ^ sram_size (f_info func)) ops (SramFile (im io size e1) 0) rs f' /\
           forall a, im io size e2 a = contents f' a))).
Proof.
  intros Hok Hfree. destruct sram_size_range as [Heq Hrange]. unfold ccat_sram_probe.
  destruct (Z.leb_spec 31 (sram_size (f_info func))); [lia|]. destruct (_ =? 0); [by wp_run|].
  eapply wp_conseq; [by apply ccat_cdev_probe_succeeds|].
  intros [[r base'] slot] t e' [-> (i & -> & Hi & _ & Hd)]. split; [done|].
  eexists i, _. rewrite Hd, list_lookup_insert_eq by done. split_and!; [done..|].
  intros ops e1 Hops. set (c := Cdev 1 io size _ true).
  eapply wp_conseq; [by apply (ccat_sram_session_refines c Hrange)|].
  intros [[r' c'] rs] t' e2 [-> Hs]. rewrite <- Heq. split; [done|].
  destruct Hs as [([->|[_ Hu]] & Hrs)|Hs]; [by left | done | by right].
Qed.

End Device.

(** ** Witnesses: plain memory, and a kernel that seeks *)

Definition file_env (io : Z) : Env (Z -> Z) := fun c m =>
  match c with
  | Kernel (FixedSizeLlseek pos offset whence size) =>
      let p := seek_target size pos offset whence in
      (Resp (if (0 <=? p) && (p <=? size) then p else - EINVAL) 0, m)
  | Kernel (AllocChrdevRegion _) => (Resp 0 (MKDEV 240 0), m)
  | Kernel (ClassCreate _) | Kernel (DeviceCreate _ _) | Kernel (Kzalloc _) => (Resp 8192 0, m)
  | _ => ram_env io c m
  end.

#[export] Instance file_env_mem io size : @IoMem (Z -> Z) (file_env io) io size.
Proof.
  unshelve refine (@Build_IoMem _ (file_env io) _ _ (fun m a => u8 (m a)) _ _ _ _).
  - intros. apply u8_byte.
  - intros m a Ha. simpl. by replace (io + a - io) with a by lia.
  - intros m a v Ha Hv b. simpl. replace (io + a - io) with a by lia. unfold upd.
    destruct (b =? a); [by apply u8_small | done].
  - intros m k Hk b. by destruct k.
Defined.

#[export] Instance file_env_user io : @UserMem (Z -> Z) (file_env io).
Proof. intros m n Hn. simpl. lia. Qed.

#[export] Instance file_env_kernel io size : @FileKernel (Z -> Z) (file_env io) io size _.
Proof.
  split.
  - intros m k Hk a. by destruct k.
  - done.
Qed.

Definition sram_free : ccat_cdev := Cdev 1 4096 8 (MKDEV 240 0) true.

#[export] Instance file_env_cdev io : @CdevKernel (Z -> Z) (file_env io).
Proof. by split. Qed.
#[export] Instance file_env_registers io : @CdevRegisters (Z -> Z) (file_env io).
Proof. by split. Qed.

(** A function block with an SRAM of eight bytes at 4096. *)
Definition small_sram : ccat_function :=
  Function_ (Device 1 1 0x800 0) (Info (info_code CCATINFO_SRAM) 0 (1 + 256 * 3) 0x800 0).

Definition sram_ops : list file_op :=
  [FSeek (-3) SEEK_END; FWrite [1; 2]; FRead 100; FWrite [7]; FSeek 9 SEEK_SET].

Lemma ccat_sram_device_refines_witness :
  exists base' i c t m, ccat_sram_probe (H := file_env 4096) small_sram sram_class sram_zero
      = (Ret (0, base', Some i), t, m) /\ devices base' !! i = Some c /\
    exists r rs t m, sram_session (H := file_env 4096) i c sram_ops sram_zero = (Ret (r, c, rs), t, m).
Proof.
  pose proof (ccat_sram_device_refines (H := file_env 4096) small_sram ltac:(vm_compute; reflexivity)
    sram_class sram_zero) as Hw.
  apply wp_elim in Hw as ([[r base'] slot] & t & m & Hrun & Hs);
    [|apply fresh_class_ok; vm_compute; congruence || lia | apply Exists_cons_hd; reflexivity].
  destruct Hs as [-> (i & c & -> & Hc & Hs)]. exists base', i, c, t, m. split; [exact Hrun|].
  split; [exact Hc|]. clear Hrun Hc.
  destruct (wp_elim _ _ _ (Hs sram_ops sram_zero
    ltac:(repeat constructor; simpl; unfold is_byte, zlen; simpl; lia)))
    as ([[r' c'] rs] & t' & m' & Hrun & -> & _). exists r', rs, t', m'. exact Hrun.
Defined.

Example sram_session_run :
  outcome_of (sram_session (H := file_env 4096) 0 sram_free sram_ops) sram_zero
  = Ret (0, sram_free, [(5, []); (2, []); (1, [0]); (0, []); (- EINVAL, [])]).
Proof. vm_compute. reflexivity. Qed.

Lemma ccat_sram_blocks_roundtrip_witness :
  exists rs b p t m, sram_fops (H := file_env 4096) sram_dev
      ([FSeek 2 SEEK_SET] ++ (FWrite <$> [[1; 2; 3]; [4]]) ++ [FSeek 2 SEEK_SET] ++ (FRead <$> [1; 3]))
      sram_buf 5 sram_zero = (Ret (rs, b, p), t, m) /\ concat (snd <$> rs) = [1; 2; 3; 4].
Proof.
  pose proof (ccat_sram_blocks_roundtrip (H := file_env 4096) sram_dev ltac:(simpl; lia) sram_buf 5 2
    [[1; 2; 3]; [4]] [1; 3] sram_zero eq_refl ltac:(simpl; lia)
    ltac:(repeat constructor; simpl; unfold is_byte; lia) ltac:(repeat constructor; simpl; lia)
    ltac:(lia) ltac:(vm_compute; congruence) eq_refl) as Hw.
  apply wp_elim in Hw as ([[rs b] p] & t & m & Hrun & Hd).
  exists rs, b, p, t, m. split; [exact Hrun|]. apply Hd.
  assert (rs = [(2, []); (3, []); (1, []); (2, []); (1, [1]); (3, [2; 3; 4])]) as ->
    by (vm_compute in Hrun; congruence).
  repeat constructor; done.
Defined.
