(* ===== verification/SramConc.v ===== *)
(** * Tasks that share an open SRAM file (sram.c)

    The tasks of a program, or of several programs after a [fork], can be inside [ccat_sram_read]
    and [ccat_sram_write] of one file at once: [pread] and [pwrite] take no lock, and neither does
    the driver.  Both functions go through the buffer of the file; here each is taken apart where
    the buffer is left filled, and the halves of any number of tasks interleave.  The accesses stay
    where they belong, but what a task stores need not be what it wrote ([shared_writes_mixed]). *)

From S2P Require Import Prelude IO Info Interleave Cdev Sram SramFile.

(** ** The two halves *)

(** Where a task is: outside, about to return, about to copy [n] bytes of the buffer to the user, or
    about to copy [len] bytes of the buffer to the SRAM. *)
Inductive sram_task :=
  | SIdle
  | SDone (r off : Z)
  | SDeliver (n off : Z)
  | SStore (len off : Z).

Section Halves.
Context {E : Type} `{Env E}.

(** [ccat_sram_read] up to [memcpy_fromio]. *)
Definition read_fill (c : ccat_cdev) (b : cdev_buffer) (len off : Z) : M E (cdev_buffer * sram_task) :=
  if iosize c <=? u64 off then mret (b, SDone 0 off)
  else
    let len := Z.min len (u64 (iosize c - off)) in
    l ← ioread_bytes (ioaddr c + off) (Z.to_nat len);
    b ← buffer_copy 0 l b;
    mret (b, SDeliver len off).

(** [ccat_sram_write] up to [copy_from_user]. *)
Definition write_take (c : ccat_cdev) (b : cdev_buffer) (ubuf : list Z) (len off : Z)
  : M E (cdev_buffer * sram_task) :=
  if iosize c <? u64 (off + len) then mret (b, SDone 0 off)
  else
    '(r, b) ← copy_from_user 0 ubuf len b;
    mret (b, if istrue r then SDone (- EFAULT) off else SStore len off).

(** The rest of both. *)
Definition sram_finish (c : ccat_cdev) (b : cdev_buffer) (s : sram_task) : M E file_result :=
  match s with
  | SIdle => mret (0, 0, b)
  | SDone r off => mret (r, off, b)
  | SDeliver n off =>
      r ← kern (CopyToUser (slice 0 n (b_data b)));
      if istrue r then mret (- EFAULT, off, b) else mret (n, off + n, b)
  | SStore len off =>
      iowrite_bytes (ioaddr c + off) (slice 0 len (b_data b)) ;;
      mret (len, off + len, b)
  end.

(** One after the other they are the functions. *)
Lemma sram_read_halves c b len off (e : E) :
  ccat_sram_read c b len off e = ('(b, s) ← read_fill c b len off; sram_finish c b s) e.
Proof.
  unfold ccat_sram_read, __sram_read, read_fill. destruct (_ <=? _); [done|].
  rewrite bind_assoc. apply bind_ext; [done|]. intros l e1. rewrite bind_assoc.
  apply bind_ext; [done|]. intros b1 e2. by rewrite bind_ret_l.
Qed.

Lemma sram_write_halves c b ubuf len off (e : E) :
  ccat_sram_write c b ubuf len off e = ('(b, s) ← write_take c b ubuf len off; sram_finish c b s) e.
Proof.
  unfold ccat_sram_write, write_take. destruct (_ <? _); [done|].
  rewrite bind_assoc. apply bind_ext; [done|]. intros [r b1] e1. rewrite bind_ret_l.
  by destruct (istrue r).
Qed.

End Halves.

(** ** Any number of tasks *)

Record shared_file E := Shared { sh_buffer : cdev_buffer; sh_env : E; sh_tasks : list sram_task }.
Arguments Shared {E} _ _ _.
Arguments sh_buffer {E} _.
Arguments sh_env {E} _.
Arguments sh_tasks {E} _.

Section Shared.
Context {E : Type} `{Env E} `{!UserMem E} (c : ccat_cdev) (Hc : cdev_wf c).

Inductive shared_step : shared_file E -> shared_file E -> Prop :=
  | sh_read k len off b e ts b' s t e' :
      ts !! k = Some SIdle -> vfs_range off len -> read_fill c b len off e = (Ret (b', s), t, e') ->
      shared_step (Shared b e ts) (Shared b' e' (<[k := s]> ts))
  | sh_write k ubuf off b e ts b' s t e' :
      ts !! k = Some SIdle -> vfs_range off (zlen ubuf) ->
      write_take c b ubuf (zlen ubuf) off e = (Ret (b', s), t, e') ->
      shared_step (Shared b e ts) (Shared b' e' (<[k := s]> ts))
  | sh_finish k s b e ts r off' b' t e' :
      ts !! k = Some s -> sram_finish c b s e = (Ret (r, off', b'), t, e') ->
      shared_step (Shared b e ts) (Shared b' e' (<[k := SIdle]> ts))
  | sh_other b e ts e' :
      shared_step (Shared b e ts) (Shared b e' ts).

(** The range a task in the middle of an operation has been admitted for. *)
Definition task_ok (s : sram_task) : Prop :=
  match s with
  | SIdle | SDone _ _ => True
  | SDeliver n off | SStore n off => 0 <= off /\ 0 <= n /\ off + n <= iosize c
  end.

Definition shared_ok (s : shared_file E) : Prop :=
  buffer_wf c (sh_buffer s) /\ Forall task_ok (sh_tasks s).

Lemma read_fill_spec b len off (e : E) :
  buffer_wf c b -> vfs_range off len ->
  wp (read_fill c b len off) e (fun '(b', s) t _ => buffer_wf c b' /\ task_ok s /\
    Forall (in_window (ioaddr c) (ioaddr c + iosize c)) (calls t)).
Proof.
  intros Hb Hv. destruct (sram_read_guard c len off Hc Hv) as [Hg Hm]. unfold read_fill. rewrite Hg.
  unfold cdev_wf, vfs_range, buffer_wf in *. destruct (Z.leb_spec (iosize c) off); [by wp_run|].
  rewrite Hm by done. unfold sram_avail in *. set (n := Z.max 0 _). apply wp_bind.
  eapply wp_conseq; [apply wp_forall_calls; [apply (ioread_bytes_window (ioaddr c) (ioaddr c + iosize c)); lia
    | apply ioread_bytes_any]|].
  intros l t e1 [[Hl _] Ht]. apply wp_bind. apply buffer_copy_ok; [done | unfold zlen in *; lia |]. wp_run.
  simpl. rewrite zlen_splice by (unfold zlen in *; lia). rewrite app_nil_r. split_and!; [done | lia.. | done].
Qed.

Lemma write_take_spec b ubuf off (e : E) :
  buffer_wf c b -> vfs_range off (zlen ubuf) ->
  wp (write_take c b ubuf (zlen ubuf) off) e (fun '(b', s) t _ => buffer_wf c b' /\ task_ok s /\
    Forall (in_window (ioaddr c) (ioaddr c + iosize c)) (calls t)).
Proof.
  intros Hb Hv. unfold write_take. rewrite sram_write_guard by done.
  unfold cdev_wf, vfs_range, buffer_wf in *.
  destruct (Z.ltb_spec (iosize c) (off + zlen ubuf)); [by wp_run|]. apply wp_bind.
  apply copy_from_user_ok; [done | done | lia |]. intros r b' Hr Hlen _ _. wp_run.
  split; [lia|]. split; [destruct (istrue r); simpl; lia | by repeat constructor].
Qed.

(** The register accesses of the rest of an operation. *)
Definition own_range (s : sram_task) (k : call) : Prop :=
  match s, k with
  | SStore len off, _ => in_window (ioaddr c + off) (ioaddr c + off + len) k
  | _, IoRead _ _ | _, IoWrite _ _ _ => False
  | _, _ => True
  end.

Lemma sram_finish_spec b s (e : E) :
  buffer_wf c b -> task_ok s ->
  wp (sram_finish c b s) e (fun '(r, off', b') t _ => b' = b /\ Forall (own_range s) (calls t) /\
    match s with
    | SStore len off => r = len /\ off' = off + len
    | SDeliver n off => r = n /\ off' = off + n \/ r = - EFAULT /\ off' = off
    | SDone x off => r = x /\ off' = off
    | SIdle => True
    end).
Proof.
  intros Hb Hs. unfold buffer_wf in Hb. destruct s as [|x off|n off|len off]; cbn [sram_finish task_ok] in *.
  - by wp_run.
  - by wp_run.
  - wp_run. destruct (istrue _); wp_run; (split; [done|]); (split; [by repeat constructor|]); auto.
  - apply wp_bind. eapply wp_conseq; [apply wp_forall_calls;
      [apply (iowrite_bytes_window (ioaddr c + off) (ioaddr c + off + len)); [lia|] | apply iowrite_bytes_any]|].
    + pose proof (zlen_slice_le 0 len (b_data b)). lia.
    + intros ? t e' [_ Ht]. wp_run. by rewrite app_nil_r.
Qed.

Lemma shared_ok_step s s' : shared_step s s' -> shared_ok s -> shared_ok s'.
Proof.
  unfold shared_ok.
  intros [k len off b e ts b' s1 t e' Hk Hv Hrun | k ubuf off b e ts b' s1 t e' Hk Hv Hrun
         | k s1 b e ts r off' b' t e' Hk Hrun | b e ts e'] [Hb Ht]; simpl in *.
  - destruct (wpx_run _ _ _ _ _ _ _ (read_fill_spec b len off e Hb Hv) Hrun) as (? & ? & _).
    split; [done | by apply Forall_insert].
  - destruct (wpx_run _ _ _ _ _ _ _ (write_take_spec b ubuf off e Hb Hv) Hrun) as (? & ? & _).
    split; [done | by apply Forall_insert].
  - assert (Hs : task_ok s1) by (by eapply Forall_lookup_1).
    destruct (wpx_run _ _ _ _ _ _ _ (sram_finish_spec b s1 e Hb Hs) Hrun) as [-> _].
    split; [done | by apply Forall_insert].
  - done.
Qed.

(** C32: however the halves of any number of reads and writes on one open SRAM file interleave, and
    whatever else happens to the hardware in between: no operation faults or overruns the buffer,
    an operation that begins stays inside the SRAM, and one that ends stores inside the range it was
    admitted for, or, if it reads, touches no register, and returns as if it had been alone. *)
Theorem ccat_sram_shared_safe b0 e0 n b e ts :
  buffer_wf c b0 -> rtc shared_step (Shared b0 e0 (replicate n SIdle)) (Shared b e ts) ->
  (forall len off, vfs_range off len ->
     wp (read_fill c b len off) e (fun _ t _ =>
       Forall (in_window (ioaddr c) (ioaddr c + iosize c)) (calls t))) /\
  (forall ubuf off, vfs_range off (zlen ubuf) ->
     wp (write_take c b ubuf (zlen ubuf) off) e (fun _ t _ =>
       Forall (in_window (ioaddr c) (ioaddr c + iosize c)) (calls t))) /\
  (forall k s, ts !! k = Some s ->
     wp (sram_finish c b s) e (fun '(r, off', b') t _ => b' = b /\ Forall (own_range s) (calls t) /\
       match s with
       | SStore len off => r = len /\ off' = off + len /\ off + len <= iosize c
       | SDeliver n off => r = n /\ off' = off + n \/ r = - EFAULT /\ off' = off
       | SDone x off => r = x /\ off' = off
       | SIdle => True
       end)).
Proof.
  intros Hb Hr. assert (Hok : shared_ok (Shared b e ts)).
  { assert (H0 : shared_ok (Shared b0 e0 (replicate n SIdle))) by (split; [done | by apply Forall_replicate]).
    revert H0. induction Hr; eauto using shared_ok_step. }
  destruct Hok as [Hb' Ht]. simpl in *. split_and!.
  - intros len off Hv. eapply wp_conseq; [by apply read_fill_spec|]. by intros [b1 s] t e' (_ & _ & ?).
  - intros ubuf off Hv. eapply wp_conseq; [by apply write_take_spec|]. by intros [b1 s] t e' (_ & _ & ?).
  - intros k s Hk. assert (Hs : task_ok s) by (by eapply Forall_lookup_1).
    eapply wp_conseq; [by apply sram_finish_spec|]. intros [[r off'] b1] t e' (-> & Hw & Hres).
    split_and!; [done | done |]. destruct s; simpl in *; auto. lia.
Qed.

End Shared.

(** ** The race: two writes of two bytes each, to the offsets 0 and 2 of one file *)

(** The second task fills the buffer before the first has stored it. *)
Definition mixed : M (Z -> Z) unit :=
  '(b, s1) ← write_take (H := file_env 4096) sram_dev sram_buf [1; 1] 2 0;
  '(b, s2) ← write_take (H := file_env 4096) sram_dev b [2; 2] 2 2;
  _ ← sram_finish (H := file_env 4096) sram_dev b s1;
  _ ← sram_finish (H := file_env 4096) sram_dev b s2;
  mret tt.

(** The two writes one after the other, in either order. *)
Definition in_order (o1 o2 : list Z * Z) : M (Z -> Z) unit :=
  '(_, _, b) ← ccat_sram_write (H := file_env 4096) sram_dev sram_buf o1.1 2 o1.2;
  _ ← ccat_sram_write (H := file_env 4096) sram_dev b o2.1 2 o2.2;
  mret tt.

Definition first_bytes (m : M (Z -> Z) unit) : list Z := (m sram_zero).2 <$> seqZ 0 4.

(** Both writes succeed, and the bytes of the first are nowhere: no order of the two explains it. *)
Lemma shared_writes_mixed :
  first_bytes mixed = [2; 2; 2; 2] /\
  first_bytes (in_order ([1; 1], 0) ([2; 2], 2)) = [1; 1; 2; 2] /\
  first_bytes (in_order ([2; 2], 2) ([1; 1], 0)) = [1; 1; 2; 2].
Proof. vm_compute. auto. Qed.

(** ** Witness *)

Lemma ccat_sram_shared_safe_witness :
  exists b t m, rtc (shared_step (H := file_env 4096) sram_dev)
      (Shared sram_buf sram_zero [SIdle; SIdle]) (Shared b sram_zero [SStore 2 0; SIdle]) /\
    sram_finish (H := file_env 4096) sram_dev b (SStore 2 0) sram_zero = (Ret (2, 2, b), t, m).
Proof.
  set (b := set_data [1; 1; 0; 0; 0; 0; 0; 0] sram_buf).
  assert (Hr : rtc (shared_step (H := file_env 4096) sram_dev)
    (Shared sram_buf sram_zero [SIdle; SIdle]) (Shared b sram_zero [SStore 2 0; SIdle])).
  { apply rtc_once. eapply (sh_write (H := file_env 4096) sram_dev 0 [1; 1] 0 _ _ [SIdle; SIdle] b (SStore 2 0));
      [reflexivity | unfold vfs_range, zlen; simpl; lia | vm_compute; reflexivity]. }
  destruct (ccat_sram_shared_safe (H := file_env 4096) sram_dev ltac:(unfold cdev_wf; simpl; lia)
    sram_buf sram_zero 2 b sram_zero [SStore 2 0; SIdle] eq_refl Hr) as (_ & _ & Hf).
  specialize (Hf 0%nat _ eq_refl). apply wp_elim in Hf as ([[r off'] b'] & t & m & Hrun & -> & _ & -> & -> & _).
  exists b, t, m. split; [exact Hr | exact Hrun].
Defined.
