(* ===== verification/Update.v ===== *)
(** * The FPGA update driver (update.c)

    A character device over the configuration flash behind the FPGA: writes are collected in the
    buffer of the open file and programmed when the file is closed; reads fetch blocks of the
    flash.  The driver talks to the flash through command registers: it sets up the command, its
    clock count and a bit-reversed address, triggers it and polls a busy flag. *)

From S2P Require Import Prelude IO Info Cdev.

(** ** Constants *)

Definition CCAT_DEVICES_MAX : nat := 5.
Definition CCAT_DATA_IN_4 : Z := 0x038.
Definition CCAT_DATA_IN_N : Z := 0x7F0.
Definition CCAT_DATA_OUT_4 : Z := 0x030.
Definition CCAT_DATA_BLOCK_SIZE : Z := (CCAT_DATA_IN_N - CCAT_DATA_IN_4) / 8.
Definition CCAT_WRITE_BLOCK_SIZE : Z := 128.
Definition CCAT_FLASH_SIZE : Z := 0xE0000.

(** The command macros expand to two arguments, the command and its clocks. *)
Definition CCAT_BULK_ERASE : Z * Z := (0xE3, 8).
Definition CCAT_READ_FLASH : Z * Z := (0xC0, 32).
Definition CCAT_READ_STATUS : Z * Z := (0xA0, 16).
Definition CCAT_WRITE_ENABLE : Z * Z := (0x60, 8).
Definition CCAT_WRITE_FLASH : Z * Z := (0x40, 32).

(** The bit trick, in [unsigned long] arithmetic. *)
Definition SWAP_BITS (b : Z) : Z :=
  Z.shiftr (u64 (Z.lor (Z.land (u64 (b * 0x0802)) 0x22110) (Z.land (u64 (b * 0x8020)) 0x88440)
                 * 0x10101)) 16.

Section Operations.
Context {E : Type} `{Env E}.

(** ** Commands

    [fuel] bounds the two loops that wait for the hardware. *)

Fixpoint poll_busy (fuel : nat) (io : Z) : M E unit :=
  match fuel with
  | O => hang
  | S fuel' =>
      b ← ioread W8 (io + 1);
      if istrue b then kern_ Schedule ;; poll_busy fuel' io else mret tt
  end.

Definition wait_until_busy_reset (fuel : nat) (io : Z) : M E unit :=
  wmb ;; poll_busy fuel io.

Definition __ccat_update_cmd (io cmd clocks : Z) : M E unit :=
  iowrite W8 (Z.shiftr (Z.land 0xff00 clocks) 8) io ;;
  iowrite W8 (Z.land 0x00ff clocks) (io + 0x8) ;;
  iowrite W8 cmd (io + 0x10).

Definition ccat_update_cmd (fuel : nat) (io : Z) (c : Z * Z) : M E unit :=
  let cmd := u8 c.1 in
  let clocks := u16 c.2 in
  __ccat_update_cmd io cmd clocks ;;
  wmb ;;
  iowrite W8 0xff (io + 0x7f8) ;;
  wait_until_busy_reset fuel io.

Definition ccat_update_cmd_addr (fuel : nat) (io : Z) (c : Z * Z) (addr : Z) : M E unit :=
  let cmd := u8 c.1 in
  let clocks := u16 c.2 in
  let addr := u32 addr in
  let addr_0 := u8 (SWAP_BITS (Z.land addr 0xff)) in
  let addr_1 := u8 (SWAP_BITS (Z.shiftr (Z.land addr 0xff00) 8)) in
  let addr_2 := u8 (SWAP_BITS (Z.shiftr (Z.land addr 0xff0000) 16)) in
  __ccat_update_cmd io cmd clocks ;;
  iowrite W8 addr_2 (io + 0x18) ;;
  iowrite W8 addr_1 (io + 0x20) ;;
  iowrite W8 addr_0 (io + 0x28) ;;
  wmb ;;
  iowrite W8 0xff (io + 0x7f8) ;;
  wait_until_busy_reset fuel io.

Definition ccat_get_status (fuel : nat) (io : Z) : M E Z :=
  ccat_update_cmd fuel io CCAT_READ_STATUS ;;
  ioread W8 (io + 0x20).

Fixpoint wait_status_loop (fuel waits : nat) (io : Z) : M E unit :=
  match waits with
  | O => hang
  | S waits' =>
      status ← ccat_get_status fuel io;
      if istrue (Z.land status (Z.shiftl 1 7)) then wait_status_loop fuel waits' io else mret tt
  end.

Definition ccat_wait_status_cleared (fuel : nat) (io : Z) : M E unit :=
  wait_status_loop fuel fuel io.

(** ** Reading *)

(** [for (i = 0; i < len; i++) put_user(ioread8(...), buf + i)], from [i] on for [n] rounds. *)
Fixpoint put_data (io buf i : Z) (n : nat) : M E unit :=
  match n with
  | O => mret tt
  | S n' =>
      v ← ioread W8 (io + CCAT_DATA_IN_4 + 8 * i);
      kern_ (PutUser (buf + i) v) ;;
      put_data io buf (i + 1) n'
  end.

Definition ccat_read_flash_block (fuel : nat) (io addr len buf : Z) : M E Z :=
  let clocks := u16 (8 * len) in
  ccat_update_cmd_addr fuel io (CCAT_READ_FLASH.1, CCAT_READ_FLASH.2 + clocks) addr ;;
  put_data io buf 0 (Z.to_nat len) ;;
  mret len.

(** The loop of [ccat_read_flash]: [*off] after the last block.  Each round takes one block off
    [len], so [len] rounds are enough. *)
Fixpoint read_flash_loop (fuel rounds : nat) (io buf len off : Z) : M E Z :=
  match rounds with
  | O => hang
  | S rounds' =>
      if CCAT_DATA_BLOCK_SIZE <? len then
        n ← ccat_read_flash_block fuel io (u32 off) CCAT_DATA_BLOCK_SIZE buf;
        read_flash_loop fuel rounds' io (buf + CCAT_DATA_BLOCK_SIZE)
          (len - CCAT_DATA_BLOCK_SIZE) (off + n)
      else
        n ← ccat_read_flash_block fuel io (u32 off) (u16 len) buf;
        mret (off + n)
  end.

(** The returned [*off - start] and the final [*off]. *)
Definition ccat_read_flash (fuel : nat) (io buf len off : Z) : M E (Z * Z) :=
  let start := off in
  off ← read_flash_loop fuel (S (Z.to_nat len)) io buf len off;
  mret (off - start, off).

(** ** Writing *)

(** [for (i = 0; i < len; i++) iowrite8(buf[i], ioaddr + CCAT_DATA_OUT_4 + 8 * i)] *)
Fixpoint out_data (io i : Z) (buf : list Z) : M E unit :=
  match buf with
  | [] => mret tt
  | v :: buf' => iowrite W8 v (io + CCAT_DATA_OUT_4 + 8 * i) ;; out_data io (i + 1) buf'
  end.

(** [buf] is what is left of the allocation from the pointer on: reading past it is a fault. *)
Definition ccat_write_flash_block (fuel : nat) (io addr len : Z) (buf : list Z) : M E Z :=
  let clocks := u16 (8 * len) in
  ccat_update_cmd fuel io CCAT_WRITE_ENABLE ;;
  (if zlen buf <? len then oops else out_data io 0 (take (Z.to_nat len) buf)) ;;
  ccat_update_cmd_addr fuel io (CCAT_WRITE_FLASH.1, CCAT_WRITE_FLASH.2 + clocks) addr ;;
  ccat_wait_status_cleared fuel io ;;
  mret len.

Fixpoint write_flash_loop (fuel rounds : nat) (io off len : Z) (buf : list Z) : M E unit :=
  match rounds with
  | O => hang
  | S rounds' =>
      if CCAT_WRITE_BLOCK_SIZE <? len then
        _ ← ccat_write_flash_block fuel io off (u16 CCAT_WRITE_BLOCK_SIZE) buf;
        write_flash_loop fuel rounds' io (u32 (off + CCAT_WRITE_BLOCK_SIZE))
          (len - CCAT_WRITE_BLOCK_SIZE) (drop (Z.to_nat CCAT_WRITE_BLOCK_SIZE) buf)
      else
        _ ← ccat_write_flash_block fuel io off (u16 len) buf; mret tt
  end.

Definition ccat_write_flash (fuel : nat) (c : ccat_cdev) (buffer : cdev_buffer) : M E unit :=
  let len := b_size buffer in
  write_flash_loop fuel (S (Z.to_nat len)) (ioaddr c) 0 len (b_data buffer).

(** ** File operations *)

Definition ccat_update_release (fuel : nat) (c : ccat_cdev) (buf : cdev_buffer)
  : M E (Z * ccat_cdev) :=
  (if 0 <? b_size buf then
     ccat_update_cmd fuel (ioaddr c) CCAT_WRITE_ENABLE ;;
     ccat_update_cmd fuel (ioaddr c) CCAT_BULK_ERASE ;;
     ccat_wait_status_cleared fuel (ioaddr c) ;;
     ccat_write_flash fuel c buf
   else mret tt) ;;
  ccat_cdev_release c buf.

(** The returned value and the file offset; [ubuf] is the address of the user's buffer. *)
Definition ccat_update_read (fuel : nat) (c : ccat_cdev) (ubuf len off : Z) : M E (Z * Z) :=
  let size := iosize c in
  if size <=? u64 off then mret (0, off)
  else
    let len := Z.min len (u64 (size - off)) in
    ccat_read_flash fuel (ioaddr c) ubuf (u32 len) off.

Definition ccat_update_write (c : ccat_cdev) (buffer : cdev_buffer) (ubuf : list Z) (len off : Z)
  : M E file_result :=
  if iosize c <? u64 (off + len) then mret (0, off, buffer)
  else
    '(r, buffer) ← copy_from_user off ubuf len buffer;
    if istrue r then mret (- EFAULT, off, buffer)
    else
      let off := off + len in
      mret (len, off, Buffer (b_slot buffer) (b_ptr buffer) off (b_data buffer)).

Definition ccat_update_probe (func : ccat_function) (cdev_class : ccat_class)
  : M E (Z * ccat_class * option nat) :=
  let SUPPORTED_REVISION := 0x00 in
  if negb (SUPPORTED_REVISION =? i_rev (f_info func)) then mret (- ENODEV, cdev_class, None)
  else ccat_cdev_probe func cdev_class CCAT_FLASH_SIZE.

End Operations.

(** ** Bit reversal *)

Lemma forall_byte (P : Z -> bool) :
  forallb P (seqZ 0 256) = true -> forall b, is_byte b -> P b = true.
Proof.
  intros Hf b Hb. rewrite forallb_forall in Hf. apply Hf.
  apply list_elem_of_In, elem_of_seqZ. unfold is_byte in Hb. lia.
Qed.

(** [b] with its eight bits in reverse order. *)
Definition rev8 (b : Z) : Z :=
  foldr (fun i acc => Z.lor (if Z.testbit b (7 - i) then Z.shiftl 1 i else 0) acc) 0 (seqZ 0 8).

Lemma rev8_involutive b : is_byte b -> rev8 (rev8 b) = b.
Proof.
  intros Hb. apply Z.eqb_eq. revert b Hb. apply forall_byte. by vm_compute.
Qed.

Lemma swap_bits_rev8 b : is_byte b -> u8 (SWAP_BITS b) = rev8 b.
Proof.
  intros Hb. apply Z.eqb_eq. revert b Hb. apply forall_byte. by vm_compute.
Qed.

Lemma rev8_byte b : is_byte (rev8 b).
Proof.
  assert (Hb : rev8 b = rev8 (b mod 256)).
  { unfold rev8. change (seqZ 0 8) with [0; 1; 2; 3; 4; 5; 6; 7]. cbn [foldr].
    change 256 with (2 ^ 8). by rewrite !Z.mod_pow2_bits_low by lia. }
  rewrite Hb. assert (Hr : is_byte (b mod 256)) by (unfold is_byte; mach). revert Hr.
  generalize (b mod 256). clear. intros b Hb.
  assert (Hc : ((0 <=? rev8 b) && (rev8 b <? 256)) = true).
  { revert b Hb. apply forall_byte. by vm_compute. }
  unfold is_byte. lia.
Qed.

Lemma rev8_testbit b i : is_byte b -> 0 <= i < 8 -> Z.testbit (rev8 b) i = Z.testbit b (7 - i).
Proof.
  intros Hb Hi. assert (Hall : forallb (fun i => Bool.eqb (Z.testbit (rev8 b) i) (Z.testbit b (7 - i)))
    (seqZ 0 8) = true).
  { revert b Hb. apply forall_byte. by vm_compute. }
  rewrite forallb_forall in Hall. apply eqb_prop, Hall, list_elem_of_In, elem_of_seqZ. lia.
Qed.

(** C35: the multiplication trick [SWAP_BITS], truncated to a byte, reverses the bits of every
    byte, and applying it twice gives the byte back. *)
Theorem swap_bits_reverses b :
  is_byte b ->
  (forall i, 0 <= i < 8 -> Z.testbit (u8 (SWAP_BITS b)) i = Z.testbit b (7 - i)) /\
  u8 (SWAP_BITS (u8 (SWAP_BITS b))) = b.
Proof.
  intros Hb. split.
  - intros i Hi. rewrite swap_bits_rev8 by done. by apply rev8_testbit.
  - rewrite (swap_bits_rev8 _ (u8_byte _)), swap_bits_rev8 by done. by apply rev8_involutive.
Qed.

Lemma swap_bits_reverses_witness : u8 (SWAP_BITS 0x16) = 0x68 /\ u8 (SWAP_BITS 0x68) = 0x16.
Proof.
  split; [reflexivity|].
  exact (proj2 (swap_bits_reverses 0x16 ltac:(unfold is_byte; lia))).
Defined.

(** ** The command protocol *)

Section Protocol.
Context {E : Type} `{Env E}.

(** The busy flag reads non-zero [k] times and then zero, when the driver polls it from [e]. *)
Fixpoint busy_clears (io : Z) (k : nat) (e : E) : Prop :=
  let r := ext (IoRead W8 (io + 1)) e in
  match k with
  | O => u8 (r_val r.1) = 0
  | S k' => u8 (r_val r.1) <> 0 /\ busy_clears io k' (ext (Kernel Schedule) r.2).2
  end.

Definition busy_polls (io : Z) (k : nat) : list call :=
  concat (replicate k [IoRead W8 (io + 1); Kernel Schedule]) ++ [IoRead W8 (io + 1)].

Lemma poll_busy_spec io k fuel (e : E) :
  (k < fuel)%nat -> busy_clears io k e ->
  wp (poll_busy fuel io) e (fun _ t _ => calls t = busy_polls io k).
Proof.
  revert k e. induction fuel as [|fuel IH]; intros k e Hk Hb; [lia|]. simpl.
  destruct k as [|k]; simpl in Hb.
  - wp_run. rewrite trunc8, Hb. by wp_run.
  - destruct Hb as [Hne Hb]. wp_run. rewrite trunc8, istrue_nz by done. wp_run.
    eapply wp_mono; [apply (IH k); [lia | done] | done |]. intros ? t e' Ht.
    simpl. rewrite Ht. done.
Qed.

(** The register writes that issue command [cmd] with [clocks]. *)
Definition cmd_setup (io cmd clocks : Z) : list call :=
  [IoWrite W8 io (clocks / 256); IoWrite W8 (io + 0x8) (clocks mod 256); IoWrite W8 (io + 0x10) cmd].

Lemma land_ff a : Z.land a 0xff = a mod 256.
Proof. apply (land_mask_mod a 8). lia. Qed.

Lemma land_ff00 a : Z.shiftr (Z.land a 0xff00) 8 = (a / 256) mod 256.
Proof.
  rewrite Z.shiftr_land. change (Z.shiftr 0xff00 8) with 0xff. rewrite land_ff.
  by rewrite Z.shiftr_div_pow2 by lia.
Qed.

Lemma land_ff0000 a : Z.shiftr (Z.land a 0xff0000) 16 = (a / 65536) mod 256.
Proof.
  rewrite Z.shiftr_land. change (Z.shiftr 0xff0000 16) with 0xff. rewrite land_ff.
  by rewrite Z.shiftr_div_pow2 by lia.
Qed.

Lemma update_cmd_setup io cmd clocks (e : E) Q :
  is_byte cmd -> 0 <= clocks < 65536 ->
  (forall t e', calls t = cmd_setup io cmd clocks -> Q tt t e') ->
  wp (__ccat_update_cmd io cmd clocks) e Q.
Proof.
  intros Hcmd Hcl HQ. unfold __ccat_update_cmd. wp_run. apply HQ. simpl.
  untrunc. rewrite !(Z.land_comm _ clocks), land_ff, land_ff00, (u8_small cmd) by done.
  unfold cmd_setup. do 2 f_equal; [|do 2 f_equal]; mach.
Qed.

(** A flash command with an address: the clock count, the command, the three address bytes
    with their bits reversed, high byte first, then a barrier, the trigger, a barrier, and the
    busy flag polled until it reads zero; nothing else is done. *)
Lemma ccat_update_cmd_addr_protocol fuel io cmd clocks addr (e : E) :
  is_byte cmd -> 0 <= clocks < 65536 -> 0 <= addr < 2 ^ 24 ->
  (forall e' : E, exists k, (k < fuel)%nat /\ busy_clears io k e') ->
  wp (ccat_update_cmd_addr fuel io (cmd, clocks) addr) e (fun _ t _ =>
    exists k, (k < fuel)%nat /\
    calls t = cmd_setup io cmd clocks ++
      [IoWrite W8 (io + 0x18) (rev8 (addr / 65536));
       IoWrite W8 (io + 0x20) (rev8 (addr / 256 mod 256));
       IoWrite W8 (io + 0x28) (rev8 (addr mod 256));
       Wmb; IoWrite W8 (io + 0x7f8) 0xff; Wmb] ++ busy_polls io k).
Proof.
  intros Hcmd Hcl Haddr Hbusy. unfold ccat_update_cmd_addr, wait_until_busy_reset. simpl.
  rewrite (u8_small cmd), (u16_small clocks), (u32_small addr) by (done || lia).
  rewrite land_ff, land_ff00, land_ff0000.
  apply wp_bind, update_cmd_setup; [done..|]. intros t0 e0 Ht0. wp_run.
  match goal with |- wp (poll_busy _ _) ?e' _ => destruct (Hbusy e') as (k & Hk & Hb) end.
  eapply wp_mono; [by apply (poll_busy_spec io k) | done |]. intros ? t e' Ht. exists k. split; [done|].
  rewrite !calls_app, Ht0, Ht. f_equal. simpl.
  untrunc. change (u8 0xff) with 0xff. rewrite !(u8_small (u8 _)) by apply u8_byte.
  rewrite !swap_bits_rev8 by (unfold is_byte; mach).
  by rewrite (Z.mod_small (addr / 65536)) by mach.
Qed.

End Protocol.

(** ** Register safety, for every environment *)

(** The registers of the update function: the busy flag, the status and the data-in registers
    are read; clocks, command, address and the data-out registers are written; the trigger is
    only ever written with 0xff. *)
Definition flash_register (io : Z) (c : call) : Prop :=
  match c with
  | IoRead w a => w = W8 /\ (a = io + 1 \/ a = io + 0x20 \/
      exists i, 0 <= i < CCAT_DATA_BLOCK_SIZE /\ a = io + CCAT_DATA_IN_4 + 8 * i)
  | IoWrite w a v => w = W8 /\ (a = io \/ a = io + 0x8 \/ a = io + 0x10 \/ a = io + 0x18 \/
      a = io + 0x20 \/ a = io + 0x28 \/ (a = io + 0x7f8 /\ v = 0xff) \/
      exists i, 0 <= i < CCAT_WRITE_BLOCK_SIZE /\ a = io + CCAT_DATA_OUT_4 + 8 * i)
  | _ => True
  end.

Section Registers.
Context {E : Type} `{Env E}.
Variables (fuel : nat) (io : Z).
Local Abbreviation regs m := (forall_calls (flash_register io) m).

Lemma poll_busy_regs n : regs (poll_busy n io : M E unit).
Proof. induction n as [|n IH]; simpl; fc_run; simpl; auto. Qed.

Lemma update_cmd_regs c : regs (ccat_update_cmd fuel io c : M E unit).
Proof.
  unfold ccat_update_cmd, __ccat_update_cmd, wait_until_busy_reset.
  fc_run; simpl; auto 12 using poll_busy_regs.
Qed.

Lemma update_cmd_addr_regs c addr : regs (ccat_update_cmd_addr fuel io c addr : M E unit).
Proof.
  unfold ccat_update_cmd_addr, __ccat_update_cmd, wait_until_busy_reset.
  fc_run; simpl; auto 12 using poll_busy_regs.
Qed.

Lemma put_data_regs buf i n :
  0 <= i -> i + Z.of_nat n <= CCAT_DATA_BLOCK_SIZE -> regs (put_data io buf i n : M E unit).
Proof.
  revert i. induction n as [|n IH]; intros i Hi Hn; simpl; fc_run; simpl; auto.
  - split; [done|]. right. right. exists i. split; [lia | done].
  - apply IH; lia.
Qed.

Lemma read_block_regs addr len buf :
  0 <= len <= CCAT_DATA_BLOCK_SIZE -> regs (ccat_read_flash_block fuel io addr len buf : M E Z).
Proof.
  intros Hl. unfold ccat_read_flash_block. fc_run; [apply update_cmd_addr_regs|].
  apply put_data_regs; lia.
Qed.

Lemma read_loop_regs n buf len off :
  0 <= len -> regs (read_flash_loop fuel n io buf len off : M E Z).
Proof.
  revert buf len off. induction n as [|n IH]; intros buf len off Hl; simpl; [fc_run|].
  assert (CCAT_DATA_BLOCK_SIZE = 247) as Hbs by reflexivity.
  destruct (Z.ltb_spec CCAT_DATA_BLOCK_SIZE len); fc_run.
  - apply read_block_regs. lia.
  - apply IH. lia.
  - apply read_block_regs. rewrite u16_small; lia.
Qed.

Lemma wait_status_regs n : regs (wait_status_loop fuel n io : M E unit).
Proof.
  induction n as [|n IH]; simpl; unfold ccat_get_status; fc_run; simpl; auto using update_cmd_regs.
Qed.

Lemma out_data_regs i l :
  0 <= i -> i + zlen l <= CCAT_WRITE_BLOCK_SIZE -> regs (out_data io i l : M E unit).
Proof.
  unfold zlen. revert i. induction l as [|v l IH]; intros i Hi Hl; simpl in *; fc_run.
  - split; [done|]. do 7 right. exists i. split; [lia | done].
  - apply IH; lia.
Qed.

Lemma write_block_regs addr len l :
  0 <= len <= CCAT_WRITE_BLOCK_SIZE -> regs (ccat_write_flash_block fuel io addr len l : M E Z).
Proof.
  intros Hl. unfold ccat_write_flash_block, ccat_wait_status_cleared.
  fc_run; auto using update_cmd_regs, update_cmd_addr_regs, wait_status_regs.
  apply out_data_regs; [lia|]. unfold zlen. rewrite length_take. lia.
Qed.

Lemma write_loop_regs n off len l :
  0 <= len -> regs (write_flash_loop fuel n io off len l : M E unit).
Proof.
  assert (CCAT_WRITE_BLOCK_SIZE = 128) as Hbs by reflexivity.
  revert off len l. induction n as [|n IH]; intros off len l Hl; simpl; [fc_run|].
  destruct (Z.ltb_spec CCAT_WRITE_BLOCK_SIZE len); fc_run.
  - apply write_block_regs. rewrite u16_small; lia.
  - apply IH. lia.
  - apply write_block_regs. rewrite u16_small; lia.
Qed.

End Registers.

Section FileOps.
Context {E : Type} `{Env E}.

(** C30: whatever the hardware answers and however long it takes, [read] and [release] access
    only the registers of the update function, each in its direction: at most 247 data-in and 128
    data-out registers per command, so a block never reaches the trigger, which is written with
    0xff and nothing else. *)
Theorem ccat_update_register_safety fuel c b ubuf len off :
  0 <= b_size b ->
  forall_calls (flash_register (ioaddr c)) (ccat_update_read fuel c ubuf len off : M E _) /\
  forall_calls (flash_register (ioaddr c)) (ccat_update_release fuel c b : M E _).
Proof.
  intros Hb. split.
  - unfold ccat_update_read, ccat_read_flash. fc_run. apply read_loop_regs.
    apply Z.mod_pos_bound. lia.
  - unfold ccat_update_release, ccat_wait_status_cleared, ccat_write_flash, ccat_cdev_release.
    fc_run; auto using update_cmd_regs, wait_status_regs, write_loop_regs; simpl; auto.
Qed.

(** [write] collects: data that would reach past the end of the flash is refused with 0 and no
    effect; otherwise the user's bytes land in the buffer at the file offset, nothing else in it
    changes, offset and recorded size become the end of the data, and a fault of the user's memory
    is reported without moving either.  The buffer is never overrun and the recorded size never
    exceeds it. *)
Lemma ccat_update_write_collects `{!UserMem E} c b ubuf len off (e : E) :
  cdev_wf c -> buffer_wf c b -> 0 <= b_size b <= iosize c -> vfs_range off len -> zlen ubuf = len ->
  wp (ccat_update_write c b ubuf len off) e (fun '(r, off', b') t _ =>
    buffer_wf c b' /\ 0 <= b_size b' <= iosize c /\
    (iosize c < off + len -> r = 0 /\ off' = off /\ b' = b /\ t = []) /\
    (off + len <= iosize c ->
       (r = - EFAULT /\ off' = off /\ b_size b' = b_size b) \/
       (r = len /\ off' = off + len /\ b_size b' = off + len /\
        slice off len (b_data b') = ubuf /\
        forall i : nat, Z.of_nat i < off \/ off + len <= Z.of_nat i ->
          b_data b' !! i = b_data b !! i))).
Proof.
  intros Hc Hb Hs (Ho & Hl & Hv) Hu. unfold cdev_wf, buffer_wf in *.
  unfold ccat_update_write. rewrite u64_small by lia.
  destruct (Z.ltb_spec (iosize c) (off + len)); wp_run; [split_and!; auto; lia|].
  apply copy_from_user_ok; [done | done | lia |]. intros r b' Hr Hlen Hsz Hcopy.
  destruct (istrue r) eqn:Ht; wp_run; simpl.
  { split_and!; [lia | lia | lia | lia | auto]. }
  assert (r = 0) as Hr0 by (unfold istrue in Ht; destruct (Z.eqb_spec r 0); done).
  rewrite (Hcopy Hr0) in *. simpl in *. split_and!; [lia | lia | lia | lia |]. intros _. right.
  split_and!; [done..| |].
  - rewrite <- Hu. apply slice_splice_eq; lia.
  - intros i Hi. apply lookup_splice_out; [lia | lia |]. unfold zlen in Hu. lia.
Qed.

(** The probe refuses an update function of another revision, and otherwise registers a
    device of the size of the flash, 0xE0000 bytes, whose offsets fit the 24-bit flash address. *)
Lemma ccat_update_probe_device `{!CdevKernel E} `{!CdevRegisters E} func base (e : E) :
  class_ok base -> Exists (fun c => dev c = 0) (devices base) ->
  wp (ccat_update_probe func base) e (fun '(r, base', slot) t _ =>
    if i_rev (f_info func) =? 0
    then r = 0 /\ exists i c, slot = Some i /\ devices base' !! i = Some c /\
      ioaddr c = func_base func /\ 0 <= iosize c < 2 ^ 24 /\ cdev_wf c /\ in_use c = 1
    else r = - ENODEV /\ base' = base /\ slot = None /\ t = []).
Proof.
  intros Hok Hfree. unfold ccat_update_probe. rewrite (Z.eqb_sym 0).
  destruct (_ =? 0); simpl; [|by wp_run].
  eapply wp_conseq; [by apply ccat_cdev_probe_succeeds|].
  intros [[r base'] slot] t e' [-> (i & -> & Hi & _ & Hd)]. split; [done|].
  eexists i, _. rewrite Hd, list_lookup_insert_eq by done. unfold cdev_wf. simpl.
  unfold CCAT_FLASH_SIZE. split_and!; done || lia.
Qed.

End FileOps.

(** ** Witnesses *)

Definition update_func : ccat_function :=
  Function_ (Device 1 1 65536 0) (Info (info_code CCATINFO_EPCS_PROM) 0 0 0x1000 0).
Definition update_class : ccat_class := fresh_class CCAT_DEVICES_MAX "ccat_update".
Definition small_dev : ccat_cdev := Cdev 0 4096 8 (MKDEV 240 0) true.
Definition small_buf : cdev_buffer := Buffer 0 8192 0 (replicate 8 0).

Lemma ccat_update_cmd_addr_protocol_witness :
  exists t, ccat_update_cmd_addr (H := grant) 1 4096 (0xC0, 40) 0x010203 tt = (Ret tt, t, tt) /\
    calls t = [IoWrite W8 4096 0; IoWrite W8 4104 40; IoWrite W8 4112 0xC0; IoWrite W8 4120 0x80;
               IoWrite W8 4128 0x40; IoWrite W8 4136 0xC0; Wmb; IoWrite W8 6136 0xff; Wmb;
               IoRead W8 4097].
Proof.
  pose proof (ccat_update_cmd_addr_protocol (H := grant) 1 4096 0xC0 40 0x010203 tt) as Hw.
  apply wp_elim in Hw as ([] & t & [] & Hrun & k & Hk & Ht);
    [|unfold is_byte; lia | lia | lia | intros []; exists 0%nat; split; [lia | done]].
  exists t. split; [exact Hrun|]. destruct k; [exact Ht | lia].
Defined.

Lemma ccat_update_register_safety_witness :
  Forall (flash_register 4096)
    (calls (trace_of (ccat_update_read (H := grant) 2 small_dev 0 5 1) tt)) /\
  length (trace_of (ccat_update_read (H := grant) 2 small_dev 0 5 1) tt) = 20%nat.
Proof.
  split; [|reflexivity].
  apply (ccat_update_register_safety (H := grant) 2 small_dev small_buf 0 5 1). simpl. lia.
Defined.

Lemma grant_user : @UserMem unit grant.
Proof. intros e n Hn. simpl. lia. Qed.

Lemma ccat_update_write_collects_witness :
  exists t b, ccat_update_write (H := grant) small_dev small_buf [7; 8; 9] 3 2 tt = (Ret (3, 5, b), t, tt)
    /\ slice 2 3 (b_data b) = [7; 8; 9] /\ b_size b = 5.
Proof.
  pose proof (ccat_update_write_collects (H := grant) (UserMem0 := grant_user) small_dev small_buf
    [7; 8; 9] 3 2 tt) as Hw. unfold cdev_wf, buffer_wf, vfs_range in Hw.
  apply wp_elim in Hw as ([[r o] b] & t & [] & Hrun & _ & _ & _ & Hfit);
    [|simpl; lia | done | simpl; lia | lia | done].
  destruct Hfit as [(-> & _) | (-> & -> & Hs & Hd & _)]; [simpl; lia | |].
  - by cbv in Hrun.
  - eauto.
Defined.

Lemma ccat_update_probe_device_witness :
  exists base' i t, ccat_update_probe (H := grant) update_func update_class tt
    = (Ret (0, base', Some i), t, tt).
Proof.
  pose proof (ccat_update_probe_device (H := grant) (CdevKernel0 := grant_kernel)
    (CdevRegisters0 := grant_registers) update_func update_class tt
    (fresh_class_ok 5 "ccat_update" ltac:(lia) ltac:(lia))
    ltac:(by apply Exists_cons; left)) as Hw.
  apply wp_elim in Hw as ([[r b] s] & t & [] & Hrun & -> & i & c & -> & _). eauto.
Defined.
