(* ===== verification/Flash.v ===== *)
(** * The configuration flash: what the update driver does to it

    [FlashCtl] states what the driver relies on of the flash controller in the FPGA and of the
    serial flash behind it.  Against that interface this file proves that [ccat_update_read]
    delivers the contents of the flash, that [ccat_update_release] leaves exactly the collected
    data in it, and that a new configuration written to the device file is what is read back. *)

From S2P Require Import Prelude IO Info Cdev Update.

(** ** The interface *)

(** The controller as the driver sees it: the bytes latched in its write registers, the contents
    of the flash, the write-enable latch, for how many more polls the busy flag reads non-zero,
    for how many more status commands the write-in-progress bit is set, and its read registers. *)
Record flash_view := FV {
  fv_reg : Z -> Z;
  fv_mem : Z -> Z;
  fv_wel : bool;
  fv_busy : nat;
  fv_wip : nat;
  fv_in : Z -> Z;
}.

Definition with_reg (o v : Z) (f : flash_view) : flash_view :=
  FV (upd (fv_reg f) o v) (fv_mem f) (fv_wel f) (fv_busy f) (fv_wip f) (fv_in f).
Definition with_busy (n : nat) (f : flash_view) : flash_view :=
  FV (fv_reg f) (fv_mem f) (fv_wel f) n (fv_wip f) (fv_in f).

(** The command in the registers: its code, its clock count, its address (bytes arrive with
    their bits reversed). *)
Definition fv_cmd (f : flash_view) : Z := fv_reg f 0x10.
Definition fv_clocks (f : flash_view) : Z := fv_reg f 0 * 256 + fv_reg f 8.
Definition fv_addr (f : flash_view) : Z :=
  rev8 (fv_reg f 0x18) * 65536 + rev8 (fv_reg f 0x20) * 256 + rev8 (fv_reg f 0x28).

(** Programming a NOR flash can only clear bits. *)
Definition program (mem : Z -> Z) (a : Z) (data : list Z) : Z -> Z := fun x =>
  if (a <=? x) && (x <? a + zlen data)
  then Z.land (mem x) (nth (Z.to_nat (x - a)) data 0) else mem x.

(** The data bytes in the write registers of a program command. *)
Definition fv_out (f : flash_view) (n : nat) : list Z :=
  (fun i => fv_reg f (CCAT_DATA_OUT_4 + 8 * i)) <$> seqZ 0 (Z.of_nat n).

(** [FlashCtl E io bound]: a controller at [io] that finishes every command within [bound] polls
    and every write within [bound] status commands.  The commands are those of the serial flash:
    write enable, bulk erase, read status, read and program within a page of 256 bytes. *)
Class FlashCtl (E : Type) `{Env E} (io : Z) (bound : nat) := {
  fl : E -> flash_view;
  fl_wmb : forall e, fl (ext Wmb e).2 = fl e;
  fl_kernel : forall e k, k = Schedule \/ user_copy k \/ (exists p, k = Kfree p) \/ (exists z, k = Kzalloc z) ->
    fl (ext (Kernel k) e).2 = fl e;
  (* the registers below the trigger latch what is written to them *)
  fl_reg : forall e o v, 0 <= o < 0x7f8 -> is_byte v ->
    fl (ext (IoWrite W8 (io + o) v) e).2 = with_reg o v (fl e);
  (* the busy flag *)
  fl_idle : forall e, fv_busy (fl e) = 0%nat ->
    u8 (r_val (ext (IoRead W8 (io + 1)) e).1) = 0 /\ fl (ext (IoRead W8 (io + 1)) e).2 = fl e;
  fl_busy : forall e n, fv_busy (fl e) = S n ->
    u8 (r_val (ext (IoRead W8 (io + 1)) e).1) <> 0 /\
    fl (ext (IoRead W8 (io + 1)) e).2 = with_busy n (fl e);
  (* the read registers *)
  fl_in : forall e o, fv_busy (fl e) = 0%nat -> 0x20 <= o < CCAT_DATA_IN_N ->
    u8 (r_val (ext (IoRead W8 (io + o)) e).1) = u8 (fv_in (fl e) o) /\
    fl (ext (IoRead W8 (io + o)) e).2 = fl e;
  (* the commands *)
  fl_wren : forall e, let f := fl e in
    fv_busy f = 0%nat -> fv_wip f = 0%nat -> fv_cmd f = 0x60 -> fv_clocks f = 8 ->
    exists b, (b <= bound)%nat /\ fl (ext (IoWrite W8 (io + 0x7f8) 0xff) e).2 =
      FV (fv_reg f) (fv_mem f) true b 0 (fv_in f);
  fl_erase : forall e, let f := fl e in
    fv_busy f = 0%nat -> fv_wip f = 0%nat -> fv_wel f = true -> fv_cmd f = 0xE3 ->
    fv_clocks f = 8 ->
    exists b w, (b <= bound)%nat /\ (w <= bound)%nat /\
      fl (ext (IoWrite W8 (io + 0x7f8) 0xff) e).2 =
      FV (fv_reg f) (fun _ => 0xff) false b w (fv_in f);
  fl_status : forall e, let f := fl e in
    fv_busy f = 0%nat -> fv_cmd f = 0xA0 -> fv_clocks f = 16 ->
    exists b s, (b <= bound)%nat /\ is_byte s /\
      (Z.testbit s 7 = true <-> fv_wip f <> 0%nat) /\
      fl (ext (IoWrite W8 (io + 0x7f8) 0xff) e).2 =
      FV (fv_reg f) (fv_mem f) (fv_wel f) b (Nat.pred (fv_wip f)) (upd (fv_in f) 0x20 s);
  fl_read : forall e n, let f := fl e in
    fv_busy f = 0%nat -> fv_wip f = 0%nat -> fv_cmd f = 0xC0 -> fv_clocks f = 32 + 8 * n ->
    0 <= n <= CCAT_DATA_BLOCK_SIZE -> fv_addr f + n <= 2 ^ 24 ->
    exists b inp, (b <= bound)%nat /\
      (forall i, 0 <= i < n -> inp (CCAT_DATA_IN_4 + 8 * i) = fv_mem f (fv_addr f + i)) /\
      fl (ext (IoWrite W8 (io + 0x7f8) 0xff) e).2 =
      FV (fv_reg f) (fv_mem f) (fv_wel f) b 0 inp;
  fl_program : forall e n, let f := fl e in
    fv_busy f = 0%nat -> fv_wip f = 0%nat -> fv_wel f = true -> fv_cmd f = 0x40 ->
    fv_clocks f = 32 + 8 * Z.of_nat n -> (0 < n)%nat -> fv_addr f mod 256 + Z.of_nat n <= 256 ->
    fv_addr f + Z.of_nat n <= 2 ^ 24 ->
    exists b w, (b <= bound)%nat /\ (w <= bound)%nat /\
      fl (ext (IoWrite W8 (io + 0x7f8) 0xff) e).2 =
      FV (fv_reg f) (program (fv_mem f) (fv_addr f) (fv_out f n)) false b w (fv_in f);
}.
Arguments fl {E _} io bound {_} e.

Section Flash.
Context {E : Type} `{Env E} {io : Z} {bound : nat} `{!FlashCtl E io bound}.
Context (fuel : nat) (Hfuel : (bound < fuel)%nat).
Local Abbreviation view := (fl io bound).

(** ** Commands *)

Lemma poll_busy_flash n (e : E) :
  (fv_busy (view e) < n)%nat ->
  wp (poll_busy n io) e (fun _ _ e' => view e' = with_busy 0 (view e)).
Proof.
  revert e. induction n as [|n IH]; intros e Hn; [lia|]. simpl. wp_run. untrunc.
  destruct (fv_busy (view e)) as [|k] eqn:Hb.
  - destruct (fl_idle e Hb) as [-> Hs]. wp_run. rewrite Hs. unfold with_busy. rewrite <- Hb.
    by destruct (view e).
  - destruct (fl_busy e k Hb) as [Hne Hs]. rewrite istrue_nz by done. wp_run.
    eapply wp_mono; [apply IH; rewrite fl_kernel, Hs by auto; simpl; lia | done |].
    intros ? t e' He'. rewrite He', fl_kernel, Hs by auto. done.
Qed.

Lemma wait_flash (e : E) Q :
  (fv_busy (view e) <= bound)%nat ->
  (forall t e', view e' = with_busy 0 (view e) -> Q tt t e') ->
  wp (wait_until_busy_reset fuel io) e Q.
Proof.
  intros Hb HQ. unfold wait_until_busy_reset. wp_run.
  eapply wp_mono; [apply poll_busy_flash; rewrite fl_wmb; lia | done |].
  intros [] t e' He'. apply HQ. by rewrite He', fl_wmb.
Qed.

(** The registers with command [c] in them. *)
Definition with_cmd (cmd clocks : Z) (f : flash_view) : flash_view :=
  with_reg 0x10 cmd (with_reg 0x8 (clocks mod 256) (with_reg 0 (clocks / 256) f)).

Lemma fl_reg0 (e : E) v : is_byte v -> view (ext (IoWrite W8 io v) e).2 = with_reg 0 v (view e).
Proof. intros Hv. pose proof (fl_reg e 0 v ltac:(lia) Hv) as Hr. by rewrite Z.add_0_r in Hr. Qed.

Lemma setup_flash cmd clocks (e : E) Q :
  is_byte cmd -> 0 <= clocks < 65536 ->
  (forall t e', view e' = with_cmd cmd clocks (view e) -> Q tt t e') ->
  wp (__ccat_update_cmd io cmd clocks) e Q.
Proof.
  intros Hcmd Hcl HQ. unfold __ccat_update_cmd. wp_run. apply HQ. untrunc.
  rewrite !(Z.land_comm _ clocks), land_ff, land_ff00, (u8_small cmd) by done.
  rewrite (Z.mod_small (clocks / 256)) by mach.
  rewrite (u8_small (clocks / 256)), (u8_small (clocks mod 256)) by (unfold is_byte; mach).
  unfold with_cmd. rewrite 2!fl_reg by (unfold is_byte in *; mach).
  by rewrite fl_reg0 by (unfold is_byte in *; mach).
Qed.

(** Two-argument and address commands up to the trigger. *)
Definition with_addr (addr : Z) (f : flash_view) : flash_view :=
  with_reg 0x28 (rev8 (addr mod 256))
    (with_reg 0x20 (rev8 (addr / 256 mod 256)) (with_reg 0x18 (rev8 (addr / 65536)) f)).

Lemma with_cmd_cmd cmd clocks f : fv_cmd (with_cmd cmd clocks f) = cmd.
Proof. done. Qed.

Lemma with_cmd_clocks cmd clocks f : fv_clocks (with_cmd cmd clocks f) = clocks.
Proof. unfold fv_clocks, with_cmd, upd. simpl. unfold upd. simpl. mach. Qed.

(** [trigger_flash post c]: the trigger executes what is in the registers; [post] is what the
    interface says of it. *)
Lemma update_cmd_flash cmd clocks (e : E) (post : flash_view -> Prop) Q :
  is_byte cmd -> 0 <= clocks < 65536 ->
  (forall e1, view e1 = with_cmd cmd clocks (view e) ->
     exists f', view (ext (IoWrite W8 (io + 0x7f8) 0xff) e1).2 = f' /\
       (fv_busy f' <= bound)%nat /\ post (with_busy 0 f')) ->
  (forall t e', post (view e') -> Q tt t e') ->
  wp (ccat_update_cmd fuel io (cmd, clocks)) e Q.
Proof.
  intros Hcmd Hcl Htrig HQ. unfold ccat_update_cmd. simpl.
  rewrite (u8_small cmd), (u16_small clocks) by done.
  apply wp_bind, setup_flash; [done..|]. intros t0 e0 He0. wp_run. untrunc.
  change (u8 0xff) with 0xff.
  destruct (Htrig (ext Wmb e0).2) as (f' & Hf' & Hb & Hp); [by rewrite fl_wmb|].
  apply wait_flash; [by rewrite Hf'|]. intros t e' He'. apply HQ. by rewrite He', Hf'.
Qed.

Lemma update_cmd_addr_flash cmd clocks addr (e : E) (post : flash_view -> Prop) Q :
  is_byte cmd -> 0 <= clocks < 65536 -> 0 <= addr < 2 ^ 24 ->
  (forall e1, view e1 = with_addr addr (with_cmd cmd clocks (view e)) ->
     exists f', view (ext (IoWrite W8 (io + 0x7f8) 0xff) e1).2 = f' /\
       (fv_busy f' <= bound)%nat /\ post (with_busy 0 f')) ->
  (forall t e', post (view e') -> Q tt t e') ->
  wp (ccat_update_cmd_addr fuel io (cmd, clocks) addr) e Q.
Proof.
  intros Hcmd Hcl Haddr Htrig HQ. unfold ccat_update_cmd_addr. simpl.
  rewrite (u8_small cmd), (u16_small clocks), (u32_small addr) by (done || lia).
  rewrite land_ff, land_ff00, land_ff0000, !swap_bits_rev8 by (unfold is_byte; mach).
  rewrite (Z.mod_small (addr / 65536)) by mach.
  apply wp_bind, setup_flash; [done..|]. intros t0 e0 He0. wp_run. untrunc.
  change (u8 0xff) with 0xff. rewrite !(u8_small (rev8 _)) by apply rev8_byte.
  match goal with |- context [ext (IoWrite W8 (io + 0x7f8) 0xff) ?e1] =>
    destruct (Htrig e1) as (f' & Hf' & Hb & Hp) end.
  { rewrite fl_wmb, !fl_reg, He0 by (apply rev8_byte || lia). done. }
  apply wait_flash; [by rewrite Hf'|]. intros t e' He'. apply HQ. by rewrite He', Hf'.
Qed.

(** The address registers decode to the address. *)
Lemma with_addr_addr addr f : 0 <= addr < 2 ^ 24 -> fv_addr (with_addr addr f) = addr.
Proof.
  intros Ha. unfold fv_addr, with_addr. simpl. unfold upd. simpl.
  rewrite !rev8_involutive by (unfold is_byte; mach). mach.
Qed.

(** ** The five commands *)

(** No command in progress and no write in progress. *)
Definition idle (f : flash_view) : Prop := fv_busy f = 0%nat /\ fv_wip f = 0%nat.

Lemma wren_flash (e : E) Q :
  idle (view e) ->
  (forall t e', fv_mem (view e') = fv_mem (view e) -> fv_wel (view e') = true ->
     idle (view e') -> Q tt t e') ->
  wp (ccat_update_cmd fuel io CCAT_WRITE_ENABLE) e Q.
Proof.
  intros [Hb Hw] HQ. eapply (update_cmd_flash _ _ _ (fun f => fv_mem f = fv_mem (view e) /\
    fv_wel f = true /\ idle f)); [unfold is_byte; lia | lia | |].
  - intros e1 He1. destruct (fl_wren e1) as (b & Hbb & Hf); try by rewrite He1.
    eexists. split; [exact Hf|]. by rewrite He1.
  - intros t e' (H1 & H2 & H3). by apply HQ.
Qed.

(** One status command: bit 7 tells whether a write was in progress. *)
Lemma status_flash (e : E) Q :
  fv_busy (view e) = 0%nat ->
  (forall s t e', fv_mem (view e') = fv_mem (view e) -> fv_wel (view e') = fv_wel (view e) ->
     fv_busy (view e') = 0%nat -> fv_wip (view e') = Nat.pred (fv_wip (view e)) ->
     (Z.testbit s 7 = true <-> fv_wip (view e) <> 0%nat) -> Q s t e') ->
  wp (ccat_get_status fuel io) e Q.
Proof.
  intros Hb HQ. unfold ccat_get_status. apply wp_bind.
  eapply (update_cmd_flash _ _ _ (fun f => exists s, fv_mem f = fv_mem (view e) /\
    fv_wel f = fv_wel (view e) /\ fv_busy f = 0%nat /\ fv_wip f = Nat.pred (fv_wip (view e)) /\
    u8 (fv_in f 0x20) = s /\ (Z.testbit s 7 = true <-> fv_wip (view e) <> 0%nat)));
    [unfold is_byte; lia | lia | |].
  - intros e1 He1. destruct (fl_status e1) as (b & s & Hbb & Hs & Hbit & Hf); try by rewrite He1.
    rewrite He1 in Hbit. eexists. split; [exact Hf|]. split; [done|]. exists s. rewrite He1.
    split_and!; try done. by apply u8_small.
  - intros t e' (s & H1 & H2 & H3 & H4 & H5 & H6). wp_run. untrunc.
    destruct (fl_in e' 0x20 H3) as [Hv Hs]; [unfold CCAT_DATA_IN_N; lia|].
    rewrite Hv, H5. apply HQ; rewrite ?Hs; done.
Qed.

Lemma wait_status_flash (e : E) Q :
  fv_busy (view e) = 0%nat -> (fv_wip (view e) <= bound)%nat ->
  (forall t e', fv_mem (view e') = fv_mem (view e) -> fv_wel (view e') = fv_wel (view e) ->
     idle (view e') -> Q tt t e') ->
  wp (ccat_wait_status_cleared fuel io) e Q.
Proof.
  intros Hb Hw. unfold ccat_wait_status_cleared.
  assert (Hn : (fv_wip (view e) < fuel)%nat) by lia. clear Hw. revert Hn Q.
  generalize fuel at 1 3. intros n. revert e Hb.
  induction n as [|n IH]; intros e Hb Hn Q HQ; [lia|]. simpl. apply wp_bind, status_flash; [done|].
  intros s t e' Hm Hwel Hb' Hwip Hbit. rewrite istrue_land_pow2 by lia.
  destruct (Z.testbit s 7) eqn:Ht.
  - assert (fv_wip (view e) <> 0%nat) by (by apply Hbit).
    apply IH; [done | lia |]. intros t' e2 H1 H2 H3. apply HQ; [congruence.. | done].
  - wp_run. apply HQ; [done..|]. split; [done|].
    destruct (fv_wip (view e)) as [|w]; [done|].
    assert (false = true) by (apply Hbit; lia). done.
Qed.

Lemma erase_flash (e : E) Q :
  idle (view e) -> fv_wel (view e) = true ->
  (forall t e', (forall a, fv_mem (view e') a = 0xff) -> idle (view e') -> Q tt t e') ->
  wp (ccat_update_cmd fuel io CCAT_BULK_ERASE ;; ccat_wait_status_cleared fuel io) e Q.
Proof.
  intros [Hb Hw] Hwel HQ. apply wp_bind.
  eapply (update_cmd_flash _ _ _ (fun f => (forall a, fv_mem f a = 0xff) /\ fv_busy f = 0%nat /\
    (fv_wip f <= bound)%nat)); [unfold is_byte; lia | lia | |].
  - intros e1 He1. destruct (fl_erase e1) as (b & w & Hbb & Hww & Hf); try by rewrite He1.
    eexists. by split; [exact Hf|].
  - intros t e' (Hm & Hb' & Hw'). apply wait_status_flash; [done..|].
    intros t' e2 Hm2 _ Hid. apply HQ; [|done]. intros a. by rewrite Hm2.
Qed.

(** ** Reading a block *)

Lemma put_data_flash n i buf (e : E) Q :
  fv_busy (view e) = 0%nat -> 0 <= i -> i + Z.of_nat n <= CCAT_DATA_BLOCK_SIZE ->
  (forall t e', view e' = view e ->
     user_puts t = (fun j => (buf + j, u8 (fv_in (view e) (CCAT_DATA_IN_4 + 8 * j)))) <$> seqZ i (Z.of_nat n) ->
     Q tt t e') ->
  wp (put_data io buf i n) e Q.
Proof.
  revert i e Q. induction n as [|n IH]; intros i e Q Hb Hi Hn HQ; simpl.
  { wp_run. by apply HQ. }
  wp_run. untrunc.
  assert (Hin : 0x20 <= CCAT_DATA_IN_4 + 8 * i < CCAT_DATA_IN_N).
  { change CCAT_DATA_BLOCK_SIZE with 247 in Hn. unfold CCAT_DATA_IN_4, CCAT_DATA_IN_N. lia. }
  destruct (fl_in e _ Hb Hin) as [Hv Hs]. rewrite Z.add_assoc in Hv, Hs. rewrite Hv.
  assert (Hv2 : view (ext (Kernel (PutUser (buf + i) (u8 (fv_in (view e) (CCAT_DATA_IN_4 + 8 * i)))))
    (ext (IoRead W8 (io + CCAT_DATA_IN_4 + 8 * i)) e).2).2 = view e).
  { rewrite fl_kernel; [done|]. right. by left. }
  apply IH; [by rewrite Hv2 | lia | lia |]. intros t e' He' Ht. apply HQ; [congruence|].
  rewrite app_assoc, user_puts_app, Ht, Hv2.
  rewrite (seqZ_cons i) by lia. rewrite fmap_cons.
  replace (Z.pred (Z.of_nat (S n))) with (Z.of_nat n) by lia.
  replace (Z.succ i) with (i + 1) by lia. done.
Qed.

Definition no_put (c : call) : Prop := forall a v, c <> Kernel (PutUser a v).

Lemma user_puts_none t : Forall no_put (calls t) -> user_puts t = [].
Proof.
  unfold calls. induction t as [|[c r] t IH]; [done|]. intros Hf.
  apply Forall_cons in Hf as [Hc Ht]. simpl in *. rewrite IH by done.
  destruct c as [| | | | |[]]; try done. by destruct (Hc addr v).
Qed.

Lemma poll_busy_no_put n : forall_calls no_put (poll_busy n io : M E unit).
Proof. induction n as [|n IH]; simpl; fc_run; done || apply IH. Qed.

Lemma update_cmd_addr_no_put c addr :
  forall_calls no_put (ccat_update_cmd_addr fuel io c addr : M E unit).
Proof.
  unfold ccat_update_cmd_addr, __ccat_update_cmd, wait_until_busy_reset. fc_run; try done.
  apply poll_busy_no_put.
Qed.

Lemma update_cmd_no_put c : forall_calls no_put (ccat_update_cmd fuel io c : M E unit).
Proof.
  unfold ccat_update_cmd, __ccat_update_cmd, wait_until_busy_reset. fc_run; try done.
  apply poll_busy_no_put.
Qed.

Lemma wait_status_no_put n : forall_calls no_put (wait_status_loop fuel n io : M E unit).
Proof.
  induction n as [|n IH]; simpl; unfold ccat_get_status; fc_run; try done;
    apply update_cmd_no_put || apply IH.
Qed.

Lemma out_data_no_put i l : forall_calls no_put (out_data io i l : M E unit).
Proof. revert i. induction l as [|v l IH]; intros i; simpl; fc_run; done || apply IH. Qed.

Lemma write_block_no_put addr len l :
  forall_calls no_put (ccat_write_flash_block fuel io addr len l : M E Z).
Proof.
  unfold ccat_write_flash_block, ccat_wait_status_cleared. fc_run;
    auto using update_cmd_no_put, out_data_no_put, update_cmd_addr_no_put, wait_status_no_put.
Qed.

Lemma write_loop_no_put n off len l :
  forall_calls no_put (write_flash_loop fuel n io off len l : M E unit).
Proof.
  revert off len l. induction n as [|n IH]; intros; simpl; fc_run; auto using write_block_no_put.
Qed.

Lemma release_no_put c b : ioaddr c = io ->
  forall_calls no_put (ccat_update_release fuel c b : M E _).
Proof.
  intros Hio. unfold ccat_update_release, ccat_wait_status_cleared, ccat_write_flash, ccat_cdev_release.
  rewrite Hio. fc_run; try done;
    auto using update_cmd_no_put, wait_status_no_put, write_loop_no_put.
Qed.

(** The [n] stores that copy the bytes of [mem] from [off] to the user's buffer at [buf]. *)
Definition delivered (mem : Z -> Z) (buf off : Z) (n : nat) : list (Z * Z) :=
  (fun j => (buf + j, u8 (mem (off + j)))) <$> seqZ 0 (Z.of_nat n).

Lemma read_block_flash addr (len : nat) buf (e : E) Q :
  idle (view e) -> 0 <= addr -> addr + Z.of_nat len < 2 ^ 24 -> Z.of_nat len <= CCAT_DATA_BLOCK_SIZE ->
  (forall t e', fv_mem (view e') = fv_mem (view e) -> idle (view e') ->
     user_puts t = delivered (fv_mem (view e)) buf addr len -> Q (Z.of_nat len) t e') ->
  wp (ccat_read_flash_block fuel io addr (Z.of_nat len) buf) e Q.
Proof.
  intros [Hb Hw] Ha Hal Hlen HQ. unfold ccat_read_flash_block. simpl.
  change CCAT_DATA_BLOCK_SIZE with 247 in Hlen. rewrite (u16_small (8 * _)) by lia.
  set (post := fun f => fv_mem f = fv_mem (view e) /\ idle f /\
    forall i, 0 <= i < Z.of_nat len -> fv_in f (CCAT_DATA_IN_4 + 8 * i) = fv_mem (view e) (addr + i)).
  apply wp_bind. eapply wp_conseq; [apply wp_forall_calls; [apply update_cmd_addr_no_put|]|].
  - apply (update_cmd_addr_flash _ _ _ _ post (fun _ _ e' => post (view e')));
      [unfold is_byte; lia | lia | lia | |done].
    intros e1 He1.
      assert (Haddr : fv_addr (view e1) = addr) by (rewrite He1; apply with_addr_addr; lia).
      destruct (fl_read e1 (Z.of_nat len)) as (b & inp & Hbb & Hinp & Hf); try by rewrite He1.
      { rewrite He1. apply with_cmd_clocks. }
      { change CCAT_DATA_BLOCK_SIZE with 247. lia. }
      { lia. }
      rewrite Haddr in Hinp. eexists. split; [exact Hf|]. rewrite He1 in *. by split_and!.
  - intros ? t e1 [(Hm & [Hb1 Hw1] & Hin) Hnp]. wp_run.
    rewrite Nat2Z.id. apply put_data_flash; [done | lia | change CCAT_DATA_BLOCK_SIZE with 247; lia |].
    intros t2 e2 He2 Ht2. wp_run. apply HQ; [congruence | by rewrite He2 |].
    rewrite app_nil_r, user_puts_app, (user_puts_none t Hnp), Ht2. simpl.
    apply list_fmap_ext. intros k j Hj. apply lookup_seqZ in Hj as [-> Hk].
    do 2 f_equal. apply Hin. lia.
Qed.

(** ** Reading a range *)

Lemma delivered_app mem buf off n m :
  delivered mem buf off (n + m) =
  delivered mem buf off n ++ delivered mem (buf + Z.of_nat n) (off + Z.of_nat n) m.
Proof.
  unfold delivered. rewrite Nat2Z.inj_add, seqZ_app, fmap_app by lia. f_equal.
  apply list_eq. intros i. rewrite !list_lookup_fmap.
  destruct (decide (i < m)%nat).
  - rewrite !lookup_seqZ_lt by lia. simpl. do 2 f_equal; [lia|]. do 2 f_equal. lia.
  - by rewrite !lookup_seqZ_ge by lia.
Qed.

Lemma read_loop_flash rounds (len : nat) buf off (e : E) Q :
  idle (view e) -> 0 <= off -> off + Z.of_nat len < 2 ^ 24 -> (len < rounds)%nat ->
  (forall t e', fv_mem (view e') = fv_mem (view e) -> idle (view e') ->
     user_puts t = delivered (fv_mem (view e)) buf off len -> Q (off + Z.of_nat len) t e') ->
  wp (read_flash_loop fuel rounds io buf (Z.of_nat len) off) e Q.
Proof.
  change CCAT_DATA_BLOCK_SIZE with 247.
  revert len buf off e Q. induction rounds as [|rounds IH]; intros len buf off e Q Hid Ho Hol Hr HQ; [lia|].
  simpl. change CCAT_DATA_BLOCK_SIZE with (Z.of_nat 247). rewrite (u32_small off) by lia.
  destruct (Z.ltb_spec (Z.of_nat 247) (Z.of_nat len)).
  - apply wp_bind, read_block_flash; [done | lia | lia | change CCAT_DATA_BLOCK_SIZE with 247; lia |].
    intros t e1 Hm Hid1 Ht. rewrite <- Nat2Z.inj_sub by lia.
    apply IH; [done | lia | lia | lia |]. intros t2 e2 Hm2 Hid2 Ht2.
    replace (off + Z.of_nat 247 + Z.of_nat (len - 247)) with (off + Z.of_nat len) by lia.
    apply HQ; [congruence | done |].
    replace len with (247 + (len - 247))%nat by lia.
    rewrite delivered_app, user_puts_app, Ht, Ht2, Hm. do 3 f_equal; lia.
  - rewrite u16_small by lia. apply wp_bind, read_block_flash;
      [done | lia | lia | change CCAT_DATA_BLOCK_SIZE with 247; lia |].
    intros t e1 Hm Hid1 Ht. wp_run. rewrite app_nil_r. by apply HQ.
Qed.

(** ** Programming a block *)

Fixpoint with_out (i : Z) (l : list Z) (f : flash_view) : flash_view :=
  match l with
  | [] => f
  | v :: l' => with_out (i + 1) l' (with_reg (CCAT_DATA_OUT_4 + 8 * i) v f)
  end.

Lemma out_data_flash i l (e : E) Q :
  0 <= i -> i + zlen l <= CCAT_WRITE_BLOCK_SIZE -> Forall is_byte l ->
  (forall t e', view e' = with_out i l (view e) -> Q tt t e') ->
  wp (out_data io i l) e Q.
Proof.
  unfold zlen, CCAT_WRITE_BLOCK_SIZE. revert i e Q.
  induction l as [|v l IH]; intros i e Q Hi Hl Hb HQ; simpl in *; wp_run; [by apply HQ|].
  apply Forall_cons in Hb as [Hv Hb]. apply IH; [lia | lia | done |].
  intros t e' He'. apply HQ. rewrite He', trunc8_byte, <- Z.add_assoc, fl_reg; try done.
  unfold CCAT_DATA_OUT_4. lia.
Qed.

Lemma with_out_fields i l f :
  fv_mem (with_out i l f) = fv_mem f /\ fv_wel (with_out i l f) = fv_wel f /\
  fv_busy (with_out i l f) = fv_busy f /\ fv_wip (with_out i l f) = fv_wip f.
Proof.
  revert i f. induction l as [|v l IH]; intros i f; simpl; [done|].
  destruct (IH (i + 1) (with_reg (CCAT_DATA_OUT_4 + 8 * i) v f)) as (-> & -> & -> & ->). done.
Qed.

Lemma with_out_low i l f o :
  o < CCAT_DATA_OUT_4 + 8 * i -> fv_reg (with_out i l f) o = fv_reg f o.
Proof.
  revert i f. induction l as [|v l IH]; intros i f Ho; simpl; [done|].
  rewrite IH by lia. simpl. unfold upd. by zcases.
Qed.

Lemma with_out_regs i l f :
  (fun j => fv_reg (with_out i l f) (CCAT_DATA_OUT_4 + 8 * j)) <$> seqZ i (zlen l) = l.
Proof.
  unfold zlen. revert i f. induction l as [|v l IH]; intros i f; [done|].
  rewrite seqZ_cons by (simpl length; lia). simpl length. rewrite fmap_cons.
  replace (Z.pred (Z.of_nat (S (length l)))) with (Z.of_nat (length l)) by lia.
  replace (Z.succ i) with (i + 1) by lia. simpl. f_equal; [|apply IH].
  rewrite with_out_low by lia. simpl. unfold upd. by zcases.
Qed.

(** The setup of the program command leaves the data registers alone. *)
Lemma fv_out_setup addr cmd clocks f l :
  fv_out (with_addr addr (with_cmd cmd clocks (with_out 0 l f))) (length l) = l.
Proof.
  unfold fv_out. transitivity
    ((fun j => fv_reg (with_out 0 l f) (CCAT_DATA_OUT_4 + 8 * j)) <$> seqZ 0 (zlen l)).
  - apply list_fmap_ext. intros k j Hj. apply lookup_seqZ in Hj as [-> Hk].
    unfold with_addr, with_cmd. simpl. unfold upd, CCAT_DATA_OUT_4. by zcases.
  - apply with_out_regs.
Qed.

Lemma write_block_flash addr (n : nat) buf (e : E) Q :
  idle (view e) -> 0 <= addr -> addr + Z.of_nat n < 2 ^ 24 -> (0 < n)%nat ->
  Z.of_nat n <= CCAT_WRITE_BLOCK_SIZE -> addr mod 256 + Z.of_nat n <= 256 ->
  (n <= length buf)%nat -> Forall is_byte buf ->
  (forall t e', fv_mem (view e') = program (fv_mem (view e)) addr (take n buf) ->
     idle (view e') -> Q (Z.of_nat n) t e') ->
  wp (ccat_write_flash_block fuel io addr (Z.of_nat n) buf) e Q.
Proof.
  intros Hid Ha Hal Hn0 Hn Hpage Hlen Hbytes HQ. unfold CCAT_WRITE_BLOCK_SIZE in Hn.
  unfold ccat_write_flash_block. simpl. rewrite (u16_small (8 * _)) by lia.
  apply wp_bind, wren_flash; [done|]. intros t0 e0 Hm0 Hwel0 [Hb0 Hw0]. apply wp_bind.
  destruct (Z.ltb_spec (zlen buf) (Z.of_nat n)); [unfold zlen in *; lia|]. rewrite Nat2Z.id.
  assert (Hl : length (take n buf) = n) by (rewrite length_take; lia).
  apply out_data_flash; [lia | unfold zlen, CCAT_WRITE_BLOCK_SIZE; lia | by apply Forall_take |].
  intros t1 e1 He1. destruct (with_out_fields 0 (take n buf) (view e0)) as (Wm & Wwel & Wb & Ww).
  apply wp_bind.
  apply (update_cmd_addr_flash _ _ _ _ (fun f => fv_mem f = program (fv_mem (view e)) addr (take n buf)
    /\ fv_busy f = 0%nat /\ (fv_wip f <= bound)%nat)); [unfold is_byte; lia | lia | lia | |].
  - intros e2 He2. rewrite He1 in He2.
    assert (Haddr : fv_addr (view e2) = addr) by (rewrite He2; apply with_addr_addr; lia).
    destruct (fl_program e2 n) as (b & w & Hbb & Hww & Hf); rewrite ?Haddr; try lia;
      try (rewrite He2; reflexivity || (simpl; congruence)).
    { rewrite He2. apply with_cmd_clocks. }
    eexists. split; [exact Hf|]. simpl. split_and!; try done.
    pose proof (fv_out_setup addr 64 (32 + 8 * Z.of_nat n) (view e0) (take n buf)) as Ho.
    rewrite Hl in Ho. rewrite Haddr, He2, Ho. simpl. by rewrite Wm, Hm0.
  - intros t2 e2 (Hm2 & Hb2 & Hw2). apply wp_bind, wait_status_flash; [done..|].
    intros t3 e3 Hm3 _ Hid3. wp_run. apply HQ; [congruence | done].
Qed.

(** ** Programming a configuration *)

(** The flash after an erase and the programming of the first [k] bytes of [data]. *)
Definition written (data : list Z) (k : Z) : Z -> Z := fun x =>
  if (0 <=? x) && (x <? k) then nth (Z.to_nat x) data 0 else 0xff.

Lemma land_ff_byte b : is_byte b -> Z.land 0xff b = b.
Proof. intros Hb. rewrite Z.land_comm, land_ff. by apply Z.mod_small. Qed.

Lemma program_written data k (n : nat) x :
  Forall is_byte data -> 0 <= k -> k + Z.of_nat n <= zlen data ->
  program (written data k) k (take n (drop (Z.to_nat k) data)) x = written data (k + Z.of_nat n) x.
Proof.
  intros Hb Hk Hl. unfold zlen in Hl.
  assert (Hlen : zlen (take n (drop (Z.to_nat k) data)) = Z.of_nat n).
  { unfold zlen. rewrite length_take, length_drop. lia. }
  unfold program. rewrite Hlen. destruct (Z.leb_spec k x) as [Hkx|Hkx]; simpl.
  - destruct (Z.ltb_spec x (k + Z.of_nat n)) as [Hx|Hx]; unfold written; zcases; simpl; try done.
    destruct (lookup_lt_is_Some_2 data (Z.to_nat x)) as [b Hbx]; [lia|].
    assert (Hnth : nth (Z.to_nat (x - k)) (take n (drop (Z.to_nat k) data)) 0 = b).
    { apply nth_lookup_Some. rewrite lookup_take_lt, lookup_drop by lia. rewrite <- Hbx. f_equal. lia. }
    rewrite Hnth, land_ff_byte by (by eapply Forall_lookup_1). symmetry. by apply nth_lookup_Some.
  - unfold written. zcases; done.
Qed.

Lemma program_ext f g a l x : f x = g x -> program f a l x = program g a l x.
Proof. unfold program. intros ->. done. Qed.

Lemma write_loop_flash rounds data k (e : E) Q :
  idle (view e) -> 0 <= k -> k mod 128 = 0 -> zlen data < 2 ^ 24 -> Forall is_byte data ->
  forall len, 0 < len -> k + len <= zlen data -> len < Z.of_nat rounds ->
  (forall x, fv_mem (view e) x = written data k x) ->
  (forall t e', (forall x, fv_mem (view e') x = written data (k + len) x) -> idle (view e') -> Q tt t e') ->
  wp (write_flash_loop fuel rounds io k len (drop (Z.to_nat k) data)) e Q.
Proof.
  intros Hid Hk Hmod Hdata Hb. revert k e Hid Hk Hmod Q.
  induction rounds as [|rounds IH]; intros k e Hid Hk Hmod Q len Hl Hkl Hr Hm HQ; [lia|].
  simpl. unfold CCAT_WRITE_BLOCK_SIZE.
  assert (Hdrop : Forall is_byte (drop (Z.to_nat k) data)) by by apply Forall_drop.
  assert (Hdl : zlen (drop (Z.to_nat k) data) = zlen data - k).
  { unfold zlen in *. rewrite length_drop. lia. }
  unfold zlen in *. destruct (Z.ltb_spec 128 len).
  - change (u16 128) with (Z.of_nat 128). apply wp_bind, write_block_flash;
      [done | lia | lia | lia | unfold CCAT_WRITE_BLOCK_SIZE; lia | mach | lia | done |].
    intros t1 e1 Hm1 Hid1. rewrite (u32_small (k + 128)) by lia. rewrite drop_drop.
    replace (Z.to_nat k + Z.to_nat 128)%nat with (Z.to_nat (k + 128)) by lia.
    apply IH; [done | lia | mach | lia | lia | lia | |].
    + intros x. rewrite Hm1, (program_ext _ _ _ _ _ (Hm x)). apply program_written; [done | lia | unfold zlen; lia].
    + intros t2 e2 Hm2 Hid2. apply HQ; [|done]. intros x. rewrite Hm2. f_equal. lia.
  - rewrite u16_small, <- (Z2Nat.id len) by lia.
    apply wp_bind, write_block_flash;
      [done | lia | lia | lia | unfold CCAT_WRITE_BLOCK_SIZE; lia | mach | lia | done |].
    intros t1 e1 Hm1 Hid1. wp_run. apply HQ; [|done].
    intros x. rewrite Hm1, (program_ext _ _ _ _ _ (Hm x)). rewrite program_written by (done || unfold zlen; lia).
    f_equal. lia.
Qed.

(** ** File operations *)

Lemma update_read_flash c ubuf len off (e : E) :
  ioaddr c = io -> 0 <= iosize c < 2 ^ 24 -> vfs_range off len -> idle (view e) ->
  off < iosize c ->
  wp (ccat_update_read fuel c ubuf len off) e (fun '(r, off') t e' =>
    fv_mem (view e') = fv_mem (view e) /\ idle (view e') /\
    r = Z.min len (iosize c - off) /\ off' = off + r /\
    user_puts t = delivered (fv_mem (view e)) ubuf off (Z.to_nat r)).
Proof.
  intros Hio Hsz (Ho & Hl & Hv) Hid Hlt. unfold ccat_update_read, ccat_read_flash. rewrite Hio.
  rewrite (u64_small off), (u64_small (iosize c - off)) by lia.
  destruct (Z.leb_spec (iosize c) off); [lia|].
  rewrite u32_small by lia. apply wp_bind. set (n := Z.min len (iosize c - off)).
  rewrite <- (Z2Nat.id n) by lia. apply read_loop_flash; [done | lia | lia | lia |].
  intros t e' Hm Hid' Ht. wp_run. rewrite app_nil_r.
  split_and!; [done | done | lia | lia |].
  rewrite Ht. f_equal. lia.
Qed.

Lemma release_flash c b (e : E) Q :
  ioaddr c = io -> 0 < b_size b <= zlen (b_data b) -> zlen (b_data b) < 2 ^ 24 ->
  Forall is_byte (b_data b) -> idle (view e) ->
  (forall t e', (forall x, fv_mem (view e') x = written (b_data b) (b_size b) x) ->
     idle (view e') -> Q (0, set_in_use (in_use c + 1) c) t e') ->
  wp (ccat_update_release fuel c b) e Q.
Proof.
  intros Hio Hsz Hlen Hb Hid HQ. unfold ccat_update_release, ccat_write_flash. rewrite Hio.
  destruct (Z.ltb_spec 0 (b_size b)); [|lia].
  apply wp_bind, wp_bind, wren_flash; [done|]. intros t0 e0 Hm0 Hwel0 Hid0. apply wp_assoc, wp_bind.
  apply erase_flash; [done..|]. intros t1 e1 Hm1 Hid1.
  apply (write_loop_flash _ (b_data b) 0); [done | lia | done | done | done | lia | lia | lia | |].
  - intros x. rewrite Hm1. unfold written. by zcases.
  - intros t2 e2 Hm2 Hid2. unfold ccat_cdev_release. wp_run. apply HQ.
    + intros x. rewrite fl_kernel by eauto. apply Hm2.
    + by rewrite fl_kernel by eauto.
Qed.

(** Reading the device file delivers the bytes of the flash at the file offset, in order and
    for as many as were asked for up to the end of the device; it changes neither the flash nor
    leaves a command in progress, and returns and advances the offset by the number delivered.  At
    or past the end it returns 0 without touching the hardware. *)
Lemma ccat_update_read_contents c ubuf len off (e : E) :
  ioaddr c = io -> 0 <= iosize c < 2 ^ 24 -> vfs_range off len -> idle (view e) ->
  wp (ccat_update_read fuel c ubuf len off) e (fun '(r, off') t e' =>
    fv_mem (view e') = fv_mem (view e) /\ idle (view e') /\ off' = off + r /\
    r = Z.max 0 (Z.min len (iosize c - off)) /\
    user_puts t = delivered (fv_mem (view e)) ubuf off (Z.to_nat r) /\
    (iosize c <= off -> t = [])).
Proof.
  intros Hio Hsz Hv Hid. destruct (Z.lt_ge_cases off (iosize c)) as [Hlt|Hge].
  - eapply wp_conseq; [by apply update_read_flash|].
    intros [r off'] t e' (Hm & Hid' & Hr & Ho & Ht). unfold vfs_range in Hv.
    split_and!; [done | done | done | lia | done | lia].
  - unfold ccat_update_read. unfold vfs_range in Hv. rewrite u64_small by lia.
    destruct (Z.leb_spec (iosize c) off); [|lia]. wp_run.
    assert (Z.max 0 (Z.min len (iosize c - off)) = 0) as -> by lia.
    split_and!; try done. lia.
Qed.

(** Closing the file programs the collected data: with data in the buffer the whole flash is
    erased and then holds exactly the first [size] bytes of the buffer; without, the flash is not
    touched.  Either way the device can be opened again. *)
Lemma ccat_update_release_programs c b (e : E) :
  ioaddr c = io -> 0 <= b_size b <= zlen (b_data b) -> zlen (b_data b) < 2 ^ 24 ->
  Forall is_byte (b_data b) -> idle (view e) ->
  wp (ccat_update_release fuel c b) e (fun '(r, c') t e' =>
    r = 0 /\ c' = set_in_use (in_use c + 1) c /\ idle (view e') /\
    if b_size b =? 0
    then fv_mem (view e') = fv_mem (view e) /\ calls t = [Kernel (Kfree (b_ptr b))]
    else forall x, fv_mem (view e') x =
           if (0 <=? x) && (x <? b_size b) then nth (Z.to_nat x) (b_data b) 0 else 0xff).
Proof.
  intros Hio Hsz Hlen Hb Hid. destruct (Z.eqb_spec (b_size b) 0) as [Hz|Hz].
  - unfold ccat_update_release, ccat_cdev_release. rewrite Hz. simpl. wp_run.
    rewrite fl_kernel by eauto. done.
  - apply release_flash; [done | lia | done | done | done |]. intros t e' Hm Hid'. auto.
Qed.

(** ** Writing a configuration through the file, in any number of chunks

    [write_chunks] is the user's process: it writes the chunks one after the other. *)
Fixpoint write_chunks (c : ccat_cdev) (b : cdev_buffer) (chunks : list (list Z)) (off : Z)
  : M E (Z * cdev_buffer) :=
  match chunks with
  | [] => mret (off, b)
  | l :: chunks' =>
      '(_, off, b) ← ccat_update_write c b l (zlen l) off;
      write_chunks c b chunks' off
  end.

(** Every [copy_from_user] of the run copies everything. *)
Definition user_readable : Prop :=
  forall (e : E) n, r_val (ext (Kernel (CopyFromUser n)) e).1 = 0.

Lemma write_chunks_flash `{!UserMem E} c b chunks off (e : E) Q :
  user_readable -> buffer_wf c b -> 0 <= off -> b_size b = off -> iosize c < 2 ^ 63 ->
  off + zlen (concat chunks) <= iosize c -> Forall is_byte (b_data b) ->
  Forall (Forall is_byte) chunks ->
  (forall b' t e', view e' = view e -> buffer_wf c b' -> Forall is_byte (b_data b') ->
     b_size b' = off + zlen (concat chunks) -> user_puts t = [] ->
     take (Z.to_nat (b_size b')) (b_data b') = take (Z.to_nat off) (b_data b) ++ concat chunks ->
     Q (off + zlen (concat chunks), b') t e') ->
  wp (write_chunks c b chunks off) e Q.
Proof.
  intros Hread. revert b off e Q. induction chunks as [|l chunks IH];
    intros b off e Q Hwf Ho Hsz Hmax Hfit Hb Hbs HQ.
  - simpl in *. wp_run. rewrite Z.add_0_r in *. apply HQ; try done. by rewrite app_nil_r, Hsz.
  - simpl in *. rewrite zlen_app in *. apply Forall_cons in Hbs as [Hl Hbs].
    pose proof (zlen_nonneg l). pose proof (zlen_nonneg (concat chunks)). unfold buffer_wf in Hwf.
    apply wp_bind. unfold ccat_update_write. rewrite u64_small by lia.
    destruct (Z.ltb_spec (iosize c) (off + zlen l)); [lia|]. wp_run.
    apply copy_from_user_ok; [done | done | lia |]. intros r b1 Hr Hlen _ Hcopy.
    rewrite Hread in Hr. rewrite (Hcopy Hr). rewrite Hr. wp_run. simpl.
    apply IH; simpl; try done; unfold buffer_wf; simpl; try lia.
    { by rewrite zlen_splice by lia. }
    { by apply Forall_splice. }
    intros b' t e' He' Hwf' Hb' Hsz' Hput Htake. rewrite <- Z.add_assoc. apply HQ; try done; try lia.
    + rewrite He'. apply fl_kernel. right. by left.
    + rewrite Htake, take_splice_append by lia. by rewrite app_assoc.
Qed.

(** [l] stored at the user address [ubuf]. *)
Definition put_at (ubuf : Z) (l : list Z) : list (Z * Z) :=
  zip_with (fun i v => (ubuf + i, v)) (seqZ 0 (zlen l)) l.

Lemma delivered_written data ubuf :
  Forall is_byte data -> delivered (written data (zlen data)) ubuf 0 (length data) = put_at ubuf data.
Proof.
  intros Hb. apply list_eq. intros i. unfold delivered, put_at.
  rewrite list_lookup_fmap, lookup_zip_with. unfold zlen.
  destruct (decide (i < length data)%nat) as [Hi|Hi].
  - rewrite lookup_seqZ_lt by lia. destruct (lookup_lt_is_Some_2 data i Hi) as [v Hv].
    rewrite Hv. simpl. do 2 f_equal. unfold written. zcases. simpl.
    match goal with |- context [Z.to_nat ?z] => replace (Z.to_nat z) with i by lia end.
    rewrite (nth_lookup_Some _ _ _ _ Hv). apply u8_small. by eapply Forall_lookup_1.
  - by rewrite lookup_seqZ_ge by lia.
Qed.

Lemma fslice_written_ext f data k a n ubuf :
  (forall x, f x = written data k x) -> delivered f ubuf a n = delivered (written data k) ubuf a n.
Proof. intros Hf. apply list_fmap_ext. intros. by rewrite Hf. Qed.

Lemma written_take l k x : 0 <= k <= zlen l -> written l k x = written (take (Z.to_nat k) l) k x.
Proof.
  intros Hk. unfold written, zlen in *. zcases; simpl; try done.
  destruct (lookup_lt_is_Some_2 l (Z.to_nat x)) as [v Hv]; [lia|].
  rewrite (nth_lookup_Some _ _ _ _ Hv). symmetry. apply nth_lookup_Some.
  by rewrite lookup_take_lt by lia.
Qed.

(** C5: a configuration written to the freshly opened device file in any chunks, and programmed
    by closing the file, is what reading the device delivers afterwards, and the rest of the
    flash reads as erased. *)
Theorem ccat_update_roundtrip `{!UserMem E} c slot ptr chunks ubuf (e : E) :
  let data := concat chunks in
  ioaddr c = io -> 0 <= iosize c < 2 ^ 24 -> user_readable -> idle (view e) ->
  Forall (Forall is_byte) chunks -> 0 < zlen data <= iosize c ->
  wp ('(_, b1) ← write_chunks c (Buffer slot ptr 0 (replicate (Z.to_nat (iosize c)) 0)) chunks 0;
      '(_, c1) ← ccat_update_release fuel c b1;
      '(n, _) ← ccat_update_read fuel c1 ubuf (zlen data) 0;
      mret n) e
    (fun n t e' => n = zlen data /\ user_puts t = put_at ubuf data /\
       forall x, zlen data <= x -> fv_mem (view e') x = 0xff).
Proof.
  intros data Hio Hsz Hread Hid Hbytes Hlen. apply wp_bind.
  assert (Hz : zlen (replicate (Z.to_nat (iosize c)) 0) = iosize c).
  { unfold zlen. rewrite length_replicate. lia. }
  apply write_chunks_flash; try done; try (fold data; lia).
  { by apply Forall_replicate. }
  intros b' t e1 He1 Hwf Hb Hsize Hp1 Htake. simpl in Htake. fold data in Hsize, Htake.
  unfold buffer_wf in Hwf. apply wp_bind.
  eapply wp_conseq; [apply wp_forall_calls; [by apply release_no_put | apply (release_flash c b' e1
    (fun res _ e' => res.2 = set_in_use (in_use c + 1) c /\ idle (view e') /\
       forall x, fv_mem (view e') x = written (b_data b') (b_size b') x))]|];
    [done | lia | lia | done | by rewrite He1 | done |].
  intros [r c1] t1 e2 [(Hc1 & Hid2 & Hm2) Hnp]. simpl in Hc1. subst c1. apply wp_bind.
  eapply wp_conseq; [apply update_read_flash; try done; simpl; unfold vfs_range; lia|].
  intros [n off'] t2 e3 (Hm3 & Hid3 & Hn & _ & Ht2). wp_run. simpl in Hn.
  assert (n = zlen data) as -> by lia. split; [done|]. rewrite !user_puts_app. simpl.
  assert (Hw : forall x, fv_mem (view e2) x = written data (zlen data) x).
  { intros x. rewrite Hm2, Hsize, Z.add_0_l, written_take by lia.
    rewrite Hsize, Z.add_0_l in Htake. by rewrite Htake. }
  split.
  - rewrite Hp1, (user_puts_none t1 Hnp), Ht2, app_nil_r. simpl.
    rewrite (fslice_written_ext _ _ _ _ _ _ Hw). unfold zlen at 2. rewrite Nat2Z.id.
    apply delivered_written. unfold data. by apply Forall_concat.
  - intros x Hx. rewrite Hm3, Hw. unfold written. zcases; simpl; done || lia.
Qed.

End Flash.

(** ** Witnesses: a small serial flash *)

(** A command found in the registers, executed: busy for one poll, a write in progress for one
    status command. *)
Definition chip_exec (f : flash_view) : flash_view :=
  let n := Z.to_nat ((fv_clocks f - 32) / 8) in
  if fv_cmd f =? 0x60 then FV (fv_reg f) (fv_mem f) true 1 0 (fv_in f)
  else if fv_cmd f =? 0xE3 then FV (fv_reg f) (fun _ => 0xff) false 1 1 (fv_in f)
  else if fv_cmd f =? 0xA0 then
    FV (fv_reg f) (fv_mem f) (fv_wel f) 1 (Nat.pred (fv_wip f))
      (upd (fv_in f) 0x20 (match fv_wip f with O => 0 | S _ => 0x80 end))
  else if fv_cmd f =? 0xC0 then
    FV (fv_reg f) (fv_mem f) (fv_wel f) 1 0
      (fun o => fv_mem f (fv_addr f + (o - CCAT_DATA_IN_4) / 8))
  else if fv_cmd f =? 0x40 then
    FV (fv_reg f) (program (fv_mem f) (fv_addr f) (fv_out f n)) false 1 1 (fv_in f)
  else f.

Definition chip (io : Z) : Env flash_view := fun c f =>
  match c with
  | IoWrite W8 a v => (Resp 0 0, if a =? io + 0x7f8 then chip_exec f else with_reg (a - io) v f)
  | IoRead W8 a =>
      if a =? io + 1
      then (Resp (match fv_busy f with O => 0 | S _ => 1 end) 0, with_busy (Nat.pred (fv_busy f)) f)
      else (Resp (fv_in f (a - io)) 0, f)
  | Kernel (AllocChrdevRegion _) => (Resp 0 (MKDEV 240 0), f)
  | Kernel (ClassCreate _) | Kernel (DeviceCreate _ _) | Kernel (Kzalloc _) => (Resp 8192 0, f)
  | _ => (Resp 0 0, f)
  end.

Lemma with_busy_id f : fv_busy f = 0%nat -> with_busy 0 f = f.
Proof. by destruct f; simpl; intros ->. Qed.

Lemma chip_poll io f :
  chip io (IoRead W8 (io + 1)) f =
    (Resp (match fv_busy f with O => 0 | S _ => 1 end) 0, with_busy (Nat.pred (fv_busy f)) f).
Proof. unfold chip. by rewrite Z.eqb_refl. Qed.

Lemma chip_trigger io f : (chip io (IoWrite W8 (io + 0x7f8) 0xff) f).2 = chip_exec f.
Proof. unfold chip. by rewrite Z.eqb_refl. Qed.

#[export] Instance chip_ctl io : @FlashCtl flash_view (chip io) io 1.
Proof.
  unshelve refine (@Build_FlashCtl _ (chip io) _ _ (fun f => f) _ _ _ _ _ _ _ _ _ _ _);
    unfold ext.
  - done.
  - intros f k _. by destruct k.
  - intros f o v Ho Hv. simpl. destruct (Z.eqb_spec (io + o) (io + 0x7f8)); [lia|].
    by rewrite Z.add_simpl_l.
  - intros f Hb. rewrite chip_poll, Hb. simpl. by rewrite with_busy_id.
  - intros f n Hb. rewrite chip_poll, Hb. done.
  - intros f o Hb Ho. unfold chip. destruct (Z.eqb_spec (io + o) (io + 1)); [lia|].
    by rewrite Z.add_simpl_l.
  - intros f _ _ Hc _. rewrite chip_trigger. unfold chip_exec. rewrite Hc. simpl. by exists 1%nat.
  - intros f _ _ _ Hc _. rewrite chip_trigger. unfold chip_exec. rewrite Hc. simpl.
    by exists 1%nat, 1%nat.
  - intros f _ Hc _. rewrite chip_trigger. unfold chip_exec. rewrite Hc. simpl.
    exists 1%nat. eexists. split_and!; [done | | | done]; destruct (fv_wip f); unfold is_byte; done.
  - intros f n _ _ Hc Hn Hr _. rewrite chip_trigger. unfold chip_exec. rewrite Hc. simpl.
    exists 1%nat. eexists. split_and!; [done | | done]. intros i Hi. simpl. f_equal. mach.
  - intros f n _ _ _ Hc Hn Hr _ _. rewrite chip_trigger. unfold chip_exec. rewrite Hc. simpl.
    exists 1%nat, 1%nat. split_and!; [done..|]. do 3 f_equal. rewrite Hn.
    mach.
Defined.

#[export] Instance chip_user io : @UserMem flash_view (chip io).
Proof. intros f n Hn. simpl. lia. Qed.

#[export] Instance chip_cdev io : @CdevKernel flash_view (chip io).
Proof. by split. Qed.
#[export] Instance chip_registers io : @CdevRegisters flash_view (chip io).
Proof. by split. Qed.

Definition chip_new : flash_view := FV (fun _ => 0) (fun x => x mod 256) false 0 0 (fun _ => 0).

Lemma ccat_update_read_contents_witness :
  exists t f, ccat_update_read (H := chip 4096) 2 small_dev 100 5 6 chip_new = (Ret (2, 8), t, f) /\
    user_puts t = [(100, 6); (101, 7)].
Proof.
  pose proof (ccat_update_read_contents (H := chip 4096) (bound := 1) 2 ltac:(lia) small_dev 100 5 6 chip_new)
    as Hw. unfold vfs_range in Hw.
  apply wp_elim in Hw as ([r o] & t & f & Hrun & _ & _ & -> & -> & Hp & _);
    [|done | simpl; lia | lia | done].
  exists t, f. split; [exact Hrun | exact Hp].
Defined.

Definition full_buf : cdev_buffer := Buffer 0 8192 3 [7; 8; 9; 0; 0; 0; 0; 0].

Lemma ccat_update_release_programs_witness :
  exists t f, ccat_update_release (H := chip 4096) 2 small_dev full_buf chip_new
      = (Ret (0, set_in_use 1 small_dev), t, f) /\
    fv_mem f 0 = 7 /\ fv_mem f 2 = 9 /\ fv_mem f 3 = 0xff.
Proof.
  pose proof (ccat_update_release_programs (H := chip 4096) (bound := 1) 2 ltac:(lia) small_dev full_buf chip_new)
    as Hw.
  apply wp_elim in Hw as ([r c] & t & f & Hrun & -> & -> & _ & Hm);
    [|reflexivity | unfold zlen; simpl; lia | unfold zlen; simpl; lia |
      repeat constructor; unfold is_byte; lia | split; reflexivity].
  exists t, f. split; [exact Hrun|]. clear Hrun. by rewrite !Hm.
Defined.

Lemma ccat_update_roundtrip_witness :
  exists t f, ('(_, b1) ← write_chunks (H := chip 4096) small_dev (Buffer 0 8192 0 (replicate 8 0))
                  [[1; 2]; [3]] 0;
      '(_, c1) ← ccat_update_release (H := chip 4096) 2 small_dev b1;
      '(n, _) ← ccat_update_read (H := chip 4096) 2 c1 100 3 0;
      mret n) chip_new = (Ret 3, t, f) /\ user_puts t = [(100, 1); (101, 2); (102, 3)].
Proof.
  pose proof (ccat_update_roundtrip (H := chip 4096) (bound := 1) 2 ltac:(lia) small_dev 0 8192 [[1; 2]; [3]] 100
    chip_new) as Hw.
  apply wp_elim in Hw as (n & t & f & Hrun & -> & Hp & _);
    [|reflexivity | simpl; lia | intros ? ?; reflexivity | split; reflexivity | repeat constructor; unfold is_byte; lia |
      unfold zlen; simpl; lia].
  exists t, f. split; [exact Hrun | exact Hp].
Defined.
