(* ===== verification/UpdateFile.v ===== *)
(** * The update device as a program sees it (update.c with the helper of module.c)

    A session on [/dev/ccat_update<n>]: [open], any sequence of [read], [write], [pread] and
    [pwrite], [close].  Reading shows the configuration flash; writing only collects; [close]
    erases the flash and programs what was collected.  The file shows that this is a device with a
    staging area, and what that means for a program that does not write from the start. *)

From S2P Require Import Prelude IO Info Cdev Update Flash.

(** ** Sessions *)

(** The system calls; [at] is the position of [pread] and [pwrite]. *)
Inductive update_op :=
  | URead (at_ : option Z) (ubuf len : Z)
  | UWrite (at_ : option Z) (data : list Z).

(** What a system call returns, and the bytes it stored in the user's buffer. *)
Abbreviation sys_result := (Z * list Z)%type.

(** The position of the file moves to [p], unless the call came with its own. *)
Definition moved (at_ : option Z) (pos p : Z) : Z := match at_ with None => p | Some _ => pos end.

Section Session.
Context {E : Type} `{Env E} (fuel : nat).

(** [.read] and [.write] of [cdev_class.fops]. *)
Definition update_fop (c : ccat_cdev) (op : update_op) (b : cdev_buffer) (pos : Z)
  : M E (sys_result * cdev_buffer * Z) :=
  match op with
  | URead at_ ubuf len =>
      '(r, p, t) ← listen (ccat_update_read fuel c ubuf len (default pos at_));
      mret ((r, (user_puts t).*2), b, moved at_ pos p)
  | UWrite at_ data =>
      '(r, p, b') ← ccat_update_write c b data (zlen data) (default pos at_);
      mret ((r, []), b', moved at_ pos p)
  end.

Fixpoint update_fops (c : ccat_cdev) (ops : list update_op) (b : cdev_buffer) (pos : Z)
  : M E (list sys_result * cdev_buffer * Z) :=
  match ops with
  | [] => mret ([], b, pos)
  | op :: ops' =>
      '(r, b, pos) ← update_fop c op b pos;
      '(rs, b, pos) ← update_fops c ops' b pos;
      mret (r :: rs, b, pos)
  end.

(** [.open] and [.release]. *)
Definition update_session (i : nat) (c : ccat_cdev) (ops : list update_op)
  : M E (Z * ccat_cdev * list sys_result) :=
  '(r, c, ob) ← ccat_cdev_open i c;
  match ob with
  | None => mret (r, c, [])
  | Some b =>
      '(rs, b, _) ← update_fops c ops b 0;
      '(_, c) ← ccat_update_release fuel c b;
      mret (r, c, rs)
  end.

End Session.

(** ** The abstract device *)

(** The flash, the staging area, how much of it [close] will program, the position. *)
Record config := Config { flash : Z -> Z; stage : Z -> Z; stage_len : Z; upos : Z }.

Definition opened_config (mem : Z -> Z) : config := Config mem (fun _ => 0) 0 0.

(** One system call on a device of [size] bytes.  A [write] that does not fit is not done; one that
    fails leaves arbitrary bytes where it was to write, and counts for nothing else. *)
Inductive update_step (size : Z) : update_op -> config -> sys_result -> config -> Prop :=
  | update_read at_ ubuf len f p n :
      p = default (upos f) at_ -> n = Z.max 0 (Z.min len (size - p)) ->
      update_step size (URead at_ ubuf len) f (n, u8 <$> fslice (flash f) p (Z.to_nat n))
        (Config (flash f) (stage f) (stage_len f) (moved at_ (upos f) (p + n)))
  | update_write at_ data f p :
      p = default (upos f) at_ -> p + zlen data <= size ->
      update_step size (UWrite at_ data) f (zlen data, [])
        (Config (flash f) (fwrite (stage f) p data) (p + zlen data) (moved at_ (upos f) (p + zlen data)))
  | update_write_full at_ data f p :
      p = default (upos f) at_ -> size < p + zlen data ->
      update_step size (UWrite at_ data) f (0, []) f
  | update_write_fault at_ data f p l :
      p = default (upos f) at_ -> p + zlen data <= size -> zlen l = zlen data ->
      update_step size (UWrite at_ data) f (- EFAULT, [])
        (Config (flash f) (fwrite (stage f) p l) (stage_len f) (upos f)).

Inductive update_steps (size : Z) : list update_op -> config -> list sys_result -> config -> Prop :=
  | update_done f : update_steps size [] f [] f
  | update_more op ops f r f1 rs f2 :
      update_step size op f r f1 -> update_steps size ops f1 rs f2 ->
      update_steps size (op :: ops) f (r :: rs) f2.

#[export] Hint Constructors update_steps : ccat.

(** The flash after [close]. *)
Definition closed_flash (f : config) : Z -> Z := fun x =>
  if stage_len f =? 0 then flash f x
  else if (0 <=? x) && (x <? stage_len f) then stage f x else 0xff.

(** What the VFS lets through: no negative position, and at most [MAX_RW_COUNT] bytes. *)
Definition op_ok (op : update_op) : Prop :=
  match op with
  | URead at_ _ len => 0 <= len < 2 ^ 31 /\ 0 <= default 0 at_ < 2 ^ 62
  | UWrite at_ data => zlen data < 2 ^ 31 /\ Forall is_byte data /\ 0 <= default 0 at_ < 2 ^ 62
  end.

(** ** Refinement *)

(** A buffer by offsets. *)
Definition bytes_at (l : list Z) : Z -> Z := fun x => nth (Z.to_nat x) l 0.

Lemma bytes_at_splice o x l a :
  0 <= o -> o + zlen x <= zlen l -> 0 <= a < zlen l ->
  bytes_at (splice o x l) a = fwrite (bytes_at l) o x a.
Proof.
  intros Ho Hl Ha. unfold bytes_at, fwrite. unfold zlen in *. zcases; cbn [andb].
  - rewrite !nth_lookup, lookup_splice_in by (unfold zlen; lia). do 2 f_equal. lia.
  - by rewrite !nth_lookup, lookup_splice_out by (unfold zlen; lia).
  - by rewrite !nth_lookup, lookup_splice_out by (unfold zlen; lia).
Qed.

Lemma delivered_bytes mem ubuf off n : (delivered mem ubuf off n).*2 = u8 <$> fslice mem off n.
Proof.
  unfold delivered. rewrite <- list_fmap_compose. apply list_eq. intros i.
  rewrite !list_lookup_fmap. destruct (decide (i < n)%nat) as [Hi|Hi].
  - rewrite lookup_seqZ_lt, lookup_fslice by lia. done.
  - rewrite lookup_seqZ_ge by lia. by rewrite lookup_ge_None_2 by (rewrite length_fslice; lia).
Qed.

Section Refinement.
Context {E : Type} `{Env E} {bound : nat} (fuel : nat) (Hfuel : (bound < fuel)%nat) (c : ccat_cdev).
Context `{!FlashCtl E (ioaddr c) bound} `{!UserMem E} (Hsize : 0 <= iosize c < 2 ^ 24).
Local Abbreviation view := (fl (ioaddr c) bound).

(** The flash, the buffer and the position are those of the abstract device. *)
Record models (f : config) (b : cdev_buffer) (pos : Z) (e : E) : Prop := {
  mo_flash : forall x, fv_mem (view e) x = flash f x;
  mo_idle : idle (view e);
  mo_len : zlen (b_data b) = iosize c;
  mo_bytes : Forall is_byte (b_data b);
  mo_stage : forall x, 0 <= x < iosize c -> bytes_at (b_data b) x = stage f x;
  mo_size : b_size b = stage_len f /\ 0 <= stage_len f <= iosize c;
  mo_pos : pos = upos f /\ 0 <= pos <= iosize c;
}.

Lemma op_range pos at_ len :
  0 <= pos <= iosize c -> 0 <= default 0 at_ < 2 ^ 62 -> 0 <= len < 2 ^ 31 ->
  vfs_range (default pos at_) len.
Proof. unfold vfs_range. destruct at_; simpl; lia. Qed.

Lemma update_read_step at_ ubuf len b pos f (e : E) :
  op_ok (URead at_ ubuf len) -> models f b pos e ->
  wp (update_fop fuel c (URead at_ ubuf len) b pos) e (fun '(r, b', pos') _ e' =>
    exists f', update_step (iosize c) (URead at_ ubuf len) f r f' /\ models f' b' pos' e').
Proof.
  intros [Hl Ha] []. destruct mo_pos0 as [-> Hp]. unfold update_fop. apply wp_bind, wp_listen.
  eapply wp_conseq; [apply (ccat_update_read_contents fuel Hfuel c ubuf len (default (upos f) at_));
    [done | done | by apply op_range | done]|].
  intros [r p] t e' (Hm & Hid & -> & Hr & Ht & _). wp_run. eexists. rewrite Ht, delivered_bytes. split.
  - rewrite (fslice_ext _ (flash f)) by done. by apply (update_read _ _ _ _ f _ r).
  - split; simpl; try done; [intros x; rewrite Hm; apply mo_flash0|]. split; [done|].
    unfold moved. destruct at_; simpl in *; lia.
Qed.

Lemma update_write_step at_ data b pos f (e : E) :
  op_ok (UWrite at_ data) -> models f b pos e ->
  wp (update_fop fuel c (UWrite at_ data) b pos) e (fun '(r, b', pos') _ e' =>
    exists f', update_step (iosize c) (UWrite at_ data) f r f' /\ models f' b' pos' e').
Proof.
  intros (Hl & Hb & Ha) []. destruct mo_pos0 as [-> Hp]. destruct mo_size0 as [Hs Hsl].
  pose proof (zlen_nonneg data). set (p := default (upos f) at_).
  assert (Hr : vfs_range p (zlen data)) by (apply op_range; lia). unfold vfs_range in Hr.
  unfold update_fop, ccat_update_write. fold p. rewrite u64_small by lia.
  destruct (Z.ltb_spec (iosize c) (p + zlen data)); wp_run.
  { exists f. split; [by apply (update_write_full _ _ _ _ p)|]. unfold moved. by destruct at_. }
  apply copy_from_user_splice; [lia | done | lia |]. intros r l Hr0 Hll Heq Hlb.
  assert (Hk : forall k, view (ext (Kernel (CopyFromUser k)) e).2 = view e)
    by (intros k; apply fl_kernel; right; by left).
  apply wp_istrue; intros Hrv; wp_run.
  - exists (Config (flash f) (fwrite (stage f) p l) (stage_len f) (upos f)).
    split; [by apply (update_write_fault _ _ _ _ p)|]. split; simpl; rewrite ?Hk; try done.
    + by rewrite zlen_splice by lia.
    + apply Forall_splice; auto.
    + intros x Hx. rewrite bytes_at_splice by lia. by apply fwrite_ext, mo_stage0.
    + unfold moved. destruct at_; done.
  - rewrite (Heq Hrv). eexists. split; [by apply (update_write _ _ _ _ p)|]. split; simpl; rewrite ?Hk; try done.
    + by rewrite zlen_splice by lia.
    + by apply Forall_splice.
    + intros x Hx. rewrite bytes_at_splice by lia. by apply fwrite_ext, mo_stage0.
    + split; [done | lia].
    + split; [done|]. unfold moved. destruct at_; lia.
Qed.

Lemma update_fops_refine ops b pos f (e : E) :
  Forall op_ok ops -> models f b pos e ->
  wp (update_fops fuel c ops b pos) e (fun '(rs, b', pos') _ e' =>
    exists f', update_steps (iosize c) ops f rs f' /\ models f' b' pos' e').
Proof.
  revert b pos f e. induction ops as [|op ops IH]; intros b pos f e Hops Hm; cbn [update_fops].
  { wp_run. eauto with ccat. }
  apply Forall_cons in Hops as [Hop Hops]. apply wp_bind.
  assert (Hstep : wp (update_fop fuel c op b pos) e (fun '(r, b', pos') _ e' =>
    exists f', update_step (iosize c) op f r f' /\ models f' b' pos' e'))
    by (destruct op; [by apply update_read_step | by apply update_write_step]).
  eapply wp_conseq; [exact Hstep|]. intros [[r b1] pos1] t1 e1 (f1 & Hs1 & Hm1).
  apply wp_bind. eapply wp_conseq; [by apply (IH b1 pos1 f1)|].
  intros [[rs b2] pos2] t2 e2 (f2 & Hs2 & Hm2). wp_run. eauto with ccat.
Qed.

(** *** Closing *)

Lemma update_close_step b pos f (e : E) :
  models f b pos e ->
  wp (ccat_update_release fuel c b) e (fun '(_, c') _ e' =>
    c' = set_in_use (in_use c + 1) c /\ idle (view e') /\
    forall x, fv_mem (view e') x = closed_flash f x).
Proof.
  intros []. destruct mo_size0 as [Hs Hsl].
  eapply wp_conseq; [apply (ccat_update_release_programs fuel Hfuel c b); [done | lia | lia | done | done]|].
  intros [r c'] t e' (_ & -> & Hid & Hm). split_and!; [done | done |]. intros x.
  unfold closed_flash. rewrite <- Hs. destruct (b_size b =? 0); [destruct Hm as [-> _]; apply mo_flash0|].
  rewrite Hm. destruct (Z.leb_spec 0 x), (Z.ltb_spec x (b_size b)); try done. apply mo_stage0. lia.
Qed.

End Refinement.

Section SessionRefinement.
Context {E : Type} `{Env E} {bound : nat} (fuel : nat) (Hfuel : (bound < fuel)%nat) (c : ccat_cdev).
Context `{!FlashCtl E (ioaddr c) bound} `{!UserMem E} (Hsize : 0 <= iosize c < 2 ^ 24).
Local Abbreviation view := (fl (ioaddr c) bound).

(** A freshly opened file. *)
Lemma models_opened i p n (e : E) :
  idle (view e) ->
  models (bound := bound) (set_in_use n c) (opened_config (fv_mem (view e)))
    (Buffer i p 0 (replicate (Z.to_nat (iosize c)) 0)) 0 e.
Proof.
  intros Hid. split; simpl; try done; try lia.
  - unfold zlen. rewrite length_replicate. lia.
  - by apply Forall_replicate.
  - intros x Hx. unfold bytes_at. by rewrite nth_lookup, lookup_replicate_2 by lia.
Qed.

(** A session on the update device is a session on a flash with a staging area.  For every
    sequence of [read], [write], [pread] and [pwrite]: the open succeeds exactly when the device is
    free and there is memory, and otherwise nothing happens; the results of the calls and the bytes
    delivered are those of the abstract device, whose reads see the old contents until the file is
    closed; after the close the flash holds exactly what was staged up to the end of the last
    successful write, and 0xff behind it, or is untouched if nothing was staged; and the device can
    be opened again. *)
Lemma ccat_update_session_refines i ops (e : E) :
  Forall op_ok ops -> idle (view e) ->
  let mem := Kernel (Kzalloc (sizeof_cdev_buffer + iosize c)) in
  wp (update_session fuel i c ops) e (fun '(r, c', rs) _ e' =>
    c' = c /\ idle (view e') /\
    ((r = - EBUSY /\ in_use c <> 1 \/ r = - ENOMEM /\ r_val (ext mem e).1 = 0) /\
       rs = [] /\ fv_mem (view e') = fv_mem (view e) \/
     r = 0 /\ exists f', update_steps (iosize c) ops (opened_config (fv_mem (view e))) rs f' /\
       forall x, fv_mem (view e') x = closed_flash f' x)).
Proof.
  intros Hops Hid mem. unfold update_session, ccat_cdev_open, atomic_dec_and_test.
  assert (Hc : forall n, n = in_use c -> set_in_use n c = c) by (intros n ->; by destruct c).
  assert (Hk : view (ext mem e).2 = view e) by (apply fl_kernel; eauto).
  destruct (Z.eqb_spec (in_use c - 1) 0); cbn [negb]; wp_run.
  2:{ split; [apply Hc; lia|]. split; [done|]. left. split; [left; split; [done | lia] | done]. }
  fold mem. destruct (Z.eqb_spec (r_val (ext mem e).1) 0); wp_run.
  { rewrite Hk. split; [apply Hc; lia|]. split; [done|]. left. split; [by right | done]. }
  set (c1 := set_in_use (in_use c - 1) c).
  eapply wp_conseq; [apply (update_fops_refine (bound := bound) fuel Hfuel c1 Hsize);
    [done | apply models_opened; by rewrite Hk]|].
  intros [[rs b] pos] t e1 (f1 & Hs1 & Hm1). apply wp_bind.
  eapply wp_conseq; [apply (update_close_step (bound := bound) fuel Hfuel c1 Hsize _ _ _ _ Hm1)|].
  intros [r2 c2] t2 e2 (-> & Hid2 & Hf2). wp_run. rewrite Hk in Hs1.
  split; [unfold c1; apply Hc; simpl; lia|]. split; [done|]. right. split; [done|]. by exists f1.
Qed.

End SessionRefinement.

(** ** From the function block to the device *)

Section Device.
Context {E : Type} `{Env E} `{!CdevKernel E} `{!CdevRegisters E} `{!UserMem E}.
Context {bound : nat} (fuel : nat) (Hfuel : (bound < fuel)%nat) (func : ccat_function).
Context `{!FlashCtl E (func_base func) bound}.
Local Abbreviation view := (fl (func_base func) bound).

(** C26: an update function becomes a device with a staging area.  The probe of a supported
    revision registers a free device, and whenever a program later opens it, every sequence of
    [read], [write], [pread] and [pwrite] gives the results and delivers the bytes of the abstract
    device, whose reads see the old flash until the file is closed; after the close the flash holds
    exactly what was staged up to the end of the last successful write, and 0xff behind it, or is
    untouched if nothing was staged.  The open fails only for lack of memory, without an effect, and
    after the close the device is as before.  Another revision is refused. *)
Theorem ccat_update_device_refines base (e : E) :
  class_ok base -> Exists (fun c => dev c = 0) (devices base) ->
  wp (ccat_update_probe func base) e (fun '(r, base', slot) t _ =>
    if i_rev (f_info func) =? 0
    then r = 0 /\ exists i c, slot = Some i /\ devices base' !! i = Some c /\
      forall ops (e1 : E), Forall op_ok ops -> idle (view e1) ->
      wp (update_session fuel i c ops) e1 (fun '(r', c', rs) _ e2 => c' = c /\ idle (view e2) /\
        (r' = - ENOMEM /\ rs = [] /\ fv_mem (view e2) = fv_mem (view e1) \/
         r' = 0 /\ exists f', update_steps CCAT_FLASH_SIZE ops (opened_config (fv_mem (view e1))) rs f' /\
           forall x, fv_mem (view e2) x = closed_flash f' x))
    else r = - ENODEV /\ base' = base /\ slot = None /\ t = []).
Proof.
  intros Hok Hfree. unfold ccat_update_probe. rewrite (Z.eqb_sym 0).
  destruct (_ =? 0); simpl; [|by wp_run].
  eapply wp_conseq; [by apply ccat_cdev_probe_succeeds|].
  intros [[r base'] slot] t e' [-> (i & -> & Hi & _ & Hd)]. split; [done|].
  eexists i, _. rewrite Hd, list_lookup_insert_eq by done. split_and!; [done..|].
  intros ops e1 Hops Hid. set (c := Cdev 1 _ _ _ true).
  eapply wp_conseq; [apply (ccat_update_session_refines (bound := bound) fuel Hfuel c);
    [by simpl; unfold CCAT_FLASH_SIZE; lia | done | done]|].
  intros [[r' c'] rs] t' e2 (-> & Hid2 & Hs). split; [done|]. split; [done|].
  destruct Hs as [([[_ Hu]|[-> _]] & Hrs)|Hs]; [done | by left | by right].
Qed.

End Device.

(** *** What a program that does not write from the start gets

    A program that reads the old configuration from the descriptor it then writes to (or seeks to
    where it wants to write) starts its image where the position is: the bytes before are programmed
    as zeros, not kept. *)
Lemma update_read_then_write_zeroes size mem ubuf n data rs f x :
  update_steps size [URead None ubuf n; UWrite None data] (opened_config mem) rs f ->
  0 <= n -> n + zlen data <= size -> 0 < zlen data ->
  rs !! 1%nat = Some (zlen data, []) -> 0 <= x < n -> closed_flash f x = 0.
Proof.
  intros Hs Hn Hfit Hd Hok Hx. inversion Hs as [|? ? ? ? ? ? ? H1 Hs1]; subst. clear Hs.
  inversion Hs1 as [|? ? ? ? ? ? ? H2 Hs2]; subst. clear Hs1.
  inversion Hs2; subst. clear Hs2. inversion H1; subst. clear H1. simpl in *.
  pose proof (zlen_nonneg data).
  inversion H2; subst; simpl in *; unfold EFAULT in *; simplify_eq.
  - unfold closed_flash, fwrite. simpl. replace (Z.max 0 _) with n by lia. by zcases.
  - lia.
  - lia.
Qed.

(** A later, shorter [pwrite] cuts the image off at its end. *)
Lemma update_pwrite_truncates size mem data p data' rs f x :
  update_steps size [UWrite None data; UWrite (Some p) data'] (opened_config mem) rs f ->
  rs = [(zlen data, []); (zlen data', [])] -> 0 < zlen data' -> 0 <= p -> p + zlen data' <= x ->
  closed_flash f x = 0xff.
Proof.
  intros Hs -> Hd Hp Hx.
  inversion Hs as [|? ? ? ? ? ? ? H1 Hs1]; subst. clear Hs.
  inversion Hs1 as [|? ? ? ? ? ? ? H2 Hs2]; subst. inversion Hs2; subst. clear Hs1 Hs2 H1.
  pose proof (zlen_nonneg data').
  inversion H2; subst; simpl in *; unfold EFAULT in *; simplify_eq; try lia.
  unfold closed_flash. simpl. by zcases.
Qed.

(** ** Witness *)

(** A program that reads four bytes, writes two, overwrites the second of them and reads again from
    the start: the second read still sees the old flash. *)
Definition patching : list update_op :=
  [URead None 100 4; UWrite None [7; 8]; UWrite (Some 5) [9]; URead (Some 0) 200 2].

Lemma ccat_update_device_refines_witness :
  exists base' i c t f, ccat_update_probe (H := chip (func_base update_func)) update_func update_class chip_new
      = (Ret (0, base', Some i), t, f) /\ devices base' !! i = Some c /\
    exists r rs t f, update_session (H := chip (func_base update_func)) 2 i c patching chip_new
      = (Ret (r, c, rs), t, f).
Proof.
  pose proof (ccat_update_device_refines (H := chip (func_base update_func)) (bound := 1) 2 ltac:(lia)
    update_func update_class chip_new) as Hw.
  apply wp_elim in Hw as ([[r base'] slot] & t & f & Hrun & Hs);
    [|apply fresh_class_ok; vm_compute; congruence || lia | apply Exists_cons_hd; reflexivity].
  destruct Hs as [-> (i & c & -> & Hc & Hs)]. exists base', i, c, t, f. split; [exact Hrun|].
  split; [exact Hc|]. clear Hrun Hc.
  destruct (wp_elim _ _ _ (Hs patching chip_new
    ltac:(repeat constructor; unfold is_byte, zlen; simpl; lia) ltac:(split; reflexivity)))
    as ([[r' c'] rs] & t' & f' & Hrun & -> & _). exists r', rs, t', f'. exact Hrun.
Defined.

Example patching_run :
  let '(o, _, f) := update_session (H := chip 4096) 2 0 (set_in_use 1 small_dev) patching chip_new in
  o = Ret (0, set_in_use 1 small_dev, [(4, [0; 1; 2; 3]); (2, []); (1, []); (2, [0; 1])]) /\
  (fv_mem f <$> seqZ 0 8) = [0; 0; 0; 0; 7; 9; 0xff; 0xff].
Proof. vm_compute. split; reflexivity. Qed.
