(* ===== verification/CdevFiles.v ===== *)
(** * The life of the device files (module.c with sram.c and update.c)

    A driver hands its file operations to [ccat_cdev_probe] in [cdev_class.fops]; from then on
    probes, removes, opens, reads, writes and closes come in any order.  [cdev_driver] is the table
    of a driver and [CdevDriver] what the helper in module.c needs of it; against that interface
    this file shows that the counter [in_use] of every device, the files open on it and their
    buffers stay in step, so that no operation ever faults.  Both drivers are instances. *)

From S2P Require Import Prelude IO Info Cdev Sram Update.

(** ** The table of a driver *)

(** [struct platform_driver] and [cdev_class.fops]: the functions that differ between the drivers.
    [.remove] and [.open] are those of module.c in both. *)
Record cdev_driver (E : Type) := CdevOps {
  d_probe : ccat_function -> ccat_class -> M E (Z * ccat_class * option nat);
  d_read : ccat_cdev -> cdev_buffer -> Z -> Z -> Z -> M E file_result;
  d_write : ccat_cdev -> cdev_buffer -> list Z -> Z -> Z -> M E file_result;
  d_release : ccat_cdev -> cdev_buffer -> M E (Z * ccat_cdev);
}.
Arguments CdevOps {E}.
Arguments d_probe {E}.
Arguments d_read {E}.
Arguments d_write {E}.
Arguments d_release {E}.

Definition sram_cdev_driver {E} `{Env E} : cdev_driver E :=
  CdevOps ccat_sram_probe (fun c b ubuf len off => ccat_sram_read c b len off) ccat_sram_write
    ccat_cdev_release.

Definition update_cdev_driver {E} `{Env E} (fuel : nat) : cdev_driver E :=
  CdevOps ccat_update_probe
    (fun c b ubuf len off => '(r, off) ← ccat_update_read fuel c ubuf len off; mret (r, off, b))
    ccat_update_write (ccat_update_release fuel).

(** ** What module.c needs of a driver *)

(** The buffer of an open file is as large as its device, and [size] lies in it. *)
Definition file_ok (c : ccat_cdev) (b : cdev_buffer) : Prop :=
  buffer_wf c b /\ 0 <= b_size b <= iosize c.

(** An operation on the buffer [b] of a device [c]: it does not fault, and the buffer stays one of
    that file and that device. *)
Definition buffer_op {E} (c : ccat_cdev) (b : cdev_buffer) (m : M E file_result) : Prop :=
  oops_free m /\
  forall e r off b' t e', m e = (Ret (r, off, b'), t, e') -> file_ok c b' /\ b_slot b' = b_slot b.

Class CdevDriver {E : Type} `{Env E} (d : cdev_driver E) : Prop := {
  (* the probe registers a device through the helper, or leaves the class alone *)
  cd_probe : forall func base e r base' slot t e',
    d_probe d func base e = (Ret (r, base', slot), t, e') ->
    base' = base \/ exists size, 0 <= size < 2 ^ 63 /\
      ccat_cdev_probe func base size e = (Ret (r, base', slot), t, e');
  cd_read : forall c b ubuf len off, cdev_wf c -> file_ok c b -> vfs_range off len ->
    buffer_op c b (d_read d c b ubuf len off);
  cd_write : forall c b data off, cdev_wf c -> file_ok c b -> vfs_range off (zlen data) ->
    buffer_op c b (d_write d c b data (zlen data) off);
  cd_release : forall c b, file_ok c b -> oops_free (d_release d c b) /\
    forall e r c' t e', d_release d c b e = (Ret (r, c'), t, e') -> c' = set_in_use (in_use c + 1) c;
}.

(** *** The two drivers *)

Section Drivers.
Context {E : Type} `{Env E}.

Lemma buffer_op_wp c b (m : M E file_result) :
  (forall e, wp m e (fun '(_, _, b') _ _ => file_ok c b' /\ b_slot b' = b_slot b)) -> buffer_op c b m.
Proof.
  intros Hw. split; [exact (wp_oops_free m (fun _ => _) Hw)|]. intros e r off b' t e' Hrun.
  exact (wpx_run _ _ _ _ _ _ _ (Hw e) Hrun).
Qed.

(** What the operations leave of a buffer: its file, its address and, for the SRAM, its size. *)
Definition same_file (b b' : cdev_buffer) : Prop := b_slot b' = b_slot b /\ b_size b' = b_size b.

Lemma buffer_copy_same o l b (e : E) : wlp (buffer_copy o l b) e (fun b' _ _ => same_file b b').
Proof. unfold buffer_copy. destruct (_ && _); [by apply wp_ret | by apply wp_oops]. Qed.

Lemma copy_from_user_same o ubuf len b (e : E) :
  wlp (copy_from_user o ubuf len b) e (fun '(_, b') _ _ => same_file b b').
Proof.
  unfold copy_from_user. wp_run. eapply wp_conseq; [apply buffer_copy_same|]. intros b' t e' Hs.
  by wp_run.
Qed.

Lemma sram_read_same c b len off (e : E) :
  wlp (ccat_sram_read c b len off) e (fun '(_, _, b') _ _ => same_file b b').
Proof.
  unfold ccat_sram_read, __sram_read. destruct (_ <=? _); [by wp_run|].
  apply wp_bind. eapply wp_conseq; [apply wlp_true|]. intros l t e1 _. apply wp_bind.
  eapply wp_conseq; [apply buffer_copy_same|]. intros b1 t1 e2 Hs. wp_run.
  by destruct (istrue _); wp_run.
Qed.

Lemma sram_write_same c b ubuf len off (e : E) :
  wlp (ccat_sram_write c b ubuf len off) e (fun '(_, _, b') _ _ => same_file b b').
Proof.
  unfold ccat_sram_write. destruct (_ <? _); [by wp_run|]. apply wp_bind.
  eapply wp_conseq; [apply copy_from_user_same|]. intros [r b1] t e1 Hs.
  destruct (istrue r); [by wp_run|]. apply wp_bind. eapply wp_conseq; [apply wlp_true|].
  intros ? t1 e2 _. by wp_run.
Qed.

Lemma cdev_release_in_use c b (e : E) :
  wp (ccat_cdev_release c b) e (fun '(_, c') _ _ => c' = set_in_use (in_use c + 1) c).
Proof. unfold ccat_cdev_release. by wp_run. Qed.

#[export] Instance sram_cdev_driver_ok `{!UserMem E} : CdevDriver sram_cdev_driver.
Proof.
  split; simpl.
  - intros func base e r base' slot t e'. unfold ccat_sram_probe.
    destruct (Z.leb_spec 31 (sram_size (f_info func))); [done|]. destruct (_ =? 0); intros Hrun.
    + unfold mret, M_ret in Hrun. simplify_eq. by left.
    + right. eexists. split; [|exact Hrun]. split; [by apply Z.shiftl_nonneg|].
      rewrite Z.shiftl_1_l. apply Z.pow_lt_mono_r; [lia | lia |]. lia.
  - intros c b ubuf len off Hc [Hb Hs] Hv. apply buffer_op_wp. intros e.
    eapply wp_conseq; [apply wp_wlp; [apply sram_read_same | by apply ccat_sram_read_spec]|].
    intros [[r o] b'] t e' [[Hsl Hsz] [Hb' _]]. unfold file_ok. by rewrite Hsz.
  - intros c b data off Hc [Hb Hs] Hv. apply buffer_op_wp. intros e.
    eapply wp_conseq; [apply wp_wlp; [apply sram_write_same | by apply ccat_sram_write_spec]|].
    intros [[r o] b'] t e' [[Hsl Hsz] [Hb' _]]. unfold file_ok. by rewrite Hsz.
  - intros c b _. split; [unfold ccat_cdev_release; of_run|]. intros e r c' t e' Hrun.
    exact (wpx_run _ _ _ _ _ _ _ (cdev_release_in_use c b e) Hrun).
Qed.

Lemma poll_busy_oops_free n io : oops_free (poll_busy n io : M E unit).
Proof. induction n as [|n IH]; simpl; of_run; auto. Qed.

Lemma update_cmd_oops_free fuel io c : oops_free (ccat_update_cmd fuel io c : M E unit).
Proof.
  unfold ccat_update_cmd, __ccat_update_cmd, wait_until_busy_reset. of_run; apply poll_busy_oops_free.
Qed.

Lemma update_cmd_addr_oops_free fuel io c addr :
  oops_free (ccat_update_cmd_addr fuel io c addr : M E unit).
Proof.
  unfold ccat_update_cmd_addr, __ccat_update_cmd, wait_until_busy_reset.
  of_run; apply poll_busy_oops_free.
Qed.

Lemma wait_status_oops_free fuel n io : oops_free (wait_status_loop fuel n io : M E unit).
Proof.
  induction n as [|n IH]; simpl; unfold ccat_get_status; of_run; auto using update_cmd_oops_free.
Qed.

Lemma put_data_oops_free io buf i n : oops_free (put_data io buf i n : M E unit).
Proof. revert i. induction n as [|n IH]; intros i; simpl; of_run; auto. Qed.

Lemma out_data_oops_free io i l : oops_free (out_data io i l : M E unit).
Proof. revert i. induction l as [|v l IH]; intros i; simpl; of_run; auto. Qed.

Lemma read_loop_oops_free fuel n io buf len off :
  oops_free (read_flash_loop fuel n io buf len off : M E Z).
Proof.
  revert buf len off. induction n as [|n IH]; intros; simpl; unfold ccat_read_flash_block; of_run;
    auto using update_cmd_addr_oops_free, put_data_oops_free.
Qed.

(** A block is read from the buffer only where the buffer has it. *)
Lemma write_block_oops_free fuel io addr len l :
  len <= zlen l -> oops_free (ccat_write_flash_block fuel io addr len l : M E Z).
Proof.
  intros Hl. unfold ccat_write_flash_block, ccat_wait_status_cleared.
  destruct (Z.ltb_spec (zlen l) len); [lia|]. of_run;
    auto using update_cmd_oops_free, out_data_oops_free, update_cmd_addr_oops_free, wait_status_oops_free.
Qed.

Lemma write_loop_oops_free fuel n io off len l :
  0 <= len <= zlen l -> oops_free (write_flash_loop fuel n io off len l : M E unit).
Proof.
  unfold zlen. revert off len l. induction n as [|n IH]; intros off len l Hl; simpl; [of_run|].
  unfold CCAT_WRITE_BLOCK_SIZE. change (u16 128) with 128. destruct (Z.ltb_spec 128 len).
  - of_run; [apply write_block_oops_free; unfold zlen; lia|]. apply IH. rewrite length_drop. lia.
  - of_run. apply write_block_oops_free. rewrite u16_small by lia. unfold zlen. lia.
Qed.

(** [release] ends with that of module.c. *)
Lemma update_release_in_use fuel c b (e : E) :
  wlp (ccat_update_release fuel c b) e (fun '(_, c') _ _ => c' = set_in_use (in_use c + 1) c).
Proof.
  unfold ccat_update_release. apply wp_bind. eapply wp_conseq; [apply wlp_true|]. intros ? t e1 _.
  eapply wp_mono; [apply cdev_release_in_use | done |]. by intros [r c'].
Qed.

Lemma update_write_same c b ubuf len off (e : E) :
  wlp (ccat_update_write c b ubuf len off) e (fun '(_, _, b') _ _ => b_slot b' = b_slot b).
Proof.
  unfold ccat_update_write. destruct (_ <? _); [by wp_run|]. apply wp_bind.
  eapply wp_conseq; [apply copy_from_user_same|]. intros [r b1] t e1 [Hs _].
  destruct (istrue r); by wp_run.
Qed.

#[export] Instance update_cdev_driver_ok `{!UserMem E} fuel : CdevDriver (update_cdev_driver fuel).
Proof.
  split; simpl.
  - intros func base e r base' slot t e'. unfold ccat_update_probe. destruct (negb _); intros Hrun.
    + unfold mret, M_ret in Hrun. simplify_eq. by left.
    + right. eexists. split; [|exact Hrun]. unfold CCAT_FLASH_SIZE. lia.
  - intros c b ubuf len off Hc Hb Hv. split.
    + unfold ccat_update_read, ccat_read_flash. of_run; apply read_loop_oops_free.
    + intros e r o b' t e' Hrun. assert (Hw : wlp (d_read (update_cdev_driver fuel) c b ubuf len off) e
        (fun '(_, _, b') _ _ => b' = b)).
      { simpl. apply wp_bind. eapply wp_conseq; [apply wlp_true|]. intros [r1 o1] t1 e1 _. by wp_run. }
      apply (wpx_run _ _ _ _ _ _ _ Hw) in Hrun as ->. done.
  - intros c b data off Hc [Hb Hs] Hv. apply buffer_op_wp. intros e.
    eapply wp_conseq; [apply wp_wlp; [apply update_write_same | by apply ccat_update_write_collects]|].
    intros [[r o] b'] t e' [Hsl (Hb' & Hsz & _)]. by split.
  - intros c b [Hb Hs]. unfold buffer_wf in Hb. split.
    + unfold ccat_update_release, ccat_wait_status_cleared, ccat_write_flash, ccat_cdev_release.
      of_run; auto using update_cmd_oops_free, wait_status_oops_free.
      apply write_loop_oops_free. lia.
    + intros e r c' t e' Hrun. exact (wpx_run _ _ _ _ _ _ _ (update_release_in_use fuel c b e) Hrun).
Qed.

End Drivers.

(** ** Devices and open files *)

(** The class of the driver and the files open on its devices, each with its buffer. *)
Record cdev_files := Files { cf_class : ccat_class; cf_open : list cdev_buffer }.

Definition set_slot (i : nat) (c : ccat_cdev) (base : ccat_class) : ccat_class :=
  set_devices (<[i := c]> (devices base)) base.

(** One operation, in some environment.  A device is removed only while no file is open on it. *)
Inductive files_step {E} `{Env E} (d : cdev_driver E) : cdev_files -> cdev_files -> Prop :=
  | files_probe func (e e' : E) base fs r base' slot t :
      d_probe d func base e = (Ret (r, base', slot), t, e') -> registered t ->
      files_step d (Files base fs) (Files base' fs)
  | files_remove i c (e e' : E) base fs base' t :
      devices base !! i = Some c -> dev c <> 0 -> i ∉ b_slot <$> fs ->
      ccat_cdev_remove (Some i) base e = (Ret base', t, e') ->
      files_step d (Files base fs) (Files base' fs)
  | files_open i c (e e' : E) base fs r c' ob t :
      devices base !! i = Some c -> dev c <> 0 ->
      ccat_cdev_open i c e = (Ret (r, c', ob), t, e') ->
      files_step d (Files base fs) (Files (set_slot i c' base) (option_list ob ++ fs))
  | files_read k b c ubuf len off (e e' : E) base fs r off' b' t :
      fs !! k = Some b -> devices base !! b_slot b = Some c -> vfs_range off len ->
      d_read d c b ubuf len off e = (Ret (r, off', b'), t, e') ->
      files_step d (Files base fs) (Files base (<[k := b']> fs))
  | files_write k b c data off (e e' : E) base fs r off' b' t :
      fs !! k = Some b -> devices base !! b_slot b = Some c -> vfs_range off (zlen data) ->
      d_write d c b data (zlen data) off e = (Ret (r, off', b'), t, e') ->
      files_step d (Files base fs) (Files base (<[k := b']> fs))
  | files_release k b c (e e' : E) base fs r c' t :
      fs !! k = Some b -> devices base !! b_slot b = Some c ->
      d_release d c b e = (Ret (r, c'), t, e') ->
      files_step d (Files base fs) (Files (set_slot (b_slot b) c' base) (delete k fs)).

(** [in_use] of a device is 1 exactly while no file is open on it, otherwise 0; a device has at
    most one file; the buffer of a file is that of its device. *)
Definition in_use_of (fs : list cdev_buffer) (i : nat) : Z :=
  if decide (i ∈ b_slot <$> fs) then 0 else 1.

Record files_ok (s : cdev_files) : Prop := {
  fo_class : class_ok (cf_class s);
  fo_single : NoDup (b_slot <$> cf_open s);
  fo_in_use : forall i c, devices (cf_class s) !! i = Some c -> dev c <> 0 ->
    in_use c = in_use_of (cf_open s) i /\ cdev_wf c;
  fo_files : forall b, b ∈ cf_open s -> exists c, devices (cf_class s) !! b_slot b = Some c /\
    dev c <> 0 /\ file_ok c b;
}.

(** *** Changes of one slot *)

Lemma files_ok_used base fs b c :
  files_ok (Files base fs) -> b ∈ fs -> devices base !! b_slot b = Some c ->
  in_use c = 0 /\ cdev_wf c /\ file_ok c b.
Proof.
  intros Hok Hb Hc. destruct (fo_files _ Hok b Hb) as (c' & Hc' & Hd & Hf). simpl in *.
  assert (c' = c) as -> by congruence.
  destruct (fo_in_use _ Hok _ c Hc Hd) as [Hu Hw]. simpl in Hu. unfold in_use_of in Hu.
  by rewrite decide_True in Hu by (by apply list_elem_of_fmap_2).
Qed.

(** Only [in_use] of a slot changes. *)
Lemma class_ok_in_use base i c n :
  class_ok base -> devices base !! i = Some c -> class_ok (set_slot i (set_in_use n c) base).
Proof.
  intros Hok Hi. split; simpl; rewrite ?length_insert; try apply Hok.
  - pose proof (n_used_insert (devices base) i c (set_in_use n c) Hi) as Hn. simpl in Hn.
    rewrite (ok_inst _ Hok). lia.
  - intros j x Hj Hx. rewrite list_lookup_insert in Hj.
    case_decide as Hd; [|by apply (ok_slots _ Hok)].
    destruct Hd as [-> _]. simplify_eq. simpl in *. by apply (ok_slots _ Hok).
Qed.

Lemma in_use_of_cons b fs i :
  in_use_of (b :: fs) i = if decide (i = b_slot b) then 0 else in_use_of fs i.
Proof.
  unfold in_use_of. rewrite fmap_cons. destruct (decide (i = b_slot b)) as [Hi|Hi].
  - rewrite decide_True; [done|]. apply elem_of_cons. by left.
  - apply decide_ext. rewrite elem_of_cons. tauto.
Qed.

(** The file of a slot opened and the file of a slot closed. *)
Lemma files_ok_open base fs i c n b :
  files_ok (Files base fs) -> devices base !! i = Some c -> dev c <> 0 -> in_use c = 1 -> n = 0 ->
  b_slot b = i -> file_ok c b -> files_ok (Files (set_slot i (set_in_use n c) base) (b :: fs)).
Proof.
  intros Hok Hi Hd Hu -> <- Hb. assert (Hnew : b_slot b ∉ b_slot <$> fs).
  { intros Hin. destruct (fo_in_use _ Hok _ c Hi Hd) as [Hu' _]. simpl in Hu'.
    unfold in_use_of in Hu'. rewrite decide_True in Hu' by done. lia. }
  pose proof (lookup_lt_Some _ _ _ Hi) as Hlt. split; simpl.
  - by apply class_ok_in_use; [apply Hok|].
  - apply NoDup_cons. split; [done | apply Hok].
  - intros j x Hj Hx. rewrite in_use_of_cons. rewrite list_lookup_insert in Hj.
    case_decide as Hjd; [destruct Hjd as [-> _]; simplify_eq; simpl in *; rewrite decide_True by done;
      split; [done | exact (proj2 (fo_in_use _ Hok _ c Hi Hd))]|].
    rewrite decide_False by naive_solver. by apply (fo_in_use _ Hok).
  - intros b' [->|Hb']%elem_of_cons.
    + exists (set_in_use 0 c). by rewrite list_lookup_insert_eq.
    + destruct (fo_files _ Hok b' Hb') as (c' & Hc' & Hd' & Hf').
      assert (b_slot b <> b_slot b') by (intros Heq; apply Hnew; rewrite Heq; by apply list_elem_of_fmap_2).
      exists c'. by rewrite list_lookup_insert_ne.
Qed.

Lemma files_ok_close base fs k b c n :
  files_ok (Files base fs) -> fs !! k = Some b -> devices base !! b_slot b = Some c -> n = 1 ->
  files_ok (Files (set_slot (b_slot b) (set_in_use n c) base) (delete k fs)).
Proof.
  intros Hok Hk Hi ->. pose proof (delete_Permutation fs k b Hk) as Hp.
  assert (Hpm : b_slot <$> fs ≡ₚ b_slot b :: (b_slot <$> delete k fs)) by (by rewrite Hp at 1).
  pose proof (fo_single _ Hok) as Hnd. simpl in Hnd. rewrite Hpm in Hnd.
  apply NoDup_cons in Hnd as [Hnew Hnd]. pose proof (lookup_lt_Some _ _ _ Hi) as Hlt.
  split; simpl.
  - by apply class_ok_in_use; [apply Hok|].
  - done.
  - intros j x Hj Hx. rewrite list_lookup_insert in Hj. case_decide as Hjd.
    + destruct Hjd as [<- _]. simplify_eq. simpl in *. unfold in_use_of.
      rewrite decide_False by done. split; [done | exact (proj2 (fo_in_use _ Hok _ c Hi Hx))].
    + destruct (fo_in_use _ Hok j x Hj Hx) as [Hu Hw]. split; [|done]. rewrite Hu. simpl.
      unfold in_use_of. apply decide_ext. rewrite Hpm, elem_of_cons.
      assert (j <> b_slot b) by (intros ->; by apply Hjd). tauto.
  - intros b' Hb'. destruct (fo_files _ Hok b') as (c' & Hc' & Hd' & Hf').
    { simpl. rewrite Hp. by apply elem_of_cons; right. }
    assert (b_slot b <> b_slot b') by (intros Heq; apply Hnew; rewrite Heq; by apply list_elem_of_fmap_2).
    exists c'. by rewrite list_lookup_insert_ne.
Qed.

(** The buffer of an open file replaced by another one of the same file. *)
Lemma files_ok_buffer base fs k b b' c :
  files_ok (Files base fs) -> fs !! k = Some b -> devices base !! b_slot b = Some c ->
  file_ok c b' -> b_slot b' = b_slot b -> files_ok (Files base (<[k := b']> fs)).
Proof.
  intros Hok Hk Hc Hb' Hs. assert (Hsl : b_slot <$> <[k := b']> fs = b_slot <$> fs).
  { rewrite list_fmap_insert, Hs. apply list_insert_id. by rewrite list_lookup_fmap, Hk. }
  split; simpl; unfold in_use_of; rewrite ?Hsl; try apply Hok.
  intros x Hx. apply list_elem_of_lookup in Hx as [j Hj]. rewrite list_lookup_insert in Hj.
  case_decide as Hd.
  - destruct Hd as [-> _]. simplify_eq. rewrite Hs. exists c. split_and!; [done | | done].
    destruct (fo_files _ Hok b) as (c' & Hc' & Hd' & _); [by eapply list_elem_of_lookup_2|].
    simpl in Hc'. congruence.
  - apply (fo_files _ Hok x). by eapply list_elem_of_lookup_2.
Qed.

(** ** The life of the files *)

Section Life.
Context {E : Type} `{Env E} (d : cdev_driver E) `{!CdevDriver d}.

(** A probe fills a free slot, or leaves the slots in use alone; a free slot has no file. *)
Lemma files_ok_probe func base fs r base' slot (e e' : E) t :
  files_ok (Files base fs) -> d_probe d func base e = (Ret (r, base', slot), t, e') -> registered t ->
  files_ok (Files base' fs).
Proof.
  intros Hok Hrun Hreg. destruct (cd_probe _ _ _ _ _ _ _ _ Hrun) as [->|(size & Hsz & Hrun')]; [done|].
  destruct (wpx_run _ _ _ _ _ _ _ (ccat_cdev_probe_spec func base size e (fo_class _ Hok)) Hrun' Hreg)
    as [Hok' Hs].
  assert (Hslot : base' = base \/ exists i c x, devices base !! i = Some c /\ dev c = 0 /\
    devices base' = <[i := x]> (devices base) /\ (dev x <> 0 -> in_use x = 1 /\ cdev_wf x)).
  { destruct slot as [i|].
    - destruct Hs as (_ & _ & (c & Hc & Hz) & _ & Hd). right. eexists i, c, _. by split_and!.
    - destruct Hs as [(_ & -> & _) | (_ & _ & i & c & x & Hc & Hz & Hx & Hd)]; [by left|].
      right. exists i, c, x. by split_and!. }
  clear Hs. destruct Hslot as [->|(i & c & x & Hc & Hz & Hd & Hx)]; [done|].
  assert (Hfree : i ∉ b_slot <$> fs).
  { intros (b & -> & Hb)%list_elem_of_fmap. destruct (fo_files _ Hok b Hb) as (c' & Hc' & Hd' & _).
    simpl in *. congruence. }
  split; simpl; [done | apply Hok | |]; rewrite Hd.
  - intros j y Hj Hy. rewrite list_lookup_insert in Hj. case_decide as Hjd; [|by apply (fo_in_use _ Hok)].
    destruct Hjd as [<- _]. simplify_eq. unfold in_use_of. rewrite decide_False by done. by apply Hx.
  - intros b Hb. destruct (fo_files _ Hok b Hb) as (c' & Hc' & Hd' & Hf'). exists c'.
    rewrite list_lookup_insert_ne; [done|]. intros ->. apply Hfree. by apply list_elem_of_fmap_2.
Qed.

Lemma files_ok_remove base fs i c base' (e e' : E) t :
  files_ok (Files base fs) -> devices base !! i = Some c -> dev c <> 0 -> i ∉ b_slot <$> fs ->
  ccat_cdev_remove (Some i) base e = (Ret base', t, e') -> files_ok (Files base' fs).
Proof.
  intros Hok Hi Hc Hfree Hrun.
  destruct (wpx_run _ _ _ _ _ _ _ (ccat_cdev_remove_spec base i c e (fo_class _ Hok) Hi Hc) Hrun)
    as (Hok' & Hd & _).
  split; simpl; [done | apply Hok | |]; rewrite Hd.
  - intros j y Hj Hy. rewrite list_lookup_insert in Hj. case_decide as Hjd; [|by apply (fo_in_use _ Hok)].
    destruct Hjd as [<- _]. by simplify_eq.
  - intros b Hb. destruct (fo_files _ Hok b Hb) as (c' & Hc' & Hd' & Hf'). exists c'.
    rewrite list_lookup_insert_ne; [done|]. intros ->. apply Hfree. by apply list_elem_of_fmap_2.
Qed.

(** What [open] does: the file of a free device, or nothing. *)
Lemma cdev_open_cases i c (e : E) :
  0 <= iosize c ->
  wp (ccat_cdev_open i c) e (fun '(r, c', ob) _ _ =>
    (in_use c = 1 /\ c' = set_in_use 0 c /\ r = 0 /\ exists b, ob = Some b /\ b_slot b = i /\ file_ok c b) \/
    (c' = c /\ ob = None /\ (r = - ENOMEM /\ in_use c = 1 \/ r = - EBUSY /\ in_use c <> 1))).
Proof.
  intros Hsz. unfold ccat_cdev_open, atomic_dec_and_test.
  assert (Hid : forall n, n = in_use c -> set_in_use n c = c) by (intros n ->; by destruct c).
  destruct (Z.eqb_spec (in_use c - 1) 0) as [Hu|Hu]; cbn [negb]; wp_run.
  2:{ right. split; [apply Hid; lia|]. split; [done|]. right. split; [done | lia]. }
  destruct (_ =? 0); wp_run; [right; split; [apply Hid; lia|]; split; [done|]; left; split; [done | lia]|].
  left. split; [lia|]. rewrite Hu. split_and!; [done..|]. eexists. split_and!; [done..|].
  unfold file_ok, buffer_wf, zlen. simpl. rewrite length_replicate. lia.
Qed.

Lemma files_ok_step s s' : files_step d s s' -> files_ok s -> files_ok s'.
Proof.
  intros [func e e' base fs r base' slot t Hrun Hreg
         |i c e e' base fs base' t Hi Hc Hfree Hrun
         |i c e e' base fs r c' ob t Hi Hc Hrun
         |k b c ubuf len off e e' base fs r off' b' t Hk Hc Hv Hrun
         |k b c data off e e' base fs r off' b' t Hk Hc Hv Hrun
         |k b c e e' base fs r c' t Hk Hc Hrun] Hok.
  - by eapply files_ok_probe.
  - by eapply files_ok_remove.
  - assert (Hw : cdev_wf c) by exact (proj2 (fo_in_use _ Hok i c Hi Hc)). unfold cdev_wf in Hw.
    destruct (wpx_run _ _ _ _ _ _ _ (cdev_open_cases i c e ltac:(lia)) Hrun)
      as [(Hu & -> & _ & b & -> & Hs & Hb) | (-> & -> & _)].
    + by apply files_ok_open.
    + unfold set_slot. rewrite list_insert_id by done. by destruct base.
  - destruct (files_ok_used base fs b c) as (Hu & Hw & Hf); [done | by eapply list_elem_of_lookup_2 | done |].
    destruct (cd_read c b ubuf len off Hw Hf Hv) as [_ Hpost].
    destruct (Hpost _ _ _ _ _ _ Hrun). by eapply files_ok_buffer.
  - destruct (files_ok_used base fs b c) as (Hu & Hw & Hf); [done | by eapply list_elem_of_lookup_2 | done |].
    destruct (cd_write c b data off Hw Hf Hv) as [_ Hpost].
    destruct (Hpost _ _ _ _ _ _ Hrun). by eapply files_ok_buffer.
  - destruct (files_ok_used base fs b c) as (Hu & Hw & Hf); [done | by eapply list_elem_of_lookup_2 | done |].
    destruct (cd_release c b Hf) as [_ Hpost]. rewrite (Hpost _ _ _ _ _ Hrun).
    apply files_ok_close; [done..|]. lia.
Qed.

Lemma files_ok_fresh n name :
  (0 < n)%nat -> Z.of_nat n <= 2 ^ 20 -> files_ok (Files (fresh_class n name) []).
Proof.
  intros Hn Hle. split; simpl; [by apply fresh_class_ok | constructor | |].
  - intros i c Hi Hc. by apply lookup_replicate in Hi as [-> _].
  - intros b Hb. by apply elem_of_nil in Hb.
Qed.

Lemma files_ok_reachable n name s :
  (0 < n)%nat -> Z.of_nat n <= 2 ^ 20 ->
  rtc (files_step d) (Files (fresh_class n name) []) s -> files_ok s.
Proof.
  intros Hn Hle Hr. pose proof (files_ok_fresh n name Hn Hle) as Hok. revert Hok.
  induction Hr; eauto using files_ok_step.
Qed.

(** C27: however probes, removes of closed devices, opens, reads, writes and closes of any number of
    programs follow each other, and whatever the kernel and the hardware answer: a device has at
    most one open file; [in_use] is 0 while it has one and 1 while it has none, so that an open
    succeeds exactly on a device without a file if there is memory; and no read, write or close of
    an open file, with any range the kernel lets through, faults. *)
Theorem ccat_cdev_files_life n name base fs :
  (0 < n)%nat -> Z.of_nat n <= 2 ^ 20 ->
  rtc (files_step d) (Files (fresh_class n name) []) (Files base fs) ->
  NoDup (b_slot <$> fs) /\
  (forall i c (e : E), devices base !! i = Some c -> dev c <> 0 ->
     in_use c = in_use_of fs i /\
     wp (ccat_cdev_open i c) e (fun '(r, c', ob) _ _ => (r = 0 <-> is_Some ob) /\
       (r = - EBUSY <-> i ∈ b_slot <$> fs) /\ (r <> 0 -> c' = c /\ (r = - EBUSY \/ r = - ENOMEM)))) /\
  (forall b, b ∈ fs -> exists c, devices base !! b_slot b = Some c /\ dev c <> 0 /\
     oops_free (d_release d c b) /\
     (forall ubuf len off, vfs_range off len -> oops_free (d_read d c b ubuf len off)) /\
     (forall data off, vfs_range off (zlen data) -> oops_free (d_write d c b data (zlen data) off))).
Proof.
  intros Hn Hle Hr. pose proof (files_ok_reachable _ _ _ Hn Hle Hr) as Hok. clear Hr.
  split_and!; [apply Hok | |].
  - intros i c e Hi Hc. destruct (fo_in_use _ Hok i c Hi Hc) as [Hu Hw]. split; [done|].
    unfold cdev_wf in Hw. eapply wp_conseq; [apply cdev_open_cases; lia|].
    intros [[r c'] ob] t e' Hopen. simpl in Hu. unfold in_use_of in Hu. unfold EBUSY, ENOMEM in *.
    destruct Hopen as [(H1 & -> & -> & b & -> & _) | (-> & -> & [[-> Hu1]|[-> Hu1]])]; case_decide; try lia.
    + split; [by split|]. split; [by split | done].
    + split; [split; [done | by intros []]|]. split; [by split|]. auto.
    + split; [split; [done | by intros []]|]. split; [by split|]. auto.
  - intros b Hb. destruct (fo_files _ Hok b Hb) as (c & Hc & Hd & Hf). exists c.
    destruct (files_ok_used _ _ b c Hok Hb Hc) as (_ & Hw & _). split_and!; [done | done | | |].
    + by apply cd_release.
    + intros. by apply cd_read.
    + intros. by apply cd_write.
Qed.

End Life.

(** ** A device removed while a file is open

    The reference the file holds on the module keeps the code, not the device: unbinding the driver
    (or the PCI function going away) runs [ccat_cdev_remove] while the file is open, and a later
    probe takes the same slot and sets [in_use] to 1. *)

(** The close of the old file then makes the counter 2: from there no [open] succeeds although no
    file is open, whatever the kernel answers. *)
Lemma ccat_cdev_stale_release {E} `{Env E} i c b (e : E) :
  in_use c = 1 ->
  wp ('(_, c1) ← ccat_cdev_release c b; ccat_cdev_open i c1) e (fun '(r, c', ob) _ _ =>
    r = - EBUSY /\ ob = None /\ in_use c' = 2).
Proof.
  intros Hu. apply wp_bind. eapply wp_conseq; [apply cdev_release_in_use|]. intros [r c1] t e1 ->.
  unfold ccat_cdev_open, atomic_dec_and_test. simpl. rewrite Hu. simpl. by wp_run.
Qed.

Definition sram_func_of (log_size : Z) : ccat_function :=
  Function_ (Device 1 1 65536 0) (Info (info_code CCATINFO_SRAM) 0 (1 + 256 * log_size) 256 0).

(** A file is opened on an SRAM of four bytes, the device removed and an SRAM of eight bytes probed
    in its place; a second program opens it.  The result: both files, and the device. *)
Definition replaced : M unit (cdev_buffer * cdev_buffer * ccat_cdev) :=
  '(_, base, _) ← ccat_sram_probe (H := grant) (sram_func_of 2) (fresh_class 4 "ccat_sram");
  match devices base !! 0%nat with
  | None => oops
  | Some c =>
      '(_, c, old) ← ccat_cdev_open (H := grant) 0 c;
      base ← ccat_cdev_remove (H := grant) (Some 0%nat) (set_slot 0 c base);
      '(_, base, _) ← ccat_sram_probe (H := grant) (sram_func_of 3) base;
      match devices base !! 0%nat, old with
      | Some c, Some old =>
          '(_, c, new) ← ccat_cdev_open (H := grant) 0 c;
          match new with Some new => mret (old, new, c) | None => oops end
      | _, _ => oops
      end
  end.

(** Two files are open on the device, and the buffer of the old one is too small for it: the write
    of six bytes, which the device has room for, overruns it. *)
Example replaced_two_files :
  match replaced tt with
  | (Ret (old, new, c), _, _) =>
      b_slot old = b_slot new /\ zlen (b_data old) = 4 /\ iosize c = 8 /\
      outcome_of (ccat_sram_write (H := grant) c old [1; 2; 3; 4; 5; 6] 6 0) tt = Oops
  | _ => False
  end.
Proof. vm_compute. auto. Qed.

(** ** Witness *)

Definition sram_file_dev (n : Z) : ccat_cdev := Cdev n 65792 4 (MKDEV 240 0) true.
Definition sram_file_class : ccat_class :=
  Class_ (MKDEV 240 0) 4096 1 4 [sram_file_dev 1; fresh_cdev; fresh_cdev; fresh_cdev] "ccat_sram" true.
Definition sram_file_buffer : cdev_buffer := Buffer 0 4096 0 [0; 0; 0; 0].

Lemma ccat_cdev_files_life_witness :
  rtc (files_step (H := grant) (sram_cdev_driver (H := grant)))
    (Files (fresh_class 4 "ccat_sram") [])
    (Files (set_slot 0 (sram_file_dev 0) sram_file_class) [sram_file_buffer]) /\
  outcome_of (ccat_sram_write (H := grant) (sram_file_dev 0) sram_file_buffer [7; 8; 9; 10] 4 0) tt <> Oops.
Proof.
  assert (Hr : rtc (files_step (H := grant) (sram_cdev_driver (H := grant)))
    (Files (fresh_class 4 "ccat_sram") [])
    (Files (set_slot 0 (sram_file_dev 0) sram_file_class) [sram_file_buffer])).
  { eapply (rtc_l _ _ (Files sram_file_class [])).
    - eapply (files_probe (H := grant) _ (sram_func_of 2) tt tt); [vm_compute; reflexivity|].
      by repeat constructor.
    - apply rtc_once. eapply (files_open (H := grant) _ 0 (sram_file_dev 1) tt tt _ _ 0 _ (Some sram_file_buffer));
        [reflexivity | done | vm_compute; reflexivity]. }
  split; [exact Hr|].
  destruct (ccat_cdev_files_life (H := grant) (sram_cdev_driver (H := grant))
    (CdevDriver0 := sram_cdev_driver_ok (H := grant) (UserMem0 := grant_user)) 4 "ccat_sram" _ _
    ltac:(lia) ltac:(lia) Hr) as (_ & _ & Hf).
  destruct (Hf sram_file_buffer) as (c & Hc & _ & _ & _ & Hw); [by left|].
  simpl in Hc. simplify_eq. apply (Hw [7; 8; 9; 10] 0). unfold vfs_range, zlen. simpl. lia.
Defined.
