(* ===== verification/Gpio.v ===== *)
(** * The GPIO driver (gpio.c)

    One chip of up to [num_gpios] lines over the registers of the GPIO function: output values at
    0x0, directions (1 is output) at 0x8, input values at 0x10, 32 lines per word.  The file shows
    that on the first word of lines the driver implements an abstract bank of lines
    ([ccat_gpio_refines]), and what it does beyond the first word. *)

From S2P Require Import Prelude IO Info.

(** [struct ccat_gpio]: the chip's number of lines, the registers, the lock. *)
Record ccat_gpio := Gpio { ngpio : Z; g_ioaddr : Z; g_lock : Z }.

(** The width of [unsigned long] in a 64-bit build, which this development is about (LP64). *)
Definition BITS_PER_LONG : Z := 64.

Section Operations.
Context {E : Type} `{Env E}.

(** [set_bit] and [clear_bit] on the one [unsigned long] the driver has on its stack; a bit beyond
    it would be written to other memory, which is not modelled but counts as a fault. *)
Definition set_bit (nr old : Z) : M E Z :=
  if nr <? BITS_PER_LONG then mret (Z.lor old (Z.shiftl 1 nr)) else oops.
Definition clear_bit (nr old : Z) : M E Z :=
  if nr <? BITS_PER_LONG then mret (Z.ldiff old (Z.shiftl 1 nr)) else oops.

Definition set_bit_in_register (lock io nr val : Z) : M E Z :=
  kern_ (MutexLock lock) ;;
  old ← ioread W32 io;
  old ← (if istrue val then set_bit nr old else clear_bit nr old);
  old ← (if istrue val then set_bit nr old else clear_bit nr old);
  iowrite W32 old io ;;
  kern_ (MutexUnlock lock) ;;
  mret 0.

Definition ccat_gpio_get_direction (gdev : ccat_gpio) (nr : Z) : M E Z :=
  let byte_offset := 4 * (nr / 32) + 0x8 in
  let mask := u32 (Z.shiftl 1 (nr mod 32)) in
  v ← ioread W32 (g_ioaddr gdev + byte_offset);
  mret (lnot_c (Z.land mask v)).

Definition ccat_gpio_direction_input (gdev : ccat_gpio) (nr : Z) : M E Z :=
  set_bit_in_register (g_lock gdev) (g_ioaddr gdev + 0x8) nr 0.

(** [val], the level the line is to start with, is not used. *)
Definition ccat_gpio_direction_output (gdev : ccat_gpio) (nr val : Z) : M E Z :=
  set_bit_in_register (g_lock gdev) (g_ioaddr gdev + 0x8) nr 1.

Definition ccat_gpio_get (gdev : ccat_gpio) (nr : Z) : M E Z :=
  let byte_off := 4 * (nr / 32) in
  let mask := u32 (Z.shiftl 1 (nr mod 32)) in
  kern_ (MutexLock (g_lock gdev)) ;;
  dir ← ccat_gpio_get_direction gdev nr;
  let dir_off := 0x10 * dir in
  v ← ioread W32 (g_ioaddr gdev + byte_off + dir_off);
  kern_ (MutexUnlock (g_lock gdev)) ;;
  mret (lnot_c (Z.land mask v)).

Definition ccat_gpio_set (gdev : ccat_gpio) (nr val : Z) : M E Z :=
  set_bit_in_register (g_lock gdev) (g_ioaddr gdev) nr val ;;
  mret 0.

(** The probe returns its result and what it stores in [func->private_data].  [size] is
    [sizeof(struct ccat_gpio)], which depends on the kernel's [struct gpio_chip]. *)
Definition ccat_gpio_probe (size : Z) (func : ccat_function) : M E (Z * option ccat_gpio) :=
  p ← kern (DevmKzalloc size);
  if p =? 0 then mret (- ENOMEM, None)
  else
    let gpio := Gpio (num_gpios (f_info func)) (func_base func) p in
    kern_ (MutexInit (g_lock gpio)) ;;
    ret ← kern (GpiochipAddData (ngpio gpio));
    if istrue ret then mret (ret, None)
    else mret (0, Some gpio).

(** The chip is the first field of the struct, which is known by the address of its lock here. *)
Definition ccat_gpio_remove (gpio : ccat_gpio) : M E unit :=
  kern_ (GpiochipRemove (g_lock gpio)).

End Operations.

(** ** The registers as the driver sees them *)

(** The four output and direction words keep what is written to them; the input words are read
    only and follow the pins.  Nothing the driver does besides a write changes the former. *)
Class GpioRegs (E : Type) `{Env E} (io : Z) := {
  gr : E -> Z -> Z;
  gr_read : forall e o, 0 <= o < 0x18 ->
    r_val (ext (IoRead W32 (io + o)) e).1 = gr e o /\
    forall o', 0 <= o' < 0x10 -> gr (ext (IoRead W32 (io + o)) e).2 o' = gr e o';
  gr_write : forall e o v, 0 <= o < 0x10 -> o mod 4 = 0 -> 0 <= v < 2 ^ 32 ->
    forall o', 0 <= o' < 0x10 -> gr (ext (IoWrite W32 (io + o) v) e).2 o' = upd (gr e) o v o';
  gr_lock : forall e m o', 0 <= o' < 0x10 ->
    gr (ext (Kernel (MutexLock m)) e).2 o' = gr e o' /\
    gr (ext (Kernel (MutexUnlock m)) e).2 o' = gr e o';
}.
Arguments gr {E _} io {_} e o.

(** ** The abstract bank of lines *)

(** Per line, the level it drives and whether it is an output. *)
Record bank := Bank { level : Z -> bool; output : Z -> bool }.

Inductive gpio_op :=
  | OpSet (nr val : Z)
  | OpInput (nr : Z)
  | OpOutput (nr val : Z)
  | OpGetDirection (nr : Z)
  | OpGet (nr : Z).

Definition op_line (op : gpio_op) : Z :=
  match op with OpSet nr _ | OpInput nr | OpOutput nr _ | OpGetDirection nr | OpGet nr => nr end.

(** What an operation does to the bank, and its result; [None] where it depends on a pin.  The
    direction is 1 for an input, 0 for an output, and [get] is the inverse of the line's level. *)
Definition bank_step (op : gpio_op) (b : bank) : bank * option Z :=
  match op with
  | OpSet nr val => (Bank (fun i => if i =? nr then istrue val else level b i) (output b), Some 0)
  | OpInput nr => (Bank (level b) (fun i => if i =? nr then false else output b i), Some 0)
  | OpOutput nr _ => (Bank (level b) (fun i => if i =? nr then true else output b i), Some 0)
  | OpGetDirection nr => (b, Some (b2z (negb (output b nr))))
  | OpGet nr => (b, if output b nr then Some (b2z (negb (level b nr))) else None)
  end.

Fixpoint bank_run (ops : list gpio_op) (b : bank) : bank * list (option Z) :=
  match ops with
  | [] => (b, [])
  | op :: ops' =>
      let '(b1, r) := bank_step op b in
      let '(b2, rs) := bank_run ops' b1 in (b2, r :: rs)
  end.

Section Driver.
Context {E : Type} `{Env E}.

Definition gpio_exec (gdev : ccat_gpio) (op : gpio_op) : M E Z :=
  match op with
  | OpSet nr val => ccat_gpio_set gdev nr val
  | OpInput nr => ccat_gpio_direction_input gdev nr
  | OpOutput nr val => ccat_gpio_direction_output gdev nr val
  | OpGetDirection nr => ccat_gpio_get_direction gdev nr
  | OpGet nr => ccat_gpio_get gdev nr
  end.

Fixpoint gpio_run (gdev : ccat_gpio) (ops : list gpio_op) : M E (list Z) :=
  match ops with
  | [] => mret []
  | op :: ops' => r ← gpio_exec gdev op; rs ← gpio_run gdev ops'; mret (r :: rs)
  end.

End Driver.

(** A concrete result agrees with an abstract one that is not left open. *)
Definition agrees (r : Z) (s : option Z) : Prop := match s with Some v => r = v | None => True end.

Section Lines.
Context {E : Type} `{Env E} {io : Z} `{!GpioRegs E io}.
Local Abbreviation regs := (gr io).

(** The registers represent the bank on the first word of lines. *)
Definition repr (b : bank) (e : E) : Prop :=
  forall i, 0 <= i < 32 ->
    Z.testbit (regs e 0) i = level b i /\ Z.testbit (regs e 0x8) i = output b i.

(** The word [set_bit_in_register] writes back. *)
Definition with_bit (nr val old : Z) : Z :=
  if istrue val then Z.lor (Z.lor old (Z.shiftl 1 nr)) (Z.shiftl 1 nr)
  else Z.ldiff (Z.ldiff old (Z.shiftl 1 nr)) (Z.shiftl 1 nr).

Lemma with_bit_spec nr val old i :
  0 <= nr -> 0 <= i ->
  Z.testbit (with_bit nr val old) i = if i =? nr then istrue val else Z.testbit old i.
Proof.
  intros Hn Hi. unfold with_bit. rewrite Z.shiftl_1_l. rewrite (Z.eqb_sym i).
  destruct (istrue val); rewrite ?Z.lor_spec, ?Z.ldiff_spec, Z.pow2_bits_eqb by lia;
    destruct (nr =? i); by destruct (Z.testbit old i).
Qed.

Lemma u32_testbit z i : 0 <= i < 32 -> Z.testbit (u32 z) i = Z.testbit z i.
Proof.
  intros Hi. change (u32 z) with (z mod 2 ^ 32). by rewrite Z.mod_pow2_bits_low by lia.
Qed.

Lemma u32_bound z : 0 <= u32 z < 2 ^ 32.
Proof. apply Z.mod_pos_bound. lia. Qed.

(** A read-modify-write of one word: all calls, and its effect on the registers. *)
Lemma set_bit_in_register_spec lock o nr val (e : E) :
  (o = 0 \/ o = 0x8) -> 0 <= nr < BITS_PER_LONG ->
  wp (set_bit_in_register lock (io + o) nr val) e (fun r t e' =>
    r = 0 /\
    calls t = [Kernel (MutexLock lock); IoRead W32 (io + o);
               IoWrite W32 (io + o) (u32 (with_bit nr val (u32 (regs (ext (Kernel (MutexLock lock)) e).2 o))));
               Kernel (MutexUnlock lock)] /\
    forall o', 0 <= o' < 0x10 ->
      regs e' o' = upd (regs e) o (u32 (with_bit nr val (u32 (regs e o)))) o').
Proof.
  intros Ho Hnr. unfold set_bit_in_register, set_bit, clear_bit.
  destruct (Z.ltb_spec nr BITS_PER_LONG); [|lia].
  destruct (gr_read (ext (Kernel (MutexLock lock)) e).2 o) as [Hv Hs]; [lia|].
  assert (Hl : forall o', 0 <= o' < 0x10 -> regs (ext (Kernel (MutexLock lock)) e).2 o' = regs e o')
    by (intros; by apply gr_lock).
  destruct (istrue val) eqn:Hval; wp_run; untrunc; rewrite Hv; simpl;
    unfold with_bit; rewrite Hval; (split; [done|]; split; [done|]); intros o' Ho';
    rewrite (proj2 (gr_lock _ _ _ Ho')), gr_write by (apply u32_bound || (destruct Ho; subst; done || lia));
    unfold upd; destruct (Z.eqb_spec o' o); rewrite ?Hs, ?Hl by lia; done.
Qed.

(** Testing the line's bit of a word. *)
Lemma line_mask nr v :
  0 <= nr < 32 -> lnot_c (Z.land (u32 (Z.shiftl 1 (nr mod 32))) v) = b2z (negb (Z.testbit v nr)).
Proof.
  intros Hnr. rewrite Z.mod_small by lia.
  rewrite u32_small by (rewrite Z.shiftl_1_l; split; [apply Z.pow_nonneg; lia |
    change 4294967296 with (2 ^ 32); apply Z.pow_lt_mono_r; lia]).
  rewrite Z.land_comm. pose proof (istrue_land_pow2 v nr ltac:(lia)) as Hi.
  unfold istrue, lnot_c in *. rewrite <- Hi. by destruct (_ =? 0).
Qed.

Lemma get_direction_spec gdev nr (e : E) :
  g_ioaddr gdev = io -> 0 <= nr < 32 ->
  wp (ccat_gpio_get_direction gdev nr) e (fun r t e' =>
    r = b2z (negb (Z.testbit (regs e 0x8) nr)) /\
    (forall o', 0 <= o' < 0x10 -> regs e' o' = regs e o')).
Proof.
  intros Hio Hnr. unfold ccat_gpio_get_direction. rewrite Hio, (Z.div_small nr) by lia. wp_run.
  untrunc. change (4 * 0 + 0x8) with 0x8. destruct (gr_read e 0x8) as [Hv Hs]; [lia|]. rewrite Hv.
  rewrite line_mask, u32_testbit by lia. auto.
Qed.

(** The effect of a read-modify-write, on the bank. *)
Lemma repr_set nr val b (e e' : E) :
  0 <= nr < 32 -> repr b e ->
  (forall o', 0 <= o' < 0x10 -> regs e' o' = upd (regs e) 0 (u32 (with_bit nr val (u32 (regs e 0)))) o') ->
  repr (Bank (fun i => if i =? nr then istrue val else level b i) (output b)) e'.
Proof.
  intros Hnr Hb He' i Hi. rewrite !He' by lia. unfold upd. simpl. destruct (Hb i Hi) as [Hl Ho].
  rewrite u32_testbit, with_bit_spec, u32_testbit by lia. by rewrite Hl.
Qed.

Lemma repr_dir nr val b (e e' : E) :
  0 <= nr < 32 -> repr b e ->
  (forall o', 0 <= o' < 0x10 -> regs e' o' = upd (regs e) 0x8 (u32 (with_bit nr val (u32 (regs e 0x8)))) o') ->
  repr (Bank (level b) (fun i => if i =? nr then istrue val else output b i)) e'.
Proof.
  intros Hnr Hb He' i Hi. rewrite !He' by lia. unfold upd. simpl. destruct (Hb i Hi) as [Hl Ho].
  rewrite u32_testbit, with_bit_spec, u32_testbit by lia. by rewrite Ho.
Qed.

Lemma repr_same b (e e' : E) :
  repr b e -> (forall o', 0 <= o' < 0x10 -> regs e' o' = regs e o') -> repr b e'.
Proof. intros Hb He' i Hi. rewrite !He' by lia. by apply Hb. Qed.

Lemma get_spec gdev nr b (e : E) :
  g_ioaddr gdev = io -> 0 <= nr < 32 -> repr b e ->
  wp (ccat_gpio_get gdev nr) e (fun r t e' =>
    repr b e' /\ agrees r (if output b nr then Some (b2z (negb (level b nr))) else None)).
Proof.
  intros Hio Hnr Hb. unfold ccat_gpio_get. wp_run.
  set (e1 := (ext (Kernel (MutexLock (g_lock gdev))) e).2).
  assert (Hb1 : repr b e1) by (apply (repr_same b e); [done|]; intros; by apply gr_lock).
  eapply wp_conseq; [by apply get_direction_spec|]. intros d t2 e2 [-> He2].
  assert (Hb2 : repr b e2) by by apply (repr_same b e1).
  rewrite Hio, (Z.div_small nr) by lia. wp_run. untrunc.
  destruct (Hb2 nr Hnr) as [Hl _]. destruct (Hb1 nr Hnr) as [_ Ho]. rewrite Ho.
  set (o := 0x10 * b2z (negb (output b nr))).
  replace (io + 4 * 0 + o) with (io + o) by lia.
  assert (0 <= o < 0x18) as Hor by (unfold o; destruct (output b nr); simpl; lia).
  destruct (gr_read e2 o Hor) as [Hv Hs]. split.
  - apply (repr_same b e2); [done|]. intros o' Ho'. by rewrite (proj2 (gr_lock _ _ _ Ho')), Hs.
  - destruct (output b nr); [|done]. change o with 0 in *.
    rewrite line_mask, u32_testbit, Hv by done. unfold agrees. by rewrite Hl.
Qed.

Lemma gpio_exec_refines gdev op b (e : E) :
  g_ioaddr gdev = io -> 0 <= op_line op < 32 -> repr b e ->
  wp (gpio_exec gdev op) e (fun r t e' =>
    repr (bank_step op b).1 e' /\ agrees r (bank_step op b).2).
Proof.
  intros Hio Hnr Hb. assert (BITS_PER_LONG = 64) by done.
  destruct op; simpl in *;
    unfold ccat_gpio_set, ccat_gpio_direction_input, ccat_gpio_direction_output.
  - rewrite Hio. wp_run. rewrite <- (Z.add_0_r io) at 1.
    eapply wp_conseq; [apply set_bit_in_register_spec; [by left | lia]|].
    intros r t e' (-> & _ & He'). wp_run. split; [by eapply repr_set | done].
  - rewrite Hio. eapply wp_conseq; [apply set_bit_in_register_spec; [by right | lia]|].
    intros r t e' (-> & _ & He'). split; [|done]. by apply (repr_dir nr 0 b e).
  - rewrite Hio. eapply wp_conseq; [apply set_bit_in_register_spec; [by right | lia]|].
    intros r t e' (-> & _ & He'). split; [|done]. by apply (repr_dir nr 1 b e).
  - eapply wp_conseq; [by apply get_direction_spec|]. intros r t e' [-> He'].
    split; [by apply (repr_same b e)|]. simpl. by destruct (Hb nr Hnr) as [_ ->].
  - by apply get_spec.
Qed.

(** C17: on the lines of its first register word the driver implements the abstract bank: any
    sequence of requests leaves the registers representing the bank after the same requests, and
    every result that does not depend on a pin is the bank's.  In particular a request changes no
    line but its own, and [get] of an output is the inverse of what [set] drove. *)
Theorem ccat_gpio_refines gdev ops b (e : E) :
  g_ioaddr gdev = io -> Forall (fun op => 0 <= op_line op < 32) ops -> repr b e ->
  wp (gpio_run gdev ops) e (fun rs t e' =>
    repr (bank_run ops b).1 e' /\ Forall2 agrees rs (bank_run ops b).2).
Proof.
  intros Hio. revert b e. induction ops as [|op ops IH]; intros b e Hops Hb; simpl; wp_run; [done|].
  apply Forall_cons in Hops as [Hop Hops].
  eapply wp_conseq; [by apply gpio_exec_refines|]. intros r t e1 [Hb1 Hr].
  destruct (bank_step op b) as [b1 s]. simpl in *. wp_run.
  eapply wp_conseq; [by apply IH|]. intros rs t2 e2 [Hb2 Hrs].
  destruct (bank_run ops b1) as [b2 ss]. wp_run. split; [done | by constructor].
Qed.

(** Every change of a line is one read and one write of its register word between taking and
    releasing the chip's lock, and the reading of a value happens under the same lock as the
    reading of the direction that selects its register. *)
Lemma ccat_gpio_locked gdev op (e : E) :
  g_ioaddr gdev = io -> 0 <= op_line op < 32 ->
  wp (gpio_exec gdev op) e (fun _ t _ =>
    match op with
    | OpGetDirection _ => calls t = [IoRead W32 (io + 0x8)]
    | OpGet _ => exists o, (o = 0 \/ o = 0x10) /\
        calls t = [Kernel (MutexLock (g_lock gdev)); IoRead W32 (io + 0x8); IoRead W32 (io + o);
                   Kernel (MutexUnlock (g_lock gdev))]
    | _ => exists o v, (o = 0 \/ o = 0x8) /\
        calls t = [Kernel (MutexLock (g_lock gdev)); IoRead W32 (io + o); IoWrite W32 (io + o) v;
                   Kernel (MutexUnlock (g_lock gdev))]
    end).
Proof.
  intros Hio Hnr. assert (BITS_PER_LONG = 64) by done.
  destruct op; simpl in *;
    unfold ccat_gpio_set, ccat_gpio_direction_input, ccat_gpio_direction_output,
      ccat_gpio_get, ccat_gpio_get_direction; rewrite ?Hio, ?(Z.div_small nr) by lia.
  - wp_run. rewrite <- (Z.add_0_r io) at 1.
    eapply wp_conseq; [apply set_bit_in_register_spec; [by left | lia]|].
    intros r t e' (-> & Ht & He'). wp_run. rewrite app_nil_r. eexists 0, _. split; [by left | exact Ht].
  - eapply wp_conseq; [apply set_bit_in_register_spec; [by right | lia]|].
    intros r t e' (-> & Ht & He'). eexists 8, _. split; [by right | exact Ht].
  - eapply wp_conseq; [apply set_bit_in_register_spec; [by right | lia]|].
    intros r t e' (-> & Ht & He'). eexists 8, _. split; [by right | exact Ht].
  - by wp_run.
  - wp_run. simpl. match goal with |- context [0x10 * ?d] => exists (0x10 * d) end. split.
    + unfold lnot_c. destruct (_ =? 0); simpl; auto.
    + by rewrite Z.add_0_r.
Qed.

(** A bit beyond the register word is lost on the way back into the register. *)
Lemma with_high_bit nr v z : 32 <= nr -> u32 (u32 (with_bit nr v (u32 z))) = u32 z.
Proof.
  intros Hnr. apply Z.bits_inj'. intros i Hi. destruct (Z.lt_ge_cases i 32).
  - rewrite !u32_testbit, with_bit_spec, u32_testbit by lia. by destruct (Z.eqb_spec i nr); [lia|].
  - rewrite !(testbit_high _ 32 i); try done; apply u32_bound.
Qed.

Definition regs_kept (e e' : E) : Prop := forall o, 0 <= o < 0x10 -> u32 (regs e' o) = u32 (regs e o).

Lemma set_high_bit lock o nr val (e : E) :
  o = 0 \/ o = 8 -> 32 <= nr < BITS_PER_LONG ->
  wp (set_bit_in_register lock (io + o) nr val) e (fun r _ e' => r = 0 /\ regs_kept e e').
Proof.
  intros Ho [Hnr Hlt]. eapply wp_conseq; [apply set_bit_in_register_spec; [done | lia]|].
  intros r t e' (-> & _ & He'). split; [done|]. intros o' Ho'. rewrite He' by done. unfold upd.
  destruct (Z.eqb_spec o' o) as [->|]; [by rewrite with_high_bit | done].
Qed.

(** C37: where [unsigned long] has more bits than a register, a line beyond the first 32 and within
    those bits cannot be changed: setting it, and making it an input or an output, reports success
    and leaves every output and direction register as it was, although reading such a line's
    direction looks at the second word. *)
Theorem ccat_gpio_high_lines gdev nr val (e : E) :
  g_ioaddr gdev = io -> 32 <= nr < BITS_PER_LONG ->
  wp (ccat_gpio_set gdev nr val) e (fun r _ e' => r = 0 /\ regs_kept e e') /\
  wp (ccat_gpio_direction_input gdev nr) e (fun r _ e' => r = 0 /\ regs_kept e e') /\
  wp (ccat_gpio_direction_output gdev nr val) e (fun r _ e' => r = 0 /\ regs_kept e e') /\
  wp (ccat_gpio_get_direction gdev nr) e (fun _ t _ => calls t = [IoRead W32 (io + 0xC)]).
Proof.
  intros Hio Hnr. assert (BITS_PER_LONG = 64) as Hlong by done.
  unfold ccat_gpio_set, ccat_gpio_direction_input, ccat_gpio_direction_output, ccat_gpio_get_direction.
  rewrite Hio. split_and!; [| apply set_high_bit; [by right | done] ..|].
  - apply wp_bind. rewrite <- (Z.add_0_r io). eapply wp_conseq; [apply set_high_bit; [by left | done]|].
    intros r t e' [_ He']. by wp_run.
  - replace (nr / 32) with 1 by mach. by wp_run.
Qed.

End Lines.

Section Probe.
Context {E : Type} `{Env E}.

(** The probe reports what failed and leaves nothing behind but device-managed memory; it
    succeeds with a chip over the function's registers with the number of lines the information
    block gives, registered exactly once. *)
Lemma ccat_gpio_probe_result size func (e : E) :
  wp (ccat_gpio_probe size func) e (fun '(r, g) t _ =>
    match g with
    | Some gpio => r = 0 /\ g_ioaddr gpio = func_base func /\ g_lock gpio <> 0 /\
        ngpio gpio = num_gpios (f_info func) /\
        calls t = [Kernel (DevmKzalloc size); Kernel (MutexInit (g_lock gpio));
                   Kernel (GpiochipAddData (ngpio gpio))]
    | None => r <> 0 /\ exists ev, last t = Some ev /\
        (ev_call ev = Kernel (DevmKzalloc size) /\ r_val (ev_resp ev) = 0 /\ r = - ENOMEM \/
         ev_call ev = Kernel (GpiochipAddData (num_gpios (f_info func))) /\ r = r_val (ev_resp ev))
    end).
Proof.
  unfold ccat_gpio_probe. wp_run. simpl. destruct (Z.eqb_spec (r_val (ext (Kernel (DevmKzalloc size)) e).1) 0).
  - wp_run. split; [done|]. eexists. split; [done|]. auto.
  - wp_run. simpl. match goal with |- context [istrue ?r] => destruct (istrue r) eqn:Hr end; wp_run.
    + split.
      * intros Hz. by rewrite Hz in Hr.
      * eexists. split; [done|]. auto.
    + done.
Qed.

End Probe.

(** ** Witnesses: registers that are plain memory *)

Definition reg_env (io : Z) : Env (Z -> Z) := fun c m =>
  match c with
  | IoRead W32 a => (Resp (m (a - io)) 0, m)
  | IoWrite W32 a v => (Resp 0 0, upd m (a - io) v)
  | _ => (Resp 0 0, m)
  end.

#[export] Instance reg_env_gpio io : @GpioRegs (Z -> Z) (reg_env io) io.
Proof.
  unshelve refine (@Build_GpioRegs _ (reg_env io) _ (fun m => m) _ _ _).
  - intros m o Ho. simpl. by rewrite Z.add_simpl_l.
  - intros m o v Ho Hm Hv o' Ho'. simpl. by rewrite Z.add_simpl_l.
  - done.
Defined.

Definition gpio_dev : ccat_gpio := Gpio 32 4096 512.
Definition gpio_off : Z -> Z := fun _ => 0.
Definition bank_off : bank := Bank (fun _ => false) (fun _ => false).

Lemma ccat_gpio_refines_witness :
  exists rs t m, gpio_run (H := reg_env 4096) gpio_dev
      [OpSet 3 1; OpOutput 3 0; OpGet 3; OpGetDirection 4] gpio_off = (Ret rs, t, m) /\
    Forall2 agrees rs [Some 0; Some 0; Some 0; Some 1].
Proof.
  pose proof (ccat_gpio_refines (H := reg_env 4096) gpio_dev
    [OpSet 3 1; OpOutput 3 0; OpGet 3; OpGetDirection 4] bank_off gpio_off) as Hw.
  apply wp_elim in Hw as (rs & t & m & Hrun & _ & Hrs);
    [|done | repeat constructor; simpl; lia | by intros i Hi; rewrite !Z.testbit_0_l].
  exists rs, t, m. split; [exact Hrun | exact Hrs].
Defined.

Lemma ccat_gpio_locked_witness :
  exists o v, calls (trace_of (ccat_gpio_set (H := reg_env 4096) gpio_dev 3 1) gpio_off)
    = [Kernel (MutexLock 512); IoRead W32 (4096 + o); IoWrite W32 (4096 + o) v; Kernel (MutexUnlock 512)].
Proof.
  pose proof (ccat_gpio_locked (H := reg_env 4096) gpio_dev (OpSet 3 1) gpio_off) as Hw.
  apply wp_elim in Hw as (r & t & m & Hrun & o & v & _ & Ht); [|done | simpl; lia].
  exists o, v. unfold trace_of. simpl in Hrun. by rewrite Hrun.
Defined.

Lemma ccat_gpio_high_lines_witness :
  exists t m, ccat_gpio_set (H := reg_env 4096) gpio_dev 40 1 gpio_off = (Ret 0, t, m) /\ u32 (m 4) = 0.
Proof.
  destruct (ccat_gpio_high_lines (H := reg_env 4096) gpio_dev 40 1 gpio_off) as [Hw _]; [done | split; done |].
  apply wp_elim in Hw as (r & t & m & Hrun & -> & Hm). exists t, m. split; [exact Hrun|].
  by apply (Hm 4).
Defined.
