(* ===== verification/GpioConc.v ===== *)
(** * Concurrent use of a GPIO chip (gpio.c)

    Several tasks use the same chip, each with its own sequence of requests, interleaved call by
    call.  The registers hold many lines each and a change of a line is a read and a write, so
    without the lock updates would be lost.  The file shows that every interleaving is equivalent
    to an order of the whole requests that each task's own order respects: the chip is
    linearizable to the abstract bank of Gpio.v, and never deadlocks. *)

From S2P Require Import Prelude IO Info Interleave Gpio.

(** ** The requests as trees of calls *)

Section Progs.
Context (gdev : ccat_gpio).
Local Abbreviation lock := (g_lock gdev).
Local Abbreviation io := (g_ioaddr gdev).

(** The register word a changing request works on, the line and the value; [None] for the
    requests that only read. *)
Definition set_of (op : gpio_op) : option (Z * Z * Z) :=
  match op with
  | OpSet nr val => Some (0, nr, val)
  | OpInput nr => Some (0x8, nr, 0)
  | OpOutput nr _ => Some (0x8, nr, 1)
  | OpGetDirection _ | OpGet _ => None
  end.

Definition dir_addr (nr : Z) : Z := io + (4 * (nr / 32) + 0x8).
Definition line_bit (nr v : Z) : Z := lnot_c (Z.land (u32 (Z.shiftl 1 (nr mod 32))) v).

(** How far a request has got: not begun, lock taken, first word read, all but the unlocking. *)
Inductive phase := Between | Locked | Read (v : Z) | Done (r : Z).

Definition unlock_prog (r : Z) : prog Z := PCall (Kernel (MutexUnlock lock)) (fun _ => PRet r).

Definition set_prog (o nr val : Z) (ph : phase) : prog Z :=
  let write v :=
    if nr <? BITS_PER_LONG
    then PCall (IoWrite W32 (io + o) (trunc W32 (with_bit nr val v))) (fun _ => unlock_prog 0)
    else POops in
  let read := PCall (IoRead W32 (io + o)) (fun r => write (trunc W32 (r_val r))) in
  match ph with
  | Between => PCall (Kernel (MutexLock lock)) (fun _ => read)
  | Locked => read
  | Read v => write v
  | Done r => unlock_prog r
  end.

Definition get_prog (nr : Z) (ph : phase) : prog Z :=
  let value d :=
    PCall (IoRead W32 (io + 4 * (nr / 32) + 0x10 * d))
          (fun r => unlock_prog (line_bit nr (trunc W32 (r_val r)))) in
  let dir := PCall (IoRead W32 (dir_addr nr)) (fun r => value (line_bit nr (trunc W32 (r_val r)))) in
  match ph with
  | Between => PCall (Kernel (MutexLock lock)) (fun _ => dir)
  | Locked => dir
  | Read d => value d
  | Done r => unlock_prog r
  end.

(** The rest of a request from a phase on. *)
Definition rest_prog (op : gpio_op) (ph : phase) : prog Z :=
  match set_of op with
  | Some (o, nr, val) => set_prog o nr val ph
  | None =>
      match op with
      | OpGet nr => get_prog nr ph
      | _ => PCall (IoRead W32 (dir_addr (op_line op)))
                   (fun r => PRet (line_bit (op_line op) (trunc W32 (r_val r))))
      end
  end.

(** A task: its requests one after the other, [acc] the results so far. *)
Fixpoint task_prog (ops : list gpio_op) (acc : list Z) : prog (list Z) :=
  match ops with
  | [] => PRet acc
  | op :: ops' => pbind (rest_prog op Between) (fun r => task_prog ops' (acc ++ [r]))
  end.

Definition gpio_task (ops : list gpio_op) : prog (list Z) := task_prog ops [].

(** *** They are the driver's functions *)

Section Denotation.
Context {E : Type} `{Env E}.

Lemma set_prog_ok o nr val (e : E) :
  interp (set_prog o nr val Between) e = set_bit_in_register lock (io + o) nr val e.
Proof.
  unfold set_bit_in_register, kern_, ioread, iowrite, do_unit, do_val, set_bit, clear_bit, set_prog.
  cbn [interp]. rewrite !bind_assoc. apply bind_ext; [done|]. intros _ e1.
  rewrite bind_ret_l, !bind_assoc. apply bind_ext; [done|]. intros r e2.
  rewrite !bind_ret_l. unfold with_bit. destruct (nr <? BITS_PER_LONG).
  - destruct (istrue val); rewrite !bind_ret_l; cbn [interp unlock_prog]; rewrite !bind_assoc;
      (apply bind_ext; [done|]); intros _ e3; rewrite bind_ret_l, bind_assoc;
      (apply bind_ext; [done|]); intros _ e4; by rewrite bind_ret_l.
  - by destruct (istrue val).
Qed.

Lemma rest_prog_ok op (e : E) : interp (rest_prog op Between) e = gpio_exec gdev op e.
Proof.
  destruct op as [nr val|nr|nr val|nr|nr]; unfold rest_prog; simpl set_of; cbv iota beta; unfold gpio_exec.
  - unfold ccat_gpio_set. rewrite set_prog_ok, Z.add_0_r. unfold set_bit_in_register.
    rewrite !bind_assoc. apply bind_ext; [done|]. intros _ e1.
    rewrite !bind_assoc. apply bind_ext; [done|]. intros v e2.
    rewrite !bind_assoc. apply bind_ext; [done|]. intros v1 e3.
    rewrite !bind_assoc. apply bind_ext; [done|]. intros v2 e4.
    rewrite !bind_assoc. apply bind_ext; [done|]. intros _ e5.
    rewrite !bind_assoc. apply bind_ext; [done|]. intros _ e6. by rewrite bind_ret_l.
  - apply set_prog_ok.
  - apply set_prog_ok.
  - unfold ccat_gpio_get_direction, ioread, do_val. cbn [interp]. rewrite !bind_assoc.
    apply bind_ext; [done|]. intros r e1. by rewrite !bind_ret_l.
  - unfold ccat_gpio_get, ccat_gpio_get_direction, kern_, ioread, do_unit, do_val, get_prog.
    cbn [interp unlock_prog].
    rewrite !bind_assoc. apply bind_ext; [done|]. intros _ e1. rewrite bind_ret_l, !bind_assoc.
    apply bind_ext; [done|]. intros r e2. rewrite !bind_ret_l, !bind_assoc.
    apply bind_ext; [done|]. intros r2 e3. rewrite !bind_ret_l, !bind_assoc.
    apply bind_ext; [done|]. intros _ e4. by rewrite !bind_ret_l.
Qed.

Lemma task_prog_ok ops acc (e : E) :
  interp (task_prog ops acc) e = (rs ← gpio_run gdev ops; mret (acc ++ rs)) e.
Proof.
  revert acc e. induction ops as [|op ops IH]; intros acc e; simpl.
  - by rewrite bind_ret_l, app_nil_r.
  - rewrite interp_bind, bind_assoc. apply bind_ext; [apply rest_prog_ok|]. intros r e1.
    rewrite IH, bind_assoc. apply bind_ext; [done|]. intros rs e2.
    by rewrite bind_ret_l, <- app_assoc.
Qed.

End Denotation.
End Progs.

(** ** Linearization *)

(** A request, by which task, with its result, in the order in which the requests take effect. *)
Abbreviation linearized := (nat * gpio_op * Z)%type.
Definition lin_op (x : linearized) : gpio_op := x.1.2.
Definition lin_result (x : linearized) : Z := x.2.

(** What a linearization says about task [i]. *)
Definition of_task (i : nat) (lin : list linearized) : list (gpio_op * Z) :=
  (fun x => (lin_op x, lin_result x)) <$> filter (fun x => x.1.1 = i) lin.

Lemma of_task_snoc i j op r lin :
  of_task i (lin ++ [(j, op, r)]) = of_task i lin ++ (if decide (j = i) then [(op, r)] else []).
Proof.
  unfold of_task. rewrite filter_app, fmap_app. f_equal.
  destruct (decide (j = i)); [by rewrite filter_cons_True | by rewrite filter_cons_False].
Qed.

Lemma bank_run_snoc ops op b :
  bank_run (ops ++ [op]) b =
    ((bank_step op (bank_run ops b).1).1, (bank_run ops b).2 ++ [(bank_step op (bank_run ops b).1).2]).
Proof.
  revert b. induction ops as [|op' ops IH]; intros b; simpl.
  - by destruct (bank_step op b).
  - destruct (bank_step op' b) as [b1 r]. rewrite IH. by destruct (bank_run ops b1).
Qed.

(** The state of a task: requests done, their results, requests to do, how far the first of
    these has got. *)
Record task := Task { t_done : list gpio_op; t_acc : list Z; t_todo : list gpio_op; t_ph : phase }.

Definition task_code (gdev : ccat_gpio) (s : task) : prog (list Z) :=
  match t_todo s with
  | [] => PRet (t_acc s)
  | op :: ops => pbind (rest_prog gdev op (t_ph s)) (fun r => task_prog gdev ops (t_acc s ++ [r]))
  end.

(** The request that has taken effect but not returned. *)
Definition task_pending (s : task) : list (gpio_op * Z) :=
  match t_todo s, t_ph s with op :: _, Done r => [(op, r)] | _, _ => [] end.

Section Linearizable.
Context {E : Type} `{Env E} {io : Z} `{!GpioRegs E io}.
Context (gdev : ccat_gpio) (Hio : g_ioaddr gdev = io).
Local Abbreviation regs := (gr io).

(** What a task has read is still so. *)
Definition phase_ok (op : gpio_op) (ph : phase) (e : E) : Prop :=
  match ph with
  | Between => True
  | Locked | Done _ => match op with OpGetDirection _ => False | _ => True end
  | Read v =>
      match set_of op, op with
      | Some (o, _, _), _ => v = u32 (regs e o)
      | None, OpGet nr => v = b2z (negb (Z.testbit (regs e 0x8) nr))
      | None, _ => False
      end
  end.

Record task_ok (ops : list gpio_op) (i : nat) (s : task) (lin : list linearized) (e : E) : Prop := {
  ok_ops : ops = t_done s ++ t_todo s;
  ok_acc : length (t_done s) = length (t_acc s);
  ok_lin : of_task i lin = zip (t_done s) (t_acc s) ++ task_pending s;
  ok_phase : match t_todo s with [] => t_ph s = Between | op :: _ => phase_ok op (t_ph s) e end;
}.

(** The invariant: the registers represent the bank after the linearized requests, and the tasks
    are where the linearization says; the one inside the locked region is the holder. *)
Record conc_ok (opss : list (list gpio_op)) (b : bank) (c : conc E (list Z))
    (lin : list linearized) (ss : list task) : Prop := {
  ok_code : c_threads c = task_code gdev <$> ss;
  ok_lines : Forall (Forall (fun op => 0 <= op_line op < 32)) opss;
  ok_tasks : length ss = length opss;
  ok_task : forall i ops s, opss !! i = Some ops -> ss !! i = Some s -> task_ok ops i s lin (c_env c);
  ok_holder : forall i s, ss !! i = Some s -> t_ph s <> Between <-> c_holder c = Some i;
  ok_holder_task : forall j, c_holder c = Some j -> is_Some (ss !! j);
  ok_repr : repr (io := io) (bank_run (lin_op <$> lin) b).1 (c_env c);
  ok_results : Forall2 agrees (lin_result <$> lin) (bank_run (lin_op <$> lin) b).2;
}.

(** Registers the tasks look at have not changed. *)
Definition regs_same (e e' : E) : Prop := forall o, 0 <= o < 0x10 -> regs e' o = regs e o.

Lemma phase_ok_same op ph e e' :
  regs_same e e' -> phase_ok op ph e -> phase_ok op ph e'.
Proof.
  intros Hs. unfold phase_ok. destruct ph as [| |v|r]; try done.
  destruct op as [nr val|nr|nr val|nr|nr]; simpl; rewrite ?Hs by lia; done.
Qed.

Lemma task_ok_same ops i s lin e e' :
  regs_same e e' \/ t_ph s = Between -> task_ok ops i s lin e -> task_ok ops i s lin e'.
Proof.
  intros Hs []. split; try done. destruct (t_todo s) as [|op l]; [done|].
  destruct Hs as [Hs|Hs]; [by eapply phase_ok_same | by rewrite Hs].
Qed.

(** One task moves to [s'], possibly letting its request take effect ([l]); the others stay. *)
Lemma conc_ok_move opss b c lin ss i s ops s' e' h' l :
  conc_ok opss b c lin ss -> ss !! i = Some s -> opss !! i = Some ops ->
  (regs_same (c_env c) e' \/ c_holder c = Some i) ->
  Forall (fun x => x.1.1 = i) l ->
  task_ok ops i s' (lin ++ l) e' ->
  (forall j, j <> i -> c_holder c = Some j <-> h' = Some j) -> (t_ph s' <> Between <-> h' = Some i) ->
  repr (io := io) (bank_run (lin_op <$> (lin ++ l)) b).1 e' ->
  Forall2 agrees (lin_result <$> (lin ++ l)) (bank_run (lin_op <$> (lin ++ l)) b).2 ->
  conc_ok opss b (Conc e' h' (<[i := task_code gdev s']> (c_threads c))) (lin ++ l) (<[i := s']> ss).
Proof.
  intros [] Hs Hops Hregs Hl Hs' Hh Hph Hr Ha. pose proof (lookup_lt_Some _ _ _ Hs) as Hlt.
  split; simpl; auto.
  - by rewrite ok_code0, list_fmap_insert.
  - by rewrite length_insert.
  - intros j ops' x Hj Hx. destruct (decide (j = i)) as [->|Hne].
    { rewrite list_lookup_insert_eq in Hx by done. by simplify_eq. }
    rewrite list_lookup_insert_ne in Hx by done. specialize (ok_task0 j ops' x Hj Hx).
    assert (Hlin : of_task j (lin ++ l) = of_task j lin).
    { unfold of_task. rewrite filter_app, fmap_app.
      assert (filter (fun x : linearized => x.1.1 = j) l = []) as ->; [|by rewrite app_nil_r].
      clear -Hl Hne. induction Hl; [done|]. by rewrite filter_cons_False by congruence. }
    apply (task_ok_same _ _ _ _ (c_env c)).
    + destruct Hregs as [|Hhold]; [by left|]. right. destruct (t_ph x) eqn:Hx'; try done;
      exfalso; assert (c_holder c = Some j) by (apply (ok_holder0 j x Hx); by rewrite Hx'); congruence.
    + destruct ok_task0. split; try done. by rewrite Hlin.
  - intros j x Hx. destruct (decide (j = i)) as [->|Hne].
    { rewrite list_lookup_insert_eq in Hx by done. by simplify_eq. }
    rewrite list_lookup_insert_ne in Hx by done. rewrite ok_holder0 by done. by apply Hh.
  - intros j Hj. destruct (decide (j = i)) as [->|Hne].
    + by rewrite list_lookup_insert_eq by done.
    + rewrite list_lookup_insert_ne by done. by apply ok_holder_task0, Hh.
Qed.

Lemma regs_same_read o (e : E) : 0 <= o < 0x18 -> regs_same e (ext (IoRead W32 (io + o)) e).2.
Proof. intros Ho o' Ho'. by apply gr_read. Qed.

Lemma regs_same_mutex m (e : E) :
  regs_same e (ext (Kernel (MutexLock m)) e).2 /\ regs_same e (ext (Kernel (MutexUnlock m)) e).2.
Proof. split; intros o Ho; by apply gr_lock. Qed.

Lemma repr_regs_same b (e e' : E) : repr (io := io) b e -> regs_same e e' -> repr (io := io) b e'.
Proof. apply repr_same. Qed.

Lemma set_of_line op o nr val :
  set_of op = Some (o, nr, val) ->
  op_line op = nr /\ (o = 0 \/ o = 0x8) /\
  (bank_step op (Bank (fun _ => false) (fun _ => false))).2 = Some 0.
Proof. destruct op; intros; simplify_eq/=; auto. Qed.

(** The write of a changing request makes it take effect. *)
Lemma write_takes_effect op o nr val b (e : E) :
  set_of op = Some (o, nr, val) -> 0 <= nr < 32 -> repr (io := io) b e ->
  repr (io := io) (bank_step op b).1
    (ext (IoWrite W32 (io + o) (u32 (with_bit nr val (u32 (regs e o))))) e).2 /\
  (bank_step op b).2 = Some 0.
Proof.
  intros Hset Hnr Hb. destruct (set_of_line _ _ _ _ Hset) as (_ & Ho & _).
  assert (Hw : forall o', 0 <= o' < 0x10 ->
    regs (ext (IoWrite W32 (io + o) (u32 (with_bit nr val (u32 (regs e o))))) e).2 o' =
    upd (regs e) o (u32 (with_bit nr val (u32 (regs e o)))) o').
  { apply gr_write; [lia | destruct Ho; by subst | apply u32_bound]. }
  destruct op; simplify_eq/=; (split; [|done]);
    [by eapply repr_set | by eapply (repr_dir _ 0) | by eapply (repr_dir _ 1)].
Qed.

Lemma task_prog_between ops acc d : task_prog gdev ops acc = task_code gdev (Task d acc ops Between).
Proof. by destruct ops. Qed.

(** *** The moves of a task *)

Section Moves.
Context (opss : list (list gpio_op)) (b : bank) (e : E) (h : option nat) (ths : list (prog (list Z))).
Context (lin : list linearized) (ss : list task) (Hok : conc_ok opss b (Conc e h ths) lin ss).
Context (i : nat) (d : list gpio_op) (acc : list Z) (op : gpio_op) (todo : list gpio_op).
Context (ops : list gpio_op) (Hops : opss !! i = Some ops).

(** Where task [i] is, and where it goes. *)
Definition at_phase (ph : phase) : Prop := ss !! i = Some (Task d acc (op :: todo) ph).
Definition goes (s : task) (e' : E) (h' : option nat) : Prop :=
  exists lin' ss', conc_ok opss b (Conc e' h' (<[i := task_code gdev s]> ths)) lin' ss'.

Lemma move_op_line ph : at_phase ph -> 0 <= op_line op < 32.
Proof.
  intros Hi. pose proof (ok_lines _ _ _ _ _ Hok) as Hl.
  rewrite Forall_lookup in Hl. specialize (Hl i ops Hops).
  destruct (ok_task _ _ _ _ _ Hok i ops _ Hops Hi) as [Heq _ _ _]. simpl in Heq.
  rewrite Heq, Forall_app, Forall_cons in Hl. tauto.
Qed.

Lemma move_held ph : at_phase ph -> ph <> Between -> h = Some i.
Proof. intros Hi Hph. by apply (ok_holder _ _ _ _ _ Hok i _ Hi). Qed.

(** A step that changes no register and lets nothing take effect. *)
Lemma move_quiet ph s' e' h' :
  at_phase ph -> regs_same e e' ->
  (forall j, j <> i -> h = Some j <-> h' = Some j) -> (t_ph s' <> Between <-> h' = Some i) ->
  task_ok ops i s' lin e' -> goes s' e' h'.
Proof.
  intros Hi He Hh Hph Hs'. exists (lin ++ []), (<[i := s']> ss). rewrite app_nil_r.
  rewrite <- (app_nil_r lin) at 1.
  eapply (conc_ok_move _ _ (Conc e h ths)); try done; rewrite ?app_nil_r; auto.
  - apply (repr_regs_same _ e); [apply (ok_repr _ _ _ _ _ Hok) | done].
  - apply (ok_results _ _ _ _ _ Hok).
Qed.

(** A step with which the request takes effect with the result [r]. *)
Lemma move_effect ph s' e' h' r :
  at_phase ph -> regs_same e e' \/ h = Some i ->
  (forall j, j <> i -> h = Some j <-> h' = Some j) -> (t_ph s' <> Between <-> h' = Some i) ->
  task_ok ops i s' (lin ++ [(i, op, r)]) e' ->
  repr (io := io) (bank_step op (bank_run (lin_op <$> lin) b).1).1 e' ->
  agrees r (bank_step op (bank_run (lin_op <$> lin) b).1).2 -> goes s' e' h'.
Proof.
  intros Hi He Hh Hph Hs' Hr Ha. exists (lin ++ [(i, op, r)]), (<[i := s']> ss).
  eapply (conc_ok_move _ _ (Conc e h ths)); try done; try (by repeat constructor);
    rewrite !fmap_app; simpl fmap; rewrite bank_run_snoc; simpl; [done|].
  apply Forall2_app; [apply (ok_results _ _ _ _ _ Hok) | by repeat constructor].
Qed.

Lemma move_lock :
  at_phase Between -> h = None -> (forall nr, op <> OpGetDirection nr) ->
  goes (Task d acc (op :: todo) Locked) (ext (Kernel (MutexLock (g_lock gdev))) e).2 (Some i).
Proof.
  intros Hi Hh Hop. destruct (ok_task _ _ _ _ _ Hok i ops _ Hops Hi) as [H1 H2 H3 H4]. simpl in *.
  eapply move_quiet; [done | apply regs_same_mutex | | done |].
  - intros j Hj. split; congruence.
  - split; simpl; try done. destruct op; try done. by destruct (Hop nr).
Qed.

Lemma move_unlock r :
  at_phase (Done r) ->
  goes (Task (d ++ [op]) (acc ++ [r]) todo Between) (ext (Kernel (MutexUnlock (g_lock gdev))) e).2 None.
Proof.
  intros Hi. pose proof (move_held _ Hi ltac:(done)) as Hh.
  destruct (ok_task _ _ _ _ _ Hok i ops _ Hops Hi) as [H1 H2 H3 H4]. simpl in *.
  eapply move_quiet; [done | apply regs_same_mutex | | done |].
  - intros j Hj. split; congruence.
  - split; simpl.
    + by rewrite H1, <- app_assoc.
    + rewrite !length_app. simpl. lia.
    + rewrite H3, zip_with_app by done. unfold task_pending. simpl. by destruct todo; rewrite app_nil_r.
    + by destruct todo.
Qed.

(** A read inside the locked region. *)
Lemma move_read o v :
  at_phase Locked -> 0 <= o < 0x18 -> phase_ok op (Read v) (ext (IoRead W32 (io + o)) e).2 ->
  goes (Task d acc (op :: todo) (Read v)) (ext (IoRead W32 (io + o)) e).2 h.
Proof.
  intros Hi Ho Hp. pose proof (move_held _ Hi ltac:(done)) as Hh.
  destruct (ok_task _ _ _ _ _ Hok i ops _ Hops Hi) as [H1 H2 H3 H4]. simpl in *.
  eapply move_quiet; [done | by apply regs_same_read | done | done |]. by split.
Qed.

Lemma move_write o nr val v :
  set_of op = Some (o, nr, val) -> at_phase (Read v) ->
  goes (Task d acc (op :: todo) (Done 0)) (ext (IoWrite W32 (io + o) (u32 (with_bit nr val v))) e).2 h.
Proof.
  intros Hset Hi. pose proof (move_held _ Hi ltac:(done)) as Hh.
  pose proof (move_op_line _ Hi) as Hl. destruct (set_of_line _ _ _ _ Hset) as (Hnr & Ho & _).
  destruct (ok_task _ _ _ _ _ Hok i ops _ Hops Hi) as [H1 H2 H3 H4]. simpl in *.
  rewrite Hset in H4. subst v.
  destruct (write_takes_effect op o nr val (bank_run (lin_op <$> lin) b).1 e Hset) as [Hr Ha];
    [lia | apply (ok_repr _ _ _ _ _ Hok) |].
  eapply (move_effect _ _ _ _ 0); [done | by right | done | done | | done | by rewrite Ha].
  split; simpl; [done | done | | by destruct op].
  rewrite of_task_snoc, decide_True, H3 by done. unfold task_pending. simpl. by rewrite app_nil_r.
Qed.

Lemma move_value nr v o r :
  op = OpGet nr -> at_phase (Read v) -> o = 0x10 * v ->
  r = line_bit nr (u32 (r_val (ext (IoRead W32 (io + o)) e).1)) ->
  goes (Task d acc (op :: todo) (Done r)) (ext (IoRead W32 (io + o)) e).2 h.
Proof.
  intros Hop Hi Ho Hr. pose proof (move_held _ Hi ltac:(done)) as Hh.
  pose proof (move_op_line _ Hi) as Hl. rewrite Hop in Hl. simpl in Hl.
  destruct (ok_task _ _ _ _ _ Hok i ops _ Hops Hi) as [H1 H2 H3 H4]. simpl in *.
  rewrite Hop in H4. simpl in H4. pose proof (ok_repr _ _ _ _ _ Hok nr Hl) as [Hlev Hout]. simpl in *.
  rewrite Hout in H4.
  assert (0 <= o < 0x18) as Hor by (subst o v; destruct (output _ nr); simpl; lia).
  eapply (move_effect _ _ _ _ r); [done | by right | done | done | | |].
  - split; simpl; [done | done | | by rewrite Hop].
    rewrite of_task_snoc, decide_True, H3 by done. unfold task_pending. simpl. by rewrite app_nil_r.
  - rewrite Hop. simpl. eapply repr_regs_same; [apply (ok_repr _ _ _ _ _ Hok) | by apply regs_same_read].
  - rewrite Hop. simpl. destruct (output _ nr); [|done]. simpl in *. subst v o r.
    unfold line_bit. rewrite line_mask, u32_testbit, (proj1 (gr_read e 0 ltac:(lia))) by lia.
    by rewrite Hlev.
Qed.

Lemma move_direction nr r :
  op = OpGetDirection nr -> at_phase Between ->
  r = line_bit nr (u32 (r_val (ext (IoRead W32 (io + 0x8)) e).1)) ->
  goes (Task (d ++ [op]) (acc ++ [r]) todo Between) (ext (IoRead W32 (io + 0x8)) e).2 h.
Proof.
  intros Hop Hi Hr. pose proof (move_op_line _ Hi) as Hl. rewrite Hop in Hl. simpl in Hl.
  destruct (ok_task _ _ _ _ _ Hok i ops _ Hops Hi) as [H1 H2 H3 H4]. simpl in *.
  pose proof (ok_repr _ _ _ _ _ Hok nr Hl) as [Hlev Hout]. simpl in *.
  eapply (move_effect _ _ _ _ r); [done | left; apply regs_same_read; lia | done | | | |].
  - apply (ok_holder _ _ _ _ _ Hok i _ Hi).
  - split; simpl.
    + by rewrite H1, <- app_assoc.
    + rewrite !length_app. simpl. lia.
    + rewrite of_task_snoc, decide_True, H3, zip_with_app by done. unfold task_pending. simpl.
      by destruct todo; rewrite !app_nil_r.
    + by destruct todo.
  - rewrite Hop. simpl. eapply repr_regs_same; [apply (ok_repr _ _ _ _ _ Hok) | apply regs_same_read; lia].
  - rewrite Hop. simpl. subst r. unfold line_bit.
    rewrite line_mask, u32_testbit, (proj1 (gr_read e 0x8 ltac:(lia))) by lia. by rewrite Hout.
Qed.

End Moves.

(** Addresses of the first register words. *)
Lemma dir_addr_low nr : 0 <= nr < 32 -> dir_addr gdev nr = io + 0x8.
Proof. intros Hnr. unfold dir_addr. rewrite Hio, Z.div_small by done. lia. Qed.

Lemma value_addr_low nr v : 0 <= nr < 32 -> g_ioaddr gdev + 4 * (nr / 32) + 0x10 * v = io + 0x10 * v.
Proof. intros Hnr. rewrite Hio, Z.div_small by done. lia. Qed.

Lemma mutex_call_lock m : mutex_call m (Kernel (MutexLock m)) = true.
Proof. unfold mutex_call. by rewrite bool_decide_true. Qed.
Lemma mutex_call_unlock m : mutex_call m (Kernel (MutexUnlock m)) = true.
Proof. unfold mutex_call. rewrite orb_true_iff. right. by rewrite bool_decide_true. Qed.

(** The next call of a task and where it leads, for the three kinds of requests. *)
Definition leads (s : task) (c : call) (next : resp -> task) : Prop :=
  exists k, task_code gdev s = PCall c k /\ forall r, k r = task_code gdev (next r).

Lemma leads_unlock d acc op todo x :
  (forall nr, op <> OpGetDirection nr) ->
  leads (Task d acc (op :: todo) (Done x)) (Kernel (MutexUnlock (g_lock gdev)))
        (fun _ => Task (d ++ [op]) (acc ++ [x]) todo Between).
Proof.
  intros Hop. eexists. split; [destruct op; try reflexivity; by destruct (Hop nr)|].
  intros r. apply task_prog_between.
Qed.

Lemma leads_lock d acc op todo :
  (forall nr, op <> OpGetDirection nr) ->
  leads (Task d acc (op :: todo) Between) (Kernel (MutexLock (g_lock gdev)))
        (fun _ => Task d acc (op :: todo) Locked).
Proof. intros Hop. destruct op; try (by destruct (Hop nr)); eexists; split; reflexivity. Qed.

Lemma leads_set_read d acc op todo o nr val :
  set_of op = Some (o, nr, val) ->
  leads (Task d acc (op :: todo) Locked) (IoRead W32 (io + o))
        (fun r => Task d acc (op :: todo) (Read (u32 (r_val r)))).
Proof. intros Hset. rewrite <- Hio. destruct op; simplify_eq/=; eexists; split; reflexivity. Qed.

Lemma leads_set_write d acc op todo o nr val v :
  set_of op = Some (o, nr, val) -> nr < BITS_PER_LONG ->
  leads (Task d acc (op :: todo) (Read v)) (IoWrite W32 (io + o) (u32 (with_bit nr val v)))
        (fun _ => Task d acc (op :: todo) (Done 0)).
Proof.
  intros Hset Hnr. rewrite <- Hio. unfold leads, task_code, rest_prog. cbn [t_todo t_ph t_acc].
  rewrite Hset. unfold set_prog. rewrite (proj2 (Z.ltb_lt _ _)) by done. eexists. split; reflexivity.
Qed.

Lemma leads_get_dir d acc todo nr :
  0 <= nr < 32 ->
  leads (Task d acc (OpGet nr :: todo) Locked) (IoRead W32 (io + 0x8))
        (fun r => Task d acc (OpGet nr :: todo) (Read (line_bit nr (u32 (r_val r))))).
Proof. intros Hnr. rewrite <- (dir_addr_low nr) by done. eexists. split; reflexivity. Qed.

Lemma leads_get_value d acc todo nr v :
  0 <= nr < 32 ->
  leads (Task d acc (OpGet nr :: todo) (Read v)) (IoRead W32 (io + 0x10 * v))
        (fun r => Task d acc (OpGet nr :: todo) (Done (line_bit nr (u32 (r_val r))))).
Proof. intros Hnr. rewrite <- (value_addr_low nr) by done. eexists. split; reflexivity. Qed.

Lemma leads_direction d acc todo nr ph :
  0 <= nr < 32 ->
  leads (Task d acc (OpGetDirection nr :: todo) ph) (IoRead W32 (io + 0x8))
        (fun r => Task (d ++ [OpGetDirection nr]) (acc ++ [line_bit nr (u32 (r_val r))]) todo Between).
Proof.
  intros Hnr. rewrite <- (dir_addr_low nr) by done. eexists. split; [reflexivity|].
  intros r. apply task_prog_between.
Qed.

(** Thread [i] makes its next call: the three kinds of steps of the machine. *)
Lemma conc_step_cases (c c' : conc E (list Z)) :
  conc_step (g_lock gdev) c c' -> exists i cl k h',
    c_threads c !! i = Some (PCall cl k) /\
    c' = Conc (ext cl (c_env c)).2 h' (<[i := k (ext cl (c_env c)).1]> (c_threads c)) /\
    (cl = Kernel (MutexLock (g_lock gdev)) /\ c_holder c = None /\ h' = Some i \/
     cl = Kernel (MutexUnlock (g_lock gdev)) /\ c_holder c = Some i /\ h' = None \/
     mutex_call (g_lock gdev) cl = false /\ h' = c_holder c).
Proof. intros []; eexists _, _, _, _; (split; [eassumption|]); (split; [reflexivity|]); auto. Qed.

Lemma conc_thread opss b c lin ss i p :
  conc_ok opss b c lin ss -> c_threads c !! i = Some p ->
  exists d acc todo ph ops, ss !! i = Some (Task d acc todo ph) /\
    p = task_code gdev (Task d acc todo ph) /\ opss !! i = Some ops.
Proof.
  intros Hok Hp. rewrite (ok_code _ _ _ _ _ Hok), list_lookup_fmap in Hp.
  apply fmap_Some in Hp as ([d acc todo ph] & Hs & ->).
  destruct (lookup_lt_is_Some_2 opss i) as [ops Hops]; [|by repeat eexists].
  rewrite <- (ok_tasks _ _ _ _ _ Hok). by eapply lookup_lt_Some.
Qed.

(** The next call of a task that has one, by the kind of its request and its phase. *)
Lemma task_leads op d acc todo ph (e : E) :
  0 <= op_line op < 32 -> phase_ok op ph e ->
  exists cl next, leads (Task d acc (op :: todo) ph) cl next /\
    match ph with
    | Between => cl = Kernel (MutexLock (g_lock gdev)) /\ (forall nr, op <> OpGetDirection nr) \/
                 cl = IoRead W32 (io + 0x8) /\ op = OpGetDirection (op_line op)
    | Done _ => cl = Kernel (MutexUnlock (g_lock gdev))
    | _ => mutex_call (g_lock gdev) cl = false
    end.
Proof.
  intros Hl Hph. assert (BITS_PER_LONG = 64) by done.
  destruct op as [nr val|nr|nr val|nr|nr], ph; try done; simpl in Hl;
    first [ by eexists _, _; split; [apply leads_lock|]; auto
          | by eexists _, _; split; [apply leads_unlock|]
          | by eexists _, _; split; [by eapply leads_set_read|]
          | by eexists _, _; split; [eapply leads_set_write; [done | lia]|]
          | by eexists _, _; split; [apply leads_direction|]; auto
          | by eexists _, _; split; [apply leads_get_dir|]
          | by eexists _, _; split; [apply leads_get_value|] ].
Qed.

(** *** A step of the machine is a move of a task *)

Section StepOf.
Context (opss : list (list gpio_op)) (b : bank) (e : E) (h : option nat) (ths : list (prog (list Z))).
Context (lin : list linearized) (ss : list task) (Hok : conc_ok opss b (Conc e h ths) lin ss).
Context (i : nat) (d : list gpio_op) (acc : list Z) (op : gpio_op) (todo ops : list gpio_op) (ph : phase).
Context (Hs : ss !! i = Some (Task d acc (op :: todo) ph)) (Hops : opss !! i = Some ops).
Context (cl : call) (k : resp -> prog (list Z)) (h' : option nat).
Context (Hcode : PCall cl k = task_code gdev (Task d acc (op :: todo) ph)).
Context (Hcl : cl = Kernel (MutexLock (g_lock gdev)) /\ h = None /\ h' = Some i \/
               cl = Kernel (MutexUnlock (g_lock gdev)) /\ h = Some i /\ h' = None \/
               mutex_call (g_lock gdev) cl = false /\ h' = h).

Definition step_moves : Prop :=
  exists lin' ss', conc_ok opss b (Conc (ext cl e).2 h' (<[i := k (ext cl e).1]> ths)) lin' ss'.

Lemma step_leads cl' next :
  leads (Task d acc (op :: todo) ph) cl' next -> cl' = cl /\ forall r, k r = task_code gdev (next r).
Proof. intros (k' & Hk & Hn). rewrite Hk in Hcode. by simplify_eq. Qed.

Lemma step_free : mutex_call (g_lock gdev) cl = false -> h' = h.
Proof.
  intros Hm. destruct Hcl as [(-> & _)|[(-> & _)|[_ ->]]]; [| |done];
    by rewrite ?mutex_call_lock, ?mutex_call_unlock in Hm.
Qed.

Lemma step_locks : cl = Kernel (MutexLock (g_lock gdev)) -> h = None /\ h' = Some i.
Proof.
  intros ->. destruct Hcl as [(_ & -> & ->)|[[] | [Hm _]]]; [done | done |].
  by rewrite mutex_call_lock in Hm.
Qed.

Lemma step_unlocks : cl = Kernel (MutexUnlock (g_lock gdev)) -> h' = None.
Proof.
  intros ->. destruct Hcl as [[]|[(_ & _ & ->) | [Hm _]]]; [done | done |].
  by rewrite mutex_call_unlock in Hm.
Qed.

Lemma step_line : 0 <= op_line op < 32.
Proof. by eapply (move_op_line _ _ _ _ _ _ _ Hok). Qed.

Lemma step_phase : phase_ok op ph e.
Proof. exact (ok_phase _ _ _ _ _ (ok_task _ _ _ _ _ Hok i ops _ Hops Hs)). Qed.

(** Entering and leaving the locked region. *)
Lemma step_enter : ph = Between -> (forall nr, op <> OpGetDirection nr) -> step_moves.
Proof.
  intros Hph Hnd. pose proof step_leads as Hlead. pose proof Hs as Hs'. rewrite Hph in Hlead, Hs'.
  destruct (Hlead _ _ (leads_lock d acc op todo Hnd)) as [Hc Hk].
  destruct (step_locks (eq_sym Hc)) as [Hh Hh']. unfold step_moves. rewrite Hk, Hh', <- Hc.
  by eapply (move_lock _ _ _ _ _ _ _ Hok).
Qed.

Lemma step_leave x : ph = Done x -> (forall nr, op <> OpGetDirection nr) -> step_moves.
Proof.
  intros Hph Hnd. pose proof step_leads as Hlead. pose proof Hs as Hs'. rewrite Hph in Hlead, Hs'.
  destruct (Hlead _ _ (leads_unlock d acc op todo x Hnd)) as [Hc Hk].
  unfold step_moves. rewrite Hk, (step_unlocks (eq_sym Hc)), <- Hc.
  by eapply (move_unlock _ _ _ _ _ _ _ Hok).
Qed.

Lemma phase_cases : ph = Between \/ ph = Locked \/ (exists v, ph = Read v) \/ exists x, ph = Done x.
Proof. destruct ph; eauto. Qed.

Lemma step_set o nr val : set_of op = Some (o, nr, val) -> step_moves.
Proof.
  intros Hset. destruct (set_of_line _ _ _ _ Hset) as (Hnr & Ho & _). pose proof step_line as Hl.
  assert (Hnd : forall nr, op <> OpGetDirection nr) by (intros n Hn; by rewrite Hn in Hset).
  assert (BITS_PER_LONG = 64) by done. pose proof step_leads as Hlead. pose proof Hs as Hs'.
  destruct phase_cases as [Hph|[Hph|[[v Hph]|[x Hph]]]];
    [by apply step_enter | | | by eapply step_leave]; rewrite Hph in Hlead, Hs'.
  - destruct (Hlead _ _ (leads_set_read d acc op todo o nr val Hset)) as [Hc Hk].
    unfold step_moves. rewrite step_free, Hk, <- Hc by by rewrite <- Hc.
    eapply (move_read _ _ _ _ _ _ _ Hok); [done | done | lia |]. simpl. rewrite Hset.
    rewrite (regs_same_read o) by lia. by rewrite (proj1 (gr_read e o ltac:(lia))).
  - destruct (Hlead _ _ (leads_set_write d acc op todo o nr val v Hset ltac:(lia))) as [Hc Hk].
    unfold step_moves. rewrite step_free, Hk, <- Hc by by rewrite <- Hc.
    by eapply (move_write _ _ _ _ _ _ _ Hok).
Qed.

Lemma step_get nr : op = OpGet nr -> step_moves.
Proof.
  intros Hop. pose proof step_line as Hl. pose proof step_leads as Hlead. pose proof Hs as Hs'.
  assert (Hnd : forall nr, op <> OpGetDirection nr) by (intros n Hn; by rewrite Hn in Hop).
  destruct phase_cases as [Hph|[Hph|[[v Hph]|[x Hph]]]];
    [by apply step_enter | | | by eapply step_leave]; rewrite Hop in Hlead, Hl; rewrite Hph in Hlead, Hs';
    simpl in Hl.
  - destruct (Hlead _ _ (leads_get_dir d acc todo nr Hl)) as [Hc Hk].
    unfold step_moves. rewrite step_free, Hk, <- Hc, <- Hop by by rewrite <- Hc.
    eapply (move_read _ _ _ _ _ _ _ Hok); [done | done | lia |]. rewrite Hop. simpl.
    rewrite (regs_same_read 0x8) by lia. unfold line_bit.
    by rewrite line_mask, u32_testbit, (proj1 (gr_read e 0x8 ltac:(lia))) by lia.
  - destruct (Hlead _ _ (leads_get_value d acc todo nr v Hl)) as [Hc Hk].
    unfold step_moves. rewrite step_free, Hk, <- Hc, <- Hop by by rewrite <- Hc.
    by eapply (move_value _ _ _ _ _ _ _ Hok).
Qed.

Lemma step_direction nr : op = OpGetDirection nr -> step_moves.
Proof.
  intros Hop. pose proof step_line as Hl. pose proof step_leads as Hlead. pose proof Hs as Hs'.
  pose proof step_phase as Hp. rewrite Hop in Hlead, Hl, Hp. simpl in Hl.
  destruct phase_cases as [Hph|[Hph|[[v Hph]|[x Hph]]]]; rewrite Hph in Hp, Hlead, Hs'; try done.
  destruct (Hlead _ _ (leads_direction d acc todo nr Between Hl)) as [Hc Hk].
  unfold step_moves. rewrite step_free, Hk, <- Hc, <- Hop by by rewrite <- Hc.
  by eapply (move_direction _ _ _ _ _ _ _ Hok).
Qed.

End StepOf.

Lemma conc_step_ok opss b c c' lin ss :
  conc_ok opss b c lin ss -> conc_step (g_lock gdev) c c' -> exists lin' ss', conc_ok opss b c' lin' ss'.
Proof.
  intros Hok (i & cl & k & h' & Hi & -> & Hcl)%conc_step_cases. destruct c as [e h ths]. simpl in *.
  destruct (conc_thread _ _ _ _ _ _ _ Hok Hi) as (d & acc & [|op todo] & ph & ops & Hs & Hcode & Hops);
    [done|].
  destruct (set_of op) as [[[o nr] val]|] eqn:Hset; [by eapply step_set|].
  destruct op; try done; [by eapply step_direction | by eapply step_get].
Qed.

Lemma conc_start_ok opss b (e : E) :
  Forall (Forall (fun op => 0 <= op_line op < 32)) opss -> repr (io := io) b e ->
  conc_ok opss b (Conc e None (gpio_task gdev <$> opss)) [] ((fun ops => Task [] [] ops Between) <$> opss).
Proof.
  intros Hl Hb. split; simpl; try done.
  - rewrite <- list_fmap_compose. apply list_fmap_ext. intros i ops _. apply task_prog_between.
  - by rewrite length_fmap.
  - intros i ops s Hi Hs. rewrite list_lookup_fmap, Hi in Hs. simplify_eq/=.
    by split; simpl; destruct ops.
  - intros i s Hs. rewrite list_lookup_fmap in Hs. apply fmap_Some in Hs as (ops & _ & ->). by split.
Qed.

Lemma conc_run_ok opss b (e : E) c :
  Forall (Forall (fun op => 0 <= op_line op < 32)) opss -> repr (io := io) b e ->
  rtc (conc_step (g_lock gdev)) (Conc e None (gpio_task gdev <$> opss)) c ->
  exists lin ss, conc_ok opss b c lin ss.
Proof.
  intros Hl Hb Hr. pose proof (conc_start_ok opss b e Hl Hb) as Hok.
  remember [] as lin eqn:Hlin in Hok. clear Hlin. revert lin Hok.
  generalize ((fun ops => Task [] [] ops Between) <$> opss) as ss.
  induction Hr as [c|c c1 c2 Hstep Hr IH]; intros ss lin Hok; [by eauto|].
  destruct (conc_step_ok _ _ _ _ _ _ Hok Hstep) as (lin' & ss' & Hok'). by eapply IH.
Qed.

(** A task that is not done can move, or waits for the one that holds the lock. *)
Lemma conc_progress opss b c lin ss :
  conc_ok opss b c lin ss -> Forall finished (c_threads c) \/ exists c', conc_step (g_lock gdev) c c'.
Proof.
  intros Hok. destruct c as [e h ths].
  assert (Hmove : forall i d acc op todo ph, ss !! i = Some (Task d acc (op :: todo) ph) ->
    h = None \/ ph <> Between -> exists c', conc_step (g_lock gdev) (Conc e h ths) c').
  { intros i d acc op todo ph Hi Hh.
    destruct (lookup_lt_is_Some_2 opss i) as [ops Hops];
      [rewrite <- (ok_tasks _ _ _ _ _ Hok); by eapply lookup_lt_Some|].
    destruct (task_leads op d acc todo ph e) as (cl & next & (k & Hk & _) & Hcl).
    - by eapply (move_op_line _ _ _ _ _ _ _ Hok).
    - exact (ok_phase _ _ _ _ _ (ok_task _ _ _ _ _ Hok i ops _ Hops Hi)).
    - assert (Hth : ths !! i = Some (PCall cl k)).
      { change ths with (c_threads (Conc e h ths)).
        by rewrite (ok_code _ _ _ _ _ Hok), list_lookup_fmap, Hi, <- Hk. }
      assert (Hhold : ph <> Between -> h = Some i) by (intros; by apply (ok_holder _ _ _ _ _ Hok i _ Hi)).
      destruct ph as [| |v|x]; [|by eexists; eapply step_other..|].
      + destruct Hcl as [[-> _]|[-> _]]; [|by eexists; eapply step_other].
        destruct Hh as [->|]; [|done]. eexists. by eapply step_lock.
      + subst cl. rewrite (Hhold ltac:(done)). eexists. by eapply step_unlock. }
  destruct h as [j|].
  - right. destruct (ok_holder_task _ _ _ _ _ Hok j eq_refl) as [[d acc todo ph] Hj].
    pose proof (proj2 (ok_holder _ _ _ _ _ Hok j _ Hj) eq_refl) as Hph. simpl in Hph.
    destruct (lookup_lt_is_Some_2 opss j) as [ops Hops];
      [rewrite <- (ok_tasks _ _ _ _ _ Hok); by eapply lookup_lt_Some|].
    destruct todo as [|op todo]; [|by eapply Hmove; eauto].
    by destruct Hph; exact (ok_phase _ _ _ _ _ (ok_task _ _ _ _ _ Hok j ops _ Hops Hj)).
  - destruct (decide (Forall (fun s => t_todo s = []) ss)) as [Hall|Hsome].
    + left. simpl. change ths with (c_threads (Conc e None ths)). rewrite (ok_code _ _ _ _ _ Hok).
      apply Forall_fmap. eapply Forall_impl; [exact Hall|]. intros s Hs. unfold compose, task_code.
      by rewrite Hs.
    + right. apply not_Forall_Exists in Hsome; [|exact _].
      apply Exists_exists in Hsome as ([d acc [|op todo] ph] & Hin & Ht); [by destruct Ht|].
      apply list_elem_of_lookup_1 in Hin as [i Hi]. by eapply Hmove; eauto.
Qed.

(** What the linearization says of a task. *)
Lemma task_served opss b c lin ss i ops :
  conc_ok opss b c lin ss -> opss !! i = Some ops ->
  (of_task i lin).*1 `prefix_of` ops /\
  forall rs, c_threads c !! i = Some (PRet rs) -> of_task i lin = zip ops rs /\ length rs = length ops.
Proof.
  intros Hok Hi. destruct (lookup_lt_is_Some_2 ss i) as [[d acc todo ph] Hs];
    [rewrite (ok_tasks _ _ _ _ _ Hok); by eapply lookup_lt_Some|].
  destruct (ok_task _ _ _ _ _ Hok i ops _ Hi Hs) as [H1 H2 H3 H4]. simpl in *. split.
  - rewrite H3, H1, fmap_app, fst_zip by lia. unfold task_pending. simpl.
    destruct todo as [|op todo]; [reflexivity|]. apply prefix_app.
    destruct ph; simpl; [apply prefix_nil.. |]. apply prefix_cons, prefix_nil.
  - intros rs Hrs. destruct todo as [|op todo].
    + rewrite (ok_code _ _ _ _ _ Hok), list_lookup_fmap, Hs in Hrs. injection Hrs as <-.
      rewrite H3, H1. unfold task_pending. simpl. rewrite !app_nil_r. split; [done | lia].
    + exfalso. destruct (task_leads op d acc todo ph (c_env c)) as (cl & next & (k & Hk & _) & _); [|done|].
      * by eapply (move_op_line _ _ (c_env c) (c_holder c) (c_threads c)); [destruct c | |].
      * rewrite (ok_code _ _ _ _ _ Hok), list_lookup_fmap, Hs in Hrs. simpl in Hrs. by rewrite Hk in Hrs.
Qed.

(** C6: any number of tasks use a chip at once, each with its own sequence of requests on the
    first 32 lines, in any interleaving of their register accesses.  At every point there is an
    order of the requests that have taken effect, containing each task's requests in its own
    order, such that the registers are those of the abstract bank after these requests and every
    result that does not depend on a pin is the bank's; a task that has returned has had exactly
    its requests served with exactly its results.  No update of these lines is lost, and the tasks never
    deadlock.  Each task is the driver's code: run alone, its tree of calls is the
    sequence of driver functions. *)
Theorem ccat_gpio_linearizable opss b (e : E) c :
  Forall (Forall (fun op => 0 <= op_line op < 32)) opss -> repr (io := io) b e ->
  rtc (conc_step (g_lock gdev)) (Conc e None (gpio_task gdev <$> opss)) c ->
  (forall ops (e1 : E), interp (gpio_task gdev ops) e1 = gpio_run gdev ops e1) /\
  (exists lin : list linearized,
     repr (io := io) (bank_run (lin_op <$> lin) b).1 (c_env c) /\
     Forall2 agrees (lin_result <$> lin) (bank_run (lin_op <$> lin) b).2 /\
     forall i ops, opss !! i = Some ops ->
       (of_task i lin).*1 `prefix_of` ops /\
       forall rs, c_threads c !! i = Some (PRet rs) -> of_task i lin = zip ops rs /\ length rs = length ops) /\
  (Forall finished (c_threads c) \/ exists c', conc_step (g_lock gdev) c c').
Proof.
  intros Hl Hb Hr. destruct (conc_run_ok opss b e c Hl Hb Hr) as (lin & ss & Hok). split_and!.
  - intros ops e1. unfold gpio_task. rewrite task_prog_ok. apply bind_ret_r.
  - exists lin. split_and!; [apply (ok_repr _ _ _ _ _ Hok) | apply (ok_results _ _ _ _ _ Hok) |].
    intros i ops Hi. by eapply task_served.
  - by eapply conc_progress.
Qed.

End Linearizable.

(** ** Witness: two tasks, the second reading a direction while the first holds the lock *)

Definition two_tasks : list (list gpio_op) := [[OpSet 3 1]; [OpGetDirection 3; OpSet 5 1]].

Lemma ccat_gpio_linearizable_witness :
  exists c : conc (Z -> Z) (list Z),
    rtc (conc_step (H := reg_env 4096) 512) (Conc gpio_off None (gpio_task gpio_dev <$> two_tasks)) c /\
    c_threads c = [PRet [0]; PRet [1; 0]] /\
    exists lin, of_task 0 lin = [(OpSet 3 1, 0)] /\ of_task 1 lin = [(OpGetDirection 3, 1); (OpSet 5 1, 0)].
Proof.
  assert (exists c, rtc (conc_step (H := reg_env 4096) 512)
      (Conc gpio_off None (gpio_task gpio_dev <$> two_tasks)) c /\
    c_threads c = [PRet [0]; PRet [1; 0]]) as (c & Hr & Hc).
  { eexists. split.
    - eapply rtc_l; [by eapply (step_lock (H := reg_env 4096) 512 0)|].
      eapply rtc_l; [by eapply (step_other (H := reg_env 4096) 512 0)|].
      eapply rtc_l; [by eapply (step_other (H := reg_env 4096) 512 1)|].
      eapply rtc_l; [by eapply (step_other (H := reg_env 4096) 512 0)|].
      eapply rtc_l; [by eapply (step_unlock (H := reg_env 4096) 512 0)|].
      eapply rtc_l; [by eapply (step_lock (H := reg_env 4096) 512 1)|].
      eapply rtc_l; [by eapply (step_other (H := reg_env 4096) 512 1)|].
      eapply rtc_l; [by eapply (step_other (H := reg_env 4096) 512 1)|].
      eapply rtc_l; [by eapply (step_unlock (H := reg_env 4096) 512 1)|]. apply rtc_refl.
    - reflexivity. }
  exists c. split; [exact Hr|]. split; [exact Hc|].
  destruct (ccat_gpio_linearizable (H := reg_env 4096) gpio_dev eq_refl two_tasks bank_off gpio_off c)
    as (_ & (lin & _ & _ & Hlin) & _);
    [repeat constructor; simpl; lia | by intros i Hi; rewrite !Z.testbit_0_l | exact Hr |].
  exists lin. split.
  - destruct (Hlin 0%nat _ eq_refl) as [_ Hrs]. destruct (Hrs [0]) as [-> _]; [by rewrite Hc | done].
  - destruct (Hlin 1%nat _ eq_refl) as [_ Hrs]. destruct (Hrs [1; 0]) as [-> _]; [by rewrite Hc | done].
Defined.
