(* ===== verification/Systemtime.v ===== *)
(** * The system time driver (systemtime.c)

    A clock source over the 64-bit nanosecond counter of the FPGA. *)

From S2P Require Import Prelude IO Info.

Definition CCAT_SYSTEMTIME_RATING : Z := 140.
Definition NSEC_PER_SEC : Z := 1000000000.
Definition CLOCK_SOURCE_IS_CONTINUOUS : Z := 1.

(** [CLOCKSOURCE_MASK(bits)] of the kernel. *)
Definition CLOCKSOURCE_MASK (bits : Z) : Z := Z.ones bits.

(** The fields of [struct clocksource] the driver fills in; [name] is the pointer
    [devm_kasprintf] returned. *)
Record clocksource := Clock {
  clk_name : Z;
  clk_rating : Z;
  clk_mask : Z;
  clk_mult : Z;
  clk_shift : Z;
  clk_flags : Z;
}.

(** [struct ccat_systemtime] *)
Record ccat_systemtime := Systemtime { st_ioaddr : Z; clock : clocksource }.

Section Operations.
Context {E : Type} `{Env E}.

Definition ccat_systemtime_get (s : ccat_systemtime) : M E Z := ioread W64 (st_ioaddr s).

(** [cnt] is the static counter of the probe, returned incremented; [size] is
    [sizeof(struct ccat_systemtime)].  The last component is [func->private_data]. *)
Definition ccat_systemtime_probe (size : Z) (func : ccat_function) (cnt : Z)
  : M E (Z * Z * option ccat_systemtime) :=
  p ← kern (DevmKzalloc size);
  if p =? 0 then mret (- ENOMEM, cnt, None)
  else
    name ← kern (DevmKasprintf "ccat%d" cnt);
    let systemtime := Systemtime (func_base func)
      (Clock name CCAT_SYSTEMTIME_RATING (CLOCKSOURCE_MASK 32) 1 0 CLOCK_SOURCE_IS_CONTINUOUS) in
    r ← kern (ClocksourceRegisterHz (st_ioaddr systemtime) NSEC_PER_SEC);
    mret (r, cnt + 1, Some systemtime).

Definition ccat_systemtime_remove (s : ccat_systemtime) : M E unit :=
  kern_ (ClocksourceUnregister (st_ioaddr s)).

(** A probed clock source reads the 64-bit register of its function and is registered at 10^9 cycles
    per second.  Without memory there is no clock and the number is not used up; every other probe
    numbers its clock, also when the registration fails. *)
Lemma ccat_systemtime_probe_result size func cnt (e : E) :
  wp (ccat_systemtime_probe size func cnt) e (fun '(r, cnt', s) t _ =>
    match s with
    | None => r = - ENOMEM /\ cnt' = cnt /\ calls t = [Kernel (DevmKzalloc size)]
    | Some s => cnt' = cnt + 1 /\
        calls t = [Kernel (DevmKzalloc size); Kernel (DevmKasprintf "ccat%d" cnt);
                   Kernel (ClocksourceRegisterHz (func_base func) NSEC_PER_SEC)] /\
        forall e', wp (ccat_systemtime_get s) e' (fun v t' _ =>
          0 <= v < 2 ^ 64 /\ calls t' = [IoRead W64 (func_base func)])
    end).
Proof.
  unfold ccat_systemtime_probe. wp_run. destruct (_ =? 0); wp_run; [done|]. split_and!; [done | done |].
  intros e'. unfold ccat_systemtime_get. wp_run. simpl. split; [|done]. apply Z.mod_pos_bound. lia.
Qed.

End Operations.
