(* ===== verification/Core.v ===== *)
(** * The core driver (module.c): finding the functions of a CCAT

    The PCI and the memory-mapped (EIM) front ends acquire the device's resources and then scan
    the table of information blocks at the start of BAR 0 ([ccat_functions_init]), creating one
    sub-device per function with a driver ([ccat_function_connect]).  Sections: the operations,
    the table scan against a reference reading of the table, and the resources of the two front
    ends. *)

From S2P Require Import Prelude IO Info.

(** ** Operations *)

(** [ccat_cells[]]: type and name of the sub-device of each function, in the order of the table. *)
Definition ccat_cells : list (ccat_info_t * string) :=
  [(CCATINFO_ETHERCAT_NODMA, "ccat_eth_eim"%string);
   (CCATINFO_ETHERCAT_MASTER_DMA, "ccat_eth_dma"%string);
   (CCATINFO_GPIO, "ccat_gpio"%string);
   (CCATINFO_EPCS_PROM, "ccat_update"%string);
   (CCATINFO_SRAM, "ccat_sram"%string);
   (CCATINFO_SYSTEMTIME, "ccat_systemtime"%string)].

(** [sizeof(struct ccat_function)], [sizeof(struct ccat_device)] *)
Definition sizeof_function : Z := 32.
Definition sizeof_device : Z := 32.

Definition CCAT_EIM_ADDR : Z := 0xf0000000.
Definition CCAT_EIM_LEN : Z := 0x02000000.

Section Operations.
Context {E : Type} `{Env E}.

(** The sub-device gets the function record as its platform data, of which the information block
    is shown in the call. *)
Fixpoint function_connect_from (cells : list (ccat_info_t * string)) (func : ccat_function)
    (ccatdev : ccat_device) : M E Z :=
  match cells with
  | [] => mret 0
  | (type, name) :: cells' =>
      if i_type (f_info func) =? info_code type
      then kern (MfdAddDevices (d_dev ccatdev) name (bytes_of_info (f_info func)))
      else function_connect_from cells' func ccatdev
  end.

Definition ccat_function_connect (func : ccat_function) (ccatdev : ccat_device) : M E Z :=
  function_connect_from ccat_cells func ccatdev.

(** The loop over [n] blocks from [addr]; [next] is the record for the next function, 0 when the
    allocation failed.  The result is the return value of [ccat_functions_init]. *)
Fixpoint functions_loop (ccatdev : ccat_device) (n : nat) (addr next : Z) : M E Z :=
  match n with
  | O => kern_ (Kfree next) ;; mret 0
  | S n' =>
      if next =? 0 then kern_ (Kfree next) ;; mret 0
      else
        bytes ← ioread_bytes addr (Z.to_nat sizeof_info_block);
        let info := info_of_bytes bytes in
        if negb (info_code CCATINFO_NOTUSED =? i_type info)
        then
          ret ← ccat_function_connect (Function_ ccatdev info) ccatdev;
          if ret <? 0 then mret ret
          else
            next ← kern (Kzalloc sizeof_function);
            functions_loop ccatdev n' (addr + sizeof_info_block) next
        else functions_loop ccatdev n' (addr + sizeof_info_block) next
  end.

(** The date of the FPGA configuration is read for a message only. *)
Definition ccat_functions_init (ccatdev : ccat_device) : M E Z :=
  next ← kern (Kzalloc sizeof_function);
  let addr := bar_0 ccatdev in
  num_func ← ioread W8 (addr + 4);
  _ ← ioread W8 (addr + 7);
  _ ← ioread W8 (addr + 6);
  _ ← ioread W8 (addr + 5);
  functions_loop ccatdev (Z.to_nat num_func) addr next.

(** The front ends return their status and the driver data of the device ([None] is NULL).
    [dev] stands for [&pdev->dev], which is the address of the PCI or platform device here. *)

(** The labels [disable_device:] and [release_regions:] of [ccat_pci_probe]. *)
Definition pci_disable_device (pdev : Z) (ccatdev : ccat_device) (status : Z)
  : M E (Z * option ccat_device) :=
  kern_ (PciDisableDevice pdev) ;;
  mret (status, Some ccatdev).

Definition pci_release_regions (pdev : Z) (ccatdev : ccat_device) (status : Z)
  : M E (Z * option ccat_device) :=
  kern_ (PciReleaseRegions pdev) ;;
  pci_disable_device pdev ccatdev status.

(** [ccat_pci_probe] from the mapping of the BARs on, when DMA is available. *)
Definition pci_map_and_init (pdev : Z) (ccatdev : ccat_device) : M E (Z * option ccat_device) :=
  bar0 ← kern (PciIomap pdev 0);
  if bar0 =? 0 then pci_release_regions pdev ccatdev (- EIO)
  else
    bar2 ← kern (PciIomap pdev 2);
    let ccatdev := Device pdev pdev bar0 bar2 in
    kern_ (PciSetMaster pdev) ;;
    _ ← ccat_functions_init ccatdev;
    mret (0, Some ccatdev).

Definition ccat_pci_probe (pdev : Z) : M E (Z * option ccat_device) :=
  p ← kern (DevmKzalloc sizeof_device);
  if p =? 0 then mret (- ENOMEM, None)
  else
    let ccatdev := Device pdev pdev 0 0 in
    status ← kern (PciEnableDeviceMem pdev);
    if istrue status then mret (status, Some ccatdev)
    else
      status ← kern (PciReadRevision pdev);
      if istrue status then pci_disable_device pdev ccatdev status
      else
        status ← kern (PciRequestRegions pdev);
        if istrue status then pci_disable_device pdev ccatdev status
        else
          status ← kern (DmaSetMaskAndCoherent pdev 64);
          if istrue status
          then
            status ← kern (DmaSetMaskAndCoherent pdev 32);
            if istrue status then pci_release_regions pdev ccatdev status
            else pci_map_and_init pdev ccatdev
          else pci_map_and_init pdev ccatdev.

Definition ccat_pci_remove (pdev : Z) (drvdata : option ccat_device) : M E unit :=
  match drvdata with
  | None => mret tt
  | Some ccatdev =>
      kern_ (MfdRemoveDevices (d_dev ccatdev)) ;;
      (if istrue (bar_2 ccatdev) then kern_ (PciIounmap pdev (bar_2 ccatdev)) else mret tt) ;;
      kern_ (PciIounmap pdev (bar_0 ccatdev)) ;;
      kern_ (PciReleaseRegions pdev) ;;
      kern_ (PciDisableDevice pdev)
  end.

Definition ccat_eim_probe (pdev : Z) : M E (Z * option ccat_device) :=
  p ← kern (DevmKzalloc sizeof_device);
  if p =? 0 then mret (- ENOMEM, None)
  else
    let ccatdev := Device pdev pdev 0 0 in
    r ← kern (RequestMemRegion CCAT_EIM_ADDR CCAT_EIM_LEN);
    if r =? 0 then mret (- EIO, Some ccatdev)
    else
      bar0 ← kern (Ioremap CCAT_EIM_ADDR CCAT_EIM_LEN);
      if bar0 =? 0 then mret (- EIO, Some ccatdev)
      else
        let ccatdev := Device pdev pdev bar0 0 in
        _ ← ccat_functions_init ccatdev;
        mret (0, Some ccatdev).

Definition ccat_eim_remove (pdev : Z) (drvdata : option ccat_device) : M E Z :=
  match drvdata with
  | None => mret 0
  | Some ccatdev =>
      kern_ (MfdRemoveDevices (d_dev ccatdev)) ;;
      kern_ (Iounmap (bar_0 ccatdev)) ;;
      kern_ (ReleaseMemRegion CCAT_EIM_ADDR CCAT_EIM_LEN) ;;
      mret 0
  end.

End Operations.

(** ** The table of functions

    The reference: block [i] of a table, and the sub-devices the first [n] blocks ask for. *)

Definition block (rom : Z -> Z) (i : nat) : list Z := fslice rom (16 * Z.of_nat i) 16.

Definition cell_name (type : Z) : option string :=
  snd <$> head (filter (fun c => info_code c.1 = type) ccat_cells).

Definition block_type (bytes : list Z) : Z := i_type (info_of_bytes bytes).

Definition wanted (bytes : list Z) : option (string * list Z) :=
  (fun name => (name, bytes)) <$> cell_name (block_type bytes).

Definition blocks (rom : Z -> Z) (n : nat) : list (list Z) := block rom <$> seq 0 n.

(** The sub-devices a run asks the kernel for, with the answers; the records it allocated and
    freed. *)
Definition subdevices (t : list event) : list (string * list Z) :=
  omap (fun ev => match ev_call ev with
                  | Kernel (MfdAddDevices _ name l) => Some (name, l) | _ => None end) t.
Definition answers (t : list event) : list Z :=
  omap (fun ev => match ev_call ev with
                  | Kernel (MfdAddDevices _ _ _) => Some (r_val (ev_resp ev)) | _ => None end) t.
Definition allocated (t : list event) : list Z :=
  omap (fun ev => match ev_call ev with
                  | Kernel (Kzalloc _) => if r_val (ev_resp ev) =? 0 then None else Some (r_val (ev_resp ev))
                  | _ => None end) t.
Definition freed (t : list event) : list Z :=
  omap (fun ev => match ev_call ev with
                  | Kernel (Kfree p) => if p =? 0 then None else Some p | _ => None end) t.

(** The table is read-only memory at the start of BAR 0. *)
Class InfoRom (E : Type) `{Env E} (io : Z) (rom : Z -> Z) := {
  rom_byte : forall a, is_byte (rom a);
  rom_read : forall (e : E) a, 0 <= a < 4096 -> u8 (r_val (ext (IoRead W8 (io + a)) e).1) = rom a;
}.

(** Events that none of the four projections shows. *)
Definition silent (c : call) : Prop :=
  match c with Kernel (MfdAddDevices _ _ _) | Kernel (Kzalloc _) | Kernel (Kfree _) => False | _ => True end.

Lemma silent_none t :
  Forall silent (calls t) -> subdevices t = [] /\ answers t = [] /\ allocated t = [] /\ freed t = [].
Proof.
  unfold calls. induction t as [|[c r] t IH]; [done|]. intros [Hc Ht]%Forall_cons.
  destruct (IH Ht) as (H1 & H2 & H3 & H4).
  destruct c as [| | | | |[]]; try done; exact (conj H1 (conj H2 (conj H3 H4))).
Qed.

Lemma subdevices_app t t' : subdevices (t ++ t') = subdevices t ++ subdevices t'.
Proof. apply omap_app. Qed.
Lemma answers_app t t' : answers (t ++ t') = answers t ++ answers t'.
Proof. apply omap_app. Qed.
Lemma allocated_app t t' : allocated (t ++ t') = allocated t ++ allocated t'.
Proof. apply omap_app. Qed.
Lemma freed_app t t' : freed (t ++ t') = freed t ++ freed t'.
Proof. apply omap_app. Qed.

#[export] Hint Rewrite subdevices_app answers_app allocated_app freed_app : ccat.

Section Scan.
Context {E : Type} `{Env E} {io : Z} {rom : Z -> Z} `{!InfoRom E io rom}.

Lemma ioread_bytes_rom n a (e : E) :
  0 <= a -> a + Z.of_nat n <= 4096 ->
  wp (ioread_bytes (io + a) n) e (fun l t _ => l = fslice rom a n /\ Forall silent (calls t)).
Proof.
  revert a e. induction n as [|n IH]; intros a e Ha Hn; simpl; wp_run; [done|].
  rewrite <- Z.add_assoc. eapply wp_conseq; [apply IH; lia|]. intros l t e' [-> Ht]. wp_run.
  untrunc. rewrite rom_read by lia. split; [done|]. simpl. rewrite app_nil_r. by constructor.
Qed.

Lemma block_bytes i : length (block rom i) = 16%nat /\ Forall is_byte (block rom i).
Proof.
  split; [apply length_fslice|]. apply Forall_lookup_2. intros j x Hj.
  assert (Hlt : (j < 16)%nat) by (apply lookup_lt_Some in Hj; unfold block in Hj; by rewrite length_fslice in Hj).
  unfold block in Hj. rewrite lookup_fslice in Hj by done. injection Hj as <-. apply rom_byte.
Qed.

(** The lookup in the table of cells: at most one request, for the right sub-device. *)
Lemma connect_spec func d (e : E) :
  wp (ccat_function_connect func d) e (fun r t _ =>
    match cell_name (i_type (f_info func)) with
    | Some name => calls t = [Kernel (MfdAddDevices (d_dev d) name (bytes_of_info (f_info func)))] /\
        answers t = [r]
    | None => r = 0 /\ t = []
    end).
Proof.
  unfold ccat_function_connect, cell_name, ccat_cells. cbn [function_connect_from].
  repeat match goal with |- context [i_type (f_info func) =? ?c] =>
    destruct (Z.eqb_spec (i_type (f_info func)) c) as [->|?] end; wp_run; try done.
  by rewrite !filter_cons_False by (simpl in *; congruence).
Qed.

(** The blocks from [i] on. *)
Definition blocks_from (i k : nat) : list (list Z) := block rom <$> seq i k.
Definition used (bytes : list Z) : Prop := block_type bytes <> info_code CCATINFO_NOTUSED.
Definition n_used (l : list (list Z)) : nat := length (filter used l).

Definition alloc_failed (t : list event) : Prop :=
  exists ev, ev ∈ t /\ ev_call ev = Kernel (Kzalloc sizeof_function) /\ r_val (ev_resp ev) = 0.
Definition record_of (p : Z) : nat := if p =? 0 then 0 else 1.

(** What a scan that starts with record [next] and ends in [r] after [k] of [n] blocks from [i]
    did: which sub-devices it asked for, why it stopped, and where the records went. *)
Definition scanned (next : Z) (i k n : nat) (r : Z) (t : list event) : Prop :=
  (k <= n)%nat /\
  subdevices t = omap wanted (blocks_from i k) /\
  (record_of next + length (allocated t) = n_used (blocks_from i k) + length (freed t))%nat /\
  (r = 0 /\ Forall (fun a => 0 <= a) (answers t) /\ (k = n \/ next = 0 \/ alloc_failed t) \/
   r < 0 /\ freed t = [] /\ exists l, answers t = l ++ [r] /\ Forall (fun a => 0 <= a) l).

Lemma unused_unwanted bytes : ~ used bytes -> wanted bytes = None.
Proof.
  unfold used, wanted. intros Hu. destruct (Z.eq_dec (block_type bytes) (info_code CCATINFO_NOTUSED)) as [->|];
    [done | tauto].
Qed.

Lemma blocks_from_S i k : blocks_from i (S k) = block rom i :: blocks_from (S i) k.
Proof. done. Qed.

Lemma alloc_failed_app t1 t : alloc_failed t -> alloc_failed (t1 ++ t).
Proof. intros (ev & Hin & Hev). exists ev. split; [|done]. apply elem_of_app. by right. Qed.

(** One more block in front of a scan: an unused one, and one that got its sub-device (if any)
    and a new record [next']. *)
Lemma scanned_skip next i k n r t1 t :
  ~ used (block rom i) -> Forall silent (calls t1) ->
  scanned next (S i) k n r t -> scanned next i (S k) (S n) r (t1 ++ t).
Proof.
  intros Hu Ht1 (Hk & Hs & Hrec & Hend). destruct (silent_none t1 Ht1) as (H1 & H2 & H3 & H4).
  unfold scanned. autorewrite with ccat. rewrite H1, H2, H3, H4. simpl app.
  rewrite blocks_from_S. simpl omap. rewrite (unused_unwanted _ Hu).
  unfold n_used in *. rewrite filter_cons_False by done. split_and!; [lia | done | done |].
  destruct Hend as [(-> & Ha & Hw)|Hend]; [left|by right].
  split_and!; [done..|]. destruct Hw as [->|[->|Hf]]; eauto using alloc_failed_app.
Qed.

Lemma scanned_more next next' i k n r t1 t2 e2 t :
  used (block rom i) -> next <> 0 ->
  subdevices t1 = omap wanted [block rom i] -> allocated t1 = [] -> freed t1 = [] ->
  Forall (fun a => 0 <= a) (answers t1) ->
  t2 = [Ev (Kernel (Kzalloc sizeof_function)) e2] -> r_val e2 = next' ->
  scanned next' (S i) k n r t -> scanned next i (S k) (S n) r (t1 ++ t2 ++ t).
Proof.
  intros Hu Hn Hs1 Ha1 Hf1 Hans1 -> Hr (Hk & Hs & Hrec & Hend).
  unfold scanned. autorewrite with ccat. rewrite Hs1, Ha1, Hf1.
  rewrite blocks_from_S. unfold n_used in *. rewrite filter_cons_True by done.
  simpl subdevices. simpl answers. simpl freed. simpl app.
  split_and!; [lia | | |].
  - rewrite Hs. simpl. by destruct (wanted (block rom i)).
  - unfold record_of in *. rewrite (proj2 (Z.eqb_neq next 0)) by done. simpl.
    rewrite Hr. destruct (next' =? 0); simpl in *; lia.
  - destruct Hend as [(-> & Ha & Hw)|(Hr0 & Hfr & l & Hl & Ha)].
    + left. split_and!; [done | by apply Forall_app | ].
      destruct Hw as [->|[->|Hf]]; [by left | right; right | right; right].
      * eexists. split; [apply elem_of_app; right; apply elem_of_cons; by left|]. done.
      * by apply alloc_failed_app, (alloc_failed_app [_]).
    + right. split_and!; [done..|]. exists (answers t1 ++ l). rewrite Hl, <- app_assoc.
      split; [done | by apply Forall_app].
Qed.

(** Connecting the function of block [i]. *)
Lemma connect_block d i (e : E) :
  wp (ccat_function_connect (Function_ d (info_of_bytes (block rom i))) d) e (fun r t _ =>
    subdevices t = omap wanted [block rom i] /\ allocated t = [] /\ freed t = [] /\
    (answers t = [r] \/ r = 0 /\ answers t = [])).
Proof.
  eapply wp_conseq; [apply connect_spec|]. simpl. intros r t e'.
  destruct (block_bytes i) as [Hlen Hb]. rewrite bytes_info_roundtrip by done.
  unfold wanted, block_type. destruct (cell_name _) as [name|]; [|by intros [-> ->]; auto 6].
  intros [Ht Ha]. destruct t as [|[c v] [|]]; simplify_eq/=. auto.
Qed.

Lemma stop_scanned next i n r0 :
  n = 0%nat \/ next = 0 ->
  scanned next i 0 n 0 [Ev (Kernel (Kfree next)) r0].
Proof.
  intros Hn. unfold scanned, record_of. simpl.
  split_and!; [lia | done | by destruct (next =? 0) |]. left. split_and!; [done..|].
  destruct Hn; auto.
Qed.

Lemma functions_loop_spec d n i next (e : E) :
  (i + n <= 256)%nat ->
  wp (functions_loop d n (io + 16 * Z.of_nat i) next) e (fun r t _ =>
    exists k, scanned next i k n r t).
Proof.
  revert i next e. induction n as [|n IH]; intros i next e Hi; cbn [functions_loop].
  { wp_run. exists 0%nat. apply stop_scanned. by left. }
  destruct (Z.eqb_spec next 0) as [->|Hn].
  { wp_run. exists 0%nat. apply stop_scanned. by right. }
  wp_run. eapply wp_conseq; [apply ioread_bytes_rom; unfold sizeof_info_block; lia|]. intros l t0 e0 [-> Ht0].
  change (fslice rom (16 * Z.of_nat i) _) with (block rom i).
  replace (io + 16 * Z.of_nat i + sizeof_info_block) with (io + 16 * Z.of_nat (S i))
    by (unfold sizeof_info_block; lia).
  change (info_code CCATINFO_NOTUSED) with 0.
  destruct (Z.eqb_spec 0 (i_type (info_of_bytes (block rom i)))) as [Hz|Hz]; cbn [negb].
  { eapply wp_conseq; [apply IH; lia|]. intros r t e' [k Hk]. exists (S k).
    apply scanned_skip; [intros Hu; by apply Hu | done..]. }
  assert (Hu : used (block rom i)) by (intros Hu; by apply Hz).
  wp_run. eapply wp_conseq; [apply connect_block|].
  intros ret t1 e1 (Hs1 & Ha1 & Hf1 & Hans). destruct (silent_none t0 Ht0) as (S1 & S2 & S3 & S4).
  destruct (Z.ltb_spec ret 0); wp_run.
  - exists 1%nat. unfold scanned. autorewrite with ccat. rewrite S1, S2, S3, S4, Hs1, Ha1, Hf1.
    destruct Hans as [->|[-> ?]]; [|lia]. unfold n_used. rewrite blocks_from_S, filter_cons_True by done.
    unfold record_of. rewrite (proj2 (Z.eqb_neq next 0)) by done. simpl.
    split_and!; [lia | by destruct (wanted _) | done |]. right. split_and!; [done..|]. by exists [].
  - eapply wp_conseq; [apply IH; lia|]. intros r t e' [k Hk]. exists (S k). rewrite app_assoc.
    eapply scanned_more; try done; autorewrite with ccat; rewrite ?S1, ?S2, ?S3, ?S4; try done.
    destruct Hans as [->|[-> ->]]; [by constructor | constructor].
Qed.

(** What the whole scan did, [k] blocks of which were served. *)
Definition init_scanned (k : nat) (r : Z) (t : list event) : Prop :=
  (k <= Z.to_nat (rom 4))%nat /\
  subdevices t = omap wanted (block rom <$> seq 0 k) /\
  length (allocated t) = (n_used (block rom <$> seq 0 k) + length (freed t))%nat /\
  (r = 0 /\ Forall (fun a => 0 <= a) (answers t) /\
     (k = Z.to_nat (rom 4) \/ alloc_failed t) \/
   r < 0 /\ freed t = [] /\ exists l, answers t = l ++ [r] /\ Forall (fun a => 0 <= a) l).

Lemma functions_init_spec d (e : E) :
  bar_0 d = io -> wp (ccat_functions_init d) e (fun r t _ => exists k, init_scanned k r t).
Proof.
  intros Hio. unfold ccat_functions_init. rewrite Hio. wp_run. untrunc.
  set (e1 := (ext (Kernel (Kzalloc sizeof_function)) e).2). rewrite (rom_read e1 4) by lia.
  pose proof (rom_byte 4) as Hb. unfold is_byte in Hb.
  rewrite <- (Z.add_0_r io) at 1. eapply wp_conseq; [apply (functions_loop_spec d _ 0); lia|].
  intros r t e' [k (Hk & Hs & Hrec & Hend)]. exists k. autorewrite with ccat.
  split_and!; [done | done | |].
  - unfold record_of, n_used, blocks_from in *. simpl. destruct (_ =? 0); simpl in *; lia.
  - destruct Hend as [(-> & Ha & Hw)|Hend]; [left|by right]. split_and!; [done..|].
    destruct Hw as [->|[Hz|Hf]]; [by left | right | right].
    + eexists. split; [apply elem_of_cons; by left|]. done.
    + by apply (alloc_failed_app [_; _; _; _; _]).
Qed.


End Scan.

(** ** The resources of the front ends *)

Inductive resource :=
  | RDevice               (* the PCI device is enabled *)
  | RRegions              (* its BARs are reserved *)
  | RMem                  (* the memory region of the EIM bus is reserved *)
  | RMap (a : Z)          (* a mapping of registers *)
  | RCell.                (* a sub-device *)

#[export] Instance resource_eq_dec : EqDecision resource.
Proof. solve_decision. Defined.

Definition is_map (x : resource) : bool := match x with RMap _ => true | _ => false end.
Definition is_cell (x : resource) : bool := match x with RCell => true | _ => false end.

(** What one call does to the resources held; [None] when it gives back what is not held, accesses
    a register while none is mapped, or unmaps registers while there are sub-devices.  Which mapping
    an access goes to is not tracked, and the records of the functions ([kzalloc] in
    [ccat_functions_init]) are not in this account: [allocated] and [freed] follow those. *)
Definition hold (ev : event) (h : list resource) : option (list resource) :=
  let ok := r_val (ev_resp ev) =? 0 in
  match ev_call ev with
  | Kernel (PciEnableDeviceMem _) => Some (if ok then RDevice :: h else h)
  | Kernel (PciDisableDevice _) => give_back RDevice h
  | Kernel (PciRequestRegions _) => Some (if ok then RRegions :: h else h)
  | Kernel (PciReleaseRegions _) => give_back RRegions h
  | Kernel (RequestMemRegion _ _) => Some (if ok then h else RMem :: h)
  | Kernel (ReleaseMemRegion _ _) => give_back RMem h
  | Kernel (PciIomap _ _) | Kernel (Ioremap _ _) =>
      Some (if ok then h else RMap (r_val (ev_resp ev)) :: h)
  | Kernel (PciIounmap _ a) | Kernel (Iounmap a) =>
      if existsb is_cell h then None else give_back (RMap a) h
  | Kernel (MfdAddDevices _ _ _) => Some (if r_val (ev_resp ev) <? 0 then h else RCell :: h)
  | Kernel (MfdRemoveDevices _) => Some (filter (fun x => x <> RCell) h)
  | IoRead _ _ | IoWrite _ _ _ => if existsb is_map h then Some h else None
  | _ => Some h
  end.

(** The resources held after a run that started with none. *)
Definition held (t : list event) : option (list resource) := held_from hold [] t.

(** The calls of a scan: besides registers and memory, only requests for sub-devices. *)
Definition scan_call (c : call) : Prop :=
  match c with
  | IoRead _ _ | Kernel (Kzalloc _) | Kernel (Kfree _) | Kernel (MfdAddDevices _ _ _) => True
  | _ => False
  end.

Lemma replicate_S_end_app {A} n (x : A) l : x :: replicate n x ++ l = replicate n x ++ x :: l.
Proof. induction n as [|n IH]; simpl; [done|]. by rewrite IH. Qed.

Lemma scan_holds h t :
  existsb is_map h = true -> Forall scan_call (calls t) ->
  exists n, held_from hold h t = Some (replicate n RCell ++ h).
Proof.
  unfold calls. revert h. induction t as [|[c r] t IH]; intros h Hm; [by exists 0%nat|].
  intros [Hc Ht]%Forall_cons.
  destruct c as [| | | | |[]]; try done; try exact (IH h Hm Ht).
  { rewrite (held_cons hold h h) by (unfold hold; simpl; by rewrite Hm). exact (IH h Hm Ht). }
  simpl.
  destruct (r_val r <? 0); [exact (IH h Hm Ht)|]. destruct (IH (RCell :: h) Hm Ht) as [n Hn]. exists (S n).
  simpl. rewrite Hn. f_equal. symmetry. apply replicate_S_end_app.
Qed.

Lemma filter_cells n h :
  Forall (fun x => x <> RCell) h ->
  filter (fun x => x <> RCell) (replicate n RCell ++ h) = h.
Proof.
  intros Hh. induction n as [|n IH]; simpl app.
  - induction Hh; [done|]. rewrite filter_cons_True by done. by f_equal.
  - rewrite filter_cons_False by tauto. done.
Qed.

(** Removing the sub-devices leaves the rest. *)
Lemma held_remove_cells n h d r t :
  Forall (fun x => x <> RCell) h ->
  held_from hold (replicate n RCell ++ h) (Ev (Kernel (MfdRemoveDevices d)) r :: t) = held_from hold h t.
Proof.
  intros Hh. transitivity (held_from hold (filter (fun x => x <> RCell) (replicate n RCell ++ h)) t);
    [done|]. by rewrite filter_cells.
Qed.

Section FrontEnds.
Context {E : Type} `{Env E}.

Lemma ioread_bytes_scan a n : forall_calls scan_call (ioread_bytes a n : M E (list Z)).
Proof. revert a. induction n as [|n IH]; intros a; simpl; fc_run; done || apply IH. Qed.

Lemma connect_scan cells func d : forall_calls scan_call (function_connect_from cells func d : M E Z).
Proof. induction cells as [|[ty nm] cells IH]; simpl; fc_run; done. Qed.

Lemma functions_loop_scan d n addr next : forall_calls scan_call (functions_loop d n addr next : M E Z).
Proof.
  revert addr next. induction n as [|n IH]; intros addr next; cbn [functions_loop];
    unfold ccat_function_connect; fc_run; try done; auto using ioread_bytes_scan, connect_scan.
Qed.

Lemma connect_any cells func d (e : E) : wp (function_connect_from cells func d) e (fun _ _ _ => True).
Proof. induction cells as [|[ty nm] cells IH]; simpl; [by wp_run|]. destruct (_ =? _); by wp_run. Qed.

Lemma functions_loop_any d n addr next (e : E) : wp (functions_loop d n addr next) e (fun _ _ _ => True).
Proof.
  revert addr next e. induction n as [|n IH]; intros addr next e; cbn [functions_loop]; [by wp_run|].
  destruct (next =? 0); [by wp_run|]. wp_run. eapply wp_conseq; [apply ioread_bytes_any|].
  intros l t e' _. destruct (negb _); [|by eapply wp_conseq; [apply IH|]].
  wp_run. eapply wp_conseq; [apply connect_any|]. intros r t' e'' _.
  destruct (r <? 0); wp_run; [done|]. by eapply wp_conseq; [apply IH|].
Qed.

(** The scan returns whatever it meets, and only adds sub-devices. *)
Lemma functions_init_holds d (e : E) :
  wp (ccat_functions_init d) e (fun _ t _ =>
    forall h, existsb is_map h = true -> exists n, held_from hold h t = Some (replicate n RCell ++ h)).
Proof.
  eapply wp_conseq; [apply (wp_forall_calls _ scan_call _ _ (fun _ _ _ => True))|].
  - unfold ccat_functions_init. fc_run; try done. apply functions_loop_scan.
  - unfold ccat_functions_init. wp_run. apply functions_loop_any.
  - intros r t e' [_ Ht] h Hm. by apply scan_holds.
Qed.

(** What the PCI front end holds after a probe that returned [r] and [d] with the events [t], and
    after removing the device. *)
Definition pci_balanced (pdev : Z) (res : Z * option ccat_device) (t : list event) (e' : E) : Prop :=
  let '(r, d) := res in
  if r =? 0
  then exists ccatdev n, d = Some ccatdev /\ bar_0 ccatdev <> 0 /\
    held t = Some (replicate n RCell ++
                   (if istrue (bar_2 ccatdev) then [RMap (bar_2 ccatdev)] else []) ++
                   [RMap (bar_0 ccatdev); RRegions; RDevice]) /\
    wp (ccat_pci_remove pdev d) e' (fun _ t' _ => held (t ++ t') = Some [] /\ freed t' = [])
  else held t = Some [].

(** Removing gives back what a successful probe holds. *)
Lemma pci_remove_holds pdev d n h t (e : E) :
  h = (if istrue (bar_2 d) then [RMap (bar_2 d)] else []) ++ [RMap (bar_0 d); RRegions; RDevice] ->
  held t = Some (replicate n RCell ++ h) ->
  wp (ccat_pci_remove pdev (Some d)) e (fun _ t' _ => held (t ++ t') = Some [] /\ freed t' = []).
Proof.
  intros Hh Ht. assert (Forall (fun x => x <> RCell) h) as Hc.
  { rewrite Hh. destruct (istrue _); by repeat constructor. }
  unfold ccat_pci_remove. wp_run. destruct (istrue (bar_2 d)) eqn:Hb2; wp_run; (split; [|done]);
    unfold held in *; rewrite held_from_app, Ht; simpl app; cbn [mbind option_bind];
    rewrite held_remove_cells by done; rewrite Hh; simpl app;
    repeat (erewrite held_cons by apply give_back_head); done.
Qed.

Lemma pci_map_holds pdev d t0 (e : E) :
  held t0 = Some [RRegions; RDevice] ->
  wp (pci_map_and_init pdev d) e (fun res t e' => pci_balanced pdev res (t0 ++ t) e').
Proof.
  intros Ht0. unfold pci_map_and_init, pci_release_regions, pci_disable_device. wp_run.
  apply wp_null; intros Hb0; wp_run.
  { unfold pci_balanced, held in *. rewrite held_from_app, Ht0. simpl. by zknown. }
  eapply wp_conseq; [apply functions_init_holds|]. intros r t e' Ht. wp_run.
  set (bar0 := r_val (ext (Kernel (PciIomap pdev 0)) e).1) in *.
  set (e1 := (ext (Kernel (PciIomap pdev 0)) e).2) in *.
  set (bar2 := r_val (ext (Kernel (PciIomap pdev 2)) e1).1) in *.
  set (h := (if istrue bar2 then [RMap bar2] else []) ++ [RMap bar0; RRegions; RDevice]).
  destruct (Ht h) as [n Hn]; [unfold h; by destruct (istrue bar2)|]. unfold pci_balanced. cbn [Z.eqb].
  match goal with |- context [wp (ccat_pci_remove _ _) _ (fun _ t' _ => held (?t1 ++ t') = _ /\ _)] =>
    assert (Hheld : held t1 = Some (replicate n RCell ++ h)) end.
  { unfold held. rewrite held_from_app. unfold held in Ht0. rewrite Ht0, app_nil_r.
    rewrite <- Hn. simpl. fold bar0 e1 bar2. zknown. simpl. fold e1 bar2.
    unfold h, istrue. by destruct (bar2 =? 0). }
  exists (Device pdev pdev bar0 bar2), n. split_and!; [done | done | done |].
  by eapply pci_remove_holds.
Qed.

Lemma pci_probe_balanced pdev (e : E) :
  wp (ccat_pci_probe pdev) e (pci_balanced pdev).
Proof.
  unfold ccat_pci_probe, pci_release_regions, pci_disable_device.
  wp_run. apply wp_null; intros Hp; wp_run; [done|].
  apply wp_istrue; intros Hen; wp_run; [unfold pci_balanced, held; simpl; by zknown|].
  apply wp_istrue; intros Hrev; wp_run; [unfold pci_balanced, held; simpl; by zknown|].
  apply wp_istrue; intros Hreg; wp_run; [unfold pci_balanced, held; simpl; by zknown|].
  apply wp_istrue; intros H64; wp_run; [apply wp_istrue; intros H32; wp_run|].
  - unfold pci_balanced, held; simpl; by zknown.
  - eapply wp_conseq; [eapply (pci_map_holds _ _ [_; _; _; _; _; _]) | intros res t e' Hb; exact Hb].
    unfold held; simpl; by zknown.
  - eapply wp_conseq; [eapply (pci_map_holds _ _ [_; _; _; _; _]) | intros res t e' Hb; exact Hb].
    unfold held; simpl; by zknown.
Qed.

(** C13: the enabled device, the regions, the mappings and the sub-devices of the PCI front end.  A
    probe that fails, at whichever step, holds none of them; one that succeeds holds the enabled
    device, its regions, the mapping of BAR 0, that of BAR 2 if there is one, and sub-devices, and
    removing the device then gives back exactly these.  None of them is ever given back that is not
    held, no register is accessed while none is mapped, and registers are unmapped only when the
    sub-devices are gone.  The records of the functions are not among them: removing the device
    frees no record, so those of the scan ([ccat_functions_init_scan]) stay allocated. *)
Theorem ccat_pci_lifecycle pdev (e : E) :
  wp (ccat_pci_probe pdev) e (pci_balanced pdev).
Proof. apply pci_probe_balanced. Qed.

Lemma eim_probe_balanced pdev (e : E) :
  wp (ccat_eim_probe pdev) e (fun '(r, d) t e' =>
    if r =? 0
    then exists ccatdev n, d = Some ccatdev /\ bar_0 ccatdev <> 0 /\
      held t = Some (replicate n RCell ++ [RMap (bar_0 ccatdev); RMem]) /\
      wp (ccat_eim_remove pdev d) e' (fun _ t' _ => held (t ++ t') = Some [])
    else match last (calls t) with
         | Some (Kernel (Ioremap _ _)) => held t = Some [RMem]
         | _ => held t = Some []
         end).
Proof.
  unfold ccat_eim_probe. wp_run. apply wp_null; intros Hp; wp_run; [done|].
  apply wp_null; intros Hr; wp_run; [unfold held; simpl; by zknown|].
  apply wp_null; intros Hb0; wp_run; [unfold held; simpl; by zknown|].
  eapply wp_conseq; [apply functions_init_holds|]. intros r t e' Ht. wp_run. cbn [Z.eqb].
  match type of Hb0 with ?b <> 0 => set (bar0 := b) in * end.
  destruct (Ht [RMap bar0; RMem] eq_refl) as [n Hn].
  match goal with |- context [wp (ccat_eim_remove _ _) _ (fun _ t' _ => held (?t1 ++ t') = _)] =>
    assert (Hheld : held t1 = Some (replicate n RCell ++ [RMap bar0; RMem])) end.
  { unfold held. rewrite app_nil_r, <- Hn. simpl. fold bar0. by zknown. }
  exists (Device pdev pdev bar0 0), n. split_and!; [done | done | done |].
  unfold ccat_eim_remove, held in *. wp_run. rewrite held_from_app, Hheld. simpl app.
  cbn [mbind option_bind]. rewrite held_remove_cells by by repeat constructor.
  by repeat (erewrite held_cons by apply give_back_head).
Qed.

(** C36: the resources of the EIM front end.  A probe that succeeds holds the reserved memory
    region, its mapping and sub-devices, and removing the device gives back exactly these; one
    that fails holds nothing, except when the mapping fails: then the region stays reserved,
    with nobody left to release it. *)
Theorem ccat_eim_lifecycle pdev (e : E) :
  wp (ccat_eim_probe pdev) e (fun '(r, d) t e' =>
    if r =? 0
    then exists ccatdev n, d = Some ccatdev /\ bar_0 ccatdev <> 0 /\
      held t = Some (replicate n RCell ++ [RMap (bar_0 ccatdev); RMem]) /\
      wp (ccat_eim_remove pdev d) e' (fun _ t' _ => held (t ++ t') = Some [])
    else match last (calls t) with
         | Some (Kernel (Ioremap _ _)) => held t = Some [RMem]
         | _ => held t = Some []
         end).
Proof. apply eim_probe_balanced. Qed.

End FrontEnds.

(** ** Witnesses: a CCAT with a GPIO function in block 1 *)

Definition small_rom : Z -> Z := fun a =>
  if a =? 0 then 1 else if a =? 4 then 3 else if a =? 16 then 0xd else 0.

Definition rom_env : Env unit := fun c e =>
  match c with
  | IoRead W8 a => (Resp (small_rom (a - 4096)) 0, e)
  | Kernel (Kzalloc _) => (Resp 512 0, e)
  | _ => (Resp 0 0, e)
  end.

#[export] Instance rom_env_rom : @InfoRom unit rom_env 4096 small_rom.
Proof.
  constructor.
  - intros a. unfold small_rom, is_byte. repeat destruct (_ =? _); lia.
  - intros [] a Ha. simpl. rewrite Z.add_simpl_l. unfold small_rom, u8.
    by repeat destruct (_ =? _).
Defined.


(** The scan of that table asks for exactly the GPIO sub-device. *)
Example small_rom_scan :
  omap wanted (block small_rom <$> seq 0 3) = [("ccat_gpio"%string, block small_rom 1)].
Proof. reflexivity. Qed.
