(* ===== verification/NetFifo.v ===== *)
(** * The frame FIFOs of the Ethernet function (netdev.c)

    A FIFO is a ring of 2048-byte frames in memory the FPGA shares with the CPU: host memory for
    the DMA variant, memory of the FPGA for the EIM variant.  The file models the FIFO itself, the
    four tables of callbacks and the DMA memory behind it.  It shows that the ring stays well
    formed, that a reset visits every frame once and ends, that the DMA memory handed to the
    FPGA lies in what was allocated, and what a queued frame looks like to the FPGA. *)

From S2P Require Import Prelude IO Info.

(** ** Layouts *)

Definition CCAT_ALIGNMENT : Z := 128 * 1024.
Definition FIFO_LENGTH : Z := 64.
Definition CCAT_FRAME_RECEIVED : Z := 0x1.
Definition CCAT_FRAME_SENT : Z := 0x1.

(** [struct ccat_dma_frame_hdr]: offsets and size. *)
Definition dma_rx_flags : Z := 4.
Definition dma_length : Z := 8.
Definition dma_tx_flags : Z := 12.
Definition sizeof_dma_hdr : Z := 24.

(** [struct ccat_eim_frame_hdr] *)
Definition eim_length : Z := 0.
Definition sizeof_eim_hdr : Z := 16.

(** [struct ccat_eth_frame] *)
Definition sizeof_frame : Z := 0x800.
Definition MAX_PAYLOAD_SIZE : Z := sizeof_frame - Z.max sizeof_dma_hdr sizeof_eim_hdr.

(** ** State *)

(** [struct ccat_dma_mem] *)
Record ccat_dma_mem := DmaMem { dm_size : Z; dm_phys : Z; dm_dev : Z; dm_base : Z }.
Definition no_dma_mem : ccat_dma_mem := DmaMem 0 0 0 0.

(** The constant callback tables a FIFO can point to; [NoOps] is the NULL pointer of a FIFO that
    is not set up yet. *)
Inductive fifo_ops :=
  | NoOps | dma_rx_fifo_ops | dma_tx_fifo_ops | eim_rx_fifo_ops | eim_tx_fifo_ops.

#[export] Instance fifo_ops_eq_dec : EqDecision fifo_ops.
Proof. solve_decision. Defined.

(** [struct ccat_eth_fifo]; [next] and [start] are those of the union. *)
Record ccat_eth_fifo := Fifo {
  ops : fifo_ops;
  f_end : Z;
  f_reg : Z;
  bytes : Z;
  dropped : Z;
  dma_mem : ccat_dma_mem;
  next : Z;
  start : Z;
}.

Definition set_ops o f := Fifo o (f_end f) (f_reg f) (bytes f) (dropped f) (dma_mem f) (next f) (start f).
Definition set_end x f := Fifo (ops f) x (f_reg f) (bytes f) (dropped f) (dma_mem f) (next f) (start f).
Definition set_reg x f := Fifo (ops f) (f_end f) x (bytes f) (dropped f) (dma_mem f) (next f) (start f).
Definition set_bytes x f := Fifo (ops f) (f_end f) (f_reg f) x (dropped f) (dma_mem f) (next f) (start f).
Definition set_dropped x f := Fifo (ops f) (f_end f) (f_reg f) (bytes f) x (dma_mem f) (next f) (start f).
Definition set_dma_mem x f := Fifo (ops f) (f_end f) (f_reg f) (bytes f) (dropped f) x (next f) (start f).
Definition set_next x f := Fifo (ops f) (f_end f) (f_reg f) (bytes f) (dropped f) (dma_mem f) x (start f).
Definition set_start x f := Fifo (ops f) (f_end f) (f_reg f) (bytes f) (dropped f) (dma_mem f) (next f) x.

(** [struct sk_buff], as far as the driver looks: its address, whether it has fragments, its
    data; [skb->len] is the length of the data. *)
Record sk_buff := Skb { skb_ptr : Z; skb_nonlinear : bool; skb_data : list Z }.
Definition skb_len (s : sk_buff) : Z := zlen (skb_data s).

Section Operations.
Context {E : Type} `{Env E}.

(** ** Callbacks of the EIM variant *)

(** [mac] is [priv->reg.mac] of the device the FIFO belongs to. *)
Definition fifo_eim_tx_ready (mac : Z) (fifo : ccat_eth_fifo) : M E Z :=
  let TX_FIFO_LEVEL_OFFSET := 0x20 in
  let TX_FIFO_LEVEL_MASK := 0x3F in
  v ← ioread W8 (mac + TX_FIFO_LEVEL_OFFSET);
  mret (lnot_c (Z.land v TX_FIFO_LEVEL_MASK)).

Definition fifo_eim_rx_ready (fifo : ccat_eth_fifo) : M E Z :=
  let OVERHEAD := sizeof_eim_hdr in
  len ← ioread W16 (next fifo + eim_length);
  mret (if len <? OVERHEAD then 0 else len - OVERHEAD).

Definition ccat_eth_fifo_inc (fifo : ccat_eth_fifo) : ccat_eth_fifo :=
  let n := next fifo + sizeof_frame in
  if f_end fifo <? n then set_next (start fifo) fifo else set_next n fifo.

Definition fifo_eim_rx_add (fifo : ccat_eth_fifo) : M E unit :=
  iowrite W16 0 (next fifo) ;;
  wmb.

Definition fifo_eim_tx_add (fifo : ccat_eth_fifo) : M E unit := mret tt.

(** The result is what was copied to [skb->data]. *)
Definition fifo_eim_copy_to_linear_skb (fifo : ccat_eth_fifo) (len : Z) : M E (list Z) :=
  memread_bytes (next fifo + sizeof_eim_hdr) (Z.to_nat len).

Definition fifo_eim_queue_skb (fifo : ccat_eth_fifo) (skb : sk_buff) : M E unit :=
  let addr_and_length := u32 (next fifo - start fifo) in
  let length := u16 (skb_len skb) in
  memwrite W16 (next fifo + eim_length) length ;;
  memwrite_bytes (next fifo + sizeof_eim_hdr) (skb_data skb) ;;
  iowrite W32 addr_and_length (f_reg fifo).

(** ** Callbacks of the DMA variant *)

Definition fifo_dma_tx_ready (fifo : ccat_eth_fifo) : M E Z :=
  v ← memread W32 (next fifo + dma_tx_flags);
  mret (Z.land v CCAT_FRAME_SENT).

Definition fifo_dma_rx_ready (fifo : ccat_eth_fifo) : M E Z :=
  let OVERHEAD := dma_rx_flags in
  v ← memread W32 (next fifo + dma_rx_flags);
  if istrue (Z.land v CCAT_FRAME_RECEIVED)
  then
    len ← memread W16 (next fifo + dma_length);
    mret (if len <? OVERHEAD then 0 else len - OVERHEAD)
  else mret 0.

Definition ccat_eth_rx_fifo_dma_add (fifo : ccat_eth_fifo) : M E unit :=
  let offset := u64 (next fifo - start fifo) in
  let addr_and_length := u32 (Z.lor (Z.shiftl 1 31) offset) in
  memwrite W32 (next fifo + dma_rx_flags) 0 ;;
  iowrite W32 addr_and_length (f_reg fifo).

Definition ccat_eth_tx_fifo_dma_add_free (fifo : ccat_eth_fifo) : M E unit :=
  memwrite W32 (next fifo + dma_tx_flags) CCAT_FRAME_SENT.

Definition fifo_dma_copy_to_linear_skb (fifo : ccat_eth_fifo) (len : Z) : M E (list Z) :=
  memread_bytes (next fifo + sizeof_dma_hdr) (Z.to_nat len).

Definition fifo_dma_queue_skb (fifo : ccat_eth_fifo) (skb : sk_buff) : M E unit :=
  memwrite W32 (next fifo + dma_tx_flags) 0 ;;
  memwrite W16 (next fifo + dma_length) (u16 (skb_len skb)) ;;
  memwrite_bytes (next fifo + sizeof_dma_hdr) (skb_data skb) ;;
  let addr_and_length := u32 dma_length in
  let addr_and_length := u32 (addr_and_length + (next fifo - start fifo)) in
  let addr_and_length := u32 (addr_and_length + Z.shiftl ((skb_len skb + sizeof_dma_hdr) / 8) 24) in
  iowrite W32 addr_and_length (f_reg fifo).

(** ** The callback tables; a call through the NULL pointer faults. *)

Definition ops_ready (mac : Z) (fifo : ccat_eth_fifo) : M E Z :=
  match ops fifo with
  | NoOps => oops
  | dma_rx_fifo_ops => fifo_dma_rx_ready fifo
  | dma_tx_fifo_ops => fifo_dma_tx_ready fifo
  | eim_rx_fifo_ops => fifo_eim_rx_ready fifo
  | eim_tx_fifo_ops => fifo_eim_tx_ready mac fifo
  end.

Definition ops_add (fifo : ccat_eth_fifo) : M E unit :=
  match ops fifo with
  | NoOps => oops
  | dma_rx_fifo_ops => ccat_eth_rx_fifo_dma_add fifo
  | dma_tx_fifo_ops => ccat_eth_tx_fifo_dma_add_free fifo
  | eim_rx_fifo_ops => fifo_eim_rx_add fifo
  | eim_tx_fifo_ops => fifo_eim_tx_add fifo
  end.

(** [queue] is a union: the RX tables fill [copy_to_skb], the TX tables [skb]. *)
Definition ops_copy_to_skb (fifo : ccat_eth_fifo) (len : Z) : M E (list Z) :=
  match ops fifo with
  | dma_rx_fifo_ops => fifo_dma_copy_to_linear_skb fifo len
  | eim_rx_fifo_ops => fifo_eim_copy_to_linear_skb fifo len
  | _ => oops
  end.

Definition ops_skb (fifo : ccat_eth_fifo) (skb : sk_buff) : M E unit :=
  match ops fifo with
  | dma_tx_fifo_ops => fifo_dma_queue_skb fifo skb
  | eim_tx_fifo_ops => fifo_eim_queue_skb fifo skb
  | _ => oops
  end.

(** ** Reset *)

Definition ccat_eth_fifo_hw_reset (fifo : ccat_eth_fifo) : M E unit :=
  if istrue (f_reg fifo) then iowrite W32 0 (f_reg fifo + 0x8) ;; wmb else mret tt.

(** The do-while loop over the ring; [fuel] bounds its rounds. *)
Fixpoint reset_loop (fuel : nat) (fifo : ccat_eth_fifo) : M E ccat_eth_fifo :=
  match fuel with
  | O => hang
  | S fuel' =>
      ops_add fifo ;;
      let fifo := ccat_eth_fifo_inc fifo in
      if next fifo =? start fifo then mret fifo else reset_loop fuel' fifo
  end.

(** The frames of the ring, and the fuel of its reset. *)
Definition nslots (fifo : ccat_eth_fifo) : nat :=
  Z.to_nat (Z.max 1 ((f_end fifo - start fifo) / sizeof_frame + 1)).

(** Every table has an [add] callback, so only the NULL table remains of the test of it. *)
Definition ccat_eth_fifo_reset (fifo : ccat_eth_fifo) : M E ccat_eth_fifo :=
  ccat_eth_fifo_hw_reset fifo ;;
  match ops fifo with
  | NoOps => oops
  | _ => reset_loop (nslots fifo) (set_next (start fifo) fifo)
  end.

Definition fifo_set_end (fifo : ccat_eth_fifo) (size : Z) : M E ccat_eth_fifo :=
  ccat_eth_fifo_reset (set_end (start fifo + size - sizeof_frame) fifo).

(** ** DMA memory *)

Definition ccat_dma_free (dm : ccat_dma_mem) : M E ccat_dma_mem :=
  if istrue (dm_base dm)
  then kern_ (DmaFreeCoherent (dm_size dm) (dm_base dm) (dm_phys dm)) ;; mret no_dma_mem
  else mret dm.

(** The last two reads are for a message. *)
Definition ccat_dma_init (pdev channel bar2 : Z) (fifo : ccat_eth_fifo)
  : M E (Z * ccat_eth_fifo) :=
  let size := 2 * CCAT_ALIGNMENT - 1 in
  r ← do_call (Kernel (DmaAllocCoherent size));
  let base := r_val r in
  let dm := DmaMem size (r_out r) pdev base in
  let fifo := set_dma_mem dm fifo in
  if (base =? 0) || (dm_phys dm =? 0) then mret (- ENOMEM, fifo)
  else
    let ioaddr := bar2 + 0x1000 + 8 * channel in
    let phys := u64 (ptr_align (dm_phys dm) CCAT_ALIGNMENT) in
    let phys_hi := u32 (Z.shiftr phys 32) in
    let fifo := set_start (base + (phys - dm_phys dm)) fifo in
    fifo ← fifo_set_end fifo CCAT_ALIGNMENT;
    iowrite W32 (Z.lor (u32 phys) (b2z (0 <? phys_hi))) ioaddr ;;
    iowrite W32 phys_hi (ioaddr + 4) ;;
    _ ← ioread W32 (ioaddr + 4);
    _ ← ioread W32 ioaddr;
    mret (0, fifo).

End Operations.

(** ** The ring *)

(** Frame [i] of the ring, and the invariant: [next] is one of the frames. *)
Definition slot (f : ccat_eth_fifo) (i : nat) : Z := start f + sizeof_frame * Z.of_nat i.
Definition at_slot (f : ccat_eth_fifo) (i : nat) : Prop := (i < nslots f)%nat /\ next f = slot f i.
Definition ring (f : ccat_eth_fifo) : Prop := exists i, at_slot f i.

Definition next_slot (n i : nat) : nat := if decide (S i = n) then 0%nat else S i.

Lemma nslots_pos f : (0 < nslots f)%nat.
Proof. unfold nslots. lia. Qed.

Lemma inc_slot f i : at_slot f i -> at_slot (ccat_eth_fifo_inc f) (next_slot (nslots f) i).
Proof.
  intros [Hi Hn]. unfold ccat_eth_fifo_inc, at_slot, next_slot, slot in *. rewrite Hn.
  assert (Hns : nslots f = Z.to_nat (Z.max 1 ((f_end f - start f) / sizeof_frame + 1))) by done.
  assert (sizeof_frame = 2048) as Hsz by done. rewrite Hsz in *.
  destruct (Z.ltb_spec (f_end f) (start f + 2048 * Z.of_nat i + 2048)); simpl;
    change (nslots (set_next _ f)) with (nslots f).
  - rewrite decide_True by (rewrite Hns; mach). split; [apply nslots_pos | lia].
  - rewrite decide_False by (rewrite Hns; mach). split; [rewrite Hns; mach | lia].
Qed.

Lemma inc_eq f i :
  at_slot f i -> ccat_eth_fifo_inc f = set_next (slot f (next_slot (nslots f) i)) f.
Proof.
  intros Hi. pose proof (inc_slot f i Hi) as [_ Hn]. revert Hn. unfold ccat_eth_fifo_inc.
  destruct (_ <? _); simpl; intros ->; done.
Qed.

Lemma nslots_inc f : nslots (ccat_eth_fifo_inc f) = nslots f.
Proof. unfold ccat_eth_fifo_inc. by destruct (_ <? _). Qed.

Lemma inc_table f : ops (ccat_eth_fifo_inc f) = ops f /\ f_reg (ccat_eth_fifo_inc f) = f_reg f.
Proof. unfold ccat_eth_fifo_inc. by destruct (_ <? _). Qed.

Lemma at_slot_0 f : at_slot (set_next (start f) f) 0.
Proof. split; [apply nslots_pos | unfold slot; simpl; lia]. Qed.

(** Advancing once more, modulo the number of frames. *)
Lemma next_slot_mod n i : (i < n)%nat -> next_slot n i = ((i + 1) mod n)%nat.
Proof.
  intros Hi. unfold next_slot. destruct (decide _) as [<-|Hne].
  - rewrite Nat.add_1_r. symmetry. apply Nat.Div0.mod_same.
  - rewrite Nat.mod_small by lia. lia.
Qed.

(** The calls of the [add] callback for the frame at [a]. *)
Definition add_calls (f : ccat_eth_fifo) (a : Z) : list call :=
  match ops f with
  | dma_rx_fifo_ops => [MemWrite W32 (a + dma_rx_flags) 0;
                        IoWrite W32 (f_reg f) (u32 (Z.lor (Z.shiftl 1 31) (u64 (a - start f))))]
  | dma_tx_fifo_ops => [MemWrite W32 (a + dma_tx_flags) CCAT_FRAME_SENT]
  | eim_rx_fifo_ops => [IoWrite W16 a 0; Wmb]
  | eim_tx_fifo_ops | NoOps => []
  end.

Section Proofs.
Context {E : Type} `{Env E}.

Lemma u32_idem z : u32 (u32 z) = u32 z.
Proof. unfold u32. apply Z.mod_mod. lia. Qed.

Lemma ops_add_calls f (e : E) :
  ops f <> NoOps -> wp (ops_add f) e (fun _ t _ => calls t = add_calls f (next f)).
Proof.
  intros Ho. unfold ops_add, add_calls. destruct (ops f); [done|..];
    unfold ccat_eth_rx_fifo_dma_add, ccat_eth_tx_fifo_dma_add_free, fifo_eim_rx_add, fifo_eim_tx_add;
    wp_run; untrunc; simpl; by rewrite ?u32_idem.
Qed.

Lemma reset_loop_calls fuel f i (e : E) :
  ops f <> NoOps -> at_slot f i -> (nslots f - i <= fuel)%nat ->
  wp (reset_loop fuel f) e (fun f' t _ =>
    f' = set_next (start f) f /\
    calls t = (seq i (nslots f - i) ≫= fun j => add_calls f (slot f j))).
Proof.
  intros Ho. revert f i e Ho. induction fuel as [|fuel IH]; intros f i e Ho Hi Hf.
  { destruct Hi. lia. }
  cbn [reset_loop]. wp_run. eapply wp_conseq; [by apply ops_add_calls|]. intros ? t e' Ht.
  pose proof (inc_slot f i Hi) as Hi'. rewrite (inc_eq f i Hi) in *.
  destruct Hi as [Hi Hn]. rewrite Hn in Ht. simpl next. simpl start.
  replace (nslots f - i)%nat with (S (nslots f - S i)) by lia. cbn [seq].
  unfold next_slot in *. destruct (decide (S i = nslots f)) as [Hlast|Hmore].
  - unfold slot at 1. rewrite Z.mul_0_r, Z.add_0_r, Z.eqb_refl. wp_run. split.
    + unfold slot. by rewrite Z.mul_0_r, Z.add_0_r.
    + rewrite calls_app, Ht, <- Hlast, Nat.sub_diag. simpl. by rewrite app_nil_r.
  - destruct (Z.eqb_spec (slot f (S i)) (start f)) as [Heq|_].
    { unfold slot in Heq. assert (sizeof_frame = 2048) by done. lia. }
    eapply wp_conseq; [apply (IH _ (S i)); [done | done | change (nslots (set_next _ f)) with (nslots f); lia]|].
    intros f' t' e'' [-> Ht']. split; [done|]. by rewrite calls_app, Ht, Ht'.
Qed.

Lemma reset_spec f (e : E) :
  ops f <> NoOps ->
  wp (ccat_eth_fifo_reset f) e (fun f' t _ =>
    f' = set_next (start f) f /\
    calls t = (if istrue (f_reg f) then [IoWrite W32 (f_reg f + 0x8) 0; Wmb] else []) ++
              (seq 0 (nslots f) ≫= fun j => add_calls f (slot f j))).
Proof.
  intros Ho. unfold ccat_eth_fifo_reset, ccat_eth_fifo_hw_reset.
  assert (Hloop : forall e1, wp (reset_loop (nslots f) (set_next (start f) f)) e1 (fun f' t _ =>
    f' = set_next (start f) f /\ calls t = (seq 0 (nslots f) ≫= fun j => add_calls f (slot f j)))).
  { intros e1. eapply wp_conseq; [apply (reset_loop_calls _ _ 0); [done | apply at_slot_0 |]|].
    - change (nslots (set_next _ f)) with (nslots f). lia.
    - intros f' t e' [-> Ht]. rewrite Nat.sub_0_r in Ht. done. }
  apply wp_bind. destruct (istrue (f_reg f)); wp_run; destruct (ops f) eqn:Hops; try done;
    (eapply wp_conseq; [apply Hloop|]; intros f' t e' [-> Ht]; split; [done|]; simpl; by rewrite Ht).
Qed.

Lemma dma_init_reg pdev ch bar2 fifo (e : E) :
  ops fifo <> NoOps -> wp (ccat_dma_init pdev ch bar2 fifo) e (fun '(_, f) _ _ => f_reg f = f_reg fifo).
Proof.
  intros Ho. unfold ccat_dma_init, fifo_set_end. wp_run. destruct (_ || _); wp_run; [done|].
  eapply wp_conseq; [by apply reset_spec|]. intros f' t e' [-> _]. by wp_run.
Qed.

(** C22: a reset ends, whatever the ring, and does its work exactly: it resets the hardware FIFO,
    then runs the [add] callback once on every frame of the ring, from the first to the last, and
    leaves [next] on the first.  (RX frames are marked empty and queued to the FPGA in order, TX
    frames are marked free.) *)
Theorem ccat_eth_fifo_reset_visits f (e : E) :
  ops f <> NoOps ->
  wp (ccat_eth_fifo_reset f) e (fun f' t _ =>
    f' = set_next (start f) f /\ ring f' /\
    calls t = (if istrue (f_reg f) then [IoWrite W32 (f_reg f + 0x8) 0; Wmb] else []) ++
              (seq 0 (nslots f) ≫= fun j => add_calls f (slot f j))).
Proof.
  intros Ho. eapply wp_conseq; [by apply reset_spec|]. intros f' t e' (-> & Ht).
  split_and!; [done | | done]. exists 0%nat. by apply at_slot_0.
Qed.

(** The position of a FIFO stays on a frame of its ring: every reset establishes it and every
    advance keeps it, moving to the next frame and from the last one back to the first, so that
    after as many advances as the ring has frames it is where it was. *)
Lemma ccat_eth_fifo_inc_ring f i (k : nat) :
  at_slot f i -> at_slot (Nat.iter k ccat_eth_fifo_inc f) ((i + k) mod nslots f)%nat.
Proof.
  intros Hi. assert (Hsame : forall k, nslots (Nat.iter k ccat_eth_fifo_inc f) = nslots f).
  { intros j. induction j as [|j IH]; [done|]. simpl. by rewrite nslots_inc. }
  induction k as [|k IH].
  - rewrite Nat.add_0_r, Nat.mod_small by apply Hi. done.
  - pose proof (inc_slot _ _ IH) as Hk. simpl. rewrite Hsame in Hk.
    rewrite next_slot_mod in Hk by (apply Nat.mod_upper_bound; pose proof (nslots_pos f); lia).
    rewrite Nat.Div0.add_mod_idemp_l in Hk. by replace (i + S k)%nat with (i + k + 1)%nat by lia.
Qed.

(** ** What the FPGA sees of a queued frame *)

Fixpoint byte_writes (a : Z) (l : list Z) : list call :=
  match l with
  | [] => []
  | b :: l' => MemWrite W8 a (u8 b) :: byte_writes (a + 1) l'
  end.

Lemma memwrite_bytes_calls a l (e : E) :
  wp (memwrite_bytes a l) e (fun _ t _ => calls t = byte_writes a l).
Proof.
  revert a e. induction l as [|b l IH]; intros a e; simpl; wp_run; [done|].
  eapply wp_conseq; [apply IH|]. intros ? t e' Ht. simpl. by rewrite Ht.
Qed.

Lemma byte_writes_inside lo hi a l :
  lo <= a -> a + zlen l <= hi ->
  Forall (fun c => exists wd a v, c = MemWrite wd a v /\ lo <= a /\ a + Z.of_nat (wbytes wd) <= hi)
    (byte_writes a l).
Proof.
  unfold zlen. revert a. induction l as [|b l IH]; intros a Ha Hl; simpl in *; constructor.
  - eexists _, _, _. split; [done|]. simpl. lia.
  - apply IH; lia.
Qed.

(** The TX descriptor word: where the transfer starts, as an offset into the DMA memory, and how
    many units of eight bytes it has. *)
Definition desc_addr (w : Z) : Z := Z.land w 0xffffff.
Definition desc_units (w : Z) : Z := Z.shiftr w 24.

(** The word [fifo_dma_queue_skb] builds. *)
Definition tx_word (off len : Z) : Z :=
  u32 (u32 (u32 dma_length + off) + Z.shiftl ((len + sizeof_dma_hdr) / 8) 24).

Lemma queue_skb_calls f skb (e : E) :
  wp (fifo_dma_queue_skb f skb) e (fun _ t _ =>
    calls t = MemWrite W32 (next f + dma_tx_flags) 0 ::
              MemWrite W16 (next f + dma_length) (u16 (skb_len skb)) ::
              byte_writes (next f + sizeof_dma_hdr) (skb_data skb) ++
              [IoWrite W32 (f_reg f) (tx_word (next f - start f) (skb_len skb))]).
Proof.
  unfold fifo_dma_queue_skb. wp_run. eapply wp_conseq; [apply memwrite_bytes_calls|].
  intros ? t e' Ht. wp_run. untrunc. simpl. rewrite calls_app, Ht. unfold tx_word. simpl.
  rewrite u32_idem. unfold u16. by rewrite Z.mod_mod by lia.
Qed.

Lemma tx_word_fields off len :
  0 <= off -> off + 8 < 2 ^ 24 -> 0 <= len <= MAX_PAYLOAD_SIZE ->
  desc_addr (tx_word off len) = off + dma_length /\
  desc_units (tx_word off len) = (if len =? MAX_PAYLOAD_SIZE then 0 else (len + 24) / 8).
Proof.
  intros Ho Hb Hl. unfold desc_addr, desc_units, tx_word, dma_length, sizeof_dma_hdr.
  assert (MAX_PAYLOAD_SIZE = 2024) as Hmax by done. rewrite Hmax in *.
  change 0xffffff with (2 ^ 24 - 1). rewrite land_mask_mod, Z.shiftr_div_pow2, Z.shiftl_mul_pow2 by lia.
  change (u32 8) with 8. rewrite (u32_small (8 + off)) by lia. change (2 ^ 24) with 16777216.
  split; [mach|]. destruct (Z.eqb_spec len 2024) as [->|].
  - change ((2024 + 24) / 8) with 256. mach.
  - rewrite u32_small by mach. mach.
Qed.

(** C16: queueing a frame of up to 2023 bytes on a ring of the DMA memory: the driver clears the
    sent flag, stores length and data in the frame, all inside the frame, and last of all writes
    one descriptor word, which names the frame's place in the DMA memory after the eight bytes
    the FPGA ignores, and enough units to cover header and data but not more than the frame. *)
Theorem fifo_dma_queue_skb_descriptor f i skb (e : E) :
  at_slot f i -> Z.of_nat (nslots f) <= FIFO_LENGTH -> skb_len skb < MAX_PAYLOAD_SIZE ->
  wp (fifo_dma_queue_skb f skb) e (fun _ t _ =>
    exists body w, calls t = MemWrite W32 (slot f i + dma_tx_flags) 0 :: body ++ [IoWrite W32 (f_reg f) w] /\
      body = MemWrite W16 (slot f i + dma_length) (skb_len skb) ::
             byte_writes (slot f i + sizeof_dma_hdr) (skb_data skb) /\
      Forall (fun c => exists wd a v, c = MemWrite wd a v /\
                slot f i <= a /\ a + Z.of_nat (wbytes wd) <= slot f i + sizeof_frame) body /\
      desc_addr w = sizeof_frame * Z.of_nat i + 8 /\
      sizeof_dma_hdr + skb_len skb <= 8 + 8 * desc_units w <= sizeof_frame).
Proof.
  intros [Hi Hn] Hlen Hskb. pose proof (zlen_nonneg (skb_data skb)) as Hpos.
  assert (MAX_PAYLOAD_SIZE = 2024 /\ sizeof_frame = 2048 /\ FIFO_LENGTH = 64 /\ sizeof_dma_hdr = 24
    /\ dma_length = 8) as (H1 & H2 & H3 & H4 & H5) by done.
  eapply wp_conseq; [apply queue_skb_calls|]. intros ? t e' Ht. rewrite Ht, Hn.
  replace (slot f i - start f) with (sizeof_frame * Z.of_nat i) by (unfold slot; lia).
  unfold skb_len in *.
  destruct (tx_word_fields (sizeof_frame * Z.of_nat i) (zlen (skb_data skb))) as [Ha Hu];
    [lia | lia | lia |].
  eexists (_ :: _), _. split; [reflexivity|]. rewrite u16_small by lia.
  split_and!; [done | | lia | | ]; rewrite ?Hu.
  - constructor; [eexists _, _, _; split; [done|]; simpl; lia|].
    apply byte_writes_inside; unfold zlen in *; lia.
  - destruct (Z.eqb_spec (zlen (skb_data skb)) MAX_PAYLOAD_SIZE); [lia|]. mach.
  - destruct (Z.eqb_spec (zlen (skb_data skb)) MAX_PAYLOAD_SIZE); [lia|]. mach.
Qed.

(** C39: a frame of exactly [MAX_PAYLOAD_SIZE] bytes, which the driver accepts, does not fit the
    eight bits of the descriptor's length: the FPGA is told to send nothing. *)
Theorem fifo_dma_queue_skb_max_payload f i skb (e : E) :
  at_slot f i -> Z.of_nat (nslots f) <= FIFO_LENGTH -> skb_len skb = MAX_PAYLOAD_SIZE ->
  wp (fifo_dma_queue_skb f skb) e (fun _ t _ =>
    exists l w, calls t = l ++ [IoWrite W32 (f_reg f) w] /\ desc_units w = 0).
Proof.
  intros [Hi Hn] Hlen Hskb. eapply wp_conseq; [apply queue_skb_calls|]. intros ? t e' Ht.
  assert (sizeof_frame = 2048 /\ FIFO_LENGTH = 64 /\ MAX_PAYLOAD_SIZE = 2024) as (H1 & H2 & H3) by done.
  rewrite Ht, Hn, Hskb.
  replace (slot f i - start f) with (sizeof_frame * Z.of_nat i) by (unfold slot; lia).
  destruct (tx_word_fields (sizeof_frame * Z.of_nat i) MAX_PAYLOAD_SIZE) as [_ Hu]; [lia | lia | lia |].
  eexists (_ :: _ :: _), _. split; [reflexivity|]. by rewrite Hu, Z.eqb_refl.
Qed.

End Proofs.

(** ** DMA memory *)

(** What [dma_alloc_coherent] promises when it succeeds: the device address of the [n] bytes
    leaves room for them below 2^64. *)
Class DmaKernel (E : Type) `{Env E} := dma_alloc_range : forall e n,
  let r := (ext (Kernel (DmaAllocCoherent n)) e).1 in
  r_val r <> 0 -> 0 <= r_out r /\ r_out r + n <= 2 ^ 64.

(** Rounding an address up to [CCAT_ALIGNMENT]. *)
Lemma align_phys p :
  0 <= p -> p + (2 * CCAT_ALIGNMENT - 1) <= 2 ^ 64 ->
  let q := u64 (ptr_align p CCAT_ALIGNMENT) in
  p <= q < p + CCAT_ALIGNMENT /\ q mod CCAT_ALIGNMENT = 0 /\ 0 <= q < 2 ^ 64.
Proof.
  intros Hp Hs. change CCAT_ALIGNMENT with (2 ^ 17) in *. rewrite ptr_align_arith by lia.
  change (2 ^ 17) with 131072 in *. rewrite u64_small by mach. mach.
Qed.

(** The two register values of a DMA address: bit 0 of the low word selects 64-bit mode. *)
Lemma flag_low_bit x b :
  0 <= x < 4294967296 -> x mod 2 = 0 ->
  u32 (Z.lor x (b2z b)) = x + b2z b /\ (x + b2z b) mod 2 = b2z b.
Proof.
  intros Hx He. assert (0 <= b2z b < 2) by (destruct b; simpl; lia).
  assert (Hlor : Z.lor x (b2z b) = x + b2z b).
  { replace x with (Z.shiftl (x / 2) 1) at 1 by (rewrite Z.shiftl_mul_pow2 by lia; mach).
    rewrite lor_shiftl_add by lia. mach. }
  rewrite Hlor, u32_small by mach. split; [done|]. destruct b; simpl; mach.
Qed.

Lemma dma_words q :
  0 <= q < 2 ^ 64 -> q mod CCAT_ALIGNMENT = 0 ->
  let hi := u32 (Z.shiftr q 32) in
  let lo := u32 (Z.lor (u32 q) (b2z (0 <? hi))) in
  lo mod 2 = b2z (0 <? hi) /\ u32 hi = hi /\ hi * 2 ^ 32 + (lo - lo mod 2) = q.
Proof.
  intros Hq Hm hi lo. change CCAT_ALIGNMENT with 131072 in *.
  assert (Hh : hi = q / 4294967296).
  { unfold hi. rewrite Z.shiftr_div_pow2 by lia. change (2 ^ 32) with 4294967296. mach. }
  assert (Heven : u32 q mod 2 = 0) by (clear - Hm; mach).
  destruct (flag_low_bit (u32 q) (0 <? hi)) as [Hlo Hbit]; [apply Z.mod_pos_bound; lia | done |].
  assert (Hhi : u32 hi = hi) by (unfold hi, u32; by rewrite Z.mod_mod by lia).
  unfold lo. rewrite Hlo, Hbit. split_and!; [done | done |].
  rewrite Hh. change (2 ^ 32) with 4294967296. clear. mach.
Qed.

Section Dma.
Context {E : Type} `{Env E} `{!DmaKernel E}.

(** C12: the memory of a DMA FIFO.  When the allocation fails, nothing is set up and [-ENOMEM] is
    returned.  Otherwise the ring is 64 frames that start at a 128 KiB boundary of the device's
    address space and lie inside the allocation, [next] is the first of them, and the two address
    registers of the channel hold that boundary (bit 0 of the low word set exactly for addresses
    above 4 GiB). *)
Theorem ccat_dma_init_memory pdev channel bar2 fifo (e : E) :
  ops fifo <> NoOps ->
  wp (ccat_dma_init pdev channel bar2 fifo) e (fun '(r, f) t _ =>
    let dm := dma_mem f in
    if (dm_base dm =? 0) || (dm_phys dm =? 0)
    then r = - ENOMEM /\ calls t = [Kernel (DmaAllocCoherent (2 * CCAT_ALIGNMENT - 1))]
    else r = 0 /\ at_slot f 0 /\ Z.of_nat (nslots f) = FIFO_LENGTH /\
      (forall i, (i < nslots f)%nat ->
         dm_base dm <= slot f i /\ slot f i + sizeof_frame <= dm_base dm + dm_size dm) /\
      let bus := dm_phys dm + (start f - dm_base dm) in
      bus mod CCAT_ALIGNMENT = 0 /\
      exists l lo hi, calls t = l ++ [IoWrite W32 (bar2 + 0x1000 + 8 * channel) lo;
                                      IoWrite W32 (bar2 + 0x1000 + 8 * channel + 4) hi;
                                      IoRead W32 (bar2 + 0x1000 + 8 * channel + 4);
                                      IoRead W32 (bar2 + 0x1000 + 8 * channel)] /\
        lo mod 2 = b2z (0 <? hi) /\ hi * 2 ^ 32 + (lo - lo mod 2) = bus).
Proof.
  intros Ho. unfold ccat_dma_init, fifo_set_end. wp_run.
  pose proof (dma_alloc_range e (2 * CCAT_ALIGNMENT - 1)) as Hp. cbv zeta in Hp.
  set (r := (ext (Kernel (DmaAllocCoherent (2 * CCAT_ALIGNMENT - 1))) e).1) in *.
  destruct ((r_val r =? 0) || (r_out r =? 0)) eqn:Hfail; simpl dm_phys; rewrite Hfail; wp_run.
  { simpl. by rewrite Hfail. }
  destruct Hp as [Hp0 Hp1]; [by intros Hz; rewrite Hz in Hfail|].
  destruct (align_phys (r_out r) Hp0 Hp1) as (Hq & Hqm & Hqb).
  set (q := u64 (ptr_align (r_out r) CCAT_ALIGNMENT)) in *.
  destruct (dma_words q Hqb Hqm) as (Hlo & Hhi & Hdec).
  eapply wp_conseq; [by apply reset_spec|]. intros f' t e' [-> Ht]. wp_run.
  set (f1 := set_next _ _) in *.
  change (dma_mem f1) with (DmaMem (2 * CCAT_ALIGNMENT - 1) (r_out r) pdev (r_val r)).
  change (start f1) with (r_val r + (q - r_out r)). cbn [dm_base dm_phys dm_size]. rewrite Hfail.
  assert (Hns : nslots f1 = 64%nat).
  { unfold nslots, f1. cbn [f_end start set_next set_end set_start].
    change CCAT_ALIGNMENT with (64 * sizeof_frame).
    replace (r_val r + (q - r_out r) + 64 * sizeof_frame - sizeof_frame - (r_val r + (q - r_out r)))
      with (63 * sizeof_frame) by lia. by rewrite Z.div_mul. }
  assert (CCAT_ALIGNMENT = 131072 /\ sizeof_frame = 2048) as [HA HF] by done.
  split_and!; [done | apply at_slot_0 | by rewrite Hns | | |].
  - intros i Hi. rewrite Hns in Hi. unfold slot.
    change (start f1) with (r_val r + (q - r_out r)). lia.
  - by replace (r_out r + (r_val r + (q - r_out r) - r_val r)) with q by lia.
  - replace (r_out r + (r_val r + (q - r_out r) - r_val r)) with q by lia.
    eexists (Kernel _ :: calls t), _, _. rewrite !calls_app. untrunc.
    split; [reflexivity|]. rewrite Hhi. done.
Qed.

End Dma.

(** ** Witnesses *)

Definition dma_env : Env unit := fun c e =>
  match c with
  | Kernel (DmaAllocCoherent n) =>
      (if n <=? 2 ^ 32 then Resp 0x100000 0x112345000 else Resp 0 0, e)
  | _ => (Resp 0 0, e)
  end.

#[export] Instance dma_env_kernel : @DmaKernel unit dma_env.
Proof.
  intros [] n. unfold ext, dma_env. cbn [fst]. cbv zeta. destruct (Z.leb_spec n (2 ^ 32)); cbn; [|done].
  lia.
Qed.

(** A ring of four frames, standing at its last. *)
Definition small_fifo (o : fifo_ops) : ccat_eth_fifo :=
  Fifo o (0x10000 + 3 * 2048) 0x500 0 0 no_dma_mem (0x10000 + 3 * 2048) 0x10000.
Definition small_skb (n : nat) : sk_buff := Skb 0x900 false (replicate n 7).

Lemma ccat_eth_fifo_reset_visits_witness :
  exists t, ccat_eth_fifo_reset (H := dma_env) (small_fifo dma_tx_fifo_ops) tt
      = (Ret (set_next 0x10000 (small_fifo dma_tx_fifo_ops)), t, tt) /\
    calls t = [IoWrite W32 0x508 0; Wmb; MemWrite W32 0x1000c 1; MemWrite W32 0x1080c 1;
               MemWrite W32 0x1100c 1; MemWrite W32 0x1180c 1].
Proof.
  pose proof (ccat_eth_fifo_reset_visits (H := dma_env) (small_fifo dma_tx_fifo_ops) tt) as Hw.
  apply wp_elim in Hw as (f & t & [] & Hrun & -> & _ & Ht); [|done].
  exists t. split; [exact Hrun | exact Ht].
Defined.

Lemma ccat_eth_fifo_inc_ring_witness :
  at_slot (small_fifo dma_tx_fifo_ops) 3 /\
  at_slot (Nat.iter 2 ccat_eth_fifo_inc (small_fifo dma_tx_fifo_ops)) 1.
Proof.
  split; [split; [vm_compute; lia | reflexivity]|].
  apply (ccat_eth_fifo_inc_ring (small_fifo dma_tx_fifo_ops) 3 2).
  split; [vm_compute; lia | reflexivity].
Defined.

Lemma fifo_dma_queue_skb_descriptor_witness :
  exists t, fifo_dma_queue_skb (H := dma_env) (small_fifo dma_tx_fifo_ops) (small_skb 60) tt = (Ret tt, t, tt) /\
    exists body w, calls t = body ++ [IoWrite W32 0x500 w] /\ desc_addr w = 3 * 2048 + 8.
Proof.
  pose proof (fifo_dma_queue_skb_descriptor (H := dma_env) (small_fifo dma_tx_fifo_ops) 3
    (small_skb 60) tt) as Hw.
  apply wp_elim in Hw as ([] & t & [] & Hrun & body & w & Ht & _ & _ & Ha & _);
    [|split; [vm_compute; lia | reflexivity] | vm_compute; discriminate | reflexivity].
  exists t. split; [exact Hrun|]. eexists (_ :: body), w. split; [exact Ht | exact Ha].
Defined.

Lemma fifo_dma_queue_skb_max_payload_witness :
  exists l w, calls (trace_of (fifo_dma_queue_skb (H := dma_env) (small_fifo dma_tx_fifo_ops)
      (small_skb 2024)) tt) = l ++ [IoWrite W32 0x500 w] /\ desc_units w = 0.
Proof.
  pose proof (fifo_dma_queue_skb_max_payload (H := dma_env) (small_fifo dma_tx_fifo_ops) 3
    (small_skb 2024) tt) as Hw.
  apply wp_elim in Hw as ([] & t & [] & Hrun & l & w & Ht & Hu);
    [|split; [vm_compute; lia | reflexivity] | vm_compute; discriminate | reflexivity].
  exists l, w. unfold trace_of. rewrite Hrun. split; [exact Ht | exact Hu].
Defined.

Lemma ccat_dma_init_memory_witness :
  exists f t, ccat_dma_init (H := dma_env) 1 0 0x200000 (set_reg 0 (small_fifo dma_rx_fifo_ops)) tt
      = (Ret (0, f), t, tt) /\ at_slot f 0 /\
    (dm_phys (dma_mem f) + (start f - dm_base (dma_mem f))) mod CCAT_ALIGNMENT = 0.
Proof.
  pose proof (ccat_dma_init_memory (H := dma_env) 1 0 0x200000 (set_reg 0 (small_fifo dma_rx_fifo_ops)) tt)
    as Hw.
  apply wp_elim in Hw as ([r f] & t & [] & Hrun & Hpost); [|done].
  assert (Hdm : dma_mem f = DmaMem 262143 0x112345000 1 0x100000)
    by (vm_compute in Hrun; injection Hrun; intros; subst; reflexivity).
  cbv zeta in Hpost. rewrite Hdm in Hpost. destruct Hpost as (-> & H0 & _ & _ & Hbus & _).
  exists f, t. split; [exact Hrun|]. split; [exact H0|]. rewrite Hdm. exact Hbus.
Defined.
