(* ===== verification/Netdev.v ===== *)
(** * The Ethernet driver (netdev.c)

    The network device over the two FIFOs: transmission, the polling timer that replaces
    interrupts (link, received frames, free TX frames), statistics, and the probe and remove
    functions of the DMA and the EIM variant.  The invariants of transmission and the order of
    reception have files of their own. *)

From S2P Require Import Prelude IO Info NetFifo.

(** ** State *)

Definition frameForwardEthernetFrames : list Z :=
  [0x01; 0x01; 0x05; 0x01; 0x00; 0x00;
   0x00; 0x1b; 0x21; 0x36; 0x1b; 0xce;
   0x88; 0xa4; 0x0e; 0x10;
   0x08;
   0x00;
   0x00; 0x00;
   0x00; 0x01;
   0x02; 0x00;
   0x00; 0x00;
   0x00; 0x00;
   0x00; 0x00].

Definition NETDEV_TX_OK : Z := 0.
Definition NETDEV_TX_BUSY : Z := 0x10.

(** [struct ccat_eth_register] *)
Record ccat_eth_register := EthReg { r_mii : Z; r_mac : Z; r_rx_mem : Z; r_tx_mem : Z; r_misc : Z }.

(** [struct ccat_mac_infoblock], as its bytes give it. *)
Record ccat_mac_infoblock := MacInfo {
  o_mii : Z; o_tx_fifo : Z; o_mac : Z; o_rx_mem : Z; o_tx_mem : Z; o_misc : Z }.
Definition sizeof_mac_infoblock : Z := 28.
Definition mac_infoblock_of_bytes (l : list Z) : ccat_mac_infoblock :=
  MacInfo (le_val (slice 4 4 l)) (le_val (slice 8 4 l)) (le_val (slice 12 4 l))
          (le_val (slice 16 4 l)) (le_val (slice 20 4 l)) (le_val (slice 24 4 l)).

(** [struct ccat_eth_priv]; the timer is known to the kernel only. *)
Record ccat_eth_priv := Priv {
  p_func : ccat_function;
  p_netdev : Z;
  p_reg : ccat_eth_register;
  rx_fifo : ccat_eth_fifo;
  tx_fifo : ccat_eth_fifo;
}.

Definition set_p_reg x p := Priv (p_func p) (p_netdev p) x (rx_fifo p) (tx_fifo p).
Definition set_rx_fifo x p := Priv (p_func p) (p_netdev p) (p_reg p) x (tx_fifo p).
Definition set_tx_fifo x p := Priv (p_func p) (p_netdev p) (p_reg p) (rx_fifo p) x.

(** A FIFO and a device after [memset(priv, 0, ...)]. *)
Definition zero_fifo : ccat_eth_fifo := Fifo NoOps 0 0 0 0 no_dma_mem 0 0.
Definition zero_priv (func : ccat_function) (netdev : Z) : ccat_eth_priv :=
  Priv func netdev (EthReg 0 0 0 0 0) zero_fifo zero_fifo.

(** [struct ccat_mac_register]: the fields the statistics use, at their offsets. *)
Record ccat_mac_register := MacReg {
  frame_len_err : Z; rx_err : Z; crc_err : Z; rx_mem_full : Z;
  tx_frames : Z; rx_frames : Z; tx_mem_full : Z }.
Definition sizeof_mac_register : Z := 0x80.
Definition mac_register_of_bytes (l : list Z) : ccat_mac_register :=
  MacReg (nth 0 l 0) (nth 1 l 0) (nth 2 l 0) (nth 8 l 0)
         (le_val (slice 0x10 4 l)) (le_val (slice 0x14 4 l)) (nth 0x28 l 0).

(** The fields of [struct rtnl_link_stats64] the driver sets. *)
Record rtnl_link_stats64 := Stats {
  st_rx_packets : Z; st_tx_packets : Z; st_rx_bytes : Z; st_tx_bytes : Z;
  st_rx_errors : Z; st_tx_errors : Z; st_rx_dropped : Z; st_tx_dropped : Z;
  st_rx_length_errors : Z; st_rx_over_errors : Z; st_rx_crc_errors : Z;
  st_rx_frame_errors : Z; st_rx_fifo_errors : Z }.

Section Operations.
Context {E : Type} `{Env E}.

(** The kernel's [NET_IP_ALIGN], which depends on the architecture. *)
Context (NET_IP_ALIGN : Z).

(** ** Setting up *)

Definition ccat_eth_priv_free (priv : ccat_eth_priv) : M E ccat_eth_priv :=
  ccat_eth_fifo_hw_reset (rx_fifo priv) ;;
  ccat_eth_fifo_hw_reset (tx_fifo priv) ;;
  rx ← ccat_dma_free (dma_mem (rx_fifo priv));
  tx ← ccat_dma_free (dma_mem (tx_fifo priv));
  mret (set_tx_fifo (set_dma_mem tx (tx_fifo priv)) (set_rx_fifo (set_dma_mem rx (rx_fifo priv)) priv)).

Definition ccat_hw_disable_mac_filter (priv : ccat_eth_priv) : M E Z :=
  iowrite W8 0 (r_mii (p_reg priv) + 0x8 + 6) ;;
  wmb ;;
  mret 0.

Definition ccat_eth_priv_init_dma (priv : ccat_eth_priv) : M E (Z * ccat_eth_priv) :=
  let pdev := d_pdev (f_ccat (p_func priv)) in
  let bar2 := bar_2 (f_ccat (p_func priv)) in
  let rx_chan := rx_dma_chan (f_info (p_func priv)) in
  let tx_chan := tx_dma_chan (f_info (p_func priv)) in
  '(status, rx) ← ccat_dma_init pdev rx_chan bar2 (set_ops dma_rx_fifo_ops (rx_fifo priv));
  let priv := set_rx_fifo rx priv in
  if istrue status then mret (status, priv)
  else
    '(status, tx) ← ccat_dma_init pdev tx_chan bar2 (set_ops dma_tx_fifo_ops (tx_fifo priv));
    let priv := set_tx_fifo tx priv in
    if istrue status
    then
      dm ← ccat_dma_free (dma_mem (rx_fifo priv));
      mret (status, set_rx_fifo (set_dma_mem dm (rx_fifo priv)) priv)
    else
      status ← ccat_hw_disable_mac_filter priv;
      mret (status, priv).

Definition ccat_eth_priv_init_eim (priv : ccat_eth_priv) : M E (Z * ccat_eth_priv) :=
  rx ← fifo_set_end (set_ops eim_rx_fifo_ops (set_start (r_rx_mem (p_reg priv)) (rx_fifo priv)))
                    sizeof_frame;
  let priv := set_rx_fifo rx priv in
  tx ← fifo_set_end (set_ops eim_tx_fifo_ops (set_start (r_tx_mem (p_reg priv)) (tx_fifo priv)))
                    (tx_size (f_info (p_func priv)));
  let priv := set_tx_fifo tx priv in
  status ← ccat_hw_disable_mac_filter priv;
  mret (status, priv).

Definition ccat_eth_priv_init_reg (priv : ccat_eth_priv) : M E ccat_eth_priv :=
  let base := func_base (p_func priv) in
  l ← ioread_bytes base (Z.to_nat sizeof_mac_infoblock);
  let offsets := mac_infoblock_of_bytes l in
  let tx := set_reg (base + o_tx_fifo offsets) (tx_fifo priv) in
  let rx := set_reg (base + o_tx_fifo offsets + 0x10) (rx_fifo priv) in
  mret (Priv (p_func priv) (p_netdev priv)
          (EthReg (base + o_mii offsets) (base + o_mac offsets) (base + o_rx_mem offsets)
                  (base + o_tx_mem offsets) (base + o_misc offsets)) rx tx).

(** ** Transmission *)

(** A drop: [atomic64_inc(&fifo->dropped)], the buffer is freed, the frame counts as sent. *)
Definition xmit_drop (skb : sk_buff) (priv : ccat_eth_priv) : M E (Z * ccat_eth_priv) :=
  let fifo := set_dropped (u64 (dropped (tx_fifo priv) + 1)) (tx_fifo priv) in
  kern_ (DevKfreeSkbAny (skb_ptr skb)) ;;
  mret (NETDEV_TX_OK, set_tx_fifo fifo priv).

Definition ccat_eth_start_xmit (skb : sk_buff) (priv : ccat_eth_priv) : M E (Z * ccat_eth_priv) :=
  let fifo := tx_fifo priv in
  let mac := r_mac (p_reg priv) in
  if skb_nonlinear skb then xmit_drop skb priv
  else if MAX_PAYLOAD_SIZE <? skb_len skb then xmit_drop skb priv
  else
    r ← ops_ready mac fifo;
    if negb (istrue r)
    then kern_ (NetifStopQueue (p_netdev priv)) ;; mret (NETDEV_TX_BUSY, priv)
    else
      ops_skb fifo skb ;;
      let fifo := set_bytes (u64 (bytes fifo + skb_len skb)) fifo in
      kern_ (DevKfreeSkbAny (skb_ptr skb)) ;;
      let fifo := ccat_eth_fifo_inc fifo in
      r ← ops_ready mac fifo;
      (if negb (istrue r) then kern_ (NetifStopQueue (p_netdev priv)) else mret tt) ;;
      mret (NETDEV_TX_OK, set_tx_fifo fifo priv).

(** The allocation is not checked: without memory the next statement writes through NULL. *)
Definition ccat_eth_xmit_raw (priv : ccat_eth_priv) (data : list Z) : M E ccat_eth_priv :=
  p ← kern (DevAllocSkb (zlen data));
  if p =? 0 then oops
  else
    '(_, priv) ← ccat_eth_start_xmit (Skb p false data) priv;
    mret priv.

(** ** Reception *)

Definition ccat_eth_receive (priv : ccat_eth_priv) (len : Z) : M E ccat_eth_priv :=
  p ← kern (DevAllocSkb (len + NET_IP_ALIGN));
  let fifo := rx_fifo priv in
  if p =? 0 then mret (set_rx_fifo (set_dropped (u64 (dropped fifo + 1)) fifo) priv)
  else
    data ← ops_copy_to_skb fifo len;
    let fifo := set_bytes (u64 (bytes fifo + len)) fifo in
    kern_ (NetifRx p data) ;;
    mret (set_rx_fifo fifo priv).

(** ** The polling timer *)

Definition ccat_eth_link_down (dev : Z) : M E unit :=
  kern_ (NetifStopQueue dev) ;;
  kern_ (NetifCarrierOff dev).

Definition ccat_eth_link_up (priv : ccat_eth_priv) : M E ccat_eth_priv :=
  rx ← ccat_eth_fifo_reset (rx_fifo priv);
  let priv := set_rx_fifo rx priv in
  tx ← ccat_eth_fifo_reset (tx_fifo priv);
  let priv := set_tx_fifo tx priv in
  priv ← ccat_eth_xmit_raw priv frameForwardEthernetFrames;
  kern_ (NetifCarrierOn (p_netdev priv)) ;;
  kern_ (NetifStartQueue (p_netdev priv)) ;;
  mret priv.

Definition ccat_eth_priv_read_link_state (priv : ccat_eth_priv) : M E Z :=
  v ← ioread W32 (r_mii (p_reg priv) + 0x8 + 4);
  mret (b2z (istrue (Z.land v (Z.shiftl 1 24)))).

Definition poll_link (priv : ccat_eth_priv) : M E ccat_eth_priv :=
  link ← ccat_eth_priv_read_link_state priv;
  ok ← kern (NetifCarrierOk (p_netdev priv));
  if negb (link =? b2z (istrue ok))
  then
    if istrue link then ccat_eth_link_up priv
    else ccat_eth_link_down (p_netdev priv) ;; mret priv
  else mret priv.

(** The loop [while (len && --rx_per_poll)]: [n] is [rx_per_poll] before the test, which starts
    positive and stops the loop when it reaches 0. *)
Fixpoint poll_rx_loop (n : nat) (priv : ccat_eth_priv) (len : Z) : M E ccat_eth_priv :=
  match n with
  | S (S _ as n') =>
      if istrue len
      then
        priv ← ccat_eth_receive priv len;
        ops_add (rx_fifo priv) ;;
        let priv := set_rx_fifo (ccat_eth_fifo_inc (rx_fifo priv)) priv in
        len ← ops_ready (r_mac (p_reg priv)) (rx_fifo priv);
        poll_rx_loop n' priv len
      else mret priv
  | _ => mret priv
  end.

Definition poll_rx (priv : ccat_eth_priv) : M E ccat_eth_priv :=
  let rx_per_poll := Z.to_nat (FIFO_LENGTH / 2) in
  len ← ops_ready (r_mac (p_reg priv)) (rx_fifo priv);
  poll_rx_loop rx_per_poll priv len.

Definition poll_tx (priv : ccat_eth_priv) : M E unit :=
  r ← ops_ready (r_mac (p_reg priv)) (tx_fifo priv);
  if istrue r then kern_ (NetifWakeQueue (p_netdev priv)) else mret tt.

(** It always asks to be started again. *)
Definition poll_timer_callback (priv : ccat_eth_priv) : M E ccat_eth_priv :=
  priv ← poll_link priv;
  priv ← poll_rx priv;
  poll_tx priv ;;
  kern_ HrtimerForwardNow ;;
  mret priv.

(** ** The network device *)

Definition ccat_eth_get_stats64 (priv : ccat_eth_priv) : M E rtnl_link_stats64 :=
  l ← ioread_bytes (r_mac (p_reg priv)) (Z.to_nat sizeof_mac_register);
  let mac := mac_register_of_bytes l in
  mret (Stats (rx_frames mac) (tx_frames mac)
          (bytes (rx_fifo priv)) (bytes (tx_fifo priv))
          (frame_len_err mac + rx_mem_full mac + crc_err mac + rx_err mac) (tx_mem_full mac)
          (dropped (rx_fifo priv)) (dropped (tx_fifo priv))
          (frame_len_err mac) (rx_mem_full mac) (crc_err mac) (rx_err mac) (rx_mem_full mac)).

Definition ccat_eth_open (priv : ccat_eth_priv) : M E Z :=
  kern_ HrtimerStart ;;
  mret 0.

Definition ccat_eth_stop (priv : ccat_eth_priv) : M E Z :=
  kern_ (NetifStopQueue (p_netdev priv)) ;;
  kern_ HrtimerCancel ;;
  mret 0.

Definition ccat_eth_alloc_netdev (func : ccat_function) : M E (option ccat_eth_priv) :=
  netdev ← kern AllocEtherdev;
  if netdev =? 0 then mret None
  else
    priv ← ccat_eth_priv_init_reg (zero_priv func netdev);
    mret (Some priv).

(** Returns the status and [func->private_data]. *)
Definition ccat_eth_init_netdev (priv : ccat_eth_priv) : M E (Z * option ccat_eth_priv) :=
  mac_addr ← ioread_bytes (r_mii (p_reg priv) + 8) 6;
  valid ← kern (IsValidEtherAddr mac_addr);
  if negb (istrue valid) then mret (- EADDRNOTAVAIL, None)
  else
    kern_ (EthHwAddrSet (p_netdev priv) mac_addr) ;;
    kern_ (NetifCarrierOff (p_netdev priv)) ;;
    status ← kern (RegisterNetdev (p_netdev priv));
    if istrue status
    then
      ccat_eth_priv_free priv ;;
      kern_ (FreeNetdev (p_netdev priv)) ;;
      mret (status, None)
    else mret (0, Some priv).

Definition ccat_eth_dma_probe (func : ccat_function) : M E (Z * option ccat_eth_priv) :=
  p ← ccat_eth_alloc_netdev func;
  match p with
  | None => mret (- ENOMEM, None)
  | Some priv =>
      '(status, priv) ← ccat_eth_priv_init_dma priv;
      if istrue status then kern_ (FreeNetdev (p_netdev priv)) ;; mret (status, None)
      else ccat_eth_init_netdev priv
  end.

Definition ccat_eth_dma_remove (eth : ccat_eth_priv) : M E unit :=
  kern_ (UnregisterNetdev (p_netdev eth)) ;;
  ccat_eth_priv_free eth ;;
  kern_ (FreeNetdev (p_netdev eth)).

Definition ccat_eth_eim_probe (func : ccat_function) : M E (Z * option ccat_eth_priv) :=
  p ← ccat_eth_alloc_netdev func;
  match p with
  | None => mret (- ENOMEM, None)
  | Some priv =>
      '(status, priv) ← ccat_eth_priv_init_eim priv;
      if istrue status then kern_ (FreeNetdev (p_netdev priv)) ;; mret (status, None)
      else ccat_eth_init_netdev priv
  end.

Definition ccat_eth_eim_remove (eth : ccat_eth_priv) : M E unit :=
  kern_ (UnregisterNetdev (p_netdev eth)) ;;
  ccat_eth_priv_free eth ;;
  kern_ (FreeNetdev (p_netdev eth)).

Definition ccat_eth_init : M E Z :=
  result ← kern (PlatformDriverRegister "ccat_eth_eim");
  if negb (result =? 0) then mret result
  else kern (PlatformDriverRegister "ccat_eth_dma").

Definition ccat_eth_exit : M E unit :=
  kern_ (PlatformDriverUnregister "ccat_eth_eim") ;;
  kern_ (PlatformDriverUnregister "ccat_eth_dma").

End Operations.
