(* ===== verification/NetProbe.v ===== *)
(** * Probing and removing the network device, and one transmission in detail

    An account of the network device, its registration and its DMA memory through the probe and
    remove functions of both variants, on every path; what one call of [ccat_eth_start_xmit] does on
    every branch; the statistics; the faults without memory. *)

From S2P Require Import Prelude IO Info NetFifo Netdev.

(** ** Resources *)

Inductive net_resource :=
  | NNetdev (d : Z)         (* an allocated network device *)
  | NRegistered (d : Z)     (* registered with the network stack *)
  | NDma (base : Z).        (* DMA memory *)

#[export] Instance net_resource_eq_dec : EqDecision net_resource.
Proof. solve_decision. Defined.

Definition net_hold (ev : event) (h : list net_resource) : option (list net_resource) :=
  let v := r_val (ev_resp ev) in
  match ev_call ev with
  | Kernel AllocEtherdev => Some (if v =? 0 then h else NNetdev v :: h)
  | Kernel (FreeNetdev d) => give_back (NNetdev d) h
  | Kernel (RegisterNetdev d) => Some (if v =? 0 then NRegistered d :: h else h)
  | Kernel (UnregisterNetdev d) => give_back (NRegistered d) h
  | Kernel (DmaAllocCoherent _) => Some (if v =? 0 then h else NDma v :: h)
  | Kernel (DmaFreeCoherent _ base _) => give_back (NDma base) h
  | _ => Some h
  end.

Definition net_held (t : list event) : option (list net_resource) := held_from net_hold [] t.

#[export] Instance net_ledger : Ledger net_hold.
Proof.
  split; intros [c r]; unfold net_hold; cbn [ev_call ev_resp].
  - intros h h' k. destruct c as [| | | | |[]]; try apply give_back_frame;
      try destruct (r_val r =? 0); by intros [= <-].
  - intros h1 h1' h2. destruct c as [| | | | |[]]; try apply give_back_perm;
      try destruct (r_val r =? 0); intros [= <-] Hp; eauto using Permutation_cons.
Qed.

(** Calls that have nothing to do with them. *)
Definition neutral (c : call) : Prop :=
  match c with
  | Kernel AllocEtherdev | Kernel (FreeNetdev _) | Kernel (RegisterNetdev _)
  | Kernel (UnregisterNetdev _) | Kernel (DmaAllocCoherent _) | Kernel (DmaFreeCoherent _ _ _)
  | Kernel (IsValidEtherAddr _) => False
  | _ => True
  end.

Lemma neutral_hold h t : Forall neutral (calls t) -> held_from net_hold h t = Some h.
Proof. apply held_neutral. intros [c r] Hc. by destruct c as [| | | | |[]]. Qed.

(** The DMA memory the kernel gave at the device address 0, which [ccat_dma_init] takes for a failure
    without giving it back (netdev.c:258). *)
Definition at_zero (t : list event) : list net_resource :=
  omap (fun ev => match ev_call ev with
    | Kernel (DmaAllocCoherent _) =>
        if r_val (ev_resp ev) =? 0 then None
        else if r_out (ev_resp ev) =? 0 then Some (NDma (r_val (ev_resp ev))) else None
    | _ => None end) t.

(** How often a run found a MAC address invalid. *)
Definition bad_macs (t : list event) : nat :=
  length (omap (fun ev => match ev_call ev with
    | Kernel (IsValidEtherAddr _) => if r_val (ev_resp ev) =? 0 then Some tt else None
    | _ => None end) t).

Lemma at_zero_app t t' : at_zero (t ++ t') = at_zero t ++ at_zero t'.
Proof. apply omap_app. Qed.
Lemma bad_macs_app t t' : bad_macs (t ++ t') = (bad_macs t + bad_macs t')%nat.
Proof. unfold bad_macs. by rewrite omap_app, length_app. Qed.

(** Neither happens in a run that does not ask. *)
Lemma at_zero_none t :
  Forall (fun c => match c with Kernel (DmaAllocCoherent _) => False | _ => True end) (calls t) -> at_zero t = [].
Proof.
  induction t as [|[c r] t IH]; [done|]. intros [Hc Ht]%Forall_cons. specialize (IH Ht). simpl in *.
  by destruct c as [| | | | |[]].
Qed.

Lemma bad_macs_none t :
  Forall (fun c => match c with Kernel (IsValidEtherAddr _) => False | _ => True end) (calls t) -> bad_macs t = 0%nat.
Proof.
  unfold bad_macs. induction t as [|[c r] t IH]; [done|]. intros [Hc Ht]%Forall_cons. specialize (IH Ht). simpl in *.
  by destruct c as [| | | | |[]].
Qed.

Lemma neutral_silent t : Forall neutral (calls t) -> at_zero t = [] /\ bad_macs t = 0%nat.
Proof.
  intros Ht. split; [apply at_zero_none | apply bad_macs_none]; (eapply Forall_impl; [exact Ht|]);
    intros c; by destruct c as [| | | | |[]].
Qed.

Section Probe.
Context {E : Type} `{Env E}.

(** A neutral computation between two points of the account. *)
Lemma wp_neutral {A} (m : M E A) (e : E) Q :
  forall_calls neutral m -> wp m e Q ->
  wp m e (fun a t e' => Q a t e' /\ forall h, held_from net_hold h t = Some h).
Proof.
  intros Hn Hw. eapply wp_conseq; [by apply (wp_forall_calls _ neutral)|].
  intros a t e' [HQ Ht]. split; [done|]. intros h. by apply neutral_hold.
Qed.

Lemma ioread_bytes_neutral a k : forall_calls neutral (ioread_bytes a k : M E (list Z)).
Proof. revert a. induction k as [|k IH]; intros a; simpl; fc_run; done || apply IH. Qed.

Lemma ops_add_neutral f : forall_calls neutral (ops_add f : M E unit).
Proof.
  unfold ops_add, ccat_eth_rx_fifo_dma_add, ccat_eth_tx_fifo_dma_add_free, fifo_eim_rx_add, fifo_eim_tx_add.
  by fc_run.
Qed.

Lemma reset_loop_neutral fuel f : forall_calls neutral (reset_loop fuel f : M E _).
Proof.
  revert f. induction fuel as [|fuel IH]; intros f; cbn [reset_loop]; fc_run; auto using ops_add_neutral.
Qed.

Lemma reset_neutral f : forall_calls neutral (ccat_eth_fifo_reset f : M E _).
Proof.
  unfold ccat_eth_fifo_reset, ccat_eth_fifo_hw_reset.
  fc_run; try done; apply reset_loop_neutral.
Qed.

Lemma reset_held f (e : E) :
  ops f <> NoOps ->
  wp (ccat_eth_fifo_reset f) e (fun f' t _ => f' = set_next (start f) f /\
    forall h, held_from net_hold h t = Some h).
Proof.
  intros Ho. eapply wp_conseq; [apply wp_neutral; [apply reset_neutral | by apply reset_spec]|].
  by intros f' t e' [[-> _] Ht].
Qed.

(** The DMA memory of a device, in the order of the account. *)
Definition dma_of (f : ccat_eth_fifo) : list net_resource :=
  if dm_base (dma_mem f) =? 0 then [] else [NDma (dm_base (dma_mem f))].
Definition dma_held (priv : ccat_eth_priv) : list net_resource :=
  dma_of (tx_fifo priv) ++ dma_of (rx_fifo priv).

(** The memory of a DMA FIFO, in the account: a set-up that fails leaves memory behind only when it
    is at the device address 0. *)
Lemma dma_init_held pdev ch bar2 fifo (e : E) :
  ops fifo <> NoOps ->
  wp (ccat_dma_init pdev ch bar2 fifo) e (fun '(r, f) t _ =>
    (r = 0 /\ dm_base (dma_mem f) <> 0 /\ at_zero t = [] \/ r <> 0 /\ at_zero t = dma_of f) /\
    bad_macs t = 0%nat /\ forall h, held_from net_hold h t = Some (dma_of f ++ h)).
Proof.
  intros Ho. unfold ccat_dma_init, fifo_set_end. wp_run. unfold dma_of.
  set (r := (ext _ e).1). destruct (Z.eqb_spec (r_val r) 0) as [Hz|Hz]; cbn [orb].
  { wp_run. cbn [dma_mem set_dma_mem dm_base]. rewrite Hz. split_and!; [right; split; [done|] | done |].
    - unfold at_zero. cbn [app omap list_omap ev_call ev_resp]. by zknown.
    - intros h. simpl. by rewrite Hz. }
  cbn [dm_phys]. destruct (Z.eqb_spec (r_out r) 0) as [Hp|Hp]; wp_run.
  { cbn [dma_mem set_dma_mem dm_base]. zknown. split_and!; [right; split; [done|] | done |].
    - unfold at_zero. cbn [app omap list_omap ev_call ev_resp]. by zknown.
    - intros h. simpl. by zknown. }
  eapply wp_conseq; [apply wp_forall_calls; [apply reset_neutral | by apply reset_held]|].
  intros f' t e' [[-> Ht] Hn]. destruct (neutral_silent _ Hn) as [Haz Hbm]. wp_run.
  change (dm_base (dma_mem _)) with (r_val r). zknown. split_and!.
  - left. split_and!; [done | done|]. rewrite !at_zero_app, Haz. unfold at_zero. simpl. by zknown.
  - rewrite !bad_macs_app, Hbm. done.
  - intros h. match goal with |- held_from _ _ ([?x] ++ ?l) = _ => change ([x] ++ l) with (x :: l) end.
    rewrite (held_cons _ _ (NDma (r_val r) :: h)).
    + by rewrite held_from_app, Ht.
    + unfold net_hold. cbn [ev_call ev_resp]. by zknown.
Qed.

Lemma hw_reset_held f (e : E) :
  wp (ccat_eth_fifo_hw_reset f) e (fun _ t _ => forall h, held_from net_hold h t = Some h).
Proof. unfold ccat_eth_fifo_hw_reset. destruct (istrue _); by wp_run. Qed.

Lemma dma_free_held dm (e : E) :
  wp (ccat_dma_free dm) e (fun _ t _ =>
    forall h, held_from net_hold h t =
      if dm_base dm =? 0 then Some h else give_back (NDma (dm_base dm)) h).
Proof.
  unfold ccat_dma_free. apply wp_istrue; intros Hb; wp_run; intros h; zknown; [|done].
  unfold app, held_from, net_hold. cbn [ev_call]. by destruct (give_back _ h).
Qed.

Lemma dma_free_silent dm (e : E) :
  wp (ccat_dma_free dm) e (fun _ t _ => at_zero t = [] /\ bad_macs t = 0%nat).
Proof. unfold ccat_dma_free. destruct (istrue _); by wp_run. Qed.

Lemma priv_free_held priv (e : E) :
  wp (ccat_eth_priv_free priv) e (fun _ t _ =>
    forall h, held_from net_hold (dma_held priv ++ h) t = Some h).
Proof.
  unfold ccat_eth_priv_free. apply wp_bind. eapply wp_conseq; [apply hw_reset_held|]. intros ? t1 e1 H1.
  apply wp_bind. eapply wp_conseq; [apply hw_reset_held|]. intros ? t2 e2 H2.
  apply wp_bind. eapply wp_conseq; [apply dma_free_held|]. intros dm3 t3 e3 H3.
  apply wp_bind. eapply wp_conseq; [apply dma_free_held|]. intros dm4 t4 e4 H4. wp_run. intros h.
  rewrite app_nil_r, held_from_app, H1. cbn [mbind option_bind]. rewrite held_from_app, H2.
  cbn [mbind option_bind]. rewrite held_from_app, H3. unfold dma_held, dma_of.
  destruct (dm_base (dma_mem (rx_fifo priv)) =? 0), (dm_base (dma_mem (tx_fifo priv)) =? 0) eqn:Htx;
    simpl app; rewrite ?give_back_second, ?give_back_head; cbn [mbind option_bind];
    rewrite H4, ?Htx, ?give_back_head; done.
Qed.

(** Whether the last thing a run did was to look at the MAC address. *)
Definition at_mac_check (t : list event) : bool :=
  match last (calls t) with Some (Kernel (IsValidEtherAddr _)) => true | _ => false end.

Lemma at_mac_check_last t c r :
  at_mac_check (t ++ [Ev c r]) = match c with Kernel (IsValidEtherAddr _) => true | _ => false end.
Proof.
  unfold at_mac_check. rewrite calls_app. change (calls [Ev c r]) with [c]. by rewrite last_snoc.
Qed.

Lemma at_mac_check_app t t' : t' <> [] -> at_mac_check (t ++ t') = at_mac_check t'.
Proof.
  intros Ht. unfold at_mac_check. rewrite calls_app, last_app.
  destruct (last (calls t')) eqn:Hl; [done|]. apply last_None in Hl. by destruct t'.
Qed.

(** Going through the account one part of the run at a time. *)
Lemma net_app h h' t t' :
  held_from net_hold h t = Some h' -> held_from net_hold h (t ++ t') = held_from net_hold h' t'.
Proof. intros Ht. by rewrite held_from_app, Ht. Qed.

Lemma net_one h h' ev t :
  net_hold ev h = Some h' -> held_from net_hold h ([ev] ++ t) = held_from net_hold h' t.
Proof. apply held_cons. Qed.

Lemma init_netdev_held priv (e : E) :
  wp (ccat_eth_init_netdev priv) e (fun '(r, p) t _ =>
    match p with
    | Some priv' => r = 0 /\ priv' = priv /\ t <> [] /\ at_mac_check t = false /\ forall h,
        held_from net_hold h t = Some (NRegistered (p_netdev priv) :: h)
    | None => r <> 0 /\ forall h,
        held_from net_hold (dma_held priv ++ NNetdev (p_netdev priv) :: h) t =
          Some (if at_mac_check t then dma_held priv ++ NNetdev (p_netdev priv) :: h else h)
    end).
Proof.
  unfold ccat_eth_init_netdev. apply wp_bind.
  eapply wp_conseq; [apply wp_neutral; [apply ioread_bytes_neutral | apply ioread_bytes_any]|].
  intros mac t1 e1 [_ H1]. wp_run. destruct (istrue _); cbn [negb]; wp_run.
  - apply wp_istrue; intros Hst; wp_run.
    + eapply wp_conseq; [apply priv_free_held|]. intros p t2 e2 H2. wp_run. split; [done|]. intros h.
      rewrite app_nil_r, !at_mac_check_app by (done || by destruct t2).
      rewrite (net_app _ _ _ _ (H1 _)). do 3 (erewrite net_one by reflexivity).
      erewrite net_one by (unfold net_hold; cbn [ev_call ev_resp]; zknown; reflexivity).
      rewrite (net_app _ _ _ _ (H2 _)). by rewrite (held_cons _ _ h) by apply give_back_head.
    + split_and!; [done | done | by destruct t1 | by rewrite !at_mac_check_app by done |]. intros h.
      rewrite (net_app _ _ _ _ (H1 _)). do 3 (erewrite net_one by reflexivity). unfold app, held_from, net_hold. cbn [ev_call ev_resp].
      by zknown.
  - split; [done|]. intros h. rewrite app_nil_r, at_mac_check_last. by rewrite (net_app _ _ _ _ (H1 _)).
Qed.

Lemma alloc_netdev_held func (e : E) :
  wp (ccat_eth_alloc_netdev func) e (fun p t _ => at_zero t = [] /\ bad_macs t = 0%nat /\
    match p with
    | None => at_mac_check t = false /\ forall h, held_from net_hold h t = Some h
    | Some priv => dma_held priv = [] /\ forall h,
        held_from net_hold h t = Some (NNetdev (p_netdev priv) :: h)
    end).
Proof.
  unfold ccat_eth_alloc_netdev, ccat_eth_priv_init_reg. wp_run. apply wp_null; intros Hd; wp_run.
  { split_and!; [done..|]. intros h. unfold app, held_from, net_hold. cbn [ev_call ev_resp]. by zknown. }
  eapply wp_conseq; [apply wp_forall_calls; [apply ioread_bytes_neutral | apply ioread_bytes_any]|].
  intros l t e' [_ Hn]. destruct (neutral_silent _ Hn) as [Haz Hbm]. wp_run. rewrite !app_nil_r.
  split; [by rewrite at_zero_app, Haz|]. split; [by rewrite bad_macs_app, Hbm|]. split; [done|]. intros h.
  erewrite net_one by (unfold net_hold; cbn [ev_call ev_resp]; zknown; reflexivity). by rewrite neutral_hold.
Qed.

(** What a probed device holds. *)
Definition eth_held (eth : ccat_eth_priv) : list net_resource :=
  NRegistered (p_netdev eth) :: dma_held eth ++ [NNetdev (p_netdev eth)].

Lemma eth_held_app eth h :
  eth_held eth ++ h = NRegistered (p_netdev eth) :: dma_held eth ++ NNetdev (p_netdev eth) :: h.
Proof. unfold eth_held. simpl. by rewrite <- app_assoc. Qed.

Lemma remove_from eth (e : E) :
  wp (ccat_eth_dma_remove eth) e (fun _ t _ => forall h, held_from net_hold (eth_held eth ++ h) t = Some h).
Proof.
  unfold ccat_eth_dma_remove. wp_run. eapply wp_conseq; [apply priv_free_held|]. intros p t1 e1 H1. wp_run.
  intros h. rewrite eth_held_app. erewrite net_one by apply give_back_head.
  rewrite (net_app _ _ _ _ (H1 _)). by rewrite (held_cons _ _ h) by apply give_back_head.
Qed.

Lemma remove_held eth t0 (e : E) :
  net_held t0 = Some (eth_held eth) ->
  wp (ccat_eth_dma_remove eth) e (fun _ t _ => net_held (t0 ++ t) = Some []).
Proof.
  intros H0. eapply wp_conseq; [apply remove_from|]. intros ? t e' Ht. unfold net_held in *.
  rewrite (net_app _ _ _ _ H0). specialize (Ht []). by rewrite app_nil_r in Ht.
Qed.

(** The end of both probe functions. *)
Lemma init_netdev_lifecycle priv t0 (e : E) :
  net_held t0 = Some (dma_held priv ++ [NNetdev (p_netdev priv)]) ->
  wp (ccat_eth_init_netdev priv) e (fun '(r, p) t e' =>
    match p with
    | Some priv' => r = 0 /\ priv' = priv /\ at_mac_check (t0 ++ t) = false /\
        net_held (t0 ++ t) = Some (eth_held priv)
    | None => r <> 0 /\
        net_held (t0 ++ t) = Some (if at_mac_check (t0 ++ t) then dma_held priv ++ [NNetdev (p_netdev priv)] else [])
    end).
Proof.
  intros H0. eapply wp_conseq; [apply init_netdev_held|]. unfold net_held in *.
  intros [r [p|]] t e'.
  - intros (-> & -> & Hne & Hm & Ht). split_and!; [done | done | by rewrite at_mac_check_app by done |].
    by rewrite (net_app _ _ _ _ H0), Ht.
  - intros [Hr Ht]. split; [done|]. rewrite (net_app _ _ _ _ H0), (Ht []).
    destruct t as [|ev t]; [|by rewrite at_mac_check_app by done].
    specialize (Ht []). simpl in Ht. destruct (dma_held priv); done.
Qed.

(** The MAC address is checked once, at the end or not at all. *)
Lemma init_netdev_macs priv (e : E) :
  wp (ccat_eth_init_netdev priv) e (fun _ t _ =>
    t <> [] /\ bad_macs t = Nat.b2n (at_mac_check t) /\ at_zero t = []).
Proof.
  assert (Hfree : forall_calls (fun c => match c with Kernel (IsValidEtherAddr _) => False | _ => True end)
    (ccat_eth_priv_free priv : M E _)).
  { unfold ccat_eth_priv_free, ccat_eth_fifo_hw_reset, ccat_dma_free. fc_run; done. }
  assert (Hz : forall_calls (fun c => match c with Kernel (DmaAllocCoherent _) => False | _ => True end)
    (ccat_eth_init_netdev priv : M E _)).
  { unfold ccat_eth_init_netdev, ccat_eth_priv_free, ccat_eth_fifo_hw_reset, ccat_dma_free. fc_run; try done.
    eapply forall_calls_impl; [|apply ioread_bytes_neutral]. intros c; by destruct c as [| | | | |[]]. }
  assert (Hw : wp (ccat_eth_init_netdev priv) e (fun _ t _ => t <> [] /\ bad_macs t = Nat.b2n (at_mac_check t))).
  { unfold ccat_eth_init_netdev. apply wp_bind.
    eapply wp_conseq; [apply wp_forall_calls; [apply ioread_bytes_neutral | apply ioread_bytes_any]|].
    intros mac t1 e1 [_ Hn]. destruct (neutral_silent _ Hn) as [_ Hb1]. wp_run.
    match goal with |- context [istrue (r_val ?x)] => set (r := x) in * end.
    unfold istrue. destruct (Z.eqb_spec (r_val r) 0) as [Hr|Hr]; cbn [negb]; wp_run.
    - rewrite app_nil_r, bad_macs_app, Hb1, at_mac_check_last. split; [by destruct t1|].
      unfold bad_macs. simpl. by rewrite Hr.
    - apply wp_istrue; intros Hst; wp_run.
      + eapply wp_conseq; [apply wp_forall_calls; [exact Hfree | apply priv_free_held]|].
        intros p t2 e2 [_ H2]. wp_run. split; [by destruct t1|].
        rewrite app_nil_r, !at_mac_check_app by (done || by destruct t2).
        rewrite !bad_macs_app, Hb1, (bad_macs_none _ H2). unfold bad_macs. simpl. by zknown.
      + split; [by destruct t1|]. rewrite app_nil_r, !at_mac_check_app by done.
        rewrite !bad_macs_app, Hb1. unfold bad_macs. simpl. by zknown. }
  eapply wp_conseq; [apply wp_forall_calls; [exact Hz | exact Hw]|].
  intros x t e' [[H1 H2] H3]. split_and!; [done | done | by apply at_zero_none].
Qed.

(** What is held after a probe with the result [res] and the events [t], by a variant with [k] DMA
    memories: all of the device, which removing gives back; or, after a failure, nothing but the
    memory at the device address 0; except that everything but the registration stays behind when
    the MAC address was found invalid, which is then the last thing that happened. *)
Definition net_balanced (k : nat) (remove : ccat_eth_priv -> M E unit)
    (res : Z * option ccat_eth_priv) (t : list event) (e' : E) : Prop :=
  bad_macs t = Nat.b2n (at_mac_check t) /\
  match res with
  | (r, Some priv) => r = 0 /\ at_mac_check t = false /\ at_zero t = [] /\ length (dma_held priv) = k /\
      net_held t = Some (eth_held priv) /\
      wp (remove priv) e' (fun _ t' _ => net_held (t ++ t') = Some [])
  | (r, None) => r <> 0 /\
      if at_mac_check t
      then at_zero t = [] /\
        exists priv, length (dma_held priv) = k /\ net_held t = Some (dma_held priv ++ [NNetdev (p_netdev priv)])
      else net_held t = Some (at_zero t)
  end.

Lemma init_netdev_balanced k remove priv t0 (e : E) :
  (forall t1 e1, net_held t1 = Some (eth_held priv) ->
     wp (remove priv) e1 (fun _ t _ => net_held (t1 ++ t) = Some [])) ->
  length (dma_held priv) = k -> net_held t0 = Some (dma_held priv ++ [NNetdev (p_netdev priv)]) ->
  at_zero t0 = [] -> bad_macs t0 = 0%nat ->
  wp (ccat_eth_init_netdev priv) e (fun res t e' => net_balanced k remove res (t0 ++ t) e').
Proof.
  intros Hrem Hk H0 Hz Hb. eapply wp_conseq; [apply wp_and; [by apply init_netdev_lifecycle | apply init_netdev_macs]|].
  intros [r p] t e' [Hl (Hne & Hbm & Haz)]. unfold net_balanced. rewrite at_zero_app, Hz, Haz.
  split; [rewrite bad_macs_app, Hb, Hbm, at_mac_check_app by done; done|].
  destruct p as [p|]; simpl in *.
  - destruct Hl as (-> & -> & Hm & Ht). split_and!; auto.
  - destruct Hl as [Hr Ht]. split; [done|]. destruct (at_mac_check _); eauto.
Qed.

Lemma init_dma_held priv (e : E) :
  dma_held priv = [] ->
  wp (ccat_eth_priv_init_dma priv) e (fun '(r, priv') t _ =>
    p_netdev priv' = p_netdev priv /\ bad_macs t = 0%nat /\
    (r = 0 /\ at_zero t = [] /\ length (dma_held priv') = 2%nat /\
       (forall h, held_from net_hold h t = Some (dma_held priv' ++ h)) \/
     r <> 0 /\ (length (at_zero t) <= 1)%nat /\ forall h, held_from net_hold h t = Some (at_zero t ++ h))).
Proof.
  assert (Hone : forall f, (length (dma_of f) <= 1)%nat) by (intros f; unfold dma_of; destruct (_ =? 0); simpl; lia).
  intros Hno. unfold ccat_eth_priv_init_dma. apply wp_bind.
  eapply wp_conseq; [by apply dma_init_held|]. intros [r rx] t1 e1 (Hrx & Hb1 & H1).
  destruct Hrx as [(-> & Hb & Hz1)|[Hr Hz1]].
  2: { rewrite (istrue_nz _ Hr). wp_run. rewrite app_nil_r. split_and!; [done | done |]. right.
       rewrite Hz1. by split_and!. }
  change (istrue 0) with false. cbv iota. apply wp_bind.
  eapply wp_conseq; [by apply dma_init_held|]. intros [r tx] t2 e2 (Htx & Hb2 & H2).
  destruct Htx as [(-> & Hb' & Hz2)|[Hr Hz2]].
  - change (istrue 0) with false. unfold ccat_hw_disable_mac_filter. wp_run.
    split; [done|]. split; [by rewrite !bad_macs_app, Hb1, Hb2|]. left.
    unfold dma_held, dma_of in *. cbn [tx_fifo rx_fifo set_tx_fifo set_rx_fifo]. revert H1 H2. zknown.
    intros H1 H2. split_and!; [done | by rewrite !at_zero_app, Hz1, Hz2 | done |]. intros h.
    rewrite (net_app _ _ _ _ (H1 _)). by rewrite (net_app _ _ _ _ (H2 _)).
  - rewrite (istrue_nz _ Hr). apply wp_bind.
    eapply wp_conseq; [apply wp_and; [apply dma_free_held | apply (dma_free_silent (dma_mem rx))]|].
    intros dm t3 e3 [H3 [Hz3 Hb3]]. wp_run. rewrite app_nil_r.
    split; [done|]. split; [by rewrite !bad_macs_app, Hb1, Hb2, Hb3|]. right.
    rewrite !at_zero_app, Hz1, Hz2, Hz3, app_nil_r. cbn [app]. split_and!; [done | done|]. intros h.
    rewrite (net_app _ _ _ _ (H1 _)), (net_app _ _ _ _ (H2 _)), H3. unfold dma_of.
    cbn [tx_fifo rx_fifo set_tx_fifo set_rx_fifo]. zknown. cbn [app].
    destruct (dm_base (dma_mem tx) =? 0); cbn [app]; [apply give_back_head | apply give_back_second].
Qed.

Lemma init_eim_held priv (e : E) :
  wp (ccat_eth_priv_init_eim priv) e (fun '(r, priv') t _ =>
    r = 0 /\ p_netdev priv' = p_netdev priv /\ dma_held priv' = dma_held priv /\
    Forall neutral (calls t)).
Proof.
  eapply wp_conseq; [apply (wp_forall_calls _ neutral _ _ (fun '(r, p) _ _ =>
    r = 0 /\ p_netdev p = p_netdev priv /\ dma_held p = dma_held priv))|].
  - unfold ccat_eth_priv_init_eim, fifo_set_end, ccat_hw_disable_mac_filter. fc_run; try done; apply reset_neutral.
  - unfold ccat_eth_priv_init_eim, fifo_set_end, ccat_hw_disable_mac_filter.
    apply wp_bind. eapply wp_conseq; [by apply reset_held|]. intros rx t2 e2 [-> H2].
    apply wp_bind. eapply wp_conseq; [by apply reset_held|]. intros tx t3 e3 [-> H3]. by wp_run.
  - intros [r p] t e' [(H1 & H2 & H3) Hn]. by split_and!.
Qed.

Lemma dma_probe_balanced func (e : E) :
  wp (ccat_eth_dma_probe func) e (net_balanced 2 ccat_eth_dma_remove).
Proof.
  unfold ccat_eth_dma_probe. apply wp_bind. eapply wp_conseq; [apply alloc_netdev_held|].
  intros [priv|] t1 e1 (Hz1 & Hb1 & Ha).
  2: { destruct Ha as [Hm H1]. wp_run. unfold net_balanced. rewrite app_nil_r, Hm, Hb1, Hz1. split; [done|].
       split; [done | apply H1]. }
  destruct Ha as [Hno H1]. apply wp_bind. eapply wp_conseq; [by apply init_dma_held|].
  intros [st priv2] t2 e2 (Hnd & Hb2 & Hres). destruct Hres as [(-> & Hz2 & Hk & H2)|(Hst & Hl & H2)].
  - change (istrue 0) with false. cbv iota.
    eapply wp_conseq; [apply (init_netdev_balanced 2 ccat_eth_dma_remove priv2 (t1 ++ t2)); [|done| | |]|].
    + intros t3 e3 H3. by apply (remove_held priv2 t3).
    + unfold net_held. by rewrite (net_app _ _ _ _ (H1 _)), H2, Hnd.
    + by rewrite at_zero_app, Hz1, Hz2.
    + by rewrite bad_macs_app, Hb1, Hb2.
    + intros res t3 e3. by rewrite app_assoc.
  - rewrite (istrue_nz _ Hst). wp_run. unfold net_balanced.
    rewrite app_nil_r, app_assoc, at_mac_check_last, !at_zero_app, !bad_macs_app, Hz1, Hb1, Hb2, app_nil_r.
    split; [done|]. split; [done|]. unfold net_held.
    rewrite (net_app _ (at_zero t2 ++ [NNetdev (p_netdev priv)])) by (by rewrite (net_app _ _ _ _ (H1 _))).
    rewrite Hnd. destruct (at_zero t2) as [|x [|y l]]; [..|simpl in Hl; lia]; cbn [app].
    + by rewrite (held_cons _ _ []) by apply give_back_head.
    + by rewrite (held_cons _ _ [x]) by apply give_back_second.
Qed.

(** C14: the resources of the DMA variant.  A successful probe holds the network device, both DMA
    memories and the registration, and removing the device gives back exactly these.  A probe that
    fails has given back everything, wherever it failed, with two exceptions: when the MAC address
    was found invalid, the network device and both DMA memories stay behind; and a DMA memory that
    the kernel placed at the device address 0, which the driver takes for a failed allocation, stays
    behind. *)
Theorem ccat_eth_dma_lifecycle func (e : E) :
  wp (ccat_eth_dma_probe func) e (net_balanced 2 ccat_eth_dma_remove).
Proof. apply dma_probe_balanced. Qed.

(** The resources of the EIM variant, which has no DMA memory: a successful probe holds the
    network device and its registration, removing gives both back, and a failed probe holds
    nothing, except the network device when the MAC address is invalid. *)
Lemma ccat_eth_eim_lifecycle func (e : E) :
  wp (ccat_eth_eim_probe func) e (net_balanced 0 ccat_eth_eim_remove).
Proof.
  unfold ccat_eth_eim_probe. apply wp_bind. eapply wp_conseq; [apply alloc_netdev_held|].
  intros [priv|] t1 e1 (Hz1 & Hb1 & Ha).
  2: { destruct Ha as [Hm H1]. wp_run. unfold net_balanced. rewrite app_nil_r, Hm, Hb1, Hz1. split; [done|].
       split; [done | apply H1]. }
  destruct Ha as [Hno H1]. apply wp_bind. eapply wp_conseq; [by apply init_eim_held|].
  intros [st priv2] t2 e2 (-> & Hnd & Hdma & Hn2). change (istrue 0) with false. cbv iota.
  destruct (neutral_silent _ Hn2) as [Hz2 Hb2].
  eapply wp_conseq; [apply (init_netdev_balanced 0 ccat_eth_eim_remove priv2 (t1 ++ t2))|].
  - intros t3 e3 H3. by apply (remove_held priv2 t3).
  - by rewrite Hdma, Hno.
  - unfold net_held. by rewrite (net_app _ _ _ _ (H1 _)), neutral_hold, Hnd, Hdma, Hno.
  - by rewrite at_zero_app, Hz1, Hz2.
  - by rewrite bad_macs_app, Hb1, Hb2.
  - intros res t3 e3. by rewrite app_assoc.
Qed.

(** ** One transmission *)

(** How the driver asks whether the frame at [next] is free, and what it takes for yes. *)
Definition tx_ready_call (mac : Z) (f : ccat_eth_fifo) : call :=
  match ops f with
  | dma_tx_fifo_ops => MemRead W32 (next f + dma_tx_flags)
  | _ => IoRead W8 (mac + 0x20)
  end.
Definition tx_is_ready (f : ccat_eth_fifo) (v : resp) : bool :=
  match ops f with
  | dma_tx_fifo_ops => Z.testbit (u32 (r_val v)) 0
  | _ => Z.land (u8 (r_val v)) 0x3F =? 0
  end.

(** The stores and the register write that queue a frame. *)
Definition queue_calls (f : ccat_eth_fifo) (skb : sk_buff) : list call :=
  match ops f with
  | dma_tx_fifo_ops =>
      MemWrite W32 (next f + dma_tx_flags) 0 :: MemWrite W16 (next f + dma_length) (u16 (skb_len skb)) ::
      byte_writes (next f + sizeof_dma_hdr) (skb_data skb) ++
      [IoWrite W32 (f_reg f) (tx_word (next f - start f) (skb_len skb))]
  | _ =>
      MemWrite W16 (next f + eim_length) (u16 (skb_len skb)) ::
      byte_writes (next f + sizeof_eim_hdr) (skb_data skb) ++
      [IoWrite W32 (f_reg f) (u32 (next f - start f))]
  end.

Definition is_tx (f : ccat_eth_fifo) : Prop := ops f = dma_tx_fifo_ops \/ ops f = eim_tx_fifo_ops.

Lemma tx_ready_spec mac f (e : E) :
  is_tx f ->
  wp (ops_ready mac f) e (fun r t _ => exists v,
    t = [Ev (tx_ready_call mac f) v] /\ istrue r = tx_is_ready f v).
Proof.
  intros Hf. unfold ops_ready, tx_ready_call, tx_is_ready. destruct Hf as [-> | ->].
  - unfold fifo_dma_tx_ready. wp_run. eexists. split; [done|]. untrunc.
    change CCAT_FRAME_SENT with (Z.shiftl 1 0). by rewrite istrue_land_pow2.
  - unfold fifo_eim_tx_ready. wp_run. eexists. split; [done|]. untrunc.
    unfold lnot_c. by destruct (_ =? 0).
Qed.

Lemma tx_queue_spec f skb (e : E) :
  is_tx f -> wp (ops_skb f skb) e (fun _ t _ => calls t = queue_calls f skb).
Proof.
  intros Hf. unfold ops_skb, queue_calls. destruct Hf as [-> | ->]; [apply queue_skb_calls|].
  unfold fifo_eim_queue_skb. wp_run. eapply wp_conseq; [apply memwrite_bytes_calls|].
  intros ? t e' Ht. wp_run. untrunc. simpl. rewrite calls_app, Ht. simpl. rewrite u32_idem.
  unfold u16. by rewrite Z.mod_mod by lia.
Qed.

(** C24: one call of [ccat_eth_start_xmit], in both variants.  A buffer with fragments or longer
    than the maximum is freed and counted as dropped, and the ring is not looked at.  Otherwise the
    driver looks at the frame at [next]: if it is not free, it stops the queue and keeps nothing
    of the buffer, which stays the kernel's; if it is, the frame is queued, the buffer freed once
    and its bytes counted, the ring advances by one, and the queue is stopped exactly when the
    next frame is not free. *)
Theorem ccat_eth_start_xmit_cases skb priv (e : E) :
  let f := tx_fifo priv in
  let mac := r_mac (p_reg priv) in
  is_tx f ->
  wp (ccat_eth_start_xmit skb priv) e (fun '(r, priv') t _ =>
    if skb_nonlinear skb || (MAX_PAYLOAD_SIZE <? skb_len skb)
    then r = NETDEV_TX_OK /\ calls t = [Kernel (DevKfreeSkbAny (skb_ptr skb))] /\
         priv' = set_tx_fifo (set_dropped (u64 (dropped f + 1)) f) priv
    else exists v t', t = Ev (tx_ready_call mac f) v :: t' /\
      if tx_is_ready f v
      then let f' := ccat_eth_fifo_inc (set_bytes (u64 (bytes f + skb_len skb)) f) in
        r = NETDEV_TX_OK /\ priv' = set_tx_fifo f' priv /\
        exists v', calls t' = queue_calls f skb ++
          Kernel (DevKfreeSkbAny (skb_ptr skb)) :: tx_ready_call mac f' ::
          (if tx_is_ready f' v' then [] else [Kernel (NetifStopQueue (p_netdev priv))])
      else r = NETDEV_TX_BUSY /\ priv' = priv /\ calls t' = [Kernel (NetifStopQueue (p_netdev priv))]).
Proof.
  intros f mac Hf. unfold ccat_eth_start_xmit. fold f mac.
  destruct (skb_nonlinear skb); cbn [orb]; [unfold xmit_drop; by wp_run|].
  destruct (MAX_PAYLOAD_SIZE <? skb_len skb); [unfold xmit_drop; by wp_run|].
  apply wp_bind. eapply wp_conseq; [by apply tx_ready_spec|]. intros r t1 e1 (v & -> & ->).
  destruct (tx_is_ready f v) eqn:Hr; cbn [negb].
  2: { wp_run. eexists _, _. split; [done|]. by rewrite Hr. }
  apply wp_bind. eapply wp_conseq; [by apply tx_queue_spec|]. intros ? t2 e2 H2. wp_run.
  set (f1 := set_bytes _ f). assert (Hf1 : is_tx (ccat_eth_fifo_inc f1)).
  { unfold ccat_eth_fifo_inc. by destruct (_ <? _). }
  eapply wp_conseq; [by apply tx_ready_spec|]. intros r' t3 e3 (v' & -> & ->).
  destruct (tx_is_ready (ccat_eth_fifo_inc f1) v') eqn:Hr'; cbn [negb]; wp_run;
    (eexists _, _; split; [done|]; rewrite Hr; split_and!; [done..|]; exists v';
     rewrite Hr', calls_app, H2; done).
Qed.

(** Two faults without memory: transmitting a raw buffer, which happens whenever the link comes
    up, writes through the NULL pointer when no buffer can be allocated, while a received frame is
    dropped and counted, with nothing handed over and the frame left as it is. *)
Lemma ccat_eth_no_memory ip priv data len (e : E) :
  (forall e' n, r_val (ext (Kernel (DevAllocSkb n)) e').1 = 0) ->
  outcome_of (ccat_eth_xmit_raw priv data) e = Oops /\
  wp (ccat_eth_receive ip priv len) e (fun priv' t _ =>
    calls t = [Kernel (DevAllocSkb (len + ip))] /\
    priv' = set_rx_fifo (set_dropped (u64 (dropped (rx_fifo priv) + 1)) (rx_fifo priv)) priv).
Proof.
  intros Hno. split.
  - unfold ccat_eth_xmit_raw. apply outcome_bind. wp_run. by rewrite Hno.
  - unfold ccat_eth_receive. wp_run. rewrite Hno. by wp_run.
Qed.

(** The statistics.  The packet counters are the 32-bit little-endian words at 0x10 and 0x14 of
    the MAC registers; the total of receive errors is the sum of the four kinds reported in
    detail, which are the byte counters at 0x0, 0x1, 0x2 and 0x8; byte and drop counts are the
    FIFOs'. *)
Lemma ccat_eth_get_stats64_values priv size `{!IoMem E (r_mac (p_reg priv)) size} (e : E) :
  0x80 <= size ->
  wp (ccat_eth_get_stats64 priv) e (fun s _ _ =>
    let reg := im (r_mac (p_reg priv)) size e in
    st_tx_packets s = reg 0x10 + 2 ^ 8 * reg 0x11 + 2 ^ 16 * reg 0x12 + 2 ^ 24 * reg 0x13 /\
    st_rx_packets s = reg 0x14 + 2 ^ 8 * reg 0x15 + 2 ^ 16 * reg 0x16 + 2 ^ 24 * reg 0x17 /\
    st_rx_length_errors s = reg 0 /\ st_rx_frame_errors s = reg 1 /\ st_rx_crc_errors s = reg 2 /\
    st_rx_over_errors s = reg 8 /\ st_rx_fifo_errors s = reg 8 /\ st_tx_errors s = reg 0x28 /\
    st_rx_errors s = st_rx_length_errors s + st_rx_over_errors s + st_rx_crc_errors s + st_rx_frame_errors s /\
    0 <= st_rx_errors s < 2 ^ 10 /\
    st_rx_bytes s = bytes (rx_fifo priv) /\ st_tx_bytes s = bytes (tx_fifo priv) /\
    st_rx_dropped s = dropped (rx_fifo priv) /\ st_tx_dropped s = dropped (tx_fifo priv)).
Proof.
  intros Hs. unfold ccat_eth_get_stats64. apply wp_bind. rewrite <- (Z.add_0_r (r_mac (p_reg priv))) at 1.
  eapply wp_conseq; [apply ioread_bytes_mem; [lia|]|].
  { change (Z.of_nat (Z.to_nat sizeof_mac_register)) with 0x80. lia. }
  intros l t e' [-> _]. wp_run. cbv zeta.
  set (reg := im (r_mac (p_reg priv)) size e).
  assert (Hb : forall a, 0 <= reg a < 256) by (intros a; apply im_byte).
  change (Z.to_nat sizeof_mac_register) with 128%nat.
  assert (Hmac : mac_register_of_bytes (fslice reg 0 128) =
    MacReg (reg 0) (reg 1) (reg 2) (reg 8)
      (reg 0x10 + 256 * (reg 0x11 + 256 * (reg 0x12 + 256 * (reg 0x13 + 256 * 0))))
      (reg 0x14 + 256 * (reg 0x15 + 256 * (reg 0x16 + 256 * (reg 0x17 + 256 * 0)))) (reg 0x28))
    by reflexivity.
  rewrite Hmac. cbn [rx_frames tx_frames frame_len_err rx_err crc_err rx_mem_full tx_mem_full
    st_tx_packets st_rx_packets st_rx_length_errors st_rx_frame_errors st_rx_crc_errors st_rx_over_errors
    st_rx_fifo_errors st_tx_errors st_rx_errors st_rx_bytes st_tx_bytes st_rx_dropped st_tx_dropped].
  pose proof (Hb 0). pose proof (Hb 1). pose proof (Hb 2). pose proof (Hb 8).
  split_and!; done || lia.
Qed.

End Probe.

(** ** Witnesses *)

Definition probe_env : Env unit := fun c e =>
  match c with
  | Kernel (DmaAllocCoherent _) => (Resp 0x100000 0x112345000, e)
  | Kernel AllocEtherdev => (Resp 5 0, e)
  | Kernel (IsValidEtherAddr _) => (Resp 1 0, e)
  | _ => (Resp 0 0, e)
  end.

Definition eth_func : ccat_function :=
  Function_ (Device 1 1 0x1000000 0x2000000) (Info (info_code CCATINFO_ETHERCAT_MASTER_DMA) 0 0 0 0).

(** That probe succeeds. *)
Example probe_env_succeeds :
  exists p, outcome_of (ccat_eth_dma_probe (H := probe_env) eth_func) tt = Ret (0, Some p).
Proof. eexists. vm_compute. reflexivity. Qed.

Definition eth_priv : ccat_eth_priv :=
  Priv eth_func 5 (EthReg 0x100 0x200 0x300 0x400 0x500) (small_fifo dma_rx_fifo_ops)
       (small_fifo dma_tx_fifo_ops).

Lemma ccat_eth_start_xmit_cases_witness :
  exists t, ccat_eth_start_xmit (H := probe_env) (small_skb 3000) eth_priv tt =
    (Ret (NETDEV_TX_OK, set_tx_fifo (set_dropped 1 (small_fifo dma_tx_fifo_ops)) eth_priv), t, tt) /\
    calls t = [Kernel (DevKfreeSkbAny 0x900)].
Proof.
  pose proof (ccat_eth_start_xmit_cases (H := probe_env) (small_skb 3000) eth_priv tt) as Hw.
  apply wp_elim in Hw as ([r p] & t & [] & Hrun & Hpost); [|by left].
  change (skb_nonlinear (small_skb 3000) || (MAX_PAYLOAD_SIZE <? skb_len (small_skb 3000))) with true in Hpost.
  destruct Hpost as (-> & Ht & ->). exists t. split; [exact Hrun | exact Ht].
Defined.

Definition mac_env : Env (Z -> Z) := fun c m =>
  match c with
  | IoRead W8 a => (Resp (u8 (m (a - 0x200))) 0, m)
  | IoWrite W8 a v => (Resp 0 0, upd m (a - 0x200) v)
  | _ => (Resp 0 0, m)
  end.

#[export] Instance mac_env_mem : @IoMem (Z -> Z) mac_env 0x200 0x80.
Proof.
  unshelve refine (@Build_IoMem _ mac_env _ _ (fun m a => u8 (m a)) _ _ _ _).
  - intros. apply u8_byte.
  - intros m a Ha. unfold ext, mac_env. cbn [fst snd r_val]. by rewrite Z.add_simpl_l.
  - intros m a v Ha Hv b. unfold ext, mac_env. cbn [fst snd]. rewrite Z.add_simpl_l. unfold upd.
    destruct (b =? a); [by apply u8_small | done].
  - intros m k Hk b. done.
Defined.

Lemma ccat_eth_get_stats64_values_witness :
  exists s t m, ccat_eth_get_stats64 (H := mac_env) eth_priv (fun a => a) = (Ret s, t, m) /\
    st_rx_packets s = 0x17161514 /\ st_rx_errors s = 11.
Proof.
  pose proof (ccat_eth_get_stats64_values (H := mac_env) eth_priv 0x80 (fun a => a)) as Hw.
  apply wp_elim in Hw as (s & t & m & Hrun & _ & Hrx & Hl & Hf & Hc & Ho & _ & _ & Hsum & _); [|lia].
  exists s, t, m. split; [exact Hrun|]. rewrite Hsum, Hl, Hf, Hc, Ho, Hrx. split; reflexivity.
Defined.
