(* ===== verification/NetTx.v ===== *)
(** * Transmission: the queue is awake only when there is room

    The kernel calls [ccat_eth_start_xmit] only while the device's queue is awake; the driver
    treats a full ring at that point as a bug.  Against the interfaces below (what the kernel does
    with the queue and the carrier, what the FPGA does with the flags of the TX frames), this file
    shows that each call into the driver, run to its end, keeps the invariant "an awake queue has a
    free frame at [next]", and that the carrier follows the link; NetRace.v takes the timer callback
    apart and counts the transmissions that come in between.  A buffer can always be missing: what
    the driver then does is part of every statement ([no_buffer]). *)

From S2P Require Import Prelude IO Info NetFifo Netdev.

(** ** Interfaces *)

Definition queue_call (dev : Z) (c : call) : Prop :=
  match c with
  | Kernel (NetifStopQueue d) | Kernel (NetifStartQueue d) | Kernel (NetifWakeQueue d) => d = dev
  | _ => False
  end.

Definition carrier_call (dev : Z) (c : call) : Prop :=
  match c with Kernel (NetifCarrierOn d) | Kernel (NetifCarrierOff d) => d = dev | _ => False end.

(** The kernel's view of the device: its queue and its carrier change only on request. *)
Class NetKernel (E : Type) `{Env E} (dev : Z) := {
  awake : E -> bool;
  carrier : E -> bool;
  nk_stop : forall e, awake (ext (Kernel (NetifStopQueue dev)) e).2 = false;
  nk_start : forall e, awake (ext (Kernel (NetifStartQueue dev)) e).2 = true;
  nk_wake : forall e, awake (ext (Kernel (NetifWakeQueue dev)) e).2 = true;
  nk_on : forall e, carrier (ext (Kernel (NetifCarrierOn dev)) e).2 = true;
  nk_off : forall e, carrier (ext (Kernel (NetifCarrierOff dev)) e).2 = false;
  nk_ok : forall e, istrue (r_val (ext (Kernel (NetifCarrierOk dev)) e).1) = carrier e;
  nk_queue : forall e c, ~ queue_call dev c -> awake (ext c e).2 = awake e;
  nk_carrier : forall e c, ~ carrier_call dev c -> carrier (ext c e).2 = carrier e;
}.
Arguments awake {E _} dev {_} e.
Arguments carrier {E _} dev {_} e.

(** The address of the TX flags of frame [i] of the ring at [base]. *)
Definition flag_at (base : Z) (i : nat) : Z := base + sizeof_frame * Z.of_nat i + dma_tx_flags.

(** A store that may clear the sent flag of frame [i]. *)
Definition clears (base : Z) (i : nat) (c : call) : Prop :=
  match c with
  | MemWrite w a v => a < flag_at base i + 4 /\ flag_at base i < a + Z.of_nat (wbytes w) /\
                      ~ (w = W32 /\ a = flag_at base i /\ v = CCAT_FRAME_SENT)
  | _ => False
  end.

(** The FPGA and the flags of the [n] frames at [base]: the CPU reads what is stored, and between
    the CPU's own stores the FPGA only ever sets a flag. *)
Class TxRing (E : Type) `{Env E} (base : Z) (n : nat) := {
  sent : E -> nat -> bool;
  tx_read : forall e i, (i < n)%nat ->
    Z.land (u32 (r_val (ext (MemRead W32 (flag_at base i)) e).1)) CCAT_FRAME_SENT = b2z (sent e i);
  tx_mark : forall e i, (i < n)%nat -> sent (ext (MemWrite W32 (flag_at base i) CCAT_FRAME_SENT) e).2 i = true;
  tx_mono : forall e c i, (i < n)%nat -> ~ clears base i c -> sent e i = true -> sent (ext c e).2 i = true;
}.
Arguments sent {E _} base n {_} e i.

(** ** The one fault of the timer callback

    The last event is an allocation of a buffer that failed: [ccat_eth_xmit_raw], which every link-up
    calls, does not check it (netdev.c:590).  [ccat_eth_receive] does. *)
Definition no_buffer (t : list event) : Prop :=
  exists t0 k r, t = t0 ++ [Ev (Kernel (DevAllocSkb k)) r] /\ r_val r = 0.

Lemma no_buffer_end : at_end no_buffer.
Proof. intros t t' (t0 & k & r & -> & Hr). exists (t ++ t0), k, r. by rewrite app_assoc. Qed.
#[export] Hint Resolve no_buffer_end : ccat.

Lemma xmit_raw_spec {E} `{Env E} priv data (e : E) Q :
  let c := Kernel (DevAllocSkb (zlen data)) in
  let p := r_val (ext c e).1 in
  (p <> 0 -> wp (ccat_eth_start_xmit (Skb p false data) priv) (ext c e).2
    (fun '(_, priv') t e' => Q priv' (Ev c (ext c e).1 :: t) e')) ->
  wpo no_buffer (ccat_eth_xmit_raw priv data) e Q.
Proof.
  intros c p Hx. unfold ccat_eth_xmit_raw. apply wpo_bind, wp_wpo. wp_run.
  fold c p. destruct (Z.eqb_spec p 0) as [Hp|Hp].
  - by eexists [], _, _.
  - apply wp_wpo, wp_bind. eapply wp_conseq; [by apply Hx|]. intros [r priv'] t e' HQ. wp_run.
    by rewrite app_nil_r.
Qed.

(** ** Reception, whatever is watched

    The RX side of the DMA variant makes few kinds of calls.  A preorder on environments that admits
    them relates the environments before and after any of its functions. *)

(** Neither a store, nor a call about queue or carrier. *)
Definition tame (c : call) : Prop :=
  match c with
  | MemWrite _ _ _ => False
  | Kernel (NetifStopQueue _) | Kernel (NetifStartQueue _) | Kernel (NetifWakeQueue _)
  | Kernel (NetifCarrierOn _) | Kernel (NetifCarrierOff _) => False
  | _ => True
  end.

(** The calls of an RX FIFO with the memory from [lo] to [hi] and the register [reg]. *)
Definition rx_call (lo hi reg : Z) (c : call) : Prop :=
  match c with
  | MemWrite w a _ => lo <= a /\ a + Z.of_nat (wbytes w) <= hi
  | IoWrite w a _ => w = W32 /\ (a = reg \/ a = reg + 0x8)
  | _ => tame c
  end.

Lemma no_memory_tame reg c : rx_call 0 0 reg c -> tame c.
Proof. destruct c as [| | |[] | |]; simpl; done || lia. Qed.

Definition rx_end (f : ccat_eth_fifo) : Z := start f + sizeof_frame * Z.of_nat (nslots f).

Record rx_in (lo hi reg : Z) (f : ccat_eth_fifo) : Prop := {
  ri_ops : ops f = dma_rx_fifo_ops;
  ri_ring : ring f;
  ri_lo : start f = lo;
  ri_hi : rx_end f = hi;
  ri_reg : f_reg f = reg;
}.

Lemma rx_in_start lo hi reg f : rx_in lo hi reg f -> rx_in lo hi reg (set_next (start f) f).
Proof. intros []. split; try done. exists 0%nat. apply at_slot_0. Qed.

Lemma rx_in_inc lo hi reg f : rx_in lo hi reg f -> rx_in lo hi reg (ccat_eth_fifo_inc f).
Proof.
  intros [Ho [i Hi] Hlo Hhi Hr]. pose proof (inc_slot f i Hi) as Hi'. rewrite (inc_eq f i Hi) in *.
  by split; [| eexists | | |].
Qed.

Lemma slot_inside f i : (i < nslots f)%nat -> start f <= slot f i /\ slot f i + sizeof_frame <= rx_end f.
Proof. intros Hi. unfold slot, rx_end. assert (sizeof_frame = 2048) by done. lia. Qed.

Section Reception.
Context {E : Type} `{Env E} (R : E -> E -> Prop) `{!PreOrder R} {lo hi reg : Z}.
Context (HR : forall c e, rx_call lo hi reg c -> R e (ext c e).2).

Lemma ioread_bytes_rx a k : evolves R (ioread_bytes a k : M E _).
Proof. revert a. induction k as [|k IH]; intros a; simpl; ev_run; try by apply HR. apply IH. Qed.

Lemma memread_bytes_rx a k : evolves R (memread_bytes a k : M E _).
Proof. revert a. induction k as [|k IH]; intros a; simpl; ev_run; try by apply HR. apply IH. Qed.

Lemma ready_rx mac f : evolves R (ops_ready mac f : M E _).
Proof.
  unfold ops_ready, fifo_dma_rx_ready, fifo_dma_tx_ready, fifo_eim_rx_ready, fifo_eim_tx_ready.
  ev_run; by apply HR.
Qed.

Lemma add_rx f : rx_in lo hi reg f -> evolves R (ops_add f : M E _).
Proof.
  intros [Ho (i & Hi & Hn) <- <- <-]. unfold ops_add. rewrite Ho. unfold ccat_eth_rx_fifo_dma_add.
  pose proof (slot_inside f i Hi). assert (sizeof_frame = 2048 /\ dma_rx_flags = 4) as [H1 H2] by done.
  ev_run; apply HR; simpl; [lia | auto].
Qed.

Lemma reset_loop_rx fuel f : rx_in lo hi reg f -> evolves R (reset_loop fuel f : M E _).
Proof.
  revert f. induction fuel as [|fuel IH]; intros f Hf; cbn [reset_loop]; ev_run.
  - by apply add_rx.
  - by apply IH, rx_in_inc.
Qed.

Lemma reset_rx f (e : E) :
  rx_in lo hi reg f ->
  wp (ccat_eth_fifo_reset f) e (fun f' _ e' => f' = set_next (start f) f /\ R e e').
Proof.
  intros Hf. apply wp_evolves.
  - unfold ccat_eth_fifo_reset, ccat_eth_fifo_hw_reset.
    ev_run; try (by apply reset_loop_rx, rx_in_start); apply HR; simpl; [|done].
    split; [done|]. right. by rewrite (ri_reg _ _ _ _ Hf).
  - eapply wp_conseq; [apply reset_spec; by rewrite (ri_ops _ _ _ _ Hf)|]. by intros f' t e' [-> _].
Qed.

Lemma ready_returns mac f (e : E) :
  rx_in lo hi reg f -> wp (ops_ready mac f) e (fun _ _ e' => R e e').
Proof.
  intros Hf. eapply wp_conseq; [apply (wp_evolves R _ _ _ (fun _ _ _ => True));
    [apply ready_rx|] | by intros ? ? ? [_ ?]].
  unfold ops_ready. rewrite (ri_ops _ _ _ _ Hf). unfold fifo_dma_rx_ready. wp_run. destruct (istrue _); by wp_run.
Qed.

Lemma add_returns f (e : E) : rx_in lo hi reg f -> wp (ops_add f) e (fun _ _ e' => R e e').
Proof.
  intros Hf. eapply wp_conseq; [apply (wp_evolves R _ _ _ (fun _ _ _ => True));
    [by apply add_rx|] | by intros ? ? ? [_ ?]].
  eapply wp_conseq; [apply ops_add_calls; by rewrite (ri_ops _ _ _ _ Hf) | done].
Qed.

Lemma memread_bytes_any a k (e : E) : wp (memread_bytes a k) e (fun l _ e' => length l = k /\ R e e').
Proof.
  apply wp_evolves; [apply memread_bytes_rx|]. revert a e.
  induction k as [|k IH]; intros a e; simpl; wp_run; [done|].
  eapply wp_conseq; [apply IH|]. intros l t e' <-. by wp_run.
Qed.

(** The device after reception: only the RX FIFO changed. *)
Definition rx_only (priv priv' : ccat_eth_priv) : Prop :=
  rx_in lo hi reg (rx_fifo priv') /\ priv' = set_rx_fifo (rx_fifo priv') priv.

Lemma rx_only_trans p1 p2 p3 : rx_only p1 p2 -> rx_only p2 p3 -> rx_only p1 p3.
Proof. intros [_ H12] [H3 H23]. split; [done|]. by rewrite H23, H12. Qed.

Lemma receive_rx ip priv len (e : E) :
  rx_in lo hi reg (rx_fifo priv) ->
  wp (ccat_eth_receive ip priv len) e (fun priv' _ e' => rx_only priv priv' /\ R e e').
Proof.
  intros Hf. unfold ccat_eth_receive. wp_run.
  match goal with |- context [ext ?c e] => pose proof (HR c e I) as Hq; set (e1 := (ext c e).2) in * end.
  apply wp_null; intros _; wp_run; [by repeat split; try apply Hf|].
  unfold ops_copy_to_skb. rewrite (ri_ops _ _ _ _ Hf). unfold fifo_dma_copy_to_linear_skb.
  eapply wp_conseq; [apply memread_bytes_any|]. intros l t e2 [_ Hq2]. wp_run.
  split; [by repeat split; try apply Hf|]. etrans; [exact Hq|]. etrans; [exact Hq2|]. by apply HR.
Qed.

Lemma poll_rx_loop_rx ip k priv len (e : E) :
  rx_in lo hi reg (rx_fifo priv) ->
  wp (poll_rx_loop ip k priv len) e (fun priv' _ e' => rx_only priv priv' /\ R e e').
Proof.
  assert (Hrefl : forall p, rx_in lo hi reg (rx_fifo p) -> rx_only p p) by (intros []; by split).
  revert priv len e. induction k as [|[|k] IH]; intros priv len e Hd; cbn [poll_rx_loop];
    [wp_run; split; [by apply Hrefl | done]..|].
  destruct (istrue len); [|wp_run; split; [by apply Hrefl | done]]. apply wp_bind.
  eapply wp_conseq; [by apply receive_rx|]. intros p1 t1 e1 [[Hrx1 Hp1] Hq1]. apply wp_bind.
  eapply wp_conseq; [by apply add_returns|].
  intros ? t2 e2 Hq2. apply wp_bind. pose proof (rx_in_inc _ _ _ _ Hrx1) as Hrx2.
  eapply wp_conseq; [by apply ready_returns|]. intros l t3 e3 Hq3. cbn [poll_rx_loop] in IH.
  eapply wp_conseq; [by apply IH|]. intros p4 t4 e4 [Hp4 Hq4]. split.
  - eapply rx_only_trans; [|exact Hp4]. split; [done|]. by rewrite Hp1.
  - etrans; [exact Hq1|]. etrans; [exact Hq2|]. etrans; [exact Hq3 | exact Hq4].
Qed.

Lemma poll_rx_rx ip priv (e : E) :
  rx_in lo hi reg (rx_fifo priv) ->
  wp (poll_rx ip priv) e (fun priv' _ e' => rx_only priv priv' /\ R e e').
Proof.
  intros Hd. unfold poll_rx. apply wp_bind. eapply wp_conseq; [by apply ready_returns|].
  intros len t e1 Hq1. eapply wp_conseq; [by apply poll_rx_loop_rx|]. intros p t2 e2 [Hd2 Hq2].
  split; [done|]. etrans; [exact Hq1 | exact Hq2].
Qed.

End Reception.

Section Tx.
Context {E : Type} `{Env E} {dev base : Z} {n : nat} `{!NetKernel E dev} `{!TxRing E base n}.
Local Abbreviation awk := (awake dev).
Local Abbreviation car := (carrier dev).
Local Abbreviation snt := (sent base n).

(** ** Quiet runs: the queue and the carrier are untouched and no frame is taken. *)
Definition quiet (e e' : E) : Prop :=
  awk e' = awk e /\ car e' = car e /\ forall i, (i < n)%nat -> snt e i = true -> snt e' i = true.

#[global] Instance quiet_preorder : PreOrder quiet.
Proof.
  split.
  - intros e. by split_and!.
  - intros e1 e2 e3 (Ha & Hc & Hs) (Ha' & Hc' & Hs'). split_and!; [congruence.. | auto].
Qed.

Definition quiet_call (c : call) : Prop :=
  ~ queue_call dev c /\ ~ carrier_call dev c /\ forall i, (i < n)%nat -> ~ clears base i c.

Lemma quiet_ext c e : quiet_call c -> quiet e (ext c e).2.
Proof.
  intros (Hq & Hc & Hs). split_and!; [by apply nk_queue | by apply nk_carrier |].
  intros i Hi. by apply tx_mono; [|apply Hs].
Qed.

(** Whatever is not a store, nor a call about queue or carrier, is quiet. *)
Lemma tame_quiet c e : tame c -> quiet e (ext c e).2.
Proof. intros Ht. apply quiet_ext. destruct c as [| | | | |[]]; simpl; unfold quiet_call; simpl; tauto. Qed.

(** A store outside the ring, or to the data of a frame. *)
Lemma store_quiet w a v e :
  (forall i, (i < n)%nat -> a + Z.of_nat (wbytes w) <= flag_at base i \/ flag_at base i + 4 <= a) ->
  quiet e (ext (MemWrite w a v) e).2.
Proof.
  intros Ha. apply quiet_ext. split_and!; [intros [] | intros [] |]. intros i Hi. specialize (Ha i Hi).
  simpl. lia.
Qed.

(** ** The parts of the driver that are quiet *)

Lemma memwrite_bytes_quiet a l :
  (forall i, (i < n)%nat -> a + zlen l <= flag_at base i \/ flag_at base i + 4 <= a) ->
  evolves quiet (memwrite_bytes a l : M E _).
Proof.
  unfold zlen. revert a. induction l as [|b l IH]; intros a Ha; simpl in *; ev_run.
  - apply store_quiet. intros i Hi. specialize (Ha i Hi). simpl. lia.
  - apply IH. intros i Hi. specialize (Ha i Hi). lia.
Qed.

(** The RX side: a ring of DMA frames whose memory is not that of the TX ring. *)
Definition apart (lo hi : Z) : Prop :=
  forall i, (i < n)%nat -> hi <= flag_at base i \/ flag_at base i + 4 <= lo.
Definition rx_ok (f : ccat_eth_fifo) : Prop :=
  ops f = dma_rx_fifo_ops /\ ring f /\ apart (start f) (rx_end f).

Lemma rx_call_quiet lo hi reg c e : apart lo hi -> rx_call lo hi reg c -> quiet e (ext c e).2.
Proof.
  intros Hap Hc. destruct c as [| | |w a v| |k]; try by apply tame_quiet.
  simpl in Hc. apply store_quiet. intros i Hi. specialize (Hap i Hi). lia.
Qed.

Lemma rx_ok_in f : rx_ok f -> rx_in (start f) (rx_end f) (f_reg f) f.
Proof. intros (Ho & Hr & _). by split. Qed.

Lemma rx_in_ok lo hi reg f : rx_in lo hi reg f -> apart lo hi -> rx_ok f.
Proof. intros [Ho Hr <- <- _] Hap. by split_and!. Qed.

Lemma rx_ok_start f : rx_ok f -> rx_ok (set_next (start f) f).
Proof. intros Hf. eapply rx_in_ok; [by apply rx_in_start, rx_ok_in | apply Hf]. Qed.

Lemma ready_quiet mac f : evolves quiet (ops_ready mac f : M E _).
Proof.
  apply (ready_rx quiet (lo := 0) (hi := 0) (reg := 0)). intros c e Hc. eauto using tame_quiet, no_memory_tame.
Qed.

Lemma ioread_bytes_quiet a k : evolves quiet (ioread_bytes a k : M E _).
Proof.
  apply (ioread_bytes_rx quiet (lo := 0) (hi := 0) (reg := 0)). intros c e Hc. eauto using tame_quiet, no_memory_tame.
Qed.

(** ** The TX ring *)

Definition tx_ok (f : ccat_eth_fifo) (i : nat) : Prop :=
  ops f = dma_tx_fifo_ops /\ start f = base /\ nslots f = n /\ at_slot f i.

Lemma tx_slot f i : tx_ok f i -> (i < n)%nat /\ next f = base + sizeof_frame * Z.of_nat i.
Proof. intros (Ho & Hs & Hn & Hi & Hx). rewrite Hn in Hi. by rewrite Hx, <- Hs. Qed.

Lemma tx_ok_unique f i j : tx_ok f i -> tx_ok f j -> i = j.
Proof.
  intros Hi Hj. destruct (tx_slot _ _ Hi) as [_ H1], (tx_slot _ _ Hj) as [_ H2].
  rewrite H1 in H2. assert (sizeof_frame = 2048) by done. lia.
Qed.

Lemma tx_ok_inc f i : tx_ok f i -> tx_ok (ccat_eth_fifo_inc f) (next_slot n i).
Proof.
  intros (Ho & Hs & Hn & Hi). pose proof (inc_slot f i Hi) as Hi'. rewrite (inc_eq f i Hi) in *.
  rewrite Hn in Hi'. split_and!; [done | done | done |]. by rewrite Hn.
Qed.

Lemma tx_ready mac f i (e : E) :
  tx_ok f i -> wp (ops_ready mac f) e (fun r t e' => r = b2z (snt e i) /\ quiet e e').
Proof.
  intros Hf. apply wp_evolves; [apply ready_quiet|]. destruct (tx_slot f i Hf) as [Hi Hx].
  unfold ops_ready. rewrite (proj1 Hf). unfold fifo_dma_tx_ready. wp_run. untrunc. rewrite Hx.
  by apply tx_read.
Qed.

(** Like [quiet], but frame [i] may be taken. *)
Definition takes (i : nat) (e e' : E) : Prop :=
  awk e' = awk e /\ car e' = car e /\
  forall j, (j < n)%nat -> j <> i -> snt e j = true -> snt e' j = true.

#[global] Instance takes_preorder i : PreOrder (takes i).
Proof.
  split.
  - intros e. by split_and!.
  - intros e1 e2 e3 (Ha & Hc & Hs) (Ha' & Hc' & Hs'). split_and!; [congruence.. | auto].
Qed.

Lemma quiet_takes i e e' : quiet e e' -> takes i e e'.
Proof. intros (Ha & Hc & Hs). split_and!; auto. Qed.

Lemma evolves_takes {A} i (m : M E A) : evolves quiet m -> evolves (takes i) m.
Proof. intros Hm e. by apply quiet_takes. Qed.

Lemma clear_takes i v e : (i < n)%nat -> takes i e (ext (MemWrite W32 (flag_at base i) v) e).2.
Proof.
  intros Hi. split_and!; [apply nk_queue; intros [] | apply nk_carrier; intros [] |].
  intros j Hj Hne. apply tx_mono; [done|]. simpl. unfold flag_at. assert (sizeof_frame = 2048) by done.
  lia.
Qed.

Lemma queue_takes f i skb :
  tx_ok f i -> skb_len skb <= MAX_PAYLOAD_SIZE -> evolves (takes i) (ops_skb f skb : M E _).
Proof.
  intros Hf Hl. destruct (tx_slot f i Hf) as [Hi Hx]. unfold ops_skb. rewrite (proj1 Hf).
  assert (sizeof_frame = 2048 /\ MAX_PAYLOAD_SIZE = 2024) as [H1 H2] by done.
  unfold fifo_dma_queue_skb. rewrite Hx. ev_run.
  - by apply clear_takes.
  - apply quiet_takes, store_quiet. intros j Hj. unfold flag_at, dma_length, dma_tx_flags. simpl. lia.
  - apply evolves_takes, memwrite_bytes_quiet. intros j Hj. unfold skb_len in Hl.
    unfold flag_at, sizeof_dma_hdr, dma_tx_flags. pose proof (zlen_nonneg (skb_data skb)). lia.
  - by apply quiet_takes, tame_quiet.
Qed.

(** The state of a device that satisfies the invariant, at frame [i]. *)
Definition dev_ok (priv : ccat_eth_priv) (i : nat) : Prop :=
  p_netdev priv = dev /\ rx_ok (rx_fifo priv) /\ tx_ok (tx_fifo priv) i.
Definition tx_inv (priv : ccat_eth_priv) (e : E) : Prop :=
  exists i, dev_ok priv i /\ (awk e = true -> snt e i = true).

(** Queueing, without knowing that there is no fault in it. *)
Lemma queue_returns f i skb (e : E) :
  tx_ok f i -> skb_len skb <= MAX_PAYLOAD_SIZE ->
  wp (ops_skb f skb) e (fun _ _ e' => takes i e e').
Proof.
  intros Hf Hl. eapply wp_conseq; [apply (wp_evolves (takes i) _ _ _ (fun _ _ _ => True));
    [by apply queue_takes|] | by intros ? ? ? [_ ?]].
  unfold ops_skb. rewrite (proj1 Hf). eapply wp_conseq; [apply queue_skb_calls | done].
Qed.

Lemma xmit_drop_quiet skb priv i (e : E) :
  dev_ok priv i ->
  wp (xmit_drop skb priv) e (fun '(r, priv') t e' => r = NETDEV_TX_OK /\ dev_ok priv' i /\ quiet e e').
Proof. intros Hd. unfold xmit_drop. wp_run. split_and!; [done | done | by apply tame_quiet]. Qed.

(** Transmitting while the frame at [next] is free. *)
Lemma xmit_free skb priv i (e : E) :
  dev_ok priv i -> snt e i = true ->
  wp (ccat_eth_start_xmit skb priv) e (fun '(r, priv') t e' =>
    r = NETDEV_TX_OK /\ exists i', dev_ok priv' i' /\ (awk e' = true -> snt e' i' = true) /\
      car e' = car e /\ (forall j, (j < n)%nat -> j <> i -> snt e j = true -> snt e' j = true) /\
      (skb_nonlinear skb = false -> skb_len skb <= MAX_PAYLOAD_SIZE -> i' = next_slot n i)).
Proof.
  intros (Hd & Hrx & Htx) Hfree. destruct (tx_slot _ _ Htx) as [Hi _]. unfold ccat_eth_start_xmit.
  destruct (skb_nonlinear skb) eqn:Hnl;
    [eapply wp_conseq; [by apply xmit_drop_quiet|]; intros [r priv'] t e' (-> & Hd' & Ha & Hc & Hs);
     split; [done|]; exists i; split_and!; auto; done|].
  destruct (Z.ltb_spec MAX_PAYLOAD_SIZE (skb_len skb));
    [eapply wp_conseq; [by apply xmit_drop_quiet|]; intros [r priv'] t e' (-> & Hd' & Ha & Hc & Hs);
     split; [done|]; exists i; split_and!; auto; lia|].
  apply wp_bind. eapply wp_conseq; [by apply tx_ready|]. intros r t1 e1 [-> Hq1]. rewrite Hfree.
  cbn [b2z]. change (istrue 1) with true. cbn [negb]. apply wp_bind.
  eapply wp_conseq; [by apply (queue_returns _ i)|]. intros ? t2 e2 Ht2. wp_run.
  match goal with |- context [ext ?c e2] => pose proof (tame_quiet c e2 I) as Hq3; set (e3 := (ext c e2).2) in * end.
  pose proof (tx_ok_inc (set_bytes (u64 (bytes (tx_fifo priv) + skb_len skb)) (tx_fifo priv)) i Htx) as Htx'.
  eapply wp_conseq; [by apply tx_ready|]. intros r t4 e4 [-> Hq4].
  assert (Ht4 : takes i e e4) by (etrans; [apply quiet_takes, Hq1|]; etrans; [exact Ht2|];
    etrans; apply quiet_takes; eassumption).
  destruct Ht4 as (Ha & Hc & Hs). destruct (snt e3 (next_slot n i)) eqn:Hnext; cbn [b2z].
  - change (istrue 1) with true. cbn [negb]. wp_run. split; [done|]. exists (next_slot n i).
    split_and!; try done. intros _. apply Hq4; [apply (tx_slot _ _ Htx') | done].
  - change (istrue 0) with false. cbn [negb]. wp_run. split; [done|]. exists (next_slot n i). rewrite Hd.
    split_and!; try done.
    + by rewrite nk_stop.
    + by rewrite nk_carrier by intros [].
    + intros j Hj Hne Hsj. apply tx_mono; [done | intros [] | by apply Hs].
Qed.

(** ** Reception leaves the TX side alone *)

Lemma poll_rx_quiet ip priv i (e : E) :
  dev_ok priv i -> wp (poll_rx ip priv) e (fun priv' _ e' => dev_ok priv' i /\ quiet e e').
Proof.
  intros (Hd & Hrx & Htx). pose proof (proj2 (proj2 Hrx)) as Hap.
  eapply wp_conseq; [eapply (poll_rx_rx quiet); [|by apply rx_ok_in]|].
  - intros c e0. by apply rx_call_quiet.
  - intros p t e' [[Hin ->] Hq]. split; [|done].
    exact (conj Hd (conj (rx_in_ok _ _ _ _ Hin Hap) Htx)).
Qed.

(** ** Resetting the TX ring frees every frame *)

Lemma mark_frees f i (e : E) :
  tx_ok f i -> wp (ops_add f) e (fun _ _ e' => quiet e e' /\ snt e' i = true).
Proof.
  intros Hf. destruct (tx_slot f i Hf) as [Hi Hx]. unfold ops_add. rewrite (proj1 Hf).
  unfold ccat_eth_tx_fifo_dma_add_free. rewrite Hx. wp_run. untrunc. change (u32 CCAT_FRAME_SENT) with CCAT_FRAME_SENT.
  split; [|by apply tx_mark]. apply quiet_ext. split_and!; [intros [] | intros [] |].
  intros j Hj. simpl. unfold flag_at. assert (sizeof_frame = 2048) by done.
  destruct (decide (i = j)) as [->|]; [tauto | lia].
Qed.

Lemma reset_loop_frees fuel f i (e : E) :
  tx_ok f i -> (n - i <= fuel)%nat -> (forall j, (j < i)%nat -> snt e j = true) ->
  wp (reset_loop fuel f) e (fun f' _ e' =>
    tx_ok f' 0 /\ awk e' = awk e /\ car e' = car e /\ forall j, (j < n)%nat -> snt e' j = true).
Proof.
  revert f i e. induction fuel as [|fuel IH]; intros f i e Hf Hfuel Hall.
  { destruct (tx_slot f i Hf). lia. }
  cbn [reset_loop]. apply wp_bind. eapply wp_conseq; [by apply (mark_frees f i)|].
  intros ? t1 e1 [(Ha & Hc & Hs) Hm]. destruct (tx_slot f i Hf) as [Hi _].
  pose proof (tx_ok_inc f i Hf) as Hf'. destruct (tx_slot _ _ Hf') as [Hi' Hx'].
  assert (Hst : start (ccat_eth_fifo_inc f) = base) by apply Hf'. rewrite Hx', Hst.
  assert (sizeof_frame = 2048) as Hsz by done.
  destruct (Z.eqb_spec (base + sizeof_frame * Z.of_nat (next_slot n i)) base) as [Heq|Hne].
  - assert (next_slot n i = 0%nat) as Hz by lia. rewrite Hz in Hf'. wp_run. split_and!; try done.
    unfold next_slot in Hz. destruct (decide (S i = n)) as [Hn|]; [|done].
    intros j Hj. destruct (decide (j = i)) as [->|]; [done|]. apply Hs; [done|]. apply Hall. lia.
  - unfold next_slot in *. destruct (decide (S i = n)); [lia|].
    eapply wp_conseq; [apply (IH _ (S i)); [done | lia |]|].
    + intros j Hj. destruct (decide (j = i)) as [->|]; [done|]. apply Hs; [lia|]. apply Hall. lia.
    + intros f' t' e' (Hf2 & Ha2 & Hc2 & Hs2). split_and!; [done | congruence.. | done].
Qed.

Lemma tx_reset_frees f (e : E) :
  ops f = dma_tx_fifo_ops -> start f = base -> nslots f = n ->
  wp (ccat_eth_fifo_reset f) e (fun f' _ e' =>
    tx_ok f' 0 /\ awk e' = awk e /\ car e' = car e /\ forall j, (j < n)%nat -> snt e' j = true).
Proof.
  intros Ho Hs Hn. unfold ccat_eth_fifo_reset, ccat_eth_fifo_hw_reset. rewrite Ho, Hn.
  assert (Htx : tx_ok (set_next (start f) f) 0) by (split_and!; [done.. | apply at_slot_0]).
  apply wp_bind. destruct (istrue (f_reg f)); wp_run.
  - eapply wp_conseq; [apply (reset_loop_frees _ _ 0); [done | lia | lia]|].
    intros f' t e' (Hf & Ha & Hc & Hall). rewrite !nk_queue, !nk_carrier in * by intros [].
    by split_and!.
  - eapply wp_conseq; [apply (reset_loop_frees _ _ 0); [done | lia | lia] | done].
Qed.

(** ** Link changes *)

Section Link.
Context (Hn : (2 <= n)%nat).

Lemma link_up_starts priv i (e : E) :
  dev_ok priv i ->
  wpo no_buffer (ccat_eth_link_up priv) e (fun priv' _ e' =>
    awk e' = true /\ car e' = true /\ exists i', dev_ok priv' i' /\ snt e' i' = true).
Proof.
  intros (Hd & Hrx & Htx). unfold ccat_eth_link_up. apply wpo_seq, wp_wpo; [auto with ccat|].
  eapply wp_conseq; [by apply reset_spec; rewrite (proj1 Hrx)|]. intros rx t1 e1 [-> _].
  pose proof (rx_ok_start _ Hrx) as Hrx1. apply wpo_seq, wp_wpo; [auto with ccat|].
  eapply wp_conseq; [apply tx_reset_frees; apply Htx|]. intros tx t2 e2 (Htx2 & _ & _ & Hall).
  apply wpo_seq, xmit_raw_spec; [auto with ccat|]. intros _.
  match goal with |- context [ext (Kernel (DevAllocSkb ?l)) e2] =>
    pose proof (tame_quiet (Kernel (DevAllocSkb l)) e2 I) as (_ & _ & Hq3);
    set (e3 := (ext (Kernel (DevAllocSkb l)) e2).2) in * end.
  eapply wp_conseq; [apply (xmit_free _ _ 0); [exact (conj Hd (conj Hrx1 Htx2))|]|].
  { apply Hq3; [lia|]. apply Hall. lia. }
  intros [r p4] t4 e4 (_ & i' & (Hd4 & Hrx4 & Htx4) & _ & _ & Hs4 & Hi'). apply wp_wpo. wp_run. rewrite Hd4.
  rewrite nk_start. split; [done|].
  rewrite nk_carrier, nk_on by intros []. split; [done|]. exists i'. split; [done|].
  destruct (tx_slot _ _ Htx4) as [Hlt _]. do 2 (apply tx_mono; [done | intros [] |]).
  assert (i' = 1%nat) as ->.
  { rewrite Hi' by done. unfold next_slot. destruct (decide (1%nat = n)); [lia | done]. }
  apply Hs4; [done | done |]. apply Hq3; [done|]. by apply Hall.
Qed.

(** [poll_link] leaves a device with room at an awake queue, or one it did not touch. *)
Lemma poll_link_dev priv i (e : E) :
  dev_ok priv i ->
  wpo no_buffer (poll_link priv) e (fun priv' t e' =>
    (exists i', dev_ok priv' i' /\
       ((awk e' = true -> snt e' i' = true) \/ i' = i /\ quiet e e')) /\
    exists v t', t = Ev (IoRead W32 (r_mii (p_reg priv) + 0x8 + 4)) v :: t' /\
      car e' = Z.testbit (u32 (r_val v)) 24).
Proof.
  intros (Hd & Hrx & Htx). unfold poll_link, ccat_eth_priv_read_link_state. rewrite Hd.
  apply wpo_seq, wp_wpo; [auto with ccat|]. wp_run. apply wpo_seq, wp_wpo; [auto with ccat|]. wp_run. untrunc.
  match goal with |- context [ext ?c e] => pose proof (tame_quiet c e I) as Hq1;
    set (v := (ext c e).1) in *; set (e1 := (ext c e).2) in * end.
  pose proof (tame_quiet (Kernel (NetifCarrierOk dev)) e1 I) as Hq2.
  pose proof (nk_ok e1) as Hok. set (e2 := (ext (Kernel (NetifCarrierOk dev)) e1).2) in *.
  rewrite Hok, istrue_land_pow2 by lia.
  assert (Hq : quiet e e2) by (etrans; [exact Hq1 | exact Hq2]).
  assert (Hc1 : car e2 = car e1) by apply Hq2.
  destruct (Z.testbit (u32 (r_val v)) 24) eqn:Hlink, (car e1) eqn:Hcar; cbn [b2z Z.eqb negb Pos.eqb].
  - apply wp_wpo. wp_run. split; [exists i; split; [done | by right]|]. eexists _, _. split; [done|]. congruence.
  - change (istrue 1) with true. cbv iota.
    eapply wpo_conseq; [by apply (link_up_starts _ i)|].
    intros p3 t3 e3 (_ & Hc3 & i' & Hd3 & Hs3). split; [exists i'; split; [done | by left]|].
    eexists _, _. split; [done|]. congruence.
  - change (istrue 0) with false. unfold ccat_eth_link_down. apply wp_wpo. wp_run. split.
    + exists i. split; [done|]. left. rewrite nk_queue, nk_stop by intros []. done.
    + eexists _, _. split; [done|]. rewrite nk_off. congruence.
  - apply wp_wpo. wp_run. split; [exists i; split; [done | by right]|]. eexists _, _. split; [done|]. congruence.
Qed.

Lemma tx_inv_quiet priv e e' : tx_inv priv e -> quiet e e' -> tx_inv priv e'.
Proof.
  intros (i & Hd & Hinv) (Ha & _ & Hs). exists i. split; [done|]. rewrite Ha. intros Hw.
  apply Hs; [apply (tx_slot _ _ (proj2 (proj2 Hd))) | auto].
Qed.

Lemma poll_link_inv priv (e : E) :
  tx_inv priv e ->
  wpo no_buffer (poll_link priv) e (fun priv' t e' => tx_inv priv' e' /\
    exists v t', t = Ev (IoRead W32 (r_mii (p_reg priv) + 0x8 + 4)) v :: t' /\
      car e' = Z.testbit (u32 (r_val v)) 24).
Proof.
  intros (i & Hd & Hinv). eapply wpo_conseq; [by apply poll_link_dev|].
  intros p t e' [(i' & Hd' & [Hi'|[-> Hq]]) Hv]; (split; [|done]); [by exists i'|].
  exists i. split; [done|]. destruct Hq as (Ha & _ & Hs). rewrite Ha. intros Hw.
  apply Hs; [apply (tx_slot _ _ (proj2 (proj2 Hd))) | auto].
Qed.

(** Waking happens only when the frame at [next] is free, and then always. *)
Lemma poll_tx_inv priv (e : E) :
  tx_inv priv e ->
  wp (poll_tx priv) e (fun _ _ e' => tx_inv priv e' /\ car e' = car e /\
    forall i, dev_ok priv i -> snt e i = true -> awk e' = true).
Proof.
  intros (i & (Hd & Hrx & Htx) & Hinv). unfold poll_tx. apply wp_bind.
  eapply wp_conseq; [by apply tx_ready|]. intros r t1 e1 [-> (Ha & Hc & Hs)].
  destruct (tx_slot _ _ Htx) as [Hi _].
  destruct (snt e i) eqn:Hfree; cbn [b2z].
  - change (istrue 1) with true. cbv iota. wp_run. rewrite Hd. rewrite nk_carrier by intros [].
    split_and!; [|done | intros; apply nk_wake].
    exists i. split; [done|]. intros _. apply tx_mono; [done | intros [] | auto].
  - change (istrue 0) with false. wp_run. split_and!; [|done |].
    + exists i. split; [done|]. rewrite Ha. intros Hw. specialize (Hinv Hw). congruence.
    + intros j (_ & _ & Hj). rewrite (tx_ok_unique _ _ _ Hj Htx). congruence.
Qed.

Lemma callback_inv ip priv (e : E) :
  tx_inv priv e ->
  wpo no_buffer (poll_timer_callback ip priv) e (fun priv' t e' => tx_inv priv' e' /\
    exists v t', t = Ev (IoRead W32 (r_mii (p_reg priv) + 0x8 + 4)) v :: t' /\
      car e' = Z.testbit (u32 (r_val v)) 24).
Proof.
  intros Hinv. unfold poll_timer_callback. apply wpo_seq; [auto with ccat|].
  eapply wpo_conseq; [by apply poll_link_inv|].
  intros p1 t1 e1 [(i & Hd1 & Hinv1) (v & t' & -> & Hv)]. apply wp_wpo.
  apply wp_bind. eapply wp_conseq; [by apply poll_rx_quiet|].
  intros p2 t2 e2 [Hd2 (Ha2 & Hc2 & Hs2)]. apply wp_bind.
  assert (Hinv2 : tx_inv p2 e2).
  { exists i. split; [done|]. rewrite Ha2. intros Hw. apply Hs2; [apply (tx_slot _ _ (proj2 (proj2 Hd2)))|auto]. }
  eapply wp_conseq; [by apply poll_tx_inv|]. intros ? t3 e3 (Hinv3 & Hc3 & _). wp_run.
  pose proof (tame_quiet (Kernel HrtimerForwardNow) e3 I) as Hq4. split; [by eapply tx_inv_quiet|].
  eexists v, _. split; [done|]. destruct Hq4 as (_ & Hc4 & _). congruence.
Qed.

(** The callback that sees the link go down stops the queue, and then wakes it again in [poll_tx]
    if the frame at [next] is free. *)
Lemma link_down_wakes ip priv i (e : E) :
  dev_ok priv i -> snt e i = true ->
  wpo no_buffer (poll_timer_callback ip priv) e
    (fun _ _ e' => car e = true -> car e' = false -> awk e' = true).
Proof.
  intros Hd Hfree. destruct (tx_slot _ _ (proj2 (proj2 Hd))) as [Hi _]. unfold poll_timer_callback.
  apply wpo_seq; [auto with ccat|].
  assert (Hlink : wpo no_buffer (poll_link priv) e (fun p1 _ e1 =>
    car e = true -> car e1 = false -> dev_ok p1 i /\ snt e1 i = true)).
  { unfold poll_link, ccat_eth_priv_read_link_state. rewrite (proj1 Hd).
    apply wpo_seq, wp_wpo; [auto with ccat|]. wp_run. apply wpo_seq, wp_wpo; [auto with ccat|]. wp_run.
    rewrite nk_ok.
    match goal with |- context [ext ?c e] => pose proof (tame_quiet c e I) as (_ & Hc1 & Hs1); set (e1 := (ext c e).2) in * end.
    pose proof (tame_quiet (Kernel (NetifCarrierOk dev)) e1 I) as (_ & Hc2 & Hs2).
    destruct (istrue (Z.land _ _)), (car e1) eqn:Hcar; cbn [b2z Z.eqb negb istrue];
      try (apply wp_wpo; wp_run; intros; congruence).
    - eapply wpo_conseq; [by apply (link_up_starts _ i)|]. intros p t e' (_ & Hup & _). congruence.
    - apply wp_wpo. unfold ccat_eth_link_down. wp_run. intros _ _. split; [done|].
      do 2 (apply tx_mono; [done | intros [] |]). auto. }
  eapply wpo_conseq; [apply wpo_and; [exact Hlink | apply poll_link_inv; by exists i]|].
  intros p1 t1 e1 [Hdown [(j & Hd1 & Hinv1) _]]. apply wp_wpo, wp_bind.
  eapply wp_conseq; [by apply poll_rx_quiet|]. intros p2 t2 e2 [Hd2 Hq2]. apply wp_bind.
  pose proof (proj2 (proj2 Hd2)) as Htx2. pose proof Hq2 as (_ & Hc2 & Hs2).
  eapply wp_conseq; [apply poll_tx_inv, (tx_inv_quiet p2 e1); [|exact Hq2]; by exists j|].
  intros ? t3 e3 (_ & Hc3 & Hwake). wp_run. rewrite nk_queue, nk_carrier by intros [].
  intros Hc He. destruct (Hdown Hc) as [Hd1' Hfree1]; [congruence|].
  rewrite (tx_ok_unique _ _ _ (proj2 (proj2 Hd1)) (proj2 (proj2 Hd1'))) in Hd2.
  apply (Hwake i); [done|]. by apply Hs2.
Qed.

(** ** Stopping and transmitting *)

Lemma stop_inv priv (e : E) : tx_inv priv e -> wp (ccat_eth_stop priv) e (fun _ _ e' => tx_inv priv e').
Proof.
  intros (i & Hd & Hinv). unfold ccat_eth_stop. wp_run. exists i. split; [done|].
  rewrite nk_queue, (proj1 Hd), nk_stop by intros []. done.
Qed.

Lemma xmit_inv skb priv (e : E) :
  tx_inv priv e -> awk e = true ->
  wp (ccat_eth_start_xmit skb priv) e (fun '(r, priv') _ e' => r = NETDEV_TX_OK /\ tx_inv priv' e').
Proof.
  intros (i & Hd & Hinv) Hw. eapply wp_conseq; [by apply (xmit_free _ _ i); [|apply Hinv]|].
  intros [r priv'] t e' (-> & i' & Hd' & Hinv' & _). split; [done|]. by exists i'.
Qed.

Lemma open_quiet priv : evolves quiet (ccat_eth_open priv : M E _).
Proof. unfold ccat_eth_open. ev_run. by apply tame_quiet. Qed.

Lemma stats_quiet priv : evolves quiet (ccat_eth_get_stats64 priv : M E _).
Proof. unfold ccat_eth_get_stats64. ev_run. apply ioread_bytes_quiet. Qed.

(** C28: the carrier follows the link: after a timer callback the carrier is on exactly when the
    link bit that the callback read was set, whatever it was before; the frames received in
    between and the TX queue do not change that, and the invariant of the TX ring is kept.  The
    callback returns, unless the link came up and no buffer could be allocated for the frame that
    announces it: that is its only fault. *)
Theorem poll_timer_callback_carrier ip priv (e : E) :
  tx_inv priv e ->
  wpo no_buffer (poll_timer_callback ip priv) e (fun priv' t e' => tx_inv priv' e' /\
    exists v t', t = Ev (IoRead W32 (r_mii (p_reg priv) + 0x8 + 4)) v :: t' /\
      car e' = Z.testbit (u32 (r_val v)) 24).
Proof. apply callback_inv. Qed.

(** C31: a stopped queue is woken as soon as there is room: when the FPGA has sent the frame at
    [next], the next look at the TX ring leaves the queue awake; a frame that is not sent leaves a
    stopped queue stopped. *)
Theorem poll_tx_wakes priv i (e : E) :
  dev_ok priv i -> (awk e = true -> snt e i = true) ->
  wp (poll_tx priv) e (fun _ _ e' => awk e' = snt e i /\ car e' = car e).
Proof.
  intros Hd Hinv. pose proof Hd as (Hdev & _ & Htx). unfold poll_tx. apply wp_bind.
  eapply wp_conseq; [by apply tx_ready|]. intros r t1 e1 [-> (Ha & Hc & _)].
  destruct (snt e i) eqn:Hfree; cbn [b2z].
  - change (istrue 1) with true. cbv iota. wp_run. by rewrite Hdev, nk_wake, nk_carrier by intros [].
  - change (istrue 0) with false. wp_run. split; [|done]. rewrite Ha.
    destruct (awk e); [by specialize (Hinv eq_refl) | done].
Qed.

End Link.

(** ** Setting up establishes the invariant *)

(** What a successful [ccat_dma_init] leaves, whatever the FIFO. *)
Definition dma_ring (o : fifo_ops) (f : ccat_eth_fifo) : Prop :=
  ops f = o /\ at_slot f 0 /\ nslots f = 64%nat.

Lemma dma_init_sets_up pdev ch bar2 o fifo (e : E) :
  ops fifo = o -> o <> NoOps ->
  wp (ccat_dma_init pdev ch bar2 fifo) e (fun '(r, f) _ e' =>
    r = 0 -> dma_ring o f /\
      (o = dma_tx_fifo_ops -> start f = base -> n = 64%nat -> forall j, (j < n)%nat -> snt e' j = true)).
Proof.
  intros Hops Ho. unfold ccat_dma_init, fifo_set_end. wp_run.
  destruct (_ || _); wp_run; [done|].
  match goal with |- wpx _ (ccat_eth_fifo_reset ?f) _ _ => set (f1 := f) in * end.
  assert (Hns : nslots f1 = 64%nat).
  { unfold nslots, f1. cbn [f_end start set_end set_start]. change CCAT_ALIGNMENT with (64 * sizeof_frame).
    match goal with |- context [?x + 64 * sizeof_frame - sizeof_frame - ?x] =>
      replace (x + 64 * sizeof_frame - sizeof_frame - x) with (63 * sizeof_frame) by lia end.
    by rewrite Z.div_mul. }
  assert (Hops1 : ops f1 = o) by done.
  destruct (decide (o = dma_tx_fifo_ops /\ start f1 = base /\ n = 64%nat)) as [(-> & Hst & Hn64)|Hno].
  - eapply wp_conseq; [apply tx_reset_frees; [done | done | by rewrite Hn64]|].
    intros f' t e' (Htx & _ & _ & Hall). wp_run. intros _. split.
    + destruct Htx as (H1 & _ & H3 & H4). split_and!; [done | done | by rewrite H3].
    + intros _ _ _ j Hj. repeat (apply tx_mono; [done | intros [] |]). by apply Hall.
  - eapply wp_conseq; [apply reset_spec; by rewrite Hops1|]. intros f' t e' [-> _]. wp_run.
    intros _. split; [|by intros H1 H2 H3; destruct Hno].
    split_and!; [done | apply at_slot_0 | done].
Qed.

Lemma ioread_bytes_sent a k (e : E) :
  wp (ioread_bytes a k) e (fun _ _ e' => forall j, (j < n)%nat -> snt e j = true -> snt e' j = true).
Proof.
  eapply wp_conseq; [apply (wp_evolves quiet _ _ _ (fun _ _ _ => True)); [apply ioread_bytes_quiet|]
    | by intros l t e' [_ (_ & _ & Hs)]].
  by eapply wp_conseq; [apply ioread_bytes_any|].
Qed.

Lemma dma_free_returns dm (e : E) : wp (ccat_dma_free dm) e (fun _ _ _ => True).
Proof. unfold ccat_dma_free. destruct (istrue _); by wp_run. Qed.

Lemma hw_reset_returns f (e : E) : wp (ccat_eth_fifo_hw_reset f) e (fun _ _ _ => True).
Proof. unfold ccat_eth_fifo_hw_reset. destruct (istrue _); by wp_run. Qed.

Lemma priv_free_returns priv (e : E) : wp (ccat_eth_priv_free priv) e (fun _ _ _ => True).
Proof.
  unfold ccat_eth_priv_free. wp_run.
  do 2 (eapply wp_conseq; [apply hw_reset_returns|]; intros ? ? ? _; wp_run).
  do 2 (eapply wp_conseq; [apply dma_free_returns|]; intros ? ? ? _; wp_run). done.
Qed.

Lemma init_netdev_keeps priv (e : E) :
  wp (ccat_eth_init_netdev priv) e (fun '(r, p) _ e' =>
    match p with
    | Some priv' => r = 0 /\ priv' = priv /\ forall j, (j < n)%nat -> snt e j = true -> snt e' j = true
    | None => r <> 0
    end).
Proof.
  unfold ccat_eth_init_netdev. wp_run. eapply wp_conseq; [apply ioread_bytes_sent|].
  intros l t e1 Hs. wp_run. destruct (istrue _); cbn [negb]; wp_run; [|done].
  apply wp_istrue; intros Hst; wp_run.
  - eapply wp_conseq; [apply priv_free_returns|]. intros p t' e' _. by wp_run.
  - split_and!; [done | done |]. intros j Hj Hsj. repeat (apply tx_mono; [done | intros [] |]). auto.
Qed.

Lemma dma_probe_inv func (e : E) :
  wp (ccat_eth_dma_probe func) e (fun '(r, p) _ e' =>
    match p with
    | None => r <> 0
    | Some priv => r = 0 /\
        (p_netdev priv = dev -> start (tx_fifo priv) = base -> n = 64%nat ->
         apart (start (rx_fifo priv)) (start (rx_fifo priv) + CCAT_ALIGNMENT) -> tx_inv priv e')
    end).
Proof.
  unfold ccat_eth_dma_probe, ccat_eth_alloc_netdev, ccat_eth_priv_init_reg. wp_run.
  apply wp_null; intros Hnd; wp_run; [done|].
  eapply wp_conseq; [apply ioread_bytes_any|]. intros l t0 e0 _. wp_run.
  unfold ccat_eth_priv_init_dma. wp_run.
  eapply wp_conseq; [by apply (dma_init_sets_up _ _ _ dma_rx_fifo_ops)|]. intros [st rx] t1 e1 Hrx.
  apply wp_istrue; intros Hst; wp_run.
  { rewrite (istrue_nz _ Hst). wp_run. done. }
  destruct (Hrx Hst) as [(Horx & Hatrx & Hnrx) _]. wp_run.
  eapply wp_conseq; [by apply (dma_init_sets_up _ _ _ dma_tx_fifo_ops)|]. intros [st2 tx] t2 e2 Htx.
  apply wp_istrue; intros Hst2; wp_run.
  { eapply wp_conseq; [apply dma_free_returns|]. intros dm t3 e3 _. wp_run.
    rewrite (istrue_nz _ Hst2). wp_run. done. }
  destruct (Htx Hst2) as [(Hotx & Hattx & Hntx) Hall]. unfold ccat_hw_disable_mac_filter. wp_run.
  match goal with |- wpx _ (ccat_eth_init_netdev ?p) ?e3 _ => set (p3 := p); set (e3' := e3) end.
  eapply wp_conseq; [apply init_netdev_keeps|]. intros [r [p|]] t4 e4; [|done].
  intros (-> & -> & Hs4). split; [done|]. intros Hdev Hbase Hn64 Hap. exists 0%nat. split.
  - assert (Hrxok : rx_ok rx) by (split_and!; [done | by exists 0%nat | unfold rx_end; rewrite Hnrx; exact Hap]).
    assert (Htxok : tx_ok tx 0) by (split_and!; [done | done | by rewrite Hntx | done]).
    exact (conj Hdev (conj Hrxok Htxok)).
  - intros _. apply Hs4; [by rewrite Hn64; lia|]. unfold e3'. repeat (apply tx_mono; [lia | intros [] |]).
    apply Hall; done || lia.
Qed.

(** C29: a successful probe of the DMA variant establishes the invariant of the TX ring for the
    device it created: all its frames are free and both rings stand at their first frame.  A failed
    probe returns an error and creates no device. *)
Theorem ccat_eth_dma_probe_establishes func (e : E) :
  wp (ccat_eth_dma_probe func) e (fun '(r, p) _ e' =>
    match p with
    | None => r <> 0
    | Some priv => r = 0 /\
        (p_netdev priv = dev -> start (tx_fifo priv) = base -> n = 64%nat ->
         apart (start (rx_fifo priv)) (start (rx_fifo priv) + CCAT_ALIGNMENT) -> tx_inv priv e')
    end).
Proof. apply dma_probe_inv. Qed.

End Tx.

(** ** Witnesses: a device with four frames, link up *)

(** The queue, the carrier, the words of DMA memory and where the next DMA memory will be. *)
Record net_world := NW { w_awake : bool; w_carrier : bool; w_mem : Z -> Z; w_dma : Z }.

Definition net_env : Env net_world := fun c w =>
  match c with
  | Kernel (NetifStopQueue d) => (Resp 0 0, if d =? 5 then NW false (w_carrier w) (w_mem w) (w_dma w) else w)
  | Kernel (NetifStartQueue d) | Kernel (NetifWakeQueue d) =>
      (Resp 0 0, if d =? 5 then NW true (w_carrier w) (w_mem w) (w_dma w) else w)
  | Kernel (NetifCarrierOn d) => (Resp 0 0, if d =? 5 then NW (w_awake w) true (w_mem w) (w_dma w) else w)
  | Kernel (NetifCarrierOff d) => (Resp 0 0, if d =? 5 then NW (w_awake w) false (w_mem w) (w_dma w) else w)
  | Kernel (NetifCarrierOk d) => (Resp (b2z (w_carrier w)) 0, w)
  | Kernel (DevAllocSkb _) => (Resp 0x900 0, w)
  | MemRead W32 a => (Resp (w_mem w a) 0, w)
  | MemWrite W32 a v => (Resp 0 0, NW (w_awake w) (w_carrier w) (upd (w_mem w) a v) (w_dma w))
  | IoRead W32 _ => (Resp (2 ^ 24) 0, w)
  | Kernel AllocEtherdev => (Resp 5 0, w)
  | Kernel (IsValidEtherAddr _) => (Resp 1 0, w)
  | Kernel (DmaAllocCoherent _) =>
      (Resp (w_dma w) (w_dma w), NW (w_awake w) (w_carrier w) (w_mem w) (w_dma w + 0x100000))
  | _ => (Resp 0 0, w)
  end.

#[export] Instance net_env_kernel : @NetKernel net_world net_env 5.
Proof.
  unshelve refine (@Build_NetKernel _ net_env 5 w_awake w_carrier _ _ _ _ _ _ _ _); try done.
  - intros w. simpl. by destruct (w_carrier w).
  - intros w c Hc. destruct c as [[]|[]|[]|[]| |[]]; simpl in *; try done; case_match; done || lia.
  - intros w c Hc. destruct c as [[]|[]|[]|[]| |[]]; simpl in *; try done; case_match; done || lia.
Defined.

#[export] Instance net_env_ring base n : @TxRing net_world net_env base n.
Proof.
  unshelve refine (@Build_TxRing _ net_env base n (fun w i => Z.odd (w_mem w (flag_at base i))) _ _ _).
  - intros w i Hi. simpl. change CCAT_FRAME_SENT with (2 ^ 1 - 1). rewrite land_mask_mod by lia.
    rewrite Zodd_mod. unfold b2z, u32. change (2 ^ 1) with 2.
    destruct (Z.eqb_spec (w_mem w (flag_at base i) mod 2) 1); mach.
  - intros w i Hi. simpl. unfold upd. by rewrite Z.eqb_refl.
  - intros w c i Hi Hc. destruct c as [[] | [] | [] | [] a v | |[]]; simpl in *; try done;
      try (by destruct (_ =? 5)).
    unfold upd. destruct (Z.eqb_spec (flag_at base i) a) as [<-|]; [|done].
    intros _. destruct (Z.eq_dec v CCAT_FRAME_SENT) as [->|]; [done|]. exfalso. apply Hc. simpl. lia.
Defined.

Definition net_func : ccat_function :=
  Function_ (Device 1 1 0x1000000 0x2000000) (Info (info_code CCATINFO_ETHERCAT_MASTER_DMA) 0 0 0 0).
Definition net_rx : ccat_eth_fifo :=
  Fifo dma_rx_fifo_ops (0x20000 + 3 * 2048) 0x510 0 0 no_dma_mem 0x20000 0x20000.
Definition net_priv : ccat_eth_priv :=
  Priv net_func 5 (EthReg 0x100 0x200 0x300 0x400 0x500) net_rx (small_fifo dma_tx_fifo_ops).
Definition net_idle : net_world := NW true true (fun _ => 1) 0x100000.

Lemma net_priv_ok : @dev_ok 5 0x10000 4 net_priv 3.
Proof.
  split_and!; [reflexivity | |].
  - split_and!; [reflexivity | exists 0%nat; split; [vm_compute; lia | reflexivity] |].
    intros i Hi. right. unfold flag_at, dma_tx_flags. change sizeof_frame with 2048. simpl. lia.
  - split_and!; [reflexivity | reflexivity | reflexivity | split; [vm_compute; lia | reflexivity]].
Qed.

Lemma net_priv_inv : @tx_inv net_world net_env 5 0x10000 4 _ _ net_priv net_idle.
Proof. exists 3%nat. split; [apply net_priv_ok | done]. Qed.

Lemma poll_timer_callback_carrier_witness :
  exists p t w, poll_timer_callback (H := net_env) 0 net_priv (NW false false (fun _ => 1) 0x100000)
    = (Ret p, t, w) /\ w_carrier w = true.
Proof.
  pose proof (poll_timer_callback_carrier (H := net_env) (dev := 5) (base := 0x10000) (n := 4)
    ltac:(lia) 0 net_priv (NW false false (fun _ => 1) 0x100000)) as Hw.
  specialize (Hw ltac:(exists 3%nat; split; [apply net_priv_ok | done])).
  destruct (wpo_elim _ _ _ _ Hw ltac:(vm_compute; reflexivity)) as (p & t & w & Hrun & _ & v & t' & Ht & Hc).
  exists p, t, w. split; [exact Hrun|]. change (w_carrier w = Z.testbit (u32 (r_val v)) 24) in Hc.
  rewrite Hc. assert (v = Resp (2 ^ 24) 0) as ->; [|reflexivity].
  rewrite Ht in Hrun. vm_compute in Hrun. injection Hrun; intros; subst; reflexivity.
Defined.

Lemma poll_tx_wakes_witness :
  exists t w, poll_tx (H := net_env) net_priv (NW false true (fun _ => 1) 0x100000) = (Ret tt, t, w) /\
    w_awake w = true.
Proof.
  pose proof (poll_tx_wakes (H := net_env) (dev := 5) (base := 0x10000) (n := 4) net_priv 3
    (NW false true (fun _ => 1) 0x100000) net_priv_ok) as Hw.
  apply wp_elim in Hw as ([] & t & w & Hrun & Ha & _); [|done].
  exists t, w. split; [exact Hrun | exact Ha].
Defined.

Lemma ccat_eth_dma_probe_establishes_witness :
  exists priv t w, ccat_eth_dma_probe (H := net_env) net_func net_idle = (Ret (0, Some priv), t, w) /\
    @tx_inv net_world net_env 5 0x200000 64 _ _ priv w.
Proof.
  pose proof (ccat_eth_dma_probe_establishes (H := net_env) (dev := 5) (base := 0x200000) (n := 64)
    net_func net_idle) as Hw.
  apply wp_elim in Hw as ([r [priv|]] & t & w & Hrun & Hinv).
  2: { apply (f_equal (fun x => x.1.1)) in Hrun. vm_compute in Hrun. discriminate. }
  destruct Hinv as [-> Hinv]. exists priv, t, w. split; [exact Hrun|].
  assert (p_netdev priv = 5 /\ start (tx_fifo priv) = 0x200000 /\ start (rx_fifo priv) = 0x100000)
    as (H1 & H2 & H3).
  { apply (f_equal (fun x => x.1.1)) in Hrun. vm_compute in Hrun. injection Hrun as <-. done. }
  apply Hinv; [exact H1 | exact H2 | reflexivity |]. rewrite H3. intros i Hi. left.
  unfold flag_at, dma_tx_flags, CCAT_ALIGNMENT. change sizeof_frame with 2048. lia.
Defined.
