(* ===== verification/NetRace.v ===== *)
(** * A transmission between the two halves of [poll_tx] (netdev.c)

    The kernel calls [ccat_eth_start_xmit] under the lock of the transmit queue; the timer callback
    takes no lock.  Here [poll_tx] is taken apart into its look at the frame and its call of
    [netif_wake_queue], and transmissions can come in between.  An awake queue then no longer means a
    free frame ([race_busy]), but nothing is lost: a transmission that finds no free frame stores
    nothing and leaves the buffer with the kernel ([ccat_eth_race_safe]).  The second half of the file
    lets all calls into the device run over time, the timer callback in three parts (its front,
    [poll_link] with [poll_rx], and the two halves of [poll_tx]), and counts how often a transmission
    is refused ([ccat_eth_busy_bound]). *)

From S2P Require Import Prelude IO Info Interleave NetFifo Netdev NetProbe NetTx.

(** ** The two halves *)

Inductive poller :=
  | PollIdle                (* not in [poll_tx] *)
  | PollSaw (ready : Z).    (* [ready] has returned, the queue not yet woken *)

Section Halves.
Context {E : Type} `{Env E}.

Definition poll_look (priv : ccat_eth_priv) : M E poller :=
  r ← ops_ready (r_mac (p_reg priv)) (tx_fifo priv);
  mret (PollSaw r).

Definition poll_act (priv : ccat_eth_priv) (p : poller) : M E unit :=
  match p with
  | PollIdle => mret tt
  | PollSaw r => if istrue r then kern_ (NetifWakeQueue (p_netdev priv)) else mret tt
  end.

(** One after the other they are [poll_tx]. *)
Lemma poll_tx_halves priv (e : E) : poll_tx priv e = (p ← poll_look priv; poll_act priv p) e.
Proof.
  unfold poll_tx, poll_look. rewrite bind_assoc. apply bind_ext; [done|]. intros r e1.
  by rewrite bind_ret_l.
Qed.

End Halves.

(** ** The race *)

Record race E := Race { ra_priv : ccat_eth_priv; ra_env : E; ra_poll : poller }.
Arguments Race {E} _ _ _.
Arguments ra_priv {E} _.
Arguments ra_env {E} _.
Arguments ra_poll {E} _.

Section Race.
Context {E : Type} `{Env E} {dev base : Z} {n : nat} `{!NetKernel E dev} `{!TxRing E base n}.
Local Abbreviation awk := (awake dev).
Local Abbreviation snt := (sent base n).
Local Abbreviation dev_ok := (NetTx.dev_ok (dev := dev) (base := base) (n := n)).
Local Abbreviation quiet := (NetTx.quiet (dev := dev) (base := base) (n := n)).

(** A transmission by the kernel while the queue is awake, one half of [poll_tx], or the FPGA. *)
Inductive race_step : race E -> race E -> Prop :=
  | rc_xmit skb priv e p r priv' t e' :
      awk e = true -> ccat_eth_start_xmit skb priv e = (Ret (r, priv'), t, e') ->
      race_step (Race priv e p) (Race priv' e' p)
  | rc_look priv e p t e' :
      poll_look priv e = (Ret p, t, e') -> race_step (Race priv e PollIdle) (Race priv e' p)
  | rc_act priv e p t e' :
      poll_act priv p e = (Ret tt, t, e') -> race_step (Race priv e p) (Race priv e' PollIdle)
  | rc_fpga priv e p e' :
      quiet e e' -> race_step (Race priv e p) (Race priv e' p).

(** A transmission that finds the frame at [next] taken. *)
Lemma xmit_full skb priv i (e : E) :
  dev_ok priv i -> snt e i = false ->
  wp (ccat_eth_start_xmit skb priv) e (fun '(r, priv') t e' =>
    dev_ok priv' i /\
    (if skb_nonlinear skb || (MAX_PAYLOAD_SIZE <? skb_len skb)
     then r = NETDEV_TX_OK /\ calls t = [Kernel (DevKfreeSkbAny (skb_ptr skb))]
     else r = NETDEV_TX_BUSY /\ priv' = priv /\ awk e' = false /\
       calls t = [tx_ready_call (r_mac (p_reg priv)) (tx_fifo priv); Kernel (NetifStopQueue dev)])).
Proof.
  intros Hok Hbusy. pose proof Hok as (Hd & Hrx & Htx). unfold ccat_eth_start_xmit.
  destruct (skb_nonlinear skb); cbn [orb]; [unfold xmit_drop; by wp_run|].
  destruct (MAX_PAYLOAD_SIZE <? skb_len skb); [unfold xmit_drop; by wp_run|].
  apply wp_bind. eapply wp_conseq;
    [apply wp_and; [by apply tx_ready | apply tx_ready_spec; left; apply Htx]|].
  intros r t e' [[-> _] (v & -> & _)]. rewrite Hbusy. change (istrue (b2z false)) with false. cbn [negb].
  wp_run. rewrite Hd. split_and!; [done | done | done | apply nk_stop | done].
Qed.

(** The frames a transmission leaves alone. *)
Definition keeps (i : nat) (e e' : E) : Prop :=
  forall j, (j < n)%nat -> j <> i -> snt e j = true -> snt e' j = true.

Lemma xmit_ok skb priv i (e : E) :
  dev_ok priv i ->
  wp (ccat_eth_start_xmit skb priv) e (fun '(r, priv') t e' =>
    (exists i', dev_ok priv' i') /\ (snt e i = true -> r = NETDEV_TX_OK /\ keeps i e e')).
Proof.
  intros Hok. destruct (snt e i) eqn:Hs.
  - eapply wp_conseq; [by apply (xmit_free skb priv i)|]. intros [r p] t e' (-> & i' & Hd' & _ & _ & Hk & _).
    split; [by exists i'|]. done.
  - eapply wp_conseq; [by apply xmit_full|]. intros [r p] t e' [Hd' _]. split; [by exists i | done].
Qed.

Lemma race_step_ok s s' : race_step s s' -> (exists i, dev_ok (ra_priv s) i) -> exists i, dev_ok (ra_priv s') i.
Proof.
  intros Hstep [i Hok]. destruct Hstep as [skb priv e p r priv' t e' _ Hrun | | |]; simpl in *; try by exists i.
  by destruct (wpx_run _ _ _ _ _ _ _ (xmit_ok skb priv i e Hok) Hrun).
Qed.

(** C21: with transmissions at any point inside [poll_tx], whatever the FPGA does, the device stays
    at a frame of its ring and every transmission returns.  If the frame at [next] is free it is
    accepted and no other frame is taken.  If it is not, which the wake-up of an overtaken
    [poll_tx] makes possible, nothing is stored, the ring stays where it is, the buffer is not
    freed, so the kernel can send it again, and the queue is stopped; the next [poll_tx] that sees
    the frame sent wakes it. *)
Theorem ccat_eth_race_safe priv0 i0 (e0 : E) p0 s :
  dev_ok priv0 i0 -> rtc race_step (Race priv0 e0 p0) s ->
  exists i, dev_ok (ra_priv s) i /\
    (forall skb, wp (ccat_eth_start_xmit skb (ra_priv s)) (ra_env s) (fun '(r, priv') t e' =>
       if snt (ra_env s) i then r = NETDEV_TX_OK /\ keeps i (ra_env s) e'
       else if skb_nonlinear skb || (MAX_PAYLOAD_SIZE <? skb_len skb)
       then r = NETDEV_TX_OK /\ calls t = [Kernel (DevKfreeSkbAny (skb_ptr skb))]
       else r = NETDEV_TX_BUSY /\ priv' = ra_priv s /\ awk e' = false /\
         calls t = [tx_ready_call (r_mac (p_reg (ra_priv s))) (tx_fifo (ra_priv s));
                    Kernel (NetifStopQueue dev)])) /\
    (snt (ra_env s) i = true -> wp (poll_tx (ra_priv s)) (ra_env s) (fun _ _ e' => awk e' = true)).
Proof.
  intros H0 Hr. assert (Hi : exists i, dev_ok (ra_priv s) i).
  { assert (Hi : exists i, dev_ok (ra_priv (Race priv0 e0 p0)) i) by (by exists i0).
    revert Hi. induction Hr; eauto using race_step_ok. }
  destruct Hi as [i Hok]. exists i. split_and!; [done | |].
  - intros skb. destruct (snt (ra_env s) i) eqn:Hs.
    + eapply wp_conseq; [by apply (xmit_ok skb _ i)|]. intros [r p] t e' [_ Hx]. by apply Hx.
    + eapply wp_conseq; [by apply (xmit_full skb _ i)|]. by intros [r p] t e' [_ Hx].
  - intros Hs. unfold poll_tx. apply wp_bind.
    eapply wp_conseq; [apply (tx_ready (dev := dev) (base := base) (n := n) _ _ i), Hok|].
    intros r t e' [-> _]. rewrite Hs. change (istrue (b2z true)) with true. cbv iota. wp_run.
    rewrite (proj1 Hok). apply nk_wake.
Qed.

(** ** The whole device, with the callback taken apart

    The timer callback in three parts: [poll_link] and [poll_rx], which run to their end, the look of
    [poll_tx], and the wake-up with the restart of the timer. *)
Definition poll_front (ip : Z) (priv : ccat_eth_priv) : M E ccat_eth_priv :=
  priv ← poll_link priv;
  poll_rx ip priv.

Definition poll_back (priv : ccat_eth_priv) (p : poller) : M E unit :=
  poll_act priv p ;;
  kern_ HrtimerForwardNow.

Lemma poll_timer_callback_parts ip priv (e : E) :
  poll_timer_callback ip priv e =
  (priv ← poll_front ip priv; p ← poll_look priv; poll_back priv p ;; mret priv) e.
Proof.
  unfold poll_timer_callback, poll_front, poll_back. rewrite bind_assoc. apply bind_ext; [done|]. intros p1 e1.
  apply bind_ext; [done|]. intros p2 e2. unfold poll_tx, poll_look. rewrite !bind_assoc.
  apply bind_ext; [done|]. intros r e3. rewrite bind_ret_l. by rewrite bind_assoc.
Qed.

(** The device and two counts: the transmissions that got [NETDEV_TX_BUSY], and those that came
    while [poll_tx] had looked and not yet woken the queue. *)
Record live := Live { lv_race : race E; lv_busy : nat; lv_raced : nat }.

Definition saw_frame (p : poller) : bool := match p with PollSaw _ => true | PollIdle => false end.

(** The kernel transmits while the queue is awake, opens, stops, asks for the statistics; the timer
    callback goes on by one part; the FPGA works. *)
Inductive live_step (ip : Z) : live -> live -> Prop :=
  | ls_xmit skb priv e p b k r priv' t e' :
      awk e = true -> ccat_eth_start_xmit skb priv e = (Ret (r, priv'), t, e') ->
      live_step ip (Live (Race priv e p) b k)
        (Live (Race priv' e' p) (b + Nat.b2n (r =? NETDEV_TX_BUSY)) (k + Nat.b2n (saw_frame p)))
  | ls_front priv e b k priv' t e' :
      poll_front ip priv e = (Ret priv', t, e') ->
      live_step ip (Live (Race priv e PollIdle) b k) (Live (Race priv' e' PollIdle) b k)
  | ls_look priv e p b k t e' :
      poll_look priv e = (Ret p, t, e') ->
      live_step ip (Live (Race priv e PollIdle) b k) (Live (Race priv e' p) b k)
  | ls_back priv e p b k t e' :
      poll_back priv p e = (Ret tt, t, e') ->
      live_step ip (Live (Race priv e p) b k) (Live (Race priv e' PollIdle) b k)
  | ls_open priv e p b k r t e' :
      ccat_eth_open priv e = (Ret r, t, e') ->
      live_step ip (Live (Race priv e p) b k) (Live (Race priv e' p) b k)
  | ls_stop priv e p b k r t e' :
      ccat_eth_stop priv e = (Ret r, t, e') ->
      live_step ip (Live (Race priv e p) b k) (Live (Race priv e' p) b k)
  | ls_stats priv e p b k r t e' :
      ccat_eth_get_stats64 priv e = (Ret r, t, e') ->
      live_step ip (Live (Race priv e p) b k) (Live (Race priv e' p) b k)
  | ls_fpga priv e p b k e' :
      quiet e e' -> live_step ip (Live (Race priv e p) b k) (Live (Race priv e' p) b k).

(** Whether a transmission could find the ring full: the queue is awake, or about to be woken. *)
Definition open_to (e : E) (p : poller) : bool :=
  match p with PollIdle => awk e | PollSaw r => awk e || istrue r end.
Definition debt (e : E) (p : poller) (i : nat) : nat := Nat.b2n (open_to e p && negb (snt e i)).

Definition live_ok (s : live) : Prop :=
  exists i, dev_ok (ra_priv (lv_race s)) i /\
    (lv_busy s + debt (ra_env (lv_race s)) (ra_poll (lv_race s)) i <= lv_raced s)%nat.

Lemma debt_free e p i : snt e i = true -> debt e p i = 0%nat.
Proof. unfold debt. intros ->. by rewrite andb_false_r. Qed.

Lemma debt_le_1 e p i : (debt e p i <= 1)%nat.
Proof. unfold debt. by destruct (_ && _); simpl; lia. Qed.

Lemma debt_closed e p i : (open_to e p = true -> snt e i = true) -> debt e p i = 0%nat.
Proof. unfold debt. destruct (open_to e p), (snt e i); simpl; auto. intros Hx. by specialize (Hx eq_refl). Qed.

Lemma debt_open e p i : awk e = true -> snt e i = false -> debt e p i = 1%nat.
Proof. intros Ha Hs. unfold debt, open_to. rewrite Ha, Hs. by destruct p. Qed.

Lemma debt_quiet e e' p i : (i < n)%nat -> quiet e e' -> (debt e' p i <= debt e p i)%nat.
Proof.
  intros Hi (Ha & _ & Hs). unfold debt, open_to. rewrite Ha. destruct (snt e i) eqn:Hf.
  - rewrite (Hs i Hi Hf). by rewrite !andb_false_r.
  - destruct p; destruct (snt e' i), (awk e); simpl; try destruct (istrue _); simpl; lia.
Qed.

Lemma live_quiet priv e p b k e' :
  quiet e e' -> live_ok (Live (Race priv e p) b k) -> live_ok (Live (Race priv e' p) b k).
Proof.
  intros Hq (i & Hd & Hb). exists i. split; [done|]. simpl in *.
  pose proof (debt_quiet e e' p i (proj1 (tx_slot _ _ (proj2 (proj2 Hd)))) Hq). lia.
Qed.

Lemma callback_returns ip (Hn : (2 <= n)%nat) priv i (e : E) :
  dev_ok priv i -> wpo no_buffer (poll_timer_callback ip priv) e (fun _ _ _ => True).
Proof.
  intros Hd. unfold poll_timer_callback. apply wpo_seq; [auto with ccat|].
  eapply wpo_conseq; [by apply (poll_link_dev Hn priv i)|]. intros p1 t1 e1 [(i' & Hd' & _) _].
  apply wp_wpo, wp_bind. eapply wp_conseq; [by apply poll_rx_quiet|]. intros p2 t2 e2 [Hd2 _].
  unfold poll_tx. apply wp_bind, wp_bind. eapply wp_conseq; [apply tx_ready, Hd2|]. intros r t3 e3 _.
  by destruct (istrue r); wp_run.
Qed.

(** ** Each step keeps the count *)

Lemma live_xmit skb priv e p b k r priv' t e' :
  awk e = true -> ccat_eth_start_xmit skb priv e = (Ret (r, priv'), t, e') ->
  live_ok (Live (Race priv e p) b k) ->
  live_ok (Live (Race priv' e' p) (b + Nat.b2n (r =? NETDEV_TX_BUSY)) (k + Nat.b2n (saw_frame p))).
Proof.
  intros Ha Hrun (i & Hd & Hb). simpl in *. destruct (snt e i) eqn:Hs.
  - destruct (wpx_run _ _ _ _ _ _ _ (xmit_free skb priv i e Hd Hs) Hrun) as (-> & i' & Hd' & Hfree & _).
    exists i'. split; [done|]. simpl. change (NETDEV_TX_OK =? NETDEV_TX_BUSY) with false.
    destruct p as [|v]; simpl saw_frame; [rewrite (debt_closed e' PollIdle) by done; simpl; lia|].
    pose proof (debt_le_1 e' (PollSaw v) i'). simpl. lia.
  - rewrite (debt_open e p i Ha Hs) in Hb.
    destruct (wpx_run _ _ _ _ _ _ _ (xmit_full skb priv i e Hd Hs) Hrun) as [Hd' Hr]. exists i.
    split; [done|]. simpl. pose proof (debt_le_1 e' p i). destruct (_ || _).
    { destruct Hr as [-> _]. change (NETDEV_TX_OK =? NETDEV_TX_BUSY) with false. simpl. lia. }
    destruct Hr as (-> & _ & Ha' & _). change (NETDEV_TX_BUSY =? NETDEV_TX_BUSY) with true.
    destruct p as [|v]; simpl saw_frame; [|simpl; lia].
    rewrite debt_closed by (simpl; congruence). simpl. lia.
Qed.

Lemma front_dev ip (Hn : (2 <= n)%nat) priv i (e : E) :
  dev_ok priv i ->
  wpo no_buffer (poll_front ip priv) e (fun priv' _ e' =>
    exists i', dev_ok priv' i' /\ ((awk e' = true -> snt e' i' = true) \/ i' = i /\ quiet e e')).
Proof.
  intros Hd. unfold poll_front. apply wpo_seq; [auto with ccat|].
  eapply wpo_conseq; [by apply (poll_link_dev Hn priv i)|]. intros p1 t1 e1 [(i' & Hd' & Hc) _].
  apply wp_wpo. eapply wp_conseq; [by apply poll_rx_quiet|]. intros p2 t2 e2 [Hd2 Hq2]. exists i'. split; [done|].
  destruct Hc as [Hf | [-> Hq]]; [left | right; split; [done | by etrans]].
  destruct Hq2 as (Ha & _ & Hs). rewrite Ha. intros Hw.
  apply Hs; [apply (tx_slot _ _ (proj2 (proj2 Hd2))) | auto].
Qed.

Lemma live_front ip (Hn : (2 <= n)%nat) priv e b k priv' t e' :
  poll_front ip priv e = (Ret priv', t, e') ->
  live_ok (Live (Race priv e PollIdle) b k) -> live_ok (Live (Race priv' e' PollIdle) b k).
Proof.
  intros Hrun (i & Hd & Hb). simpl in *.
  destruct (wpo_run _ _ _ _ _ _ _ (front_dev ip Hn priv i e Hd) Hrun) as (i' & Hd' & [Hf | [-> Hq]]).
  - exists i'. split; [done|]. simpl. rewrite debt_closed by done. lia.
  - exists i. split; [done|]. simpl.
    pose proof (debt_quiet e e' PollIdle i (proj1 (tx_slot _ _ (proj2 (proj2 Hd)))) Hq). lia.
Qed.

Lemma live_look priv e p b k t e' :
  poll_look priv e = (Ret p, t, e') ->
  live_ok (Live (Race priv e PollIdle) b k) -> live_ok (Live (Race priv e' p) b k).
Proof.
  intros Hrun (i & Hd & Hb). simpl in *. destruct (tx_slot _ _ (proj2 (proj2 Hd))) as [Hi _].
  assert (Hl : wp (poll_look priv) e (fun p _ e' => p = PollSaw (b2z (snt e i)) /\ quiet e e')).
  { unfold poll_look. apply wp_bind. eapply wp_conseq; [apply tx_ready, Hd|]. intros r t1 e1 [-> Hq]. by wp_run. }
  destruct (wpx_run _ _ _ _ _ _ _ Hl Hrun) as [-> Hq]. exists i. split; [done|]. simpl.
  pose proof (debt_quiet e e' PollIdle i Hi Hq). destruct (snt e i) eqn:Hs.
  - rewrite debt_free by (by apply Hq). lia.
  - change (debt e' (PollSaw (b2z false)) i) with (Nat.b2n ((awk e' || false) && negb (snt e' i))).
    rewrite orb_false_r. change (Nat.b2n (awk e' && negb (snt e' i))) with (debt e' PollIdle i). lia.
Qed.

Lemma live_back priv e p b k t e' :
  poll_back priv p e = (Ret tt, t, e') ->
  live_ok (Live (Race priv e p) b k) -> live_ok (Live (Race priv e' PollIdle) b k).
Proof.
  intros Hrun (i & Hd & Hb). simpl in *. destruct (tx_slot _ _ (proj2 (proj2 Hd))) as [Hi _].
  assert (Hl : wp (poll_back priv p) e (fun _ _ e' => (debt e' PollIdle i <= debt e p i)%nat)).
  { unfold poll_back, poll_act.
    assert (Hlast : forall e1, (debt (ext (Kernel HrtimerForwardNow) e1).2 PollIdle i <= debt e1 PollIdle i)%nat)
      by (intros e1; apply debt_quiet; [done | by apply tame_quiet]).
    destruct p as [|v]; [wp_run; etrans; [apply Hlast | done]|].
    destruct (istrue v) eqn:Hv; wp_run; (etrans; [apply Hlast|]); unfold debt, open_to; rewrite Hv.
    - rewrite orb_true_r. destruct (snt e i) eqn:Hs; [|by destruct (_ && _); simpl; lia].
      rewrite (tx_mono e _ i Hi) by (intros [] || done). by rewrite andb_false_r.
    - by rewrite orb_false_r. }
  pose proof (wpx_run _ _ _ _ _ _ _ Hl Hrun) as Hle. exists i. split; [done|]. cbn in *. lia.
Qed.

Lemma live_stop priv e p b k r t e' :
  ccat_eth_stop priv e = (Ret r, t, e') ->
  live_ok (Live (Race priv e p) b k) -> live_ok (Live (Race priv e' p) b k).
Proof.
  intros Hrun (i & Hd & Hb). exists i. split; [done|]. simpl in *.
  destruct (tx_slot _ _ (proj2 (proj2 Hd))) as [Hi _].
  assert (Hl : wp (ccat_eth_stop priv) e (fun _ _ e' => awk e' = false /\ (snt e i = true -> snt e' i = true))).
  { unfold ccat_eth_stop. wp_run. rewrite (proj1 Hd), nk_queue, nk_stop by intros []. split; [done|].
    intros Hs. do 2 (apply tx_mono; [done | intros [] |]). done. }
  destruct (wpx_run _ _ _ _ _ _ _ Hl Hrun) as [Ha Hs]. etrans; [|exact Hb].
  apply Nat.add_le_mono_l. unfold debt, open_to. rewrite Ha. destruct (snt e i); [rewrite Hs by done|];
    destruct p as [|v]; simpl; try lia; destruct (istrue v), (awk e), (snt e' i); simpl; lia.
Qed.

Lemma live_step_ok ip (Hn : (2 <= n)%nat) s s' : live_step ip s s' -> live_ok s -> live_ok s'.
Proof.
  destruct 1; eauto using live_xmit, live_front, live_look, live_back, live_stop, live_quiet;
    (apply live_quiet; eapply evolves_run; [|eassumption]); apply open_quiet || apply stats_quiet.
Qed.

(** C1: the branch of [ccat_eth_start_xmit] that the driver reports as a bug.  Whatever the kernel,
    the timer callback and the FPGA do, with transmissions allowed between the look of [poll_tx]
    and its wake-up, [NETDEV_TX_BUSY] is returned at most once for each transmission that came
    in between; as long as the counts are equal, in particular when no transmission did, every
    frame the kernel hands over while the queue is awake is accepted.  The device stays at a frame
    of its ring, and the timer callback has one fault only: a link that comes up with no buffer. *)
Theorem ccat_eth_busy_bound ip priv0 (e0 : E) priv e p b k :
  (2 <= n)%nat -> tx_inv (dev := dev) (base := base) (n := n) priv0 e0 ->
  rtc (live_step ip) (Live (Race priv0 e0 PollIdle) 0 0) (Live (Race priv e p) b k) ->
  (b <= k)%nat /\ (exists i, dev_ok priv i) /\
  (awk e = true -> b = k -> forall skb,
     wp (ccat_eth_start_xmit skb priv) e (fun '(r, _) _ _ => r = NETDEV_TX_OK)) /\
  wpo no_buffer (poll_timer_callback ip priv) e (fun _ _ _ => True).
Proof.
  intros Hn (i0 & Hd0 & Hi0) Hrun. assert (Hok : live_ok (Live (Race priv e p) b k)).
  { assert (H0 : live_ok (Live (Race priv0 e0 PollIdle) 0 0))
      by (exists i0; split; [done|]; simpl; by rewrite debt_closed).
    revert H0. induction Hrun; eauto using live_step_ok. }
  destruct Hok as (i & Hd & Hb). simpl in *. split_and!; [lia | by exists i | |].
  - intros Ha -> skb. destruct (snt e i) eqn:Hs; [|rewrite (debt_open e p i Ha Hs) in Hb; lia].
    eapply wp_conseq; [by apply (xmit_free skb priv i)|]. by intros [r p'] t e' [-> _].
  - apply (callback_returns ip Hn priv i e Hd).
Qed.

End Race.

(** ** Witness: one free frame, and a transmission between the halves *)

(** Only frame 3, the one at [next], is free. *)
Definition one_free : net_world := NW true true (fun a => b2z (a =? flag_at 0x10000 3)) 0x100000.

Definition after {A} (x : outcome A * list event * net_world) : net_world := x.2.
Definition saw : net_world := env_of (poll_look (H := net_env) net_priv) one_free.
Definition sent_one : outcome (Z * ccat_eth_priv) * list event * net_world :=
  ccat_eth_start_xmit (H := net_env) (small_skb 60) net_priv saw.
Definition priv_one : ccat_eth_priv := match sent_one with (Ret (_, p), _, _) => p | _ => net_priv end.
Definition woken : net_world := env_of (poll_act (H := net_env) priv_one (PollSaw 1)) (after sent_one).

Lemma race_reached :
  rtc (race_step (H := net_env) (dev := 5) (base := 0x10000) (n := 4))
    (Race net_priv one_free PollIdle) (Race priv_one woken PollIdle).
Proof.
  eapply rtc_l; [eapply (rc_look (H := net_env) net_priv one_free (PollSaw 1) _ saw); reflexivity|].
  eapply rtc_l; [eapply (rc_xmit (H := net_env) (small_skb 60) net_priv saw (PollSaw 1) 0 priv_one _ (after sent_one));
    reflexivity|].
  apply rtc_once. eapply (rc_act (H := net_env) priv_one (after sent_one) (PollSaw 1) _ woken). reflexivity.
Qed.

(** The branch the driver reports as a bug is taken: the queue is awake and the ring full. *)
Example race_busy :
  w_awake woken = true /\
  match ccat_eth_start_xmit (H := net_env) (small_skb 60) priv_one woken with
  | (Ret (r, _), _, w) => r = NETDEV_TX_BUSY /\ w_awake w = false
  | _ => False
  end.
Proof. vm_compute. done. Qed.

Lemma ccat_eth_race_safe_witness :
  exists r p t w, ccat_eth_start_xmit (H := net_env) (small_skb 60) priv_one woken = (Ret (r, p), t, w) /\
    r = NETDEV_TX_BUSY /\ p = priv_one.
Proof.
  destruct (ccat_eth_race_safe (H := net_env) (dev := 5) (base := 0x10000) (n := 4) net_priv 3 one_free PollIdle
    (Race priv_one woken PollIdle) net_priv_ok race_reached) as (i & Hok & Hx & _).
  specialize (Hx (small_skb 60)). simpl ra_priv in *. simpl ra_env in *.
  apply wp_elim in Hx as ([r p] & t & w & Hrun & Hx). exists r, p, t, w. split; [exact Hrun|].
  assert (i = 0%nat) as ->.
  { destruct Hok as (_ & _ & Htx). apply tx_slot in Htx as [_ Hn]. change (next (tx_fifo priv_one)) with 0x10000 in Hn.
    change sizeof_frame with 2048 in Hn. lia. }
  change (sent 0x10000 4 woken 0) with false in Hx. cbv iota in Hx.
  change (skb_nonlinear (small_skb 60) || (MAX_PAYLOAD_SIZE <? skb_len (small_skb 60))) with false in Hx.
  cbv iota in Hx. split; [exact (proj1 Hx) | exact (proj1 (proj2 Hx))].
Defined.

Lemma live_reached :
  rtc (live_step (H := net_env) (dev := 5) (base := 0x10000) (n := 4) 0)
    (Live (Race net_priv one_free PollIdle) 0 0) (Live (Race priv_one (after sent_one) (PollSaw 1)) 0 1).
Proof.
  eapply rtc_l; [eapply (ls_look (H := net_env) 0 net_priv one_free (PollSaw 1) 0 0 _ saw); reflexivity|].
  apply rtc_once. exact (ls_xmit (H := net_env) (dev := 5) (base := 0x10000) (n := 4) 0 (small_skb 60) net_priv saw
    (PollSaw 1) 0 0 0 priv_one _ (after sent_one) eq_refl eq_refl).
Qed.

Lemma ccat_eth_busy_bound_witness :
  (0 <= 1)%nat /\
  exists r p t w, ccat_eth_start_xmit (H := net_env) (small_skb 60) net_priv net_idle = (Ret (r, p), t, w) /\
    r = NETDEV_TX_OK.
Proof.
  destruct (ccat_eth_busy_bound (H := net_env) (dev := 5) (base := 0x10000) (n := 4) 0 net_priv one_free
    priv_one (after sent_one) (PollSaw 1) 0 1 ltac:(lia)) as (Hle & _).
  { exists 3%nat. split; [apply net_priv_ok | done]. }
  { exact live_reached. }
  destruct (ccat_eth_busy_bound (H := net_env) (dev := 5) (base := 0x10000) (n := 4) 0 net_priv net_idle
    net_priv net_idle PollIdle 0 0 ltac:(lia) net_priv_inv (rtc_refl _ _)) as (_ & _ & Hx & _).
  specialize (Hx eq_refl eq_refl (small_skb 60)). apply wp_elim in Hx as ([r p] & t & w & Hrun & ->).
  split; [exact Hle|]. exists NETDEV_TX_OK, p, t, w. split; [exact Hrun | reflexivity].
Defined.
