(* ===== verification/NetDma.v ===== *)
(** * DMA memory is given back only when the FPGA has let go of it (netdev.c)

    A FIFO of the FPGA that was handed descriptors goes on writing received frames to the DMA memory
    they name, or reading frames from it, until the FIFO is reset.  This file follows that through
    the calls of the driver: on every path but one the FIFOs are reset before memory goes back to
    the kernel. *)

From S2P Require Import Prelude IO Info NetFifo Netdev NetProbe NetTx.

(** ** Armed FIFOs *)

(** What a call does to the FIFO at [reg]: a descriptor arms it, a reset disarms it. *)
Definition feed (reg : Z) (armed : bool) (c : call) : bool :=
  match c with
  | IoWrite W32 a _ => if a =? reg then true else if a =? reg + 0x8 then false else armed
  | _ => armed
  end.

Definition armed_after (reg : Z) (b : bool) (l : list call) : bool := fold_left (feed reg) l b.

Definition frees (c : call) : bool :=
  match c with Kernel (DmaFreeCoherent _ _ _) => true | _ => false end.

(** DMA memory is given back while the FIFO is armed. *)
Fixpoint frees_armed (reg : Z) (b : bool) (l : list call) : bool :=
  match l with
  | [] => false
  | c :: l' => (b && frees c) || frees_armed reg (feed reg b c) l'
  end.

Lemma armed_after_app reg b l l' : armed_after reg b (l ++ l') = armed_after reg (armed_after reg b l) l'.
Proof. apply fold_left_app. Qed.

Lemma frees_armed_app reg b l l' :
  frees_armed reg b (l ++ l') = frees_armed reg b l || frees_armed reg (armed_after reg b l) l'.
Proof.
  revert b. induction l as [|c l IH]; intros b; simpl; [done|]. rewrite IH. by rewrite orb_assoc.
Qed.

Lemma frees_none reg b l : Forall (fun c => frees c = false) l -> frees_armed reg b l = false.
Proof. intros Hl. revert b. induction Hl as [|c l Hc _ IH]; intros b; simpl; [done|]. rewrite Hc, andb_false_r. apply IH. Qed.

Lemma frees_disarmed reg l : Forall (fun c => feed reg false c = false) l -> frees_armed reg false l = false.
Proof. induction 1 as [|c l Hc _ IH]; simpl; [done|]. by rewrite Hc. Qed.

(** Calls that neither free memory nor touch the FIFO. *)
Definition plain (reg : Z) (c : call) : Prop :=
  match c with
  | IoWrite W32 a _ => a <> reg /\ a <> reg + 0x8
  | Kernel (DmaFreeCoherent _ _ _) => False
  | _ => True
  end.

Lemma plain_call reg c : plain reg c -> frees c = false /\ forall b, feed reg b c = b.
Proof.
  destruct c as [|[] a v| | | |[]]; simpl; try done. intros [H1 H2]. split; [done|]. intros b. zcases. done.
Qed.

Lemma plain_app reg b l l' :
  Forall (plain reg) l ->
  armed_after reg b (l ++ l') = armed_after reg b l' /\ frees_armed reg b (l ++ l') = frees_armed reg b l'.
Proof.
  intros Hl. induction Hl as [|c l Hc _ IH]; simpl; [done|]. destruct (plain_call reg c Hc) as [Hf Hb].
  by rewrite Hf, Hb, andb_false_r.
Qed.

Lemma armed_plain reg b l : Forall (plain reg) l -> armed_after reg b l = b.
Proof. intros Hl. rewrite <- (app_nil_r l). by rewrite (proj1 (plain_app reg b l [] Hl)). Qed.

Section Dma.
Context {E : Type} `{Env E}.

(** ** Giving memory back *)

Lemma hw_reset_calls f (e : E) :
  f_reg f <> 0 -> wp (ccat_eth_fifo_hw_reset f) e (fun _ t _ => calls t = [IoWrite W32 (f_reg f + 0x8) 0; Wmb]).
Proof. intros Hr. unfold ccat_eth_fifo_hw_reset. rewrite istrue_nz by done. by wp_run. Qed.

Lemma dma_free_calls dm (e : E) :
  wp (ccat_dma_free dm) e (fun _ t _ =>
    calls t = if istrue (dm_base dm) then [Kernel (DmaFreeCoherent (dm_size dm) (dm_base dm) (dm_phys dm))] else []).
Proof. unfold ccat_dma_free. destruct (istrue _); by wp_run. Qed.

(** The registers of the two FIFOs, as [ccat_eth_priv_init_reg] leaves them. *)
Record fifo_regs (priv : ccat_eth_priv) (reg : Z) : Prop := {
  fr_tx : f_reg (tx_fifo priv) = reg;
  fr_rx : f_reg (rx_fifo priv) = reg + 0x10;
  fr_pos : 0 < reg;
}.

(** [reg] is the register of one of the two. *)
Definition one_of (reg r : Z) : Prop := r = reg \/ r = reg + 0x10.

Lemma priv_free_quiesced priv reg r b (e : E) :
  fifo_regs priv reg -> one_of reg r ->
  wp (ccat_eth_priv_free priv) e (fun _ t _ => frees_armed r b (calls t) = false).
Proof.
  intros [Htx Hrx Hpos] Hr. unfold ccat_eth_priv_free. apply wp_bind.
  eapply wp_conseq; [apply hw_reset_calls; lia|]. intros ? t1 e1 Ht1. apply wp_bind.
  eapply wp_conseq; [apply hw_reset_calls; lia|]. intros ? t2 e2 Ht2. apply wp_bind.
  eapply wp_conseq; [apply dma_free_calls|]. intros ? t3 e3 Ht3. apply wp_bind.
  eapply wp_conseq; [apply dma_free_calls|]. intros ? t4 e4 Ht4. wp_run.
  rewrite !calls_app, Ht1, Ht2, Ht3, Ht4, Hrx, Htx. cbn [app frees_armed frees feed].
  rewrite !andb_false_r. cbn [orb].
  assert (Hoff : (if reg + 8 =? r then true else if reg + 8 =? r + 8 then false else
    (if reg + 16 + 8 =? r then true else if reg + 16 + 8 =? r + 8 then false else b)) = false).
  { destruct Hr as [-> | ->]; zcases; done. }
  rewrite Hoff. apply frees_disarmed. rewrite !app_nil_r. apply Forall_app.
  split; (match goal with |- Forall _ (if ?x then _ else _) => destruct x end); repeat constructor.
Qed.

Lemma remove_quiesced eth reg r b (e : E) :
  fifo_regs eth reg -> one_of reg r ->
  wp (ccat_eth_dma_remove eth) e (fun _ t _ => frees_armed r b (calls t) = false).
Proof.
  intros Heth Hr. unfold ccat_eth_dma_remove. wp_run.
  eapply wp_conseq; [by eapply (priv_free_quiesced _ _ r b)|]. intros ? t e1 Ht. wp_run.
  cbn. rewrite andb_false_r, calls_app, frees_armed_app, Ht. cbn. by rewrite andb_false_r.
Qed.

Lemma ioread_bytes_plain reg a k : forall_calls (plain reg) (ioread_bytes a k : M E _).
Proof. revert a. induction k as [|k IH]; intros a; simpl; fc_run; done || apply IH. Qed.

(** The path after a failed [register_netdev]. *)
Lemma init_netdev_quiesced priv reg r b (e : E) :
  fifo_regs priv reg -> one_of reg r ->
  wp (ccat_eth_init_netdev priv) e (fun _ t _ => frees_armed r b (calls t) = false).
Proof.
  intros Hp Hr. unfold ccat_eth_init_netdev. apply wp_bind.
  eapply wp_conseq; [apply (wp_forall_calls _ (plain r)); [apply ioread_bytes_plain | apply ioread_bytes_any]|].
  intros l t1 e1 [_ Hc1]. wp_run. destruct (istrue _); cbn [negb]; wp_run.
  - apply wp_istrue; intros _; wp_run.
    + eapply wp_conseq; [by eapply (priv_free_quiesced _ _ r b)|]. intros ? t e2 Ht. wp_run.
      rewrite !calls_app, (proj2 (plain_app _ _ _ _ Hc1)). cbn. rewrite !andb_false_r. cbn.
      rewrite frees_armed_app, Ht. cbn. by rewrite andb_false_r.
    + rewrite !calls_app, (proj2 (plain_app _ _ _ _ Hc1)). cbn. by rewrite !andb_false_r.
  - rewrite !calls_app, (proj2 (plain_app _ _ _ _ Hc1)). cbn. by rewrite !andb_false_r.
Qed.

(** ** Setting up *)

(** The address registers of a channel lie apart from the registers of the FIFOs. *)
Definition away (reg bar2 ch : Z) : Prop :=
  let a := bar2 + 0x1000 + 8 * ch in a + 4 < reg \/ reg + 0x18 < a.

(** Resetting the RX FIFO arms it. *)
Lemma rx_reset_arms f b :
  ops f = dma_rx_fifo_ops ->
  armed_after (f_reg f) b (seq 0 (nslots f) ≫= fun j => add_calls f (slot f j)) = true.
Proof.
  intros Ho. pose proof (nslots_pos f). destruct (nslots f) as [|k]; [lia|].
  rewrite seq_S, bind_app, armed_after_app. simpl. unfold add_calls. rewrite Ho. simpl. by rewrite Z.eqb_refl.
Qed.

Lemma dma_init_frees_nothing pdev ch bar2 fifo :
  forall_calls (fun c => frees c = false) (ccat_dma_init pdev ch bar2 fifo : M E _).
Proof.
  unfold ccat_dma_init, fifo_set_end. fc_run; try done.
  eapply forall_calls_impl; [|apply reset_neutral]. by intros [| | | | |[]].
Qed.

Lemma rx_init_arms pdev ch bar2 fifo reg (e : E) :
  ops fifo = dma_rx_fifo_ops -> f_reg fifo = reg + 0x10 -> 0 < reg -> away reg bar2 ch ->
  wp (ccat_dma_init pdev ch bar2 fifo) e (fun '(r, _) t _ =>
    armed_after reg false (calls t) = false /\ (r = 0 -> armed_after (reg + 0x10) false (calls t) = true)).
Proof.
  intros Ho Hr Hpos Haw. unfold away in Haw. unfold ccat_dma_init, fifo_set_end. wp_run.
  destruct (_ || _); wp_run; [done|].
  match goal with |- wpx _ (ccat_eth_fifo_reset ?f) _ _ => set (f1 := f) end.
  assert (Ho1 : ops f1 = dma_rx_fifo_ops) by done. assert (Hr1 : f_reg f1 = reg + 0x10) by done. clearbody f1.
  eapply wp_conseq; [apply reset_spec; by rewrite Ho1|]. intros f' t e1 [_ Ht]. wp_run.
  rewrite Hr1, istrue_nz in Ht by lia. rewrite !calls_app, Ht. split; [|intros _].
  - apply armed_plain. rewrite !Forall_app. split_and!; try (repeat constructor; simpl; lia).
    apply Forall_bind, Forall_true. intros j. unfold add_calls. rewrite Ho1, Hr1. repeat constructor; simpl; lia.
  - rewrite !armed_after_app, <- Hr1, rx_reset_arms, Hr1 by done.
    rewrite !armed_plain by (repeat constructor; simpl; lia). done.
Qed.

Lemma tx_init_plain pdev ch bar2 fifo (e : E) :
  ops fifo <> NoOps ->
  wp (ccat_dma_init pdev ch bar2 fifo) e (fun '(s, _) t _ => s <> 0 -> forall r, Forall (plain r) (calls t)).
Proof.
  intros Ho. unfold ccat_dma_init, fifo_set_end. wp_run. destruct (_ || _); wp_run; [intros _ r; repeat constructor|].
  eapply wp_conseq; [by apply reset_spec|]. intros f' t e1 _. by wp_run.
Qed.

(** The memory that is given back during the set-up is that of an armed FIFO. *)
Lemma init_dma_frees priv reg (e : E) :
  fifo_regs priv reg ->
  away reg (bar_2 (f_ccat (p_func priv))) (rx_dma_chan (f_info (p_func priv))) ->
  wp (ccat_eth_priv_init_dma priv) e (fun '(r, _) t _ =>
    (r = 0 -> existsb frees (calls t) = false) /\
    frees_armed (reg + 0x10) false (calls t) = existsb frees (calls t) /\
    frees_armed reg false (calls t) = false).
Proof.
  intros [Htx Hrx Hpos] Haw. unfold ccat_eth_priv_init_dma. apply wp_bind.
  eapply wp_conseq; [apply (wp_forall_calls _ (fun c => frees c = false)); [apply dma_init_frees_nothing|];
    by apply (rx_init_arms _ _ _ _ reg)|].
  intros [s1 rx] t1 e1 [[Hoff Harm] Hf1].
  assert (Hno : forall l, Forall (fun c => frees c = false) l -> existsb frees l = false).
  { induction 1 as [|c l Hc _ IH]; simpl; [done|]. by rewrite Hc. }
  apply wp_istrue; intros Hs1; wp_run; [rewrite app_nil_r, !frees_none, Hno by done; by split_and!|].
  eapply wp_conseq; [apply (wp_forall_calls _ (fun c => frees c = false)); [apply dma_init_frees_nothing|];
    by apply tx_init_plain|].
  intros [s2 tx] t2 e2 [Hpl Hf2]. apply wp_istrue; intros Hs2; wp_run.
  - eapply wp_conseq; [apply dma_free_calls|]. intros dm t3 e3 Ht3. wp_run.
    rewrite app_nil_r, !calls_app, !frees_armed_app, !existsb_app.
    rewrite !(frees_none _ _ _ Hf1), !(frees_none _ _ _ Hf2), !(Hno _ Hf1), !(Hno _ Hf2).
    rewrite Hoff, (Harm Hs1), !armed_plain by (by apply Hpl). rewrite Ht3. split_and!; [done | |];
      match goal with |- context [if istrue ?x then _ else _] => destruct (istrue x) end; done.
  - unfold ccat_hw_disable_mac_filter. wp_run. rewrite !calls_app.
    assert (Hall : Forall (fun c => frees c = false) (calls t1 ++ calls t2 ++
      [IoWrite W8 (r_mii (p_reg priv) + 8 + 6) (trunc W8 0); Wmb])) by (rewrite !Forall_app; by repeat constructor).
    rewrite !frees_none, Hno by exact Hall. done.
Qed.

(** C15: DMA memory and the FIFOs of the FPGA.  Removing a network device, and giving up on one that
    could not be registered, gives memory back only when both FIFOs have been reset since they were
    last handed a descriptor, whatever they held before.  Setting one up gives memory back only when
    the memory of the TX ring cannot be had; then the RX FIFO is armed, so that the FPGA may still
    write received frames to the memory given back. *)
Theorem ccat_eth_dma_quiesced priv reg r b (e : E) :
  fifo_regs priv reg -> one_of reg r ->
  away reg (bar_2 (f_ccat (p_func priv))) (rx_dma_chan (f_info (p_func priv))) ->
  wp (ccat_eth_dma_remove priv) e (fun _ t _ => frees_armed r b (calls t) = false) /\
  wp (ccat_eth_init_netdev priv) e (fun _ t _ => frees_armed r b (calls t) = false) /\
  wp (ccat_eth_priv_init_dma priv) e (fun '(s, _) t _ =>
    (s = 0 -> existsb frees (calls t) = false) /\
    frees_armed (reg + 0x10) false (calls t) = existsb frees (calls t) /\
    frees_armed reg false (calls t) = false).
Proof.
  intros Hp Hr Haw. split_and!; [by eapply remove_quiesced | by eapply init_netdev_quiesced | by apply init_dma_frees].
Qed.

End Dma.

(** ** Witnesses: a kernel that has memory for one ring *)

Definition short_env : Env nat := fun c k =>
  match c with
  | Kernel (DmaAllocCoherent _) => (Resp (if decide (k = 0)%nat then 0x100000 else 0) 0x100000, S k)
  | _ => (Resp 0 0, k)
  end.

Definition short_priv : ccat_eth_priv :=
  Priv net_func 5 (EthReg 0x100 0x200 0x300 0x400 0x500) (set_reg 0x510 zero_fifo) (set_reg 0x500 zero_fifo).

(** The memory of the RX ring goes back while the FPGA may write to it. *)
Lemma ccat_eth_dma_quiesced_witness :
  exists s p t k, ccat_eth_priv_init_dma (H := short_env) short_priv 0%nat = (Ret (s, p), t, k) /\
    s = - ENOMEM /\ frees_armed 0x510 false (calls t) = true.
Proof.
  assert (Hregs : fifo_regs short_priv 0x500) by (split; reflexivity).
  destruct (ccat_eth_dma_quiesced (H := short_env) short_priv 0x500 0x500 true 0%nat Hregs) as (_ & _ & Hw).
  { left. reflexivity. }
  { unfold away. vm_compute. right. reflexivity. }
  apply wp_elim in Hw as ([s p] & t & k & Hrun & _ & Harm & _).
  assert (Hcheck : (let '(o, t, _) := ccat_eth_priv_init_dma (H := short_env) short_priv 0%nat in
    match o with Ret (s, _) => s = - ENOMEM /\ existsb frees (calls t) = true | _ => False end))
    by (vm_compute; split; reflexivity).
  rewrite Hrun in Hcheck. destruct Hcheck as [Hs Hf]. exists s, p, t, k.
  split; [exact Hrun|]. split; [exact Hs|]. change 0x510 with (0x500 + 0x10). rewrite Harm. exact Hf.
Defined.
