(* ===== verification/NetRx.v ===== *)
(** * Reception: the frames of the FPGA reach the stack in order

    Against an interface for the RX ring in DMA memory (the FPGA fills empty frames and leaves
    filled ones alone until the CPU empties them) this file shows that a look at the ring hands the
    waiting frames to the network stack complete, in the order of the ring and once each, except
    those for which the kernel had no buffer, which it counts as dropped; it gives every frame back
    to the FPGA in the same order, and stops after 31 of them. *)

From S2P Require Import Prelude IO Info NetFifo Netdev NetTx.

(** ** Interface *)

Definition frame_at (base : Z) (i : nat) : Z := base + sizeof_frame * Z.of_nat i.

(** A store into frame [i]. *)
Definition touches (base : Z) (i : nat) (c : call) : Prop :=
  match c with
  | MemWrite w a v => a < frame_at base i + sizeof_frame /\ frame_at base i < a + Z.of_nat (wbytes w)
  | _ => False
  end.

(** [frame e i] is the payload of frame [i] when its received flag is set.  The length the FPGA
    stores counts four more bytes. *)
Class RxRing (E : Type) `{Env E} (base : Z) (n : nat) := {
  frame : E -> nat -> option (list Z);
  rx_flag : forall e i, (i < n)%nat ->
    istrue (Z.land (u32 (r_val (ext (MemRead W32 (frame_at base i + dma_rx_flags)) e).1)) CCAT_FRAME_RECEIVED)
      = bool_decide (is_Some (frame e i));
  rx_length : forall e i p, (i < n)%nat -> frame e i = Some p ->
    u16 (r_val (ext (MemRead W16 (frame_at base i + dma_length)) e).1) = zlen p + 4;
  rx_data : forall e i p k b, (i < n)%nat -> frame e i = Some p -> p !! k = Some b ->
    u8 (r_val (ext (MemRead W8 (frame_at base i + sizeof_dma_hdr + Z.of_nat k)) e).1) = b;
  rx_fits : forall e i p, (i < n)%nat -> frame e i = Some p -> 0 < zlen p <= MAX_PAYLOAD_SIZE;
  rx_keep : forall e i p c, (i < n)%nat -> frame e i = Some p -> ~ touches base i c ->
    frame (ext c e).2 i = Some p;
}.
Arguments frame {E _} base n {_} e i.

(** What a run handed to the network stack, and the frames it gave back to the FPGA through the
    FIFO register [reg]. *)
Definition handed (t : list event) : list (list Z) :=
  omap (fun ev => match ev_call ev with Kernel (NetifRx _ l) => Some l | _ => None end) t.
Definition rearmed (reg : Z) (t : list event) : list Z :=
  omap (fun ev => match ev_call ev with
                  | IoWrite W32 a v => if a =? reg then Some v else None | _ => None end) t.

Lemma handed_app t t' : handed (t ++ t') = handed t ++ handed t'.
Proof. apply omap_app. Qed.
Lemma rearmed_app reg t t' : rearmed reg (t ++ t') = rearmed reg t ++ rearmed reg t'.
Proof. apply omap_app. Qed.

(** Whether each buffer a run asked the kernel for was granted, and the frames that got one. *)
Definition buffers (t : list event) : list bool :=
  omap (fun ev => match ev_call ev with
                  | Kernel (DevAllocSkb _) => Some (negb (r_val (ev_resp ev) =? 0)) | _ => None end) t.

Fixpoint kept (v : list bool) (d : list (list Z)) : list (list Z) :=
  match v, d with
  | b :: v', p :: d' => if b then p :: kept v' d' else kept v' d'
  | _, _ => []
  end.

Lemma buffers_app t t' : buffers (t ++ t') = buffers t ++ buffers t'.
Proof. apply omap_app. Qed.

Lemma kept_all v d : length v = length d -> Forall (eq true) v -> kept v d = d.
Proof.
  revert d. induction v as [|b v IH]; intros [|p d] Hl Hv; try done. simpl in *.
  apply Forall_cons in Hv as [<- Hv]. f_equal. apply IH; [lia | done].
Qed.

(** The counters of a FIFO after a frame [p] that got a buffer, or did not. *)
Definition counted (b : bool) (p : list Z) (f : ccat_eth_fifo) : ccat_eth_fifo :=
  if b then set_bytes (u64 (bytes f + zlen p)) f else set_dropped (u64 (dropped f + 1)) f.

Section Rx.
Context {E : Type} `{Env E} {base : Z} {n : nat} `{!RxRing E base n}.
Local Abbreviation frm := (frame base n).

(** Filled frames stay filled. *)
Definition keeps (e e' : E) : Prop :=
  forall i p, (i < n)%nat -> frm e i = Some p -> frm e' i = Some p.

#[global] Instance keeps_preorder : PreOrder keeps.
Proof. split; [by intros e i p | intros e1 e2 e3 H1 H2 i p Hi Hp; eauto]. Qed.

Lemma ext_keeps c e : (match c with MemWrite _ _ _ => False | _ => True end) -> keeps e (ext c e).2.
Proof. intros Hc i p Hi Hp. apply rx_keep; [done | done |]. destruct c; simpl; tauto. Qed.

(** An RX FIFO of the ring, at frame [i]. *)
Definition rx_at (f : ccat_eth_fifo) (i : nat) : Prop :=
  ops f = dma_rx_fifo_ops /\ start f = base /\ nslots f = n /\ at_slot f i.

Lemma rx_at_frame f i : rx_at f i -> (i < n)%nat /\ next f = frame_at base i.
Proof. intros (Ho & Hs & Hn & Hi & Hx). rewrite Hn in Hi. by rewrite Hx, <- Hs. Qed.

Lemma rx_at_inc f i : rx_at f i -> rx_at (ccat_eth_fifo_inc f) ((i + 1) mod n).
Proof.
  intros (Ho & Hs & Hn & Hi). pose proof (inc_slot f i Hi) as Hi'. rewrite (inc_eq f i Hi) in *.
  rewrite Hn, next_slot_mod in Hi' by (rewrite <- Hn; apply Hi).
  split_and!; [done | done | done |]. by rewrite Hn, next_slot_mod by (rewrite <- Hn; apply Hi).
Qed.

(** Events of no interest to the stack or the FIFO. *)
Definition mute (reg : Z) (t : list event) : Prop :=
  handed t = [] /\ rearmed reg t = [] /\ buffers t = [].

(** The [ready] callback: 0 for an empty frame, the length of the payload for a filled one. *)
Lemma rx_ready_len reg mac f i (e : E) :
  rx_at f i ->
  wp (ops_ready mac f) e (fun len t e' => keeps e e' /\ mute reg t /\
    (len = 0 /\ frm e i = None \/ exists p, frm e i = Some p /\ len = zlen p)).
Proof.
  intros Hf. destruct (rx_at_frame f i Hf) as [Hi Hx]. unfold ops_ready. rewrite (proj1 Hf).
  unfold fifo_dma_rx_ready. rewrite Hx. wp_run. untrunc. rewrite rx_flag by done.
  set (c := MemRead W32 _). destruct (frm e i) as [p|] eqn:Hp.
  - rewrite bool_decide_true by done. wp_run. untrunc.
    assert (Hk : keeps e (ext c e).2) by by apply ext_keeps.
    rewrite (rx_length _ i p) by (done || by apply Hk). pose proof (rx_fits e i p Hi Hp).
    unfold dma_rx_flags. destruct (Z.ltb_spec (zlen p + 4) 4); [lia|].
    split_and!; [etrans; [exact Hk | by apply ext_keeps] | done |]. right. exists p. split; [done | lia].
  - rewrite bool_decide_false by by intros [? ?]. wp_run. split_and!; [by apply ext_keeps | done | by left].
Qed.

(** Copying out of a filled frame. *)
Lemma memread_frame reg i p k o (e : E) :
  (i < n)%nat -> frm e i = Some p -> (o + k <= length p)%nat ->
  wp (memread_bytes (frame_at base i + sizeof_dma_hdr + Z.of_nat o) k) e (fun l t e' =>
    l = take k (drop o p) /\ keeps e e' /\ mute reg t).
Proof.
  intros Hi. revert o e. induction k as [|k IH]; intros o e Hp Ho; simpl; wp_run; [done|]. untrunc.
  destruct (lookup_lt_is_Some_2 p o) as [b Hb]; [lia|]. rewrite (rx_data _ _ p _ b) by done.
  set (c := MemRead W8 _). assert (Hk : keeps e (ext c e).2) by by apply ext_keeps.
  replace (frame_at base i + sizeof_dma_hdr + Z.of_nat o + 1)
    with (frame_at base i + sizeof_dma_hdr + Z.of_nat (S o)) by lia.
  eapply wp_conseq; [apply IH; [by apply Hk | lia]|]. intros l t e' (-> & Hk' & (Hh & Hr & Hbu)). wp_run.
  split_and!.
  - by rewrite (drop_S p b o Hb).
  - by etrans.
  - unfold mute. by rewrite app_nil_r, handed_app, rearmed_app, buffers_app, Hh, Hr, Hbu.
Qed.

(** The word that gives frame [i] back: bit 31 and the frame's offset. *)
Definition rx_word (i : nat) : Z := 2 ^ 31 + sizeof_frame * Z.of_nat i.

Lemma rx_word_eq i :
  (Z.of_nat i < FIFO_LENGTH) -> u32 (Z.lor (Z.shiftl 1 31) (u64 (sizeof_frame * Z.of_nat i))) = rx_word i.
Proof.
  intros Hi. unfold rx_word. assert (sizeof_frame = 2048 /\ FIFO_LENGTH = 64) as [H1 H2] by done.
  rewrite u64_small, lor_shiftl_add, u32_small by lia. lia.
Qed.

Lemma rx_add_word f i (e : E) :
  rx_at f i -> Z.of_nat n <= FIFO_LENGTH ->
  wp (ops_add f) e (fun _ t e' =>
    handed t = [] /\ buffers t = [] /\ rearmed (f_reg f) t = [rx_word i] /\
    forall j p, (j < n)%nat -> j <> i -> frm e j = Some p -> frm e' j = Some p).
Proof.
  intros Hf Hn. destruct (rx_at_frame f i Hf) as [Hi Hx]. pose proof (proj1 (proj2 Hf)) as Hs.
  unfold ops_add. rewrite (proj1 Hf). unfold ccat_eth_rx_fifo_dma_add. rewrite Hx, Hs.
  replace (frame_at base i - base) with (sizeof_frame * Z.of_nat i) by (unfold frame_at; lia).
  rewrite rx_word_eq by lia. wp_run. untrunc. split_and!; [done | done | |].
  - simpl. rewrite Z.eqb_refl. unfold rx_word. assert (sizeof_frame = 2048 /\ FIFO_LENGTH = 64) as [H1 H2] by done.
    by rewrite u32_small by lia.
  - intros j p Hj Hne Hp. apply rx_keep; [done | | intros []]. apply rx_keep; [done | done |].
    simpl. unfold frame_at, dma_rx_flags. assert (sizeof_frame = 2048) by done. lia.
Qed.

(** Receiving a filled frame. *)
Lemma receive_frame ip priv i p (e : E) :
  rx_at (rx_fifo priv) i -> frm e i = Some p ->
  wp (ccat_eth_receive ip priv (zlen p)) e (fun priv' t e' => exists b,
    priv' = set_rx_fifo (counted b p (rx_fifo priv)) priv /\ buffers t = [b] /\
    keeps e e' /\ handed t = kept [b] [p] /\ rearmed (f_reg (rx_fifo priv)) t = []).
Proof.
  intros Hf Hp. destruct (rx_at_frame _ i Hf) as [Hi Hx]. unfold ccat_eth_receive. wp_run.
  match goal with |- context [ext ?c e] => pose proof (ext_keeps c e I) as Hk; set (e1 := (ext c e).2) in *;
    set (r := (ext c e).1) in * end.
  apply wp_null; intros Hz; [wp_run; exists false; split_and!; try done; simpl; by rewrite Hz|].
  apply wp_bind. unfold ops_copy_to_skb. rewrite (proj1 Hf). unfold fifo_dma_copy_to_linear_skb. rewrite Hx.
  rewrite <- (Z.add_0_r (frame_at base i + sizeof_dma_hdr)). unfold zlen at 1. rewrite Nat2Z.id.
  eapply wp_conseq; [apply (memread_frame (f_reg (rx_fifo priv)) i p (length p) 0); [done | by apply Hk | done]|].
  intros l t e2 (-> & Hk2 & (Hh & Hr & Hbu)). wp_run. rewrite drop_0, take_ge by done. exists true. split_and!; [done | | | |].
  - rewrite !buffers_app, Hbu. simpl. by zknown.
  - etrans; [exact Hk|]. etrans; [exact Hk2|]. by apply ext_keeps.
  - rewrite !handed_app, Hh. done.
  - rewrite !rearmed_app, Hr. done.
Qed.

(** ** The loop *)

Definition frames_from (e : E) (i : nat) (l : list (list Z)) : Prop :=
  forall j p, l !! j = Some p -> frm e ((i + j) mod n)%nat = Some p.

Definition total (l : list (list Z)) : Z := Z.of_nat (sum_list_with length l).

Lemma total_cons p l : total (p :: l) = zlen p + total l.
Proof. unfold total, zlen. simpl. lia. Qed.

Lemma total_app l l' : total (l ++ l') = total l + total l'.
Proof. unfold total. rewrite sum_list_with_app. lia. Qed.

(** What a run did that took [d] from the ring, from frame [i] on. *)
Definition received (priv priv' : ccat_eth_priv) (i : nat) (d : list (list Z)) (t : list event) : Prop :=
  length (buffers t) = length d /\ handed t = kept (buffers t) d /\
  rearmed (f_reg (rx_fifo priv)) t = (fun j => rx_word ((i + j) mod n)%nat) <$> seq 0 (length d) /\
  rx_at (rx_fifo priv') ((i + length d) mod n)%nat /\
  f_reg (rx_fifo priv') = f_reg (rx_fifo priv) /\
  bytes (rx_fifo priv') = u64 (bytes (rx_fifo priv) + total (handed t)) /\
  dropped (rx_fifo priv') = u64 (dropped (rx_fifo priv) + (zlen d - zlen (handed t))) /\
  priv' = set_rx_fifo (rx_fifo priv') priv.

(** The counters fit their 64 bits. *)
Definition counts (f : ccat_eth_fifo) : Prop := 0 <= bytes f < 2 ^ 64 /\ 0 <= dropped f < 2 ^ 64.

Lemma counted_counts b p f : counts f -> counts (counted b p f).
Proof. intros [H1 H2]. destruct b; split; simpl; try done; apply Z.mod_pos_bound; lia. Qed.

Lemma received_nil priv i t :
  rx_at (rx_fifo priv) i -> counts (rx_fifo priv) -> mute (f_reg (rx_fifo priv)) t ->
  received priv priv i [] t.
Proof.
  intros Hf [Hb Hdr] (Hh & Hr & Hbu). destruct (rx_at_frame _ i Hf) as [Hi _]. unfold received. rewrite Hh, Hbu. simpl.
  rewrite Nat.add_0_r, Nat.mod_small by done. unfold total, zlen. simpl. rewrite !Z.add_0_r, !u64_small by done.
  split_and!; try done. by destruct priv.
Qed.

Lemma seq_shift_mod i k :
  (fun j => rx_word ((i + j) mod n)%nat) <$> seq 1 k =
  (fun j => rx_word (((i + 1) mod n + j) mod n)%nat) <$> seq 0 k.
Proof.
  rewrite <- (fmap_S_seq 0 k), <- list_fmap_compose. apply list_fmap_ext. intros _ j _. simpl.
  rewrite Nat.Div0.add_mod_idemp_l. do 2 f_equal. lia.
Qed.

(** One more frame in front. *)
Lemma received_cons priv f1 priv' i b p d t1 t2 t3 t :
  (i < n)%nat -> f_reg f1 = f_reg (rx_fifo priv) ->
  bytes f1 = bytes (counted b p (rx_fifo priv)) -> dropped f1 = dropped (counted b p (rx_fifo priv)) ->
  buffers t1 = [b] -> handed t1 = kept [b] [p] -> rearmed (f_reg (rx_fifo priv)) t1 = [] ->
  buffers t2 = [] -> handed t2 = [] -> rearmed (f_reg (rx_fifo priv)) t2 = [rx_word i] ->
  mute (f_reg (rx_fifo priv)) t3 ->
  received (set_rx_fifo f1 priv) priv' ((i + 1) mod n) d t ->
  received priv priv' i (p :: d) (t1 ++ t2 ++ t3 ++ t).
Proof.
  intros Hi Hreg Hby Hdr Hb1 Hh1 Hr1 Hb2 Hh2 Hr2 (Hh3 & Hr3 & Hb3) (Hl & Hh & Hr & Hat & Hg & Hb & Hd & Hp). simpl in *.
  rewrite Hreg in *. unfold received.
  rewrite !handed_app, !rearmed_app, !buffers_app, Hb1, Hb2, Hb3, Hh1, Hh2, Hh3, Hr1, Hr2, Hr3, Hr.
  simpl. rewrite Nat.add_0_r, (Nat.mod_small i) by done. split_and!; try done.
  - simpl. by rewrite Hl.
  - rewrite Hh. by destruct b.
  - by rewrite seq_shift_mod.
  - rewrite Nat.Div0.add_mod_idemp_l in Hat. by replace (i + S (length d))%nat with (i + 1 + length d)%nat by lia.
  - rewrite Hb, Hby, total_app. destruct b; simpl; [|by rewrite Z.add_0_l].
    rewrite total_cons. change (total []) with 0. unfold u64. rewrite Z.add_mod_idemp_l by lia. f_equal. lia.
  - rewrite Hd, Hdr. unfold zlen. destruct b; simpl; [f_equal; lia|].
    unfold u64. rewrite Z.add_mod_idemp_l by lia. f_equal. lia.
Qed.

Lemma frames_tail e e' i p l :
  (i < n)%nat -> (length (p :: l) <= n)%nat -> frames_from e i (p :: l) ->
  (forall j q, (j < n)%nat -> j <> i -> frm e j = Some q -> frm e' j = Some q) ->
  frames_from e' ((i + 1) mod n) l.
Proof.
  intros Hi Hl Hfr Hk j q Hj. rewrite Nat.Div0.add_mod_idemp_l.
  assert (Hj' : (p :: l) !! S j = Some q) by done. apply Hfr in Hj'.
  apply lookup_lt_Some in Hj. simpl in Hl.
  replace (i + 1 + j)%nat with (i + S j)%nat by lia. apply Hk; [apply Nat.mod_upper_bound; lia | | done].
  destruct (decide (i + S j < n)%nat).
  - rewrite Nat.mod_small by lia. lia.
  - replace (i + S j)%nat with (i + S j - n + 1 * n)%nat by lia.
    rewrite Nat.Div0.mod_add, Nat.mod_small by lia. lia.
Qed.

Lemma poll_rx_loop_receives ip m priv i len l (e : E) :
  Z.of_nat n <= FIFO_LENGTH -> rx_at (rx_fifo priv) i -> counts (rx_fifo priv) ->
  (length l < m)%nat -> (length l <= n)%nat -> frames_from e i l ->
  (len = 0 /\ l = [] \/ exists p, frm e i = Some p /\ len = zlen p) ->
  wp (poll_rx_loop ip m priv len) e (fun priv' t _ =>
    exists d, l `prefix_of` d /\ (length d < m)%nat /\ received priv priv' i d t).
Proof.
  intros Hn. revert priv i len l e. induction m as [|m IH]; intros priv i len l e Hf Hb Hl Hln Hfr Hlen; [lia|].
  destruct (rx_at_frame _ i Hf) as [Hi _].
  assert (Hstop : l = [] -> exists d, l `prefix_of` d /\ (length d < S m)%nat /\ received priv priv i d []).
  { intros ->. exists []. split_and!; [done | simpl; lia | by apply received_nil]. }
  destruct m as [|m]; cbn [poll_rx_loop].
  { wp_run. apply Hstop. destruct l; [done | simpl in Hl; lia]. }
  destruct Hlen as [[-> ->]|(p & Hp & ->)]; [wp_run; by apply Hstop|].
  pose proof (rx_fits e i p Hi Hp). rewrite istrue_nz by lia. apply wp_bind.
  eapply wp_conseq; [by apply (receive_frame _ _ i)|]. intros p1 t1 e1 (b & -> & Hb1 & Hk1 & Hh1 & Hr1).
  apply wp_bind. set (f1 := counted b p (rx_fifo priv)).
  assert (Hf1 : rx_at f1 i) by (unfold f1; by destruct b).
  assert (Hreg1 : f_reg f1 = f_reg (rx_fifo priv)) by (unfold f1; by destruct b).
  pose proof (counted_counts b p _ Hb) as Hcn.
  eapply wp_conseq; [by apply (rx_add_word _ i)|]. intros ? t2 e2 (Hh2 & Hb2 & Hr2 & Hk2). apply wp_bind.
  simpl in Hr2. rewrite Hreg1 in Hr2.
  pose proof (rx_at_inc f1 i Hf1) as Hf2.
  pose proof (inc_eq f1 i (proj2 (proj2 (proj2 Hf1)))) as Hinc.
  eapply wp_conseq; [by apply (rx_ready_len (f_reg (rx_fifo priv)) _ _ ((i + 1) mod n))|].
  intros len' t3 e3 (Hk3 & Hm3 & Hlen').
  assert (Hfr3 : frames_from e3 ((i + 1) mod n) (tail l) /\ frames_from e2 ((i + 1) mod n) (tail l)).
  { destruct l as [|q l]; [by split; intros j ?|].
    split; apply (frames_tail e _ i q l); try done; intros j x Hj Hne Hx; auto. }
  destruct Hfr3 as [Hfr3 Hfr2].
  assert (Hlt : (length (tail l) < S m)%nat) by (destruct l; simpl in *; lia).
  eapply wp_conseq; [apply (IH _ ((i + 1) mod n)%nat len' (tail l)); try done|].
  - simpl. by rewrite Hinc.
  - destruct l; simpl in *; lia.
  - destruct Hlen' as [[-> Hnone]|(q & Hq & ->)];
      [|right; exists q; split; [apply Hk3; [apply (rx_at_frame _ _ Hf2)|]; done | done]].
    left. split; [done|]. destruct (tail l) as [|q l'] eqn:Ht; [done|]. exfalso.
    specialize (Hfr2 0%nat q eq_refl). rewrite Nat.add_0_r, Nat.Div0.mod_mod in Hfr2. congruence.
  - intros p4 t4 e4 (d & Hpre & Hd & Hrec). exists (p :: d). split_and!; [| simpl; lia |].
    + destruct l as [|q l]; [apply prefix_nil|]. simpl in Hpre.
      assert (q = p) as ->; [|by apply prefix_cons].
      specialize (Hfr 0%nat q eq_refl). rewrite Nat.add_0_r, Nat.mod_small in Hfr by done. congruence.
    + change (received (set_rx_fifo (ccat_eth_fifo_inc f1) priv) p4 ((i + 1) mod n) d t4) in Hrec.
      rewrite Hinc in Hrec. by eapply (received_cons _ _ _ _ b); try exact Hrec.
Qed.

(** C4: reception.  If frames are waiting in the RX ring from [next] on (at most 31 of them), a
    look at the ring takes them out in the order of the ring, each once, possibly followed by
    frames [d] that arrived meanwhile, never more than 31 in all, and asks the kernel for one buffer
    per frame.  The frames that get a buffer are handed to the network stack, complete and in that
    order, and count with their bytes; the others count as dropped; so all are handed over when
    memory suffices.  Either way every frame is given back to the FPGA, in the same order, and the
    ring advances by as many frames. *)
Theorem poll_rx_delivers ip priv i l (e : E) :
  Z.of_nat n <= FIFO_LENGTH -> rx_at (rx_fifo priv) i -> counts (rx_fifo priv) ->
  (length l <= 31)%nat -> (length l <= n)%nat -> frames_from e i l ->
  wp (poll_rx ip priv) e (fun priv' t _ =>
    exists d, l `prefix_of` d /\ (length d <= 31)%nat /\
      length (buffers t) = length d /\ handed t = kept (buffers t) d /\
      (Forall (eq true) (buffers t) -> handed t = d) /\
      rearmed (f_reg (rx_fifo priv)) t = (fun j => rx_word ((i + j) mod n)) <$> seq 0 (length d) /\
      rx_at (rx_fifo priv') ((i + length d) mod n) /\
      bytes (rx_fifo priv') = u64 (bytes (rx_fifo priv) + total (handed t)) /\
      dropped (rx_fifo priv') = u64 (dropped (rx_fifo priv) + (zlen d - zlen (handed t)))).
Proof.
  intros Hn Hf Hb Hl Hln Hfr. unfold poll_rx. apply wp_bind. destruct (rx_at_frame _ i Hf) as [Hi _].
  eapply wp_conseq; [by apply (rx_ready_len (f_reg (rx_fifo priv)) _ _ i)|].
  intros len t1 e1 (Hk & (Hh1 & Hr1 & Hb1) & Hlen).
  eapply wp_conseq; [apply (poll_rx_loop_receives _ _ _ i len l); try done|].
  - change (Z.to_nat (FIFO_LENGTH / 2)) with 32%nat. lia.
  - intros j p Hp. apply Hk; [apply Nat.mod_upper_bound; lia | by apply Hfr].
  - destruct Hlen as [[-> Hnone]|(p & Hp & ->)]; [left|right; exists p; auto].
    split; [done|]. destruct l as [|q l]; [done|]. exfalso.
    specialize (Hfr 0%nat q eq_refl). rewrite Nat.add_0_r, Nat.mod_small in Hfr by done. congruence.
  - intros priv' t e' (d & Hpre & Hd & Hbl & Hh & Hr & Hat & _ & Hby & Hdr & _).
    change (Z.to_nat (FIFO_LENGTH / 2)) with 32%nat in Hd.
    exists d. rewrite handed_app, rearmed_app, buffers_app, Hh1, Hr1, Hb1, Hr. cbn [app].
    split_and!; try done; [lia|]. intros Hall. rewrite Hh. by apply kept_all.
Qed.

End Rx.

(** ** Witnesses: a ring whose frame [i] holds the bytes [i; 0xAA] when filled

    The kernel has no buffer as long as frame 1 is filled. *)

Definition rx_payload (i : Z) : list Z := [u8 i; 0xAA].

Definition rx_env : Env (Z -> bool) := fun c st =>
  match c with
  | MemRead w a =>
      let i := (a - 0x20000) / 2048 in
      let o := (a - 0x20000) mod 2048 in
      (Resp (match w with
             | W32 => b2z (st i)
             | W16 => 6
             | _ => nth (Z.to_nat (o - 24)) (rx_payload i) 0
             end) 0, st)
  | MemWrite _ a _ => (Resp 0 0, fun j => if j =? (a - 0x20000) / 2048 then false else st j)
  | Kernel (DevAllocSkb _) => (Resp (if st 1 then 0 else 0x900) 0, st)
  | _ => (Resp 0 0, st)
  end.

Lemma rx_env_index i o : 0 <= o < 2048 ->
  (frame_at 0x20000 i + o - 0x20000) / 2048 = Z.of_nat i /\
  (frame_at 0x20000 i + o - 0x20000) mod 2048 = o.
Proof. intros Ho. unfold frame_at. change sizeof_frame with 2048. split; mach. Qed.

#[export] Instance rx_env_ring n : @RxRing (Z -> bool) rx_env 0x20000 n.
Proof.
  unshelve refine (@Build_RxRing _ rx_env 0x20000 n
    (fun st i => if st (Z.of_nat i) then Some (rx_payload (Z.of_nat i)) else None) _ _ _ _ _);
    unfold ext, rx_env; cbn [fst snd r_val].
  - intros st i Hi. destruct (rx_env_index i dma_rx_flags) as [-> _]; [unfold dma_rx_flags; lia|].
    destruct (st (Z.of_nat i)); done.
  - intros st i p Hi Hp. destruct (st (Z.of_nat i)); by simplify_eq.
  - intros st i p k b Hi Hp Hk. destruct (st (Z.of_nat i)); simplify_eq.
    assert (Hlt : (k < 2)%nat) by (apply lookup_lt_Some in Hk; done).
    rewrite <- Z.add_assoc. destruct (rx_env_index i (sizeof_dma_hdr + Z.of_nat k)) as [-> ->];
      [unfold sizeof_dma_hdr; lia|].
    replace (Z.to_nat (sizeof_dma_hdr + Z.of_nat k - 24)) with k by (unfold sizeof_dma_hdr; lia).
    rewrite (nth_lookup_Some _ _ _ _ Hk). destruct k as [|[|]]; simplify_eq/=; try done.
    apply u8_small, u8_byte.
  - intros st i p Hi Hp. destruct (st (Z.of_nat i)); simplify_eq.
    change (zlen _) with 2. change MAX_PAYLOAD_SIZE with 2024. lia.
  - intros st i p c Hi Hp Hc. destruct c as [| | |w a v| |[]]; try done. cbn.
    destruct (Z.eqb_spec (Z.of_nat i) ((a - 0x20000) / 2048)) as [Heq|]; [|done].
    exfalso. apply Hc. simpl. unfold frame_at. change sizeof_frame with 2048.
    destruct w; simpl; mach.
Defined.

(** Frames 0, 1 and 2 are filled: the first two are dropped, the third is handed over. *)
Lemma poll_rx_delivers_witness :
  exists p t st d, poll_rx (H := rx_env) 0 net_priv (fun i => i <? 3) = (Ret p, t, st) /\
    [rx_payload 0; rx_payload 1; rx_payload 2] `prefix_of` d /\ handed t = kept (buffers t) d /\
    buffers t = [false; false; true].
Proof.
  pose proof (poll_rx_delivers (H := rx_env) (n := 4) 0 net_priv 0 [rx_payload 0; rx_payload 1; rx_payload 2]
    (fun i => i <? 3)) as Hw.
  apply wp_elim in Hw as (p & t & st & Hrun & d & Hpre & _ & _ & Hh & _).
  - exists p, t, st, d. split; [exact Hrun|]. split; [exact Hpre|]. split; [exact Hh|].
    assert (Hb : buffers (trace_of (poll_rx (H := rx_env) 0 net_priv) (fun i => i <? 3)) = [false; false; true])
      by (vm_compute; reflexivity).
    unfold trace_of in Hb. rewrite Hrun in Hb. exact Hb.
  - vm_compute. discriminate.
  - split_and!; [reflexivity | reflexivity | reflexivity | split; [vm_compute; lia | reflexivity]].
  - split; simpl; lia.
  - simpl. lia.
  - simpl. lia.
  - intros [|[|[|j]]] q Hq; simplify_eq/=; reflexivity.
Defined.
