(* ===== verification/TxEngine.v ===== *)
(** * The TX engine of the FPGA, and the channel it should make

    NetTx.v looks at the flags of the TX frames only.  This file adds what the FPGA does with the
    descriptors the driver writes: it fetches the frame they name byte by byte from the DMA memory,
    while the CPU goes on, puts it on the wire and sets its sent flag (an instance of the interface
    of NetTx.v).  It specifies a FIFO channel, says when the ring holds a sequence of frames in
    flight, and shows that the FPGA then sends them unchanged and in order. *)

From S2P Require Import Prelude IO Info NetFifo Netdev NetTx NetRx.

(** ** The TX engine of the FPGA *)

(** The DMA memory, the descriptors not served yet, what is fetched of the first of them and the
    frames sent so far. *)
Record tx_view := View {
  v_mem : Z -> Z;
  v_pend : list Z;
  v_cur : list Z;
  v_wire : list (list Z);
}.

(** The transfer starts at the [length] field: two bytes of length, and the data 16 bytes on. *)
Definition frame_of (l : list Z) : list Z := take (Z.to_nat (le_val (take 2 l))) (drop 16 l).

Section Engine.
Context (base : Z) (n : nat) (reg : Z).

(** Where the frame of a descriptor starts: the FPGA is told of the address behind the first
    eight bytes. *)
Definition desc_frame (w : Z) : Z := base + desc_addr w - dma_length.

(** Fetching a byte; sending, which sets the flag of the frame, may store a time stamp in it and
    clears no flag; and whatever the FPGA does to memory that is not of the TX ring. *)
Inductive fpga_step : tx_view -> tx_view -> Prop :=
  | fs_fetch m w q cur out :
      zlen cur < 8 * desc_units w ->
      fpga_step (View m (w :: q) cur out)
                (View m (w :: q) (cur ++ [m (base + desc_addr w + zlen cur)]) out)
  | fs_send m m' w q cur out :
      zlen cur = 8 * desc_units w ->
      (forall a, a < desc_frame w \/ desc_frame w + sizeof_frame <= a -> m' a = m a) ->
      Z.odd (m' (desc_frame w + dma_tx_flags)) = true ->
      (forall i, (i < n)%nat -> Z.odd (m (flag_at base i)) = true -> Z.odd (m' (flag_at base i)) = true) ->
      fpga_step (View m (w :: q) cur out) (View m' q [] (out ++ [frame_of cur]))
  | fs_other m m' q cur out :
      (forall a, base <= a < base + sizeof_frame * Z.of_nat n -> m' a = m a) ->
      fpga_step (View m q cur out) (View m' q cur out).

(** What a call of the CPU does: a store, a descriptor, a reset of the FIFO. *)
Definition cpu (c : call) (v : tx_view) : tx_view :=
  match c with
  | MemWrite w a x => View (fwrite (v_mem v) a (le_bytes (wbytes w) x)) (v_pend v) (v_cur v) (v_wire v)
  | IoWrite W32 a x =>
      if a =? reg then View (v_mem v) (v_pend v ++ [x]) (v_cur v) (v_wire v)
      else if a =? reg + 0x8 then View (v_mem v) [] [] (v_wire v)
      else v
  | _ => v
  end.

End Engine.

(** Bit 0 of a word of flags, as the CPU reads it. *)
Lemma flag_word m a : Z.land (u32 (le_val (fslice m a 4))) 1 = b2z (Z.odd (m a)).
Proof.
  cbn [fslice le_val]. set (b := m a). match goal with |- context [b + 256 * ?x] => generalize x end. intros r.
  change (Z.land (u32 (b + 256 * r)) (2 ^ 1 - 1) = b2z (Z.odd b)).
  rewrite land_mask_mod, Zodd_mod by lia. change (2 ^ 1) with 2. unfold b2z, u32.
  destruct (Z.eqb_spec (b mod 2) 1); mach.
Qed.

(** The FPGA may go on after every call; a load of the CPU sees the memory. *)
Class TxFpga (E : Type) `{Env E} (base : Z) (n : nat) (reg : Z) := {
  view : E -> tx_view;
  fp_ext : forall e c, rtc (fpga_step base n) (cpu reg c (view e)) (view (ext c e).2);
  fp_read : forall e w a, base <= a -> a + Z.of_nat (wbytes w) <= base + sizeof_frame * Z.of_nat n ->
    r_val (ext (MemRead w a) e).1 = le_val (fslice (v_mem (view e)) a (wbytes w));
}.
Arguments view {E _} base n reg {_} e.

(** It keeps the promises of [TxRing]. *)
Definition flag_set (base : Z) (v : tx_view) (i : nat) : bool := Z.odd (v_mem v (flag_at base i)).

Lemma fpga_flags base n v v' i :
  rtc (fpga_step base n) v v' -> (i < n)%nat -> flag_set base v i = true -> flag_set base v' i = true.
Proof.
  unfold flag_set. intros Hrun Hi. induction Hrun as [v|v1 v2 v3 Hs _ IH]; [done|]. intros Hv. apply IH. clear IH.
  destruct Hs as [| m m' w q cur out _ _ _ Hkeep | m m' q cur out Hm]; simpl in *; [done | by apply Hkeep |].
  rewrite Hm; [done|]. unfold flag_at, dma_tx_flags. assert (sizeof_frame = 2048) by done. lia.
Qed.

#[export] Instance tx_fpga_ring {E} `{Env E} base n reg `{!TxFpga E base n reg} : TxRing E base n.
Proof.
  unshelve refine (@Build_TxRing _ _ base n (fun e i => flag_set base (view base n reg e) i) _ _ _);
    assert (sizeof_frame = 2048 /\ dma_tx_flags = 12) as [Hsz Hfl] by done.
  - intros e i Hi. rewrite fp_read by (unfold flag_at; simpl; lia). apply flag_word.
  - intros e i Hi. eapply fpga_flags; [apply fp_ext | done |]. unfold flag_set. cbn.
    rewrite fwrite_cons, fwrite_out by lia. unfold upd. by rewrite Z.eqb_refl.
  - intros e c i Hi Hc Hs. eapply fpga_flags; [apply fp_ext | done |]. unfold flag_set in *.
    destruct c as [|w a x| |w a x| |]; cbn [cpu]; try done.
    { destruct w; try done. destruct (a =? reg); [done|]. by destruct (a =? reg + 0x8). }
    cbn [v_mem]. unfold fwrite. rewrite zlen_le_bytes.
    destruct (Z.leb_spec a (flag_at base i)); [|done].
    destruct (Z.ltb_spec (flag_at base i) (a + Z.of_nat (wbytes w))); [|done]. simpl.
    destruct (decide (w = W32 /\ a = flag_at base i /\ x = CCAT_FRAME_SENT)) as [(-> & -> & ->)|Hno].
    { by rewrite Z.sub_diag. }
    exfalso. apply Hc. simpl. split_and!; [lia | lia | done].
Defined.

(** ** The specification: a FIFO channel *)

Record chan := Chan { c_queue : list (list Z); c_wire : list (list Z) }.
Inductive chan_ev := Accept (p : list Z) | Flush.

(** A run of a channel of capacity [cap] on a sequence of requests; it sends on its own. *)
Inductive chan_run (cap : nat) : list chan_ev -> chan -> chan -> Prop :=
  | cr_done c : chan_run cap [] c c
  | cr_send p q out evs c' :
      chan_run cap evs (Chan q (out ++ [p])) c' -> chan_run cap evs (Chan (p :: q) out) c'
  | cr_accept p q out evs c' :
      (length q < cap)%nat -> chan_run cap evs (Chan (q ++ [p]) out) c' ->
      chan_run cap (Accept p :: evs) (Chan q out) c'
  | cr_flush q out evs c' :
      chan_run cap evs (Chan [] out) c' -> chan_run cap (Flush :: evs) (Chan q out) c'.

Lemma chan_run_app cap evs1 evs2 c1 c2 c3 :
  chan_run cap evs1 c1 c2 -> chan_run cap evs2 c2 c3 -> chan_run cap (evs1 ++ evs2) c1 c3.
Proof. induction 1; simpl; [done|..]; intros H2; econstructor; eauto. Qed.

Lemma chan_run_sends cap d q out : chan_run cap [] (Chan (d ++ q) out) (Chan q (out ++ d)).
Proof.
  revert out. induction d as [|p d IH]; intros out; simpl; [rewrite app_nil_r; constructor|].
  constructor. replace (out ++ p :: d) with ((out ++ [p]) ++ d) by (by rewrite <- app_assoc). apply IH.
Qed.

Lemma chan_run_accepts cap a q out :
  (length q + length a <= cap)%nat -> chan_run cap (Accept <$> a) (Chan q out) (Chan (q ++ a) out).
Proof.
  revert q. induction a as [|p a IH]; intros q Hl; simpl in *; [rewrite app_nil_r; constructor|].
  constructor; [lia|]. replace (q ++ p :: a) with ((q ++ [p]) ++ a) by (by rewrite <- app_assoc).
  apply IH. rewrite length_app. simpl. lia.
Qed.

(** What was sent before does not matter. *)
Lemma chan_run_out cap evs q out q' out' x :
  chan_run cap evs (Chan q out) (Chan q' out') -> chan_run cap evs (Chan q (x ++ out)) (Chan q' (x ++ out')).
Proof.
  remember (Chan q out) as c eqn:Hc. remember (Chan q' out') as c' eqn:Hc'. intros Hrun. revert q out Hc Hc'.
  induction Hrun as [c|p q1 out1 evs c' _ IH|p q1 out1 evs c' Hl _ IH|q1 out1 evs c' _ IH];
    intros q out Hc Hc'; subst; simplify_eq.
  - constructor.
  - constructor. rewrite <- app_assoc. by apply IH.
  - constructor; [done|]. by apply IH.
  - constructor. by apply IH.
Qed.

(** Without a flush nothing is lost, doubled or reordered. *)
Definition accepted (evs : list chan_ev) : list (list Z) :=
  omap (fun ev => match ev with Accept p => Some p | Flush => None end) evs.

Lemma accepted_app evs evs' : accepted (evs ++ evs') = accepted evs ++ accepted evs'.
Proof. apply omap_app. Qed.

Lemma accepted_accepts a : accepted (Accept <$> a) = a.
Proof. induction a as [|p a IH]; simpl; [done|]. by f_equal. Qed.

Lemma chan_run_fifo cap evs c c' :
  chan_run cap evs c c' -> Flush ∉ evs ->
  c_wire c' ++ c_queue c' = c_wire c ++ c_queue c ++ accepted evs.
Proof.
  induction 1 as [c | p q out evs c' _ IH | p q out evs c' _ _ IH | q out evs c' _ IH]; simpl in *; intros Hf.
  - by rewrite app_nil_r.
  - rewrite IH by done. by rewrite <- !app_assoc.
  - rewrite IH by (by rewrite not_elem_of_cons in Hf; apply Hf). by rewrite <- !app_assoc.
  - by apply not_elem_of_cons in Hf as [Hf _].
Qed.

(** ** The ring holds the frames in flight *)

Section Flight.
Context {base : Z} {n : nat}.

Definition in_frame (j : nat) (a : Z) : Prop := frame_at base j <= a < frame_at base j + sizeof_frame.

(** Frame [j] holds [p], not sent yet. *)
Record stored (m : Z -> Z) (j : nat) (p : list Z) : Prop := {
  so_len : zlen p < MAX_PAYLOAD_SIZE;
  so_flag : Z.odd (m (flag_at base j)) = false;
  so_length : le_val (fslice m (frame_at base j + dma_length) 2) = zlen p;
  so_data : fslice m (frame_at base j + sizeof_dma_hdr) (length p) = p;
}.

Definition flight_word (s : nat) (k : nat) (p : list Z) : Z :=
  tx_word (sizeof_frame * Z.of_nat ((s + k) mod n)) (zlen p).

(** [fl] is in flight from frame [s] on. *)
Record holds (s : nat) (fl : list (list Z)) (v : tx_view) : Prop := {
  ho_size : (length fl <= n)%nat;
  ho_pend : v_pend v = imap (flight_word s) fl;
  ho_stored : forall k p, fl !! k = Some p -> stored (v_mem v) ((s + k) mod n) p;
  ho_none : fl = [] -> v_cur v = [];
  ho_len : zlen (v_cur v) <= 2040;
  ho_cur : v_cur v = fslice (v_mem v) (frame_at base (s mod n) + dma_length) (length (v_cur v));
}.

(** Frame [j] is not in flight. *)
Definition idle (s : nat) (fl : list (list Z)) (j : nat) : Prop :=
  forall k, (k < length fl)%nat -> ((s + k) mod n)%nat <> j.

Lemma in_frame_inj j j' a : in_frame j a -> in_frame j' a -> j = j'.
Proof. unfold in_frame, frame_at. assert (sizeof_frame = 2048) by done. lia. Qed.

Lemma stored_ext m m' j p : stored m j p -> (forall a, in_frame j a -> m' a = m a) -> stored m' j p.
Proof.
  unfold in_frame. intros [Hl Hf Hln Hd] Hm.
  assert (sizeof_frame = 2048 /\ MAX_PAYLOAD_SIZE = 2024 /\ dma_length = 8 /\ sizeof_dma_hdr = 24)
    as (H1 & H2 & H3 & H4) by done.
  split; [done | | |].
  - rewrite Hm; [done|]. unfold flag_at, frame_at, dma_tx_flags. lia.
  - rewrite <- Hln. f_equal. apply fslice_ext. intros b Hb. apply Hm. lia.
  - rewrite <- Hd at 2. apply fslice_ext. intros b Hb. apply Hm. unfold zlen in Hl. lia.
Qed.

(** The memory of the frames in flight is all that matters. *)
Lemma holds_mem s fl v m' :
  holds s fl v ->
  (forall k a, (k < length fl)%nat -> in_frame ((s + k) mod n) a -> m' a = v_mem v a) ->
  holds s fl (View m' (v_pend v) (v_cur v) (v_wire v)).
Proof.
  intros [Hsz Hp Hst Hn Hl Hc] Hm. split; simpl; try done.
  - intros k p Hk. eapply stored_ext; [by apply Hst|]. intros a Ha.
    apply (Hm k); [by apply lookup_lt_Some in Hk | done].
  - destruct fl as [|p fl]; [by rewrite Hn|]. rewrite Hc at 1. apply fslice_ext. intros b Hb. symmetry.
    unfold zlen in Hl. apply (Hm 0%nat); [simpl; lia|]. rewrite Nat.add_0_r. unfold in_frame, dma_length in *.
    assert (sizeof_frame = 2048) by done. lia.
Qed.

Lemma word_frame s k p :
  Z.of_nat n <= FIFO_LENGTH -> (0 < n)%nat -> zlen p < MAX_PAYLOAD_SIZE ->
  base + desc_addr (flight_word s k p) = frame_at base ((s + k) mod n) + dma_length /\
  desc_units (flight_word s k p) = (zlen p + 24) / 8.
Proof.
  intros Hn Hpos Hl. assert (sizeof_frame = 2048 /\ FIFO_LENGTH = 64 /\ MAX_PAYLOAD_SIZE = 2024) as (H1 & H2 & H3) by done.
  pose proof (Nat.mod_upper_bound (s + k) n ltac:(lia)). pose proof (zlen_nonneg p). unfold flight_word.
  destruct (tx_word_fields (sizeof_frame * Z.of_nat ((s + k) mod n)) (zlen p)) as [-> ->]; [lia..|].
  unfold frame_at. split; [lia|]. destruct (Z.eqb_spec (zlen p) MAX_PAYLOAD_SIZE); [lia | done].
Qed.

(** What was fetched is the frame. *)
Lemma frame_of_stored m j p l :
  stored m j p -> zlen l = 8 * ((zlen p + 24) / 8) ->
  l = fslice m (frame_at base j + dma_length) (length l) -> frame_of l = p.
Proof.
  intros [Hlen _ Hln Hd] Hl Heq. unfold frame_of.
  assert (Hlong : (16 + length p <= length l)%nat) by (unfold zlen in *; mach).
  assert (Hsplit : l = fslice m (frame_at base j + dma_length) 2
      ++ fslice m (frame_at base j + dma_length + 2) 14
      ++ p ++ fslice m (frame_at base j + sizeof_dma_hdr + zlen p) (length l - 16 - length p)).
  { rewrite Heq at 1. rewrite <- Hd at 1.
    replace (frame_at base j + sizeof_dma_hdr + zlen p)
      with (frame_at base j + dma_length + 16 + Z.of_nat (length p)) by (unfold zlen, sizeof_dma_hdr, dma_length; lia).
    replace (frame_at base j + sizeof_dma_hdr) with (frame_at base j + dma_length + 2 + Z.of_nat 14)
      by (unfold sizeof_dma_hdr, dma_length; lia).
    replace (frame_at base j + dma_length + 16 + Z.of_nat (length p))
      with (frame_at base j + dma_length + 2 + Z.of_nat 14 + Z.of_nat (length p)) by lia.
    rewrite <- fslice_app, <- fslice_app. change 2 with (Z.of_nat 2). rewrite <- fslice_app. f_equal. lia. }
  rewrite Hsplit. rewrite take_app_length', drop_app_ge by (rewrite ?length_fslice; lia).
  rewrite Hln, length_fslice, drop_app_length' by (rewrite length_fslice; lia).
  unfold zlen. rewrite Nat2Z.id. by apply take_app_length.
Qed.


(** ** The FPGA at work: the frames at the front of the flight go to the wire *)

Definition drain (v v' : tx_view) : Prop := forall s fl, holds s fl v ->
  exists d fl', fl = d ++ fl' /\ holds (s + length d) fl' v' /\ v_wire v' = v_wire v ++ d /\
    forall j a, (j < n)%nat -> idle s fl j -> in_frame j a -> v_mem v' a = v_mem v a.

Lemma idle_app s d fl j : idle s (d ++ fl) j -> idle (s + length d) fl j.
Proof.
  intros Hi k Hk. replace (s + length d + k)%nat with (s + (length d + k))%nat by lia.
  apply Hi. rewrite length_app. lia.
Qed.

#[global] Instance drain_preorder : PreOrder drain.
Proof.
  split.
  - intros v s fl Hv. exists [], fl. rewrite Nat.add_0_r, app_nil_r. by split_and!.
  - intros v1 v2 v3 H12 H23 s fl H1. destruct (H12 s fl H1) as (d1 & fl2 & -> & H2 & Hw2 & Hm2).
    destruct (H23 _ _ H2) as (d2 & fl3 & -> & H3 & Hw3 & Hm3). exists (d1 ++ d2), fl3.
    rewrite length_app, Nat.add_assoc. split_and!; [by rewrite app_assoc | done | by rewrite Hw3, Hw2, app_assoc |].
    intros j a Hj Hid Ha. rewrite (Hm3 j); [by apply (Hm2 j) | done | by apply idle_app | done].
Qed.

Lemma flight_tail s p fl : imap (flight_word s) (p :: fl) = flight_word s 0 p :: imap (flight_word (S s)) fl.
Proof.
  simpl. f_equal. apply imap_ext. intros k q Hk. unfold flight_word. simpl. by rewrite Nat.add_succ_r.
Qed.

Context (Hcap : Z.of_nat n <= FIFO_LENGTH).

Lemma mod_inj s k k' : (k < n)%nat -> (k' < n)%nat -> ((s + k) mod n = (s + k') mod n)%nat -> k = k'.
Proof.
  intros Hk Hk' Heq. pose proof (Nat.div_mod_eq (s + k) n). pose proof (Nat.div_mod_eq (s + k') n).
  rewrite Heq in *. assert ((s + k) / n = (s + k') / n)%nat by nia. nia.
Qed.

Lemma send_drains m m' w q cur out :
  zlen cur = 8 * desc_units w ->
  (forall a, a < desc_frame base w \/ desc_frame base w + sizeof_frame <= a -> m' a = m a) ->
  drain (View m (w :: q) cur out) (View m' q [] (out ++ [frame_of cur])).
Proof.
  intros Hlen Hm s fl [Hsz Hp Hst Hnone Hl Hc]. destruct fl as [|p fl]; [done|]. simpl length in *.
  rewrite flight_tail in Hp. simpl in Hp, Hst, Hc. injection Hp as -> ->. rewrite <- (Nat.add_0_r s) in Hc at 1.
  pose proof (Hst 0%nat p eq_refl) as Hp0. destruct (word_frame s 0 p Hcap) as [Ha Hu]; [lia | apply Hp0 |].
  rewrite Hu in Hlen. assert (Hfr : desc_frame base (flight_word s 0 p) = frame_at base ((s + 0) mod n))
    by (unfold desc_frame; lia).
  assert (Hm' : forall a, ~ in_frame ((s + 0) mod n) a -> m' a = m a)
    by (intros a Hout; apply Hm; unfold in_frame in Hout; lia).
  rewrite (frame_of_stored _ _ _ _ Hp0 Hlen Hc).
  exists [p], fl. rewrite Nat.add_1_r. split_and!; [done | | done |].
  - split; simpl; try done; [lia|]. intros k r Hk.
    rewrite <- Nat.add_succ_r. eapply stored_ext; [by apply (Hst (S k))|]. intros a Hin. apply Hm'. intros Hin0.
    pose proof (lookup_lt_Some _ _ _ Hk).
    by pose proof (mod_inj s (S k) 0 ltac:(lia) ltac:(lia) (in_frame_inj _ _ _ Hin Hin0)).
  - intros j a Hj Hid Hin. apply Hm'. intros Hin0. apply (Hid 0%nat); [simpl; lia|].
    exact (in_frame_inj _ _ _ Hin0 Hin).
Qed.

Lemma fetch_drains m w q cur out :
  zlen cur < 8 * desc_units w ->
  drain (View m (w :: q) cur out) (View m (w :: q) (cur ++ [m (base + desc_addr w + zlen cur)]) out).
Proof.
  intros Hlen s fl [Hsz Hp Hst Hnone Hl Hc]. destruct fl as [|p fl]; [done|]. simpl length in *.
  pose proof Hp as Hp'. rewrite flight_tail in Hp. simpl in Hp, Hst, Hc. injection Hp as Hw _.
  pose proof (Hst 0%nat p eq_refl) as Hp0. destruct (word_frame s 0 p Hcap) as [Ha Hu]; [lia | apply Hp0 |].
  rewrite <- Hw in *. rewrite Hu in Hlen. destruct Hp0 as [Hlp _ _ _]. assert (MAX_PAYLOAD_SIZE = 2024) by done.
  exists [], (p :: fl). rewrite Nat.add_0_r, app_nil_r. split_and!; [done | | done | done].
  split; simpl; try done.
  - rewrite zlen_app. unfold zlen at 2. simpl. mach.
  - rewrite length_app. simpl length. rewrite fslice_app, <- Hc. simpl. unfold zlen in *. rewrite Ha.
    by rewrite Nat.add_0_r.
Qed.

Lemma other_drains m m' q cur out :
  (forall a, base <= a < base + sizeof_frame * Z.of_nat n -> m' a = m a) ->
  drain (View m q cur out) (View m' q cur out).
Proof.
  intros Hm s fl Hv. exists [], fl. rewrite Nat.add_0_r, app_nil_r.
  assert (Hring : forall j a, (j < n)%nat -> in_frame j a -> m' a = m a).
  { unfold in_frame, frame_at. assert (sizeof_frame = 2048) by done. intros j a Hj Ha. apply Hm. lia. }
  split_and!; [done | | done |].
  - apply (holds_mem _ _ _ m' Hv). intros k a Hk Ha. eapply Hring; [|exact Ha].
    destruct Hv as [Hsz _ _ _ _ _]. apply Nat.mod_upper_bound. lia.
  - intros j a Hj _. by apply Hring.
Qed.

Lemma fpga_drains v v' : rtc (fpga_step base n) v v' -> drain v v'.
Proof.
  induction 1 as [v|v1 v2 v3 Hs _ IH]; [done|]. etrans; [|exact IH].
  destruct Hs; [by apply fetch_drains | by apply send_drains | by apply other_drains].
Qed.

End Flight.
