(* ===== verification/RxEngine.v ===== *)
(** * The RX engine of the FPGA

    The counterpart of TxEngine.v.  The FPGA stores a frame it received in the frame of the ring that
    the first descriptor of its RX FIFO names, in whatever order and while the CPU goes on, and last
    of all sets the received flag.  The file says when the ring holds received frames followed by
    frames the FPGA may fill, and shows that the FPGA only ever appends to the former. *)

From S2P Require Import Prelude IO Info NetFifo Netdev NetTx NetRx TxEngine.

(** The DMA memory, the descriptors of the RX FIFO, and the frames received so far. *)
Record rx_view := RView {
  rv_mem : Z -> Z;
  rv_pend : list Z;
  rv_in : list (list Z);
}.

(** The memory at [a] holds the received frame [p]; the length counts four bytes more. *)
Record received_at (m : Z -> Z) (a : Z) (p : list Z) : Prop := {
  ra_fits : 0 < zlen p <= MAX_PAYLOAD_SIZE;
  ra_bytes : Forall is_byte p;
  ra_length : le_val (fslice m (a + dma_length) 2) = zlen p + 4;
  ra_data : fslice m (a + sizeof_dma_hdr) (length p) = p;
}.

Section Engine.
Context (base : Z) (n : nat) (reg : Z).

(** Bit 31 marks a descriptor, the rest is the offset of its frame. *)
Definition rdesc_frame (w : Z) : Z := base + Z.land w 0x7fffffff.

Definition outside (lo a : Z) : Prop := a < lo \/ lo + sizeof_frame <= a.

(** Storing part of a frame, which leaves the flag alone; completing it; and whatever the FPGA does
    to memory that is not of the RX ring. *)
Inductive rx_step : rx_view -> rx_view -> Prop :=
  | rs_fill m m' w q inn :
      (forall a, outside (rdesc_frame w) a \/ a = rdesc_frame w + dma_rx_flags -> m' a = m a) ->
      rx_step (RView m (w :: q) inn) (RView m' (w :: q) inn)
  | rs_done m m' w q inn p :
      (forall a, outside (rdesc_frame w) a -> m' a = m a) ->
      Z.odd (m' (rdesc_frame w + dma_rx_flags)) = true -> received_at m' (rdesc_frame w) p ->
      rx_step (RView m (w :: q) inn) (RView m' q (inn ++ [p]))
  | rs_other m m' q inn :
      (forall a, base <= a < base + sizeof_frame * Z.of_nat n -> m' a = m a) ->
      rx_step (RView m q inn) (RView m' q inn).

(** What a call of the CPU does: a store, a descriptor, a reset of the FIFO. *)
Definition rcpu (c : call) (v : rx_view) : rx_view :=
  match c with
  | MemWrite w a x => RView (fwrite (rv_mem v) a (le_bytes (wbytes w) x)) (rv_pend v) (rv_in v)
  | IoWrite W32 a x =>
      if a =? reg then RView (rv_mem v) (rv_pend v ++ [x]) (rv_in v)
      else if a =? reg + 0x8 then RView (rv_mem v) [] (rv_in v)
      else v
  | _ => v
  end.

End Engine.

(** The FPGA may go on after every call; a load of the CPU sees the memory. *)
Class RxFpga (E : Type) `{Env E} (base : Z) (n : nat) (reg : Z) := {
  rview : E -> rx_view;
  rf_ext : forall e c, rtc (rx_step base n) (rcpu reg c (rview e)) (rview (ext c e).2);
  rf_read : forall e w a, base <= a -> a + Z.of_nat (wbytes w) <= base + sizeof_frame * Z.of_nat n ->
    r_val (ext (MemRead w a) e).1 = le_val (fslice (rv_mem (rview e)) a (wbytes w));
}.
Arguments rview {E _} base n reg {_} e.

(** ** The ring *)

Section Ring.
Context {base : Z} {n : nat}.

Local Abbreviation in_frame := (in_frame (base := base)).
Definition rx_flag_set (m : Z -> Z) (j : nat) : bool := Z.odd (m (frame_at base j + dma_rx_flags)).

(** From frame [s] on: the received frames [fl], then [k] frames whose descriptors the FPGA has. *)
Record rx_holds (s : nat) (fl : list (list Z)) (k : nat) (v : rx_view) : Prop := {
  rh_size : (length fl + k <= n)%nat;
  rh_pend : rv_pend v = (fun i => rx_word ((s + length fl + i) mod n)) <$> seq 0 k;
  rh_full : forall i p, fl !! i = Some p ->
    received_at (rv_mem v) (frame_at base ((s + i) mod n)) p /\ rx_flag_set (rv_mem v) ((s + i) mod n) = true;
  rh_empty : forall i, (i < k)%nat -> rx_flag_set (rv_mem v) ((s + length fl + i) mod n) = false;
}.

Lemma received_ext m m' j p :
  received_at m (frame_at base j) p -> (forall a, in_frame j a -> m' a = m a) ->
  received_at m' (frame_at base j) p.
Proof.
  unfold TxEngine.in_frame. intros [Hf Hb Hl Hd] Hm.
  assert (sizeof_frame = 2048 /\ MAX_PAYLOAD_SIZE = 2024 /\ dma_length = 8 /\ sizeof_dma_hdr = 24)
    as (H1 & H2 & H3 & H4) by done.
  split; [done | done | |].
  - rewrite <- Hl. f_equal. apply fslice_ext. intros b Hb'. apply Hm. lia.
  - rewrite <- Hd at 2. apply fslice_ext. intros b Hb'. apply Hm. unfold zlen in Hf. lia.
Qed.

Lemma flag_ext m m' j :
  (forall a, in_frame j a -> m' a = m a) -> rx_flag_set m' j = rx_flag_set m j.
Proof.
  intros Hm. unfold rx_flag_set. rewrite Hm; [done|]. unfold TxEngine.in_frame, dma_rx_flags.
  assert (sizeof_frame = 2048) by done. lia.
Qed.

(** Memory that agrees on the frames of the ring in use. *)
Lemma rx_holds_mem s fl k v m' inn :
  rx_holds s fl k v ->
  (forall i a, (i < length fl + k)%nat -> in_frame ((s + i) mod n) a -> m' a = rv_mem v a) ->
  rx_holds s fl k (RView m' (rv_pend v) inn).
Proof.
  intros [Hsz Hp Hf He] Hm. split; simpl; try done.
  - intros i p Hi. destruct (Hf i p Hi) as [Hr Hfl]. apply lookup_lt_Some in Hi. split.
    + eapply received_ext; [exact Hr|]. intros a. apply Hm. lia.
    + rewrite <- Hfl. apply flag_ext. intros a. apply Hm. lia.
  - intros i Hi. rewrite <- (He i Hi). apply flag_ext. intros a.
    replace (s + length fl + i)%nat with (s + (length fl + i))%nat by lia. apply Hm. lia.
Qed.

Lemma rx_word_frame i : Z.of_nat i < FIFO_LENGTH -> rdesc_frame base (rx_word i) = frame_at base i.
Proof.
  intros Hi. unfold rdesc_frame, rx_word, frame_at. f_equal.
  assert (sizeof_frame = 2048 /\ FIFO_LENGTH = 64) as [H1 H2] by done.
  change 0x7fffffff with (2 ^ 31 - 1). rewrite land_mask_mod by lia. rewrite H1.
  replace (2 ^ 31 + 2048 * Z.of_nat i) with (2048 * Z.of_nat i + 1 * 2 ^ 31) by lia.
  rewrite Z.mod_add, Z.mod_small by lia. done.
Qed.


(** ** The FPGA at work: received frames are appended *)

Definition rx_idle (s : nat) (u : nat) (j : nat) : Prop :=
  forall i, (i < u)%nat -> ((s + i) mod n)%nat <> j.

Definition arrives (v v' : rx_view) : Prop := forall s fl k, rx_holds s fl k v ->
  exists a k', k = (length a + k')%nat /\ rx_holds s (fl ++ a) k' v' /\ rv_in v' = rv_in v ++ a /\
    forall j x, (j < n)%nat -> rx_idle s (length fl + k) j -> in_frame j x -> rv_mem v' x = rv_mem v x.

#[global] Instance arrives_preorder : PreOrder arrives.
Proof.
  split.
  - intros v s fl k Hv. exists [], k. rewrite !app_nil_r. by split_and!.
  - intros v1 v2 v3 H12 H23 s fl k H1. destruct (H12 s fl k H1) as (a1 & k2 & -> & H2 & Hi2 & Hm2).
    destruct (H23 _ _ _ H2) as (a2 & k3 & -> & H3 & Hi3 & Hm3). exists (a1 ++ a2), k3.
    rewrite length_app in *. split_and!; [lia | by rewrite app_assoc | by rewrite Hi3, Hi2, app_assoc |].
    intros j x Hn Hj Hx. rewrite (Hm3 j); [by apply (Hm2 j) | done | | done].
    intros i Hi. apply Hj. lia.
Qed.

Context (Hcap : Z.of_nat n <= FIFO_LENGTH).

(** The frame the FPGA is about to fill. *)
Lemma head_frame s fl k w q v :
  rx_holds s fl k v -> rv_pend v = w :: q ->
  exists k', k = S k' /\ rdesc_frame base w = frame_at base ((s + length fl) mod n) /\
    q = (fun i => rx_word ((s + S (length fl) + i) mod n)) <$> seq 0 k'.
Proof.
  intros [Hsz Hp _ _] Hv. rewrite Hv in Hp. destruct k as [|k]; [done|]. exists k. split; [done|].
  cbn [seq fmap list_fmap] in Hp. injection Hp as -> ->. split.
  - rewrite Nat.add_0_r. apply rx_word_frame. pose proof (Nat.mod_upper_bound (s + length fl) n ltac:(lia)). lia.
  - rewrite <- (fmap_S_seq 0 k), <- list_fmap_compose. apply list_fmap_ext. intros _ i _. simpl. do 2 f_equal. lia.
Qed.

(** A change inside that frame is invisible elsewhere. *)
Lemma head_only s u i x (m m' : Z -> Z) :
  (u < n)%nat -> (forall a, outside (frame_at base ((s + u) mod n)) a -> m' a = m a) ->
  (i < n)%nat -> i <> u -> in_frame ((s + i) mod n) x -> m' x = m x.
Proof.
  intros Hu Hm Hi Hne Hx. apply Hm. set (lo := frame_at base ((s + u) mod n)).
  destruct (decide (lo <= x < lo + sizeof_frame)) as [Hin|Hout]; [|unfold outside; lia].
  exfalso. apply Hne. apply (mod_inj (n := n) s); [done | done |]. exact (in_frame_inj _ _ _ Hx Hin).
Qed.

Lemma idle_kept s u j x (m m' : Z -> Z) :
  (forall a, outside (frame_at base ((s + u) mod n)) a -> m' a = m a) ->
  ((s + u) mod n)%nat <> j -> in_frame j x -> m' x = m x.
Proof.
  intros Hm Hne Hx. apply Hm. set (lo := frame_at base ((s + u) mod n)).
  destruct (decide (lo <= x < lo + sizeof_frame)) as [Hin|Hout]; [|unfold outside; lia].
  exfalso. apply Hne. exact (in_frame_inj _ _ _ Hin Hx).
Qed.

Lemma fill_arrives m m' w q inn :
  (forall a, outside (rdesc_frame base w) a \/ a = rdesc_frame base w + dma_rx_flags -> m' a = m a) ->
  arrives (RView m (w :: q) inn) (RView m' (w :: q) inn).
Proof.
  intros Hm s fl k Hv. destruct (head_frame _ _ _ _ _ _ Hv eq_refl) as (k' & -> & Hfr & _). rewrite Hfr in Hm.
  pose proof Hv as [Hsz Hp Hf He]. simpl in *. exists [], (S k'). rewrite !app_nil_r.
  assert (Hout : forall a, outside (frame_at base ((s + length fl) mod n)) a -> m' a = m a) by auto.
  split_and!; [done | | done |].
  - split; simpl; try done.
    + intros i p Hi. destruct (Hf i p Hi) as [Hr Hfl]. apply lookup_lt_Some in Hi.
      assert (Hsame : forall x, in_frame ((s + i) mod n) x -> m' x = m x)
        by (intros x; apply (head_only s (length fl)); [lia | done | lia | lia]).
      split; [by eapply received_ext | by rewrite (flag_ext _ _ _ Hsame)].
    + intros i Hi. rewrite <- (He i Hi). destruct i as [|i].
      * unfold rx_flag_set. rewrite Nat.add_0_r. by rewrite Hm by auto.
      * apply flag_ext. intros x. replace (s + length fl + S i)%nat with (s + (length fl + S i))%nat by lia.
        apply (head_only s (length fl)); [lia | done | lia | lia].
  - intros j x _ Hj. apply (idle_kept s (length fl)); [done|]. apply Hj. lia.
Qed.

Lemma done_arrives m m' w q inn p :
  (forall a, outside (rdesc_frame base w) a -> m' a = m a) ->
  Z.odd (m' (rdesc_frame base w + dma_rx_flags)) = true -> received_at m' (rdesc_frame base w) p ->
  arrives (RView m (w :: q) inn) (RView m' q (inn ++ [p])).
Proof.
  intros Hm Hflag Hrec s fl k Hv. destruct (head_frame _ _ _ _ _ _ Hv eq_refl) as (k' & -> & Hfr & ->).
  rewrite Hfr in *. pose proof Hv as [Hsz Hp Hf He]. simpl in *. exists [p], k'. split_and!; [done | | done |].
  - split; simpl; rewrite ?length_app; simpl.
    + lia.
    + apply list_fmap_ext. intros _ i _. do 2 f_equal. lia.
    + intros i r Hi. apply lookup_snoc_Some in Hi as [[Hlt Hi]|[-> <-]]; [|done].
      destruct (Hf i r Hi) as [Hr Hfl].
      assert (Hsame : forall x, in_frame ((s + i) mod n) x -> m' x = m x)
        by (intros x; apply (head_only s (length fl)); [lia | done | lia | lia]).
      split; [by eapply received_ext | by rewrite (flag_ext _ _ _ Hsame)].
    + intros i Hi. rewrite <- (He (S i)) by lia.
      replace (s + (length fl + 1) + i)%nat with (s + (length fl + S i))%nat by lia.
      replace (s + length fl + S i)%nat with (s + (length fl + S i))%nat by lia.
      apply flag_ext. intros x. apply (head_only s (length fl)); [lia | done | lia | lia].
  - intros j x _ Hj. apply (idle_kept s (length fl)); [done|]. apply Hj. lia.
Qed.

Lemma other_arrives m m' q inn :
  (forall a, base <= a < base + sizeof_frame * Z.of_nat n -> m' a = m a) ->
  arrives (RView m q inn) (RView m' q inn).
Proof.
  intros Hm s fl k Hv. exists [], k. rewrite !app_nil_r.
  assert (Hring : forall j a, (j < n)%nat -> in_frame j a -> m' a = m a).
  { unfold TxEngine.in_frame, frame_at. assert (sizeof_frame = 2048) by done. intros j a Hj Ha. apply Hm. lia. }
  split_and!; [done | | done |].
  - apply (rx_holds_mem _ _ _ _ m' _ Hv). intros i a Hi. pose proof (rh_size _ _ _ _ Hv).
    apply Hring, Nat.mod_upper_bound. lia.
  - intros j x Hj _. by apply Hring.
Qed.

Lemma fpga_arrives v v' : rtc (rx_step base n) v v' -> arrives v v'.
Proof.
  induction 1 as [v|v1 v2 v3 Hs _ IH]; [done|]. etrans; [|exact IH].
  destruct Hs; [by apply fill_arrives | by apply done_arrives | by apply other_arrives].
Qed.

(** ** What the CPU does to it *)

(** Clearing the flag of the first frame takes it out of the ring. *)
Lemma take_holds s p fl k v m' :
  rx_holds s (p :: fl) k v ->
  (forall x, outside (frame_at base (s mod n)) x -> m' x = rv_mem v x) ->
  rx_holds (S s) fl k (RView m' (rv_pend v) (rv_in v)).
Proof.
  intros [Hsz Hp Hf He] Hm. replace (s mod n)%nat with ((s + 0) mod n)%nat in Hm by (f_equal; lia).
  simpl length in *.
  assert (Hsame : forall i x, (i < n)%nat -> i <> 0%nat -> in_frame ((s + i) mod n) x -> m' x = rv_mem v x)
    by (intros i x; apply (head_only s 0); [lia | done]).
  split; simpl.
  - lia.
  - rewrite Hp. apply list_fmap_ext. intros _ i _. do 2 f_equal. lia.
  - intros i q Hi. destruct (Hf (S i) q Hi) as [Hr Hfl]. apply lookup_lt_Some in Hi.
    rewrite Nat.add_succ_r in *. split.
    + eapply received_ext; [exact Hr|]. intros x. rewrite <- Nat.add_succ_r. apply Hsame; lia.
    + rewrite <- Hfl. apply flag_ext. intros x. rewrite <- Nat.add_succ_r. apply Hsame; lia.
  - intros i Hi. replace (S (s + length fl + i))%nat with (s + (S (length fl) + i))%nat by lia.
    rewrite <- (He i Hi). replace (s + S (length fl) + i)%nat with (s + (S (length fl) + i))%nat by lia.
    apply flag_ext. intros x. apply Hsame; lia.
Qed.

(** A descriptor for the frame after the last. *)
Lemma give_holds s fl k v :
  rx_holds s fl k v -> (length fl + k < n)%nat ->
  rx_flag_set (rv_mem v) ((s + length fl + k) mod n) = false ->
  rx_holds s fl (S k) (RView (rv_mem v) (rv_pend v ++ [rx_word ((s + length fl + k) mod n)]) (rv_in v)).
Proof.
  intros [Hsz Hp Hf He] Hlt Hflag. split; cbn [rv_mem rv_pend rv_in]; try done.
  - lia.
  - rewrite Hp, seq_S, fmap_app. done.
  - intros i Hi. destruct (decide (i = k)) as [->|]; [done|]. apply He. lia.
Qed.

Lemma rx_idle_next s u : (u < n)%nat -> rx_idle s u ((s + u) mod n).
Proof. intros Hu i Hi Heq. apply mod_inj in Heq; lia. Qed.

End Ring.
