(* ===== verification/NetTxWire.v ===== *)
(** * Transmission: what the driver accepts is what the FPGA sends

    Against the engine of TxEngine.v this file shows that driver and FPGA together are a FIFO
    channel: the frames on the wire are those [ccat_eth_start_xmit] accepted, byte for byte and in
    order, and only [ccat_eth_link_up], which resets the FIFO, loses any.  Transmissions may come at
    any time, also between the halves of [poll_tx] (NetRace.v).  Frames of exactly [MAX_PAYLOAD_SIZE]
    bytes, whose length does not fit the descriptor, are the exception the theorem names. *)

From S2P Require Import Prelude IO Info NetFifo Netdev NetTx NetRace NetRx TxEngine.

(** ** The driver with the FPGA *)

Section Wire.
Context {E : Type} `{Env E} {dev base : Z} {n : nat} {reg : Z}.
Context `{!NetKernel E dev} `{!TxFpga E base n reg} (Hcap : Z.of_nat n <= FIFO_LENGTH).
Local Abbreviation awk := (awake dev).
Local Abbreviation car := (carrier dev).
Local Abbreviation snt := (sent base n).
Local Abbreviation vw := (view base n reg).
Local Abbreviation tx_ok := (NetTx.tx_ok (base := base) (n := n)).
Local Abbreviation holds := (holds (base := base) (n := n)).
Local Abbreviation idle := (idle (n := n)).
Local Abbreviation in_frame := (in_frame (base := base)).

Definition wire (e : E) : list (list Z) := v_wire (vw e).

(** [fl] is in flight, and the frame after it is frame [i]. *)
Definition wired (i : nat) (fl : list (list Z)) (e : E) : Prop :=
  exists s, holds s fl (vw e) /\ ((s + length fl) mod n)%nat = i.

(** From [fl] in flight in [e] the channel comes, with the requests [evs], to [e'] and frame [i]. *)
Definition reaches (evs : list chan_ev) (fl : list (list Z)) (e : E) (i : nat) (e' : E) : Prop :=
  exists fl', wired i fl' e' /\ chan_run n evs (Chan fl (wire e)) (Chan fl' (wire e')).

Lemma reaches_after evs1 evs2 fl e fl1 e1 i e2 :
  chan_run n evs1 (Chan fl (wire e)) (Chan fl1 (wire e1)) -> reaches evs2 fl1 e1 i e2 ->
  reaches (evs1 ++ evs2) fl e i e2.
Proof. intros H1 (fl2 & Hw2 & H2). exists fl2. split; [done|]. by eapply chan_run_app. Qed.

(** *** Calls that leave the flight to the FPGA *)

Definition drains (e e' : E) : Prop := drain (base := base) (n := n) (vw e) (vw e').

#[global] Instance drains_preorder : PreOrder drains.
Proof. split; [intros e; apply drain_preorder | intros e1 e2 e3 H1 H2; by eapply (PreOrder_Transitive (R := drain))]. Qed.

Lemma drains_reaches i fl e e' : drains e e' -> wired i fl e -> reaches [] fl e i e'.
Proof.
  intros Hd (s & Hs & <-). destruct (Hd s fl Hs) as (d & fl' & -> & Hs' & Hw & _). exists fl'. split.
  - exists (s + length d)%nat. split; [done|]. rewrite length_app. f_equal. lia.
  - unfold wire. rewrite Hw. apply chan_run_sends.
Qed.

Lemma reaches_drains evs fl e i e1 e2 : reaches evs fl e i e1 -> drains e1 e2 -> reaches evs fl e i e2.
Proof.
  intros (fl1 & Hw1 & H1) Hd. rewrite <- (app_nil_r evs). by eapply reaches_after, drains_reaches.
Qed.

Definition ring_end : Z := base + sizeof_frame * Z.of_nat n.

(** No store into the ring, no access to the registers of its FIFO. *)
Definition inert (c : call) : Prop :=
  match c with
  | MemWrite w a _ => a + Z.of_nat (wbytes w) <= base \/ ring_end <= a
  | IoWrite W32 a _ => a <> reg /\ a <> reg + 0x8
  | _ => True
  end.

Lemma inert_drains c e : inert c -> drains e (ext c e).2.
Proof.
  intros Hc. unfold drains. etrans; [|by apply fpga_drains, fp_ext].
  destruct c as [|w a x| |w a x| |]; simpl in *; try done.
  - destruct w; try done. simpl in Hc. destruct (Z.eqb_spec a reg), (Z.eqb_spec a (reg + 8)); done || lia.
  - destruct (vw e) as [m q cur out]. apply other_drains; simpl. intros b Hb. apply fwrite_out.
    rewrite zlen_le_bytes. unfold ring_end in Hc. lia.
Qed.

(** *** Queueing a frame *)

(** While frame [i] is being filled: its memory is [g], and it is not in flight. *)
Definition filling (i : nat) (fl0 : list (list Z)) (e0 : E) (g : Z -> Z) (e : E) : Prop :=
  exists s fl, holds s fl (vw e) /\ ((s + length fl) mod n)%nat = i /\ (length fl < n)%nat /\
    chan_run n [] (Chan fl0 (wire e0)) (Chan fl (wire e)) /\
    forall a, in_frame i a -> v_mem (vw e) a = g a.

Lemma idle_next s (fl : list (list Z)) : (length fl < n)%nat -> idle s fl ((s + length fl) mod n).
Proof. intros Hl k Hk Heq. apply mod_inj in Heq; lia. Qed.

(** A full ring has no free frame at its end. *)
Lemma free_not_full i fl e : (i < n)%nat -> wired i fl e -> snt e i = true -> (length fl < n)%nat.
Proof.
  intros Hin (s & [Hsz _ Hst _ _ _] & Hi) Hfree. destruct (decide (length fl = n)) as [Hn|]; [|lia]. exfalso.
  assert (Hi0 : i = ((s + 0) mod n)%nat).
  { rewrite <- Hi, Hn, Nat.add_0_r. replace (s + n)%nat with (s + 1 * n)%nat by lia. apply Nat.Div0.mod_add. }
  destruct fl as [|p fl]; [simpl in Hn; lia|]. destruct (Hst 0%nat p eq_refl) as [_ Hflag _ _].
  rewrite <- Hi0 in Hflag. change (snt e i) with (Z.odd (v_mem (vw e) (flag_at base i))) in Hfree. congruence.
Qed.

Lemma filling_fpga i fl0 e0 g s fl v e :
  holds s fl v -> ((s + length fl) mod n)%nat = i -> (length fl < n)%nat ->
  chan_run n [] (Chan fl0 (wire e0)) (Chan fl (v_wire v)) -> (forall a, in_frame i a -> v_mem v a = g a) ->
  rtc (fpga_step base n) v (vw e) -> filling i fl0 e0 g e.
Proof.
  intros Hv Hi Hl Hc Hg Hrun. destruct (fpga_drains Hcap _ _ Hrun s fl Hv) as (d & fl' & -> & Hv' & Hw & Hm).
  rewrite length_app in *. exists (s + length d)%nat, fl'. split_and!; [done | | lia | |].
  - rewrite <- Hi. f_equal. lia.
  - unfold wire. rewrite Hw. apply (chan_run_app _ [] [] _ _ _ Hc), chan_run_sends.
  - intros a Ha. rewrite (Hm i); [by apply Hg | | | done].
    + rewrite <- Hi. apply Nat.mod_upper_bound. lia.
    + rewrite <- Hi, <- length_app. apply idle_next. rewrite length_app. lia.
Qed.

Lemma filling_start i fl e :
  (i < n)%nat -> wired i fl e -> snt e i = true -> filling i fl e (v_mem (vw e)) e.
Proof.
  intros Hi Hw Hfree. pose proof (free_not_full _ _ _ Hi Hw Hfree). destruct Hw as (s & Hs & Hsi).
  exists s, fl. split_and!; try done. constructor.
Qed.

Lemma filling_store i fl0 e0 g w a x e :
  filling i fl0 e0 g e -> frame_at base i <= a -> a + Z.of_nat (wbytes w) <= frame_at base i + sizeof_frame ->
  filling i fl0 e0 (fwrite g a (le_bytes (wbytes w) x)) (ext (MemWrite w a x) e).2.
Proof.
  intros (s & fl & Hs & Hi & Hl & Hc & Hg) Ha Hb. eapply filling_fpga; [| exact Hi | done | | |apply fp_ext].
  - apply (holds_mem _ _ _ _ Hs). intros k b Hk Hin. apply fwrite_out. rewrite zlen_le_bytes.
    assert (Hout : ~ in_frame i b).
    { intros Hib. apply (idle_next s fl Hl k Hk). rewrite Hi. exact (in_frame_inj _ _ _ Hin Hib). }
    unfold TxEngine.in_frame in Hout. lia.
  - done.
  - intros b Hin. cbn. unfold fwrite. destruct (_ && _); [done | by apply Hg].
Qed.

Lemma filling_same i fl0 e0 g g' e :
  (forall a, g a = g' a) -> filling i fl0 e0 g e -> filling i fl0 e0 g' e.
Proof.
  intros Heq (s & fl & Hs & Hi & Hl & Hc & Hg). exists s, fl. split_and!; try done.
  intros a Ha. rewrite <- Heq. by apply Hg.
Qed.

Lemma memwrite_fills i fl0 e0 g a l (e : E) :
  filling i fl0 e0 g e -> Forall is_byte l ->
  frame_at base i <= a -> a + zlen l <= frame_at base i + sizeof_frame ->
  wp (memwrite_bytes a l) e (fun _ _ e' => filling i fl0 e0 (fwrite g a l) e').
Proof.
  unfold zlen. intros Hf Hl. revert g a e Hf. induction Hl as [|b l Hb _ IH]; intros g a e Hf Ha He; simpl in *; wp_run.
  - eapply filling_same; [|exact Hf]. intros x. by rewrite fwrite_nil.
  - untrunc. eapply wp_conseq; [apply IH; [apply filling_store; [exact Hf | lia | simpl; lia] | lia | lia]|].
    intros ? t e'. apply filling_same. intros x. rewrite fwrite_cons. apply fwrite_ext. cbn [wbytes le_bytes].
    rewrite fwrite_cons, fwrite_nil. by rewrite !u8_small by (try apply u8_byte; done).
Qed.

(** The descriptor puts the frame in flight. *)
Lemma push_accepts i fl0 e0 g p e :
  filling i fl0 e0 g e -> stored (base := base) g i p ->
  reaches [Accept p] fl0 e0 ((i + 1) mod n)
    (ext (IoWrite W32 reg (tx_word (sizeof_frame * Z.of_nat i) (zlen p))) e).2.
Proof.
  intros (s & fl & Hs & Hi & Hl & Hc & Hg) Hst. set (x := tx_word _ _).
  assert (Hpush : holds s (fl ++ [p]) (cpu reg (IoWrite W32 reg x) (vw e))).
  { simpl. rewrite Z.eqb_refl. destruct Hs as [Hsz Hp Hsto Hnone Hcl Hcur]. split; simpl; try done.
    - rewrite length_app. simpl. lia.
    - rewrite imap_app, Hp. simpl. do 2 f_equal. unfold flight_word. rewrite Nat.add_0_r. by rewrite Hi.
    - intros k q Hk. apply lookup_snoc_Some in Hk as [[_ Hk]|[-> <-]]; [by apply Hsto|].
      rewrite Hi. eapply stored_ext; [exact Hst|]. intros a Ha. by apply Hg.
    - intros Hnil. by apply app_nil in Hnil as [_ ?]. }
  pose proof (fpga_drains Hcap _ _ (fp_ext e (IoWrite W32 reg x)) _ _ Hpush) as (d & fl' & Heq & Hv' & Hw & _).
  exists fl'. split.
  - exists (s + length d)%nat. split; [done|]. rewrite <- Hi, Nat.Div0.add_mod_idemp_l. f_equal.
    apply (f_equal length) in Heq. rewrite !length_app in Heq. simpl in Heq. lia.
  - apply (chan_run_app n [] [Accept p] _ _ _ Hc). constructor; [done|]. rewrite Heq. unfold wire at 2.
    rewrite Hw. simpl. rewrite Z.eqb_refl. apply chan_run_sends.
Qed.

(** The bytes of a frame after [fifo_dma_queue_skb]. *)
Lemma fslice_fwrite_out f a l b k :
  b + Z.of_nat k <= a \/ a + zlen l <= b -> fslice (fwrite f a l) b k = fslice f b k.
Proof. intros Hb. apply fslice_ext. intros c Hc. apply fwrite_out. lia. Qed.

Lemma queued_stored g i p :
  zlen p < MAX_PAYLOAD_SIZE ->
  stored (base := base) (fwrite (fwrite (fwrite g (frame_at base i + dma_tx_flags) (le_bytes 4 0))
    (frame_at base i + dma_length) (le_bytes 2 (zlen p))) (frame_at base i + sizeof_dma_hdr) p) i p.
Proof.
  intros Hl. assert (dma_length = 8 /\ dma_tx_flags = 12 /\ sizeof_dma_hdr = 24 /\ MAX_PAYLOAD_SIZE = 2024)
    as (H1 & H2 & H3 & H4) by done. pose proof (zlen_nonneg p).
  split; [done | | |].
  - change (flag_at base i) with (frame_at base i + dma_tx_flags).
    rewrite !fwrite_out by (rewrite ?zlen_le_bytes; lia). cbn [le_bytes].
    rewrite fwrite_cons, fwrite_out by lia. unfold upd. by rewrite Z.eqb_refl.
  - rewrite fslice_fwrite_out by (simpl; lia). rewrite <- (length_le_bytes 2 (zlen p)) at 2.
    rewrite fslice_fwrite, le_val_bytes. apply Z.mod_small. simpl. lia.
  - apply fslice_fwrite.
Qed.

Lemma queue_accepts f i skb fl (e : E) :
  tx_ok f i -> f_reg f = reg -> skb_len skb < MAX_PAYLOAD_SIZE -> Forall is_byte (skb_data skb) ->
  wired i fl e -> snt e i = true ->
  wp (ops_skb f skb) e (fun _ _ e' => reaches [Accept (skb_data skb)] fl e ((i + 1) mod n) e').
Proof.
  intros Hf Hreg Hl Hb Hw Hfree. destruct (tx_slot f i Hf) as [Hi Hx]. unfold ops_skb. rewrite (proj1 Hf).
  unfold fifo_dma_queue_skb. rewrite Hx, Hreg, (proj1 (proj2 Hf)).
  change (base + sizeof_frame * Z.of_nat i) with (frame_at base i).
  assert (dma_length = 8 /\ dma_tx_flags = 12 /\ sizeof_dma_hdr = 24 /\ MAX_PAYLOAD_SIZE = 2024 /\ sizeof_frame = 2048)
    as (H1 & H2 & H3 & H4 & H5) by done. unfold skb_len in *. pose proof (zlen_nonneg (skb_data skb)).
  wp_run. untrunc.
  eapply wp_conseq; [eapply (memwrite_fills i fl e); [| done | lia | lia]|].
  { apply filling_store; [apply filling_store; [by apply filling_start | lia | simpl; lia] | lia | simpl; lia]. }
  intros ? t e' Hfill. wp_run. untrunc. rewrite u32_idem.
  replace (frame_at base i - base) with (sizeof_frame * Z.of_nat i) by (unfold frame_at; lia).
  apply (push_accepts _ _ _ _ _ _ Hfill). rewrite !(u16_small (u16 _)), !u16_small by (rewrite ?u16_small; lia).
  change (u32 0) with 0. by apply queued_stored.
Qed.

(** *** The device *)

Local Abbreviation dev_ok := (NetTx.dev_ok (dev := dev) (base := base) (n := n)).
Local Abbreviation tx_inv := (NetTx.tx_inv (dev := dev) (base := base) (n := n)).
Local Abbreviation quiet := (NetTx.quiet (dev := dev) (base := base) (n := n)).

(** The two rings are apart, and the registers of the FIFOs follow each other. *)
Record wire_ok (priv : ccat_eth_priv) (i : nat) : Prop := {
  wo_dev : dev_ok priv i;
  wo_tx : f_reg (tx_fifo priv) = reg;
  wo_rx : f_reg (rx_fifo priv) = reg + 0x10;
  wo_far : rx_end (rx_fifo priv) <= base \/ ring_end <= start (rx_fifo priv);
}.

Lemma rx_call_inert lo hi c : hi <= base \/ ring_end <= lo -> rx_call lo hi (reg + 0x10) c -> inert c.
Proof. destruct c as [|[]| | | |[]]; simpl; try done; lia. Qed.

Lemma ready_drains mac f : evolves drains (ops_ready mac f : M E _).
Proof.
  apply (ready_rx drains (lo := base) (hi := base) (reg := reg + 0x10)). intros c e Hc.
  apply inert_drains, (rx_call_inert base base); [lia | done].
Qed.

Lemma wire_ok_rx priv i : wire_ok priv i ->
  rx_in (start (rx_fifo priv)) (rx_end (rx_fifo priv)) (reg + 0x10) (rx_fifo priv).
Proof. intros [(_ & Hrx & _) _ Hr _]. rewrite <- Hr. by eapply rx_ok_in. Qed.

Lemma wire_ok_set_rx priv i f :
  wire_ok priv i -> rx_in (start (rx_fifo priv)) (rx_end (rx_fifo priv)) (reg + 0x10) f ->
  wire_ok (set_rx_fifo f priv) i.
Proof.
  intros [(Hd & Hrx & Htx) Ht Hr Hfar] Hf. split; simpl; [|done | apply Hf |].
  - exact (conj Hd (conj (rx_in_ok _ _ _ _ Hf (proj2 (proj2 Hrx))) Htx)).
  - by rewrite (ri_lo _ _ _ _ Hf), (ri_hi _ _ _ _ Hf).
Qed.

Lemma wire_ok_set_tx priv i f j :
  wire_ok priv i -> tx_ok f j -> f_reg f = reg -> wire_ok (set_tx_fifo f priv) j.
Proof. intros [(Hd & Hrx & Htx) Ht Hr Hfar] Hf Hreg. split; [exact (conj Hd (conj Hrx Hf)) | done..]. Qed.

(** *** Transmission *)

(** The frames the driver takes, unless the ring is full. *)
Definition taken (skb : sk_buff) : bool := negb (skb_nonlinear skb) && (skb_len skb <=? MAX_PAYLOAD_SIZE).
Definition xmit_events (skb : sk_buff) (r : Z) : list chan_ev :=
  if taken skb && (r =? NETDEV_TX_OK) then [Accept (skb_data skb)] else [].

Lemma xmit_accepts skb priv i fl (e : E) :
  wire_ok priv i -> wired i fl e -> Forall is_byte (skb_data skb) ->
  (snt e i = true -> taken skb = true -> skb_len skb <> MAX_PAYLOAD_SIZE) ->
  wp (ccat_eth_start_xmit skb priv) e (fun '(r, priv') _ e' =>
    (snt e i = true -> r = NETDEV_TX_OK) /\ exists i', wire_ok priv' i' /\ reaches (xmit_events skb r) fl e i' e').
Proof.
  intros Hok Hw Hb Hne. pose proof Hok as [(Hd & Hrx & Htx) Hreg _ _].
  destruct (tx_slot _ _ Htx) as [Hi _]. unfold ccat_eth_start_xmit, xmit_events, taken, xmit_drop in *.
  destruct (skb_nonlinear skb); cbn [negb andb] in *.
  { wp_run. split; [done|]. exists i.
    split; [by eapply wire_ok_set_tx | apply drains_reaches; [by apply inert_drains | done]]. }
  destruct (Z.ltb_spec MAX_PAYLOAD_SIZE (skb_len skb)), (Z.leb_spec (skb_len skb) MAX_PAYLOAD_SIZE); try lia.
  { wp_run. split; [done|]. exists i.
    split; [by eapply wire_ok_set_tx | apply drains_reaches; [by apply inert_drains | done]]. }
  apply wp_bind. eapply wp_conseq; [apply (wp_evolves drains); [apply ready_drains | by apply tx_ready]|].
  intros r t1 e1 [[-> Hq1] Hdr1]. destruct (snt e i) eqn:Hfree; cbn [b2z].
  2: { change (istrue 0) with false. cbn [negb]. wp_run. split; [done|]. exists i. split; [done|].
       apply drains_reaches; [|done]. etrans; [exact Hdr1 | by apply inert_drains]. }
  specialize (Hne eq_refl eq_refl). change (istrue 1) with true. cbn [negb].
  destruct (drains_reaches _ _ _ _ Hdr1 Hw) as (fl1 & Hw1 & Hc1). apply wp_bind.
  eapply wp_conseq; [apply (queue_accepts _ i skb fl1); try done; [lia | apply Hq1; done]|].
  intros ? t2 e2 Hr2. wp_run. set (c3 := Kernel _). set (f' := ccat_eth_fifo_inc _).
  assert (Htx' : tx_ok f' ((i + 1) mod n)) by (rewrite <- next_slot_mod by done; by apply tx_ok_inc).
  assert (Hreg' : f_reg f' = reg) by (unfold f'; by rewrite (proj2 (inc_table _))).
  eapply wp_conseq; [apply (wp_evolves drains); [apply ready_drains | by eapply tx_ready]|].
  intros r t4 e4 [_ Hdr4].
  assert (Hr4 : reaches [Accept (skb_data skb)] fl e ((i + 1) mod n) e4).
  { eapply reaches_drains; [|exact Hdr4]. eapply reaches_drains; [|by apply inert_drains].
    exact (reaches_after [] _ _ _ _ _ _ _ Hc1 Hr2). }
  destruct (istrue r); cbn [negb]; wp_run; (split; [done|]); exists ((i + 1) mod n)%nat;
    (split; [by eapply wire_ok_set_tx|]); [done|].
  eapply reaches_drains; [done | by apply inert_drains].
Qed.

(** *** Resetting the FIFO *)

Lemma holds_nil s v : v_pend v = [] -> v_cur v = [] -> holds s [] v.
Proof. intros Hp Hc. split; rewrite ?Hp, ?Hc; done || (simpl; lia). Qed.

(** With nothing in flight the CPU may store what it likes. *)
Definition stays_empty (e e' : E) : Prop := holds 0 [] (vw e) -> holds 0 [] (vw e') /\ wire e' = wire e.

#[global] Instance stays_empty_preorder : PreOrder stays_empty.
Proof.
  split; [by intros e He|]. intros e1 e2 e3 H12 H23 H1. destruct (H12 H1) as [H2 Hw2].
  destruct (H23 H2) as [H3 Hw3]. split; [done | congruence].
Qed.

Lemma empty_fpga v e : holds 0 [] v -> rtc (fpga_step base n) v (vw e) -> holds 0 [] (vw e) /\ wire e = v_wire v.
Proof.
  intros Hv Hrun. destruct (fpga_drains Hcap _ _ Hrun 0%nat [] Hv) as (d & fl & Heq & Hv' & Hw & _).
  symmetry in Heq. apply app_nil in Heq as [-> ->]. split; [exact Hv' | by rewrite app_nil_r in Hw].
Qed.

Lemma store_empty w a x e : stays_empty e (ext (MemWrite w a x) e).2.
Proof.
  intros [_ Hp _ Hc _ _]. pose proof (fp_ext e (MemWrite w a x)) as Hrun.
  exact (empty_fpga _ _ (holds_nil 0 (cpu reg (MemWrite w a x) (vw e)) Hp (Hc eq_refl)) Hrun).
Qed.

Lemma inert_empty c e : inert c -> stays_empty e (ext c e).2.
Proof.
  intros Hc He. destruct (inert_drains c e Hc 0%nat [] He) as (d & fl & Heq & Hv' & Hw & _).
  symmetry in Heq. apply app_nil in Heq as [-> ->]. split; [exact Hv' | by rewrite app_nil_r in Hw].
Qed.

Lemma reset_loop_empty fuel f : ops f = dma_tx_fifo_ops -> evolves stays_empty (reset_loop fuel f : M E _).
Proof.
  revert f. induction fuel as [|fuel IH]; intros f Hf; cbn [reset_loop]; ev_run.
  - unfold ops_add. rewrite Hf. unfold ccat_eth_tx_fifo_dma_add_free. ev_run. apply store_empty.
  - apply IH. by rewrite (proj1 (inc_table f)).
Qed.

Context (Hreg : reg <> 0) (Hpos : (2 <= n)%nat).

Lemma hw_reset_empties e :
  let e' := (ext (IoWrite W32 (reg + 0x8) 0) e).2 in holds 0 [] (vw e') /\ wire e' = wire e.
Proof.
  intros e'. pose proof (fp_ext e (IoWrite W32 (reg + 0x8) 0)) as Hrun. simpl in Hrun.
  rewrite (proj2 (Z.eqb_neq (reg + 8) reg)), Z.eqb_refl in Hrun by lia.
  exact (empty_fpga _ _ (holds_nil 0 (View (v_mem (vw e)) [] [] (v_wire (vw e))) eq_refl eq_refl) Hrun).
Qed.

Lemma reset_empties f (e : E) :
  ops f = dma_tx_fifo_ops -> f_reg f = reg ->
  wp (ccat_eth_fifo_reset f) e (fun f' _ e' =>
    f' = set_next (start f) f /\ holds 0 [] (vw e') /\ wire e' = wire e).
Proof.
  intros Ho Hr. unfold ccat_eth_fifo_reset, ccat_eth_fifo_hw_reset. rewrite Ho, Hr, istrue_nz by done.
  wp_run. untrunc. change (u32 0) with 0. destruct (hw_reset_empties e) as [He1 Hw1].
  set (e1 := (ext (IoWrite W32 (reg + 8) 0) e).2) in *. destruct (inert_empty Wmb e1 I He1) as [He2 Hw2].
  eapply wp_conseq; [apply (wp_evolves stays_empty); [by apply reset_loop_empty|];
    apply (reset_loop_calls _ _ 0); [simpl; by rewrite Ho | apply at_slot_0 |]|].
  { change (nslots (set_next _ f)) with (nslots f). lia. }
  intros f' t e' [[-> _] Hemp]. destruct (Hemp He2) as [He3 Hw3]. split_and!; [done | done | congruence].
Qed.

Lemma empty_wired i e : (i < n)%nat -> holds 0 [] (vw e) -> wired i [] e.
Proof.
  intros Hi [_ Hp _ Hc _ _]. exists i. split; [apply holds_nil; auto|]. rewrite Nat.add_0_r. by apply Nat.mod_small.
Qed.

Lemma tx_reset_flushes f i fl (e : E) :
  tx_ok f i -> f_reg f = reg -> wired i fl e ->
  wp (ccat_eth_fifo_reset f) e (fun f' _ e' =>
    tx_ok f' 0 /\ f_reg f' = reg /\ reaches [Flush] fl e 0 e' /\ snt e' 0 = true).
Proof.
  intros Hf Hr Hw. pose proof Hf as (Ho & Hs & Hns & _).
  eapply wp_conseq; [apply wp_and; [by apply reset_empties | by apply (tx_reset_frees f e)]|].
  intros f' t e' [(-> & He & Hwire) (Htx & _ & _ & Hall)]. split_and!; [done | done | | apply Hall; lia].
  exists []. split; [apply empty_wired; [lia | done]|]. rewrite Hwire. repeat constructor.
Qed.

(** *** The timer *)

(** The requests of a link that came up. *)
Definition up_events : list chan_ev := [Flush; Accept frameForwardEthernetFrames].
Definition link_events (before after : bool) : list chan_ev :=
  if negb before && after then up_events else [].

Lemma link_up_accepts priv i fl (e : E) :
  wire_ok priv i -> wired i fl e ->
  wpo no_buffer (ccat_eth_link_up priv) e (fun priv' _ e' =>
    car e' = true /\ exists i', wire_ok priv' i' /\ reaches up_events fl e i' e').
Proof.
  intros Hok Hw. pose proof (wire_ok_rx _ _ Hok) as Hrx. pose proof (wo_far _ _ Hok) as Hfar.
  unfold ccat_eth_link_up. apply wpo_seq, wp_wpo; [auto with ccat|].
  eapply wp_conseq; [eapply (reset_rx drains); [|exact Hrx]|].
  { intros c e0 Hc. by eapply inert_drains, rx_call_inert. }
  intros rx t1 e1 [-> Hdr1]. destruct (drains_reaches _ _ _ _ Hdr1 Hw) as (fl1 & Hw1 & Hc1).
  set (p1 := set_rx_fifo _ priv).
  assert (Hok1 : wire_ok p1 i) by (apply wire_ok_set_rx; [done | by apply rx_in_start]).
  apply wpo_seq, wp_wpo; [auto with ccat|].
  eapply wp_conseq; [apply (tx_reset_flushes _ i fl1); [apply Hok1 | apply Hok1 | done]|].
  intros tx t2 e2 (Htx2 & Hreg2 & (fl2 & Hw2 & Hc2) & Hfree2).
  assert (Hok2 : wire_ok (set_tx_fifo tx p1) 0) by (by eapply wire_ok_set_tx).
  apply wpo_seq, xmit_raw_spec; [auto with ccat|]. intros _. set (c3 := Kernel (DevAllocSkb _)) in *.
  set (e3 := (ext c3 e2).2) in *. set (x := r_val _).
  destruct (drains_reaches 0 fl2 e2 e3 ltac:(by apply inert_drains) Hw2) as (fl3 & Hw3 & Hc3).
  assert (Hfree3 : snt e3 0 = true) by (apply (tame_quiet c3 e2 I); [lia | done]).
  eapply wp_conseq; [apply (xmit_accepts (Skb x false frameForwardEthernetFrames) _ 0 fl3); try done|].
  { apply (bool_decide_unpack _). vm_compute. exact I. }
  intros [r p4] t4 e4 (Hr & i4 & Hok4 & Hr4). rewrite (Hr Hfree3) in Hr4. apply wp_wpo. wp_run.
  rewrite (proj1 (wo_dev _ _ Hok4)), nk_carrier, nk_on by intros []. split; [done|]. exists i4. split; [done|].
  do 2 (eapply reaches_drains; [|by apply inert_drains]).
  change up_events with ([] ++ [Flush] ++ [] ++ [Accept frameForwardEthernetFrames]).
  do 3 (eapply reaches_after; [eassumption|]). exact Hr4.
Qed.

Lemma poll_link_accepts priv i fl (e : E) :
  wire_ok priv i -> wired i fl e ->
  wpo no_buffer (poll_link priv) e (fun priv' _ e' =>
    exists i', wire_ok priv' i' /\ reaches (link_events (car e) (car e')) fl e i' e').
Proof.
  intros Hok Hw. pose proof (proj1 (wo_dev _ _ Hok)) as Hd.
  unfold poll_link, ccat_eth_priv_read_link_state. rewrite Hd.
  apply wpo_seq, wp_wpo; [auto with ccat|]. wp_run. apply wpo_seq, wp_wpo; [auto with ccat|]. wp_run.
  match goal with |- context [ext ?c e] => set (c1 := c) in *; set (e1 := (ext c1 e).2) in * end.
  rewrite nk_ok. set (c2 := Kernel (NetifCarrierOk dev)). set (e2 := (ext c2 e1).2).
  assert (Hc1 : car e1 = car e) by (by apply nk_carrier; intros []).
  assert (Hc2 : car e2 = car e) by (rewrite <- Hc1; by apply nk_carrier; intros []).
  assert (Hdr : drains e e2) by (etrans; by apply inert_drains).
  destruct (drains_reaches _ _ _ _ Hdr Hw) as (fl2 & Hw2 & Hr2). rewrite Hc1.
  assert (Hstay : exists i', wire_ok priv i' /\ reaches (link_events (car e) (car e2)) fl e i' e2).
  { exists i. split; [done|]. rewrite Hc2. unfold link_events. destruct (car e); simpl; by apply drains_reaches. }
  destruct (istrue (Z.land _ _)), (car e) eqn:Hcar; cbn [b2z Z.eqb negb istrue];
    try (by apply wp_wpo; wp_run).
  - eapply wpo_conseq; [by apply (link_up_accepts _ i fl2)|]. intros p3 t3 e3 [Hc3 (i' & Hok' & Hr3)].
    exists i'. split; [done|]. rewrite Hc3. exact (reaches_after [] _ _ _ _ _ _ _ Hr2 Hr3).
  - apply wp_wpo. unfold ccat_eth_link_down. wp_run. exists i. split; [done|]. unfold link_events. cbn [negb andb].
    apply drains_reaches; [|done]. etrans; [exact Hdr|]. etrans; by apply inert_drains.
Qed.

Lemma front_accepts ip priv i fl (e : E) :
  wire_ok priv i -> wired i fl e ->
  wpo no_buffer (poll_front ip priv) e (fun priv' _ e' =>
    exists i', wire_ok priv' i' /\ reaches (link_events (car e) (car e')) fl e i' e').
Proof.
  intros Hok Hw. unfold poll_front. apply wpo_seq; [auto with ccat|].
  eapply wpo_conseq; [by apply (poll_link_accepts _ i)|]. intros p1 t1 e1 (i1 & Hok1 & Hr1). apply wp_wpo.
  pose proof (wo_far _ _ Hok1) as Hfar.
  eapply wp_conseq; [apply wp_and; [by apply (poll_rx_quiet _ _ i1), Hok1 |
    eapply (poll_rx_rx drains); [|by apply (wire_ok_rx _ i1)]]|].
  { intros c e0 Hc. by eapply inert_drains, rx_call_inert. }
  intros p2 t2 e2 [[_ (_ & Hc2 & _)] [[Hin Hp2] Hdr2]]. exists i1. rewrite Hc2.
  split; [rewrite Hp2; by apply wire_ok_set_rx | by eapply reaches_drains].
Qed.

Lemma look_drains priv : evolves drains (poll_look priv : M E _).
Proof. unfold poll_look. ev_run. apply ready_drains. Qed.

Lemma back_drains priv p : evolves drains (poll_back priv p : M E _).
Proof. unfold poll_back, poll_act. ev_run; by apply inert_drains. Qed.

(** ** The device over time

    The calls of the kernel into the driver, the parts of the timer callback (NetRace.v) and the
    FPGA, in any order, with the requests to the channel they are.  Transmissions are not bound to
    an awake queue: one that finds the ring full is no request.  The buffers hold bytes. *)
Inductive wire_step (ip : Z) : ccat_eth_priv * E -> list chan_ev -> ccat_eth_priv * E -> Prop :=
  | ws_xmit skb priv e r priv' t e' :
      Forall is_byte (skb_data skb) ->
      ccat_eth_start_xmit skb priv e = (Ret (r, priv'), t, e') ->
      wire_step ip (priv, e) (xmit_events skb r) (priv', e')
  | ws_front priv e priv' t e' :
      poll_front ip priv e = (Ret priv', t, e') ->
      wire_step ip (priv, e) (link_events (car e) (car e')) (priv', e')
  | ws_look priv e p t e' :
      poll_look priv e = (Ret p, t, e') -> wire_step ip (priv, e) [] (priv, e')
  | ws_back priv e p t e' :
      poll_back priv p e = (Ret tt, t, e') -> wire_step ip (priv, e) [] (priv, e')
  | ws_open priv e r t e' :
      ccat_eth_open priv e = (Ret r, t, e') -> wire_step ip (priv, e) [] (priv, e')
  | ws_stop priv e r t e' :
      ccat_eth_stop priv e = (Ret r, t, e') -> wire_step ip (priv, e) [] (priv, e')
  | ws_stats priv e r t e' :
      ccat_eth_get_stats64 priv e = (Ret r, t, e') -> wire_step ip (priv, e) [] (priv, e')
  | ws_fpga priv e e' :
      rtc (fpga_step base n) (vw e) (vw e') -> wire_step ip (priv, e) [] (priv, e').

Inductive wire_run (ip : Z) : ccat_eth_priv * E -> list chan_ev -> ccat_eth_priv * E -> Prop :=
  | wr_nil s : wire_run ip s [] s
  | wr_step s1 s2 s3 evs1 evs2 :
      wire_step ip s1 evs1 s2 -> wire_run ip s2 evs2 s3 -> wire_run ip s1 (evs1 ++ evs2) s3.

(** The state of the device: [fl] is in flight in the ring. *)
Definition sound (priv : ccat_eth_priv) (e : E) (fl : list (list Z)) : Prop :=
  exists i, wire_ok priv i /\ wired i fl e.

(** No frame of the length that does not fit the descriptor ([fifo_dma_queue_skb_max_payload]). *)
Definition lengths_fit (evs : list chan_ev) : Prop :=
  Forall (fun p => zlen p <> MAX_PAYLOAD_SIZE) (accepted evs).

(** The steps that leave the flight to the FPGA. *)
Lemma same_accepts priv i fl e e' :
  wire_ok priv i -> wired i fl e -> drains e e' -> exists i', wire_ok priv i' /\ reaches [] fl e i' e'.
Proof. intros Hok Hw Hd. exists i. split; [done | by apply drains_reaches]. Qed.

Lemma wire_step_accepts ip priv e evs priv' e' fl :
  wire_step ip (priv, e) evs (priv', e') -> lengths_fit evs -> sound priv e fl ->
  exists i', wire_ok priv' i' /\ reaches evs fl e i' e'.
Proof.
  intros Hstep Hfit (i & Hok & Hw).
  inversion Hstep as [skb p e1 r p' t e2 Hb Hrun | p e1 p' t e2 Hrun | p e1 pl t e2 Hrun | p e1 pl t e2 Hrun
    | p e1 r t e2 Hrun | p e1 r t e2 Hrun | p e1 r t e2 Hrun | p e1 e2 Hrun]; subst.
  - eapply (wpx_run _ _ _ _ _ _ _ (xmit_accepts skb priv i fl e Hok Hw Hb _) Hrun). Unshelve.
    intros Hfree Htk. destruct (wpx_run _ _ _ _ _ _ _ (xmit_free skb priv i e (wo_dev _ _ Hok) Hfree) Hrun) as [-> _].
    unfold lengths_fit, xmit_events in Hfit. rewrite Htk in Hfit. by apply Forall_cons in Hfit as [? _].
  - exact (wpo_run _ _ _ _ _ _ _ (front_accepts ip priv i fl e Hok Hw) Hrun).
  - eapply same_accepts, (evolves_run drains); [done | done | apply look_drains | exact Hrun].
  - eapply same_accepts, (evolves_run drains); [done | done | apply back_drains | exact Hrun].
  - eapply same_accepts, (evolves_run drains); [done | done | | exact Hrun]. unfold ccat_eth_open. ev_run. by apply inert_drains.
  - eapply same_accepts, (evolves_run drains); [done | done | | exact Hrun]. unfold ccat_eth_stop. ev_run; by apply inert_drains.
  - eapply same_accepts, (evolves_run drains); [done | done | | exact Hrun]. unfold ccat_eth_get_stats64. ev_run.
    apply (ioread_bytes_rx drains (lo := base) (hi := base) (reg := reg + 0x10)). intros c e0 Hc.
    apply inert_drains, (rx_call_inert base base); [lia | done].
  - eapply same_accepts; [done | done |]. by apply fpga_drains.
Qed.

Lemma wire_run_sound ip s evs s' fl :
  wire_run ip s evs s' -> lengths_fit evs -> sound s.1 s.2 fl ->
  exists fl', sound s'.1 s'.2 fl' /\ chan_run n evs (Chan fl (wire s.2)) (Chan fl' (wire s'.2)).
Proof.
  intros Hrun. revert fl. induction Hrun as [s | [p1 e1] [p2 e2] s3 evs1 evs2 Hstep _ IH]; intros fl Hfit Hs.
  { exists fl. split; [done | constructor]. }
  unfold lengths_fit in Hfit. rewrite accepted_app in Hfit. apply Forall_app in Hfit as [Hfit1 Hfit2].
  destruct (wire_step_accepts _ _ _ _ _ _ _ Hstep Hfit1 Hs) as (i & Hok & fl2 & Hw & Hc).
  destruct (IH fl2) as (fl3 & Hs3 & Hc3); [done | by eexists |]. exists fl3. split; [done|].
  by eapply chan_run_app.
Qed.

(** C2: the driver and the FPGA are a FIFO channel.  Over any sequence of transmissions, parts of
    timer callbacks ([poll_link] with [poll_rx], and the two halves of [poll_tx]), opening, stopping
    and statistics, with the FPGA fetching the frames byte by byte from the DMA memory while the CPU
    goes on, what is on the wire is what a FIFO of the ring's capacity sends that is given exactly
    the frames [ccat_eth_start_xmit] accepts, and is emptied when the link comes up.  While the link
    does not come up, the frames on the wire followed by those in flight are those that were there
    followed by those accepted: none is lost, doubled, reordered or changed.  The run must not
    accept a frame of exactly [MAX_PAYLOAD_SIZE] (2024) bytes: the driver does accept such frames,
    but their length does not fit the descriptor, and the FPGA would send nothing of them. *)
Theorem ccat_eth_tx_channel ip priv0 e0 fl0 evs priv e :
  sound priv0 e0 fl0 -> wire_run ip (priv0, e0) evs (priv, e) -> lengths_fit evs ->
  exists fl, sound priv e fl /\ chan_run n evs (Chan fl0 (wire e0)) (Chan fl (wire e)) /\
    (Flush ∉ evs -> wire e ++ fl = wire e0 ++ fl0 ++ accepted evs).
Proof.
  intros Hs Hrun Hfit. destruct (wire_run_sound ip _ _ _ _ Hrun Hfit Hs) as (fl & Hs' & Hc).
  exists fl. split_and!; [done | done |]. intros Hf. exact (chan_run_fifo _ _ _ _ Hc Hf).
Qed.

(** ** Probing sets the channel up *)

(** The address registers of the channel are not those of the FIFO. *)
Definition chan_apart (bar2 ch : Z) : Prop :=
  let a := bar2 + 0x1000 + 8 * ch in a + 4 < reg \/ reg + 0x8 < a.

Lemma dma_init_empties pdev ch bar2 fifo (e : E) :
  ops fifo = dma_tx_fifo_ops -> f_reg fifo = reg -> chan_apart bar2 ch ->
  wp (ccat_dma_init pdev ch bar2 fifo) e (fun '(r, _) _ e' => r = 0 -> holds 0 [] (vw e')).
Proof.
  intros Ho Hr Hap. unfold ccat_dma_init, fifo_set_end. wp_run. destruct (_ || _); wp_run; [done|].
  eapply wp_conseq; [by apply reset_empties|]. intros f' t e1 (-> & He1 & _). wp_run. intros _.
  unfold chan_apart in Hap. do 4 (apply inert_empty; [simpl; done || lia|]). done.
Qed.

Lemma init_netdev_empty priv (e : E) :
  wp (ccat_eth_init_netdev priv) e (fun '(_, p) _ e' =>
    match p with Some priv' => priv' = priv /\ stays_empty e e' | None => True end).
Proof.
  unfold ccat_eth_init_netdev. wp_run. eapply wp_conseq; [apply (wp_evolves stays_empty);
    [apply (ioread_bytes_rx stays_empty (lo := base) (hi := base) (reg := reg + 0x10)) | apply ioread_bytes_any]|].
  { intros c e0 Hc. apply inert_empty, (rx_call_inert base base); [lia | done]. }
  intros l t e1 [_ He1]. wp_run. destruct (istrue _); cbn [negb]; wp_run; [|done].
  apply wp_istrue; intros _; wp_run.
  - eapply wp_conseq; [apply priv_free_returns|]. intros p t' e' _. by wp_run.
  - split; [done|]. do 4 (etrans; [|by apply inert_empty]). exact He1.
Qed.

Lemma dma_probe_empty func (e : E) :
  chan_apart (bar_2 (f_ccat func)) (tx_dma_chan (f_info func)) ->
  wp (ccat_eth_dma_probe func) e (fun '(_, p) _ e' => forall priv, p = Some priv ->
    f_reg (rx_fifo priv) = f_reg (tx_fifo priv) + 0x10 /\ nslots (rx_fifo priv) = 64%nat /\
    (f_reg (tx_fifo priv) = reg -> holds 0 [] (vw e'))).
Proof.
  intros Hap. unfold ccat_eth_dma_probe, ccat_eth_alloc_netdev, ccat_eth_priv_init_reg. wp_run.
  apply wp_null; intros Hnd; wp_run; [done|].
  eapply wp_conseq; [apply ioread_bytes_any|]. intros l t0 e0 _. wp_run. unfold ccat_eth_priv_init_dma. wp_run.
  eapply wp_conseq; [apply wp_and; [by apply (dma_init_sets_up (dev := dev) (base := base) (n := n) _ _ _ dma_rx_fifo_ops)
    | by apply dma_init_reg]|]. intros [st rx] t1 e1 [Hrx Hrxr].
  apply wp_istrue; intros Hst; wp_run; [rewrite (istrue_nz _ Hst); by wp_run|].
  destruct (Hrx Hst) as [(_ & _ & Hnrx) _]. wp_run. cbn [tx_fifo set_rx_fifo p_func].
  set (txf := set_ops dma_tx_fifo_ops _). set (bar2 := bar_2 _). set (ch := tx_dma_chan _).
  assert (Htx : forall e, wp (ccat_dma_init (d_pdev (f_ccat func)) ch bar2 txf) e (fun '(r, f) _ e' =>
    f_reg f = f_reg txf /\ (r = 0 -> f_reg txf = reg -> holds 0 [] (vw e')))).
  { intros e'. destruct (decide (f_reg txf = reg)) as [Heq|Hne].
    - eapply wp_conseq; [apply wp_and; [by apply dma_init_reg | by apply dma_init_empties]|].
      intros [r f] t e2 [Hr He]. auto.
    - eapply wp_conseq; [by apply dma_init_reg|]. intros [r f] t e2 Hr. split; [done|]. intros _ Hy. by destruct Hne. }
  eapply wp_conseq; [apply Htx|]. intros [st2 tx] t2 e2 [Htxr He2].
  apply wp_istrue; intros Hst2; wp_run.
  { eapply wp_conseq; [apply dma_free_returns|]. intros dm t3 e3 _. wp_run. rewrite (istrue_nz _ Hst2). by wp_run. }
  unfold ccat_hw_disable_mac_filter. wp_run.
  eapply wp_conseq; [apply init_netdev_empty|]. intros [r [p|]] t4 e4; [|done]. intros [-> Hemp] priv [= <-].
  simpl. rewrite Htxr, Hrxr. split_and!; [unfold txf; simpl; lia | done |]. intros Heq. apply Hemp.
  do 2 (apply inert_empty; [exact I|]). by apply He2.
Qed.

(** After a successful probe the device is in its invariant and nothing is in flight. *)
Lemma dma_probe_sound func (e : E) :
  chan_apart (bar_2 (f_ccat func)) (tx_dma_chan (f_info func)) ->
  wp (ccat_eth_dma_probe func) e (fun '(_, p) _ e' =>
    forall priv, p = Some priv -> p_netdev priv = dev -> start (tx_fifo priv) = base -> n = 64%nat ->
      f_reg (tx_fifo priv) = reg ->
      start (rx_fifo priv) + CCAT_ALIGNMENT <= base \/ ring_end <= start (rx_fifo priv) ->
      sound priv e' []).
Proof.
  intros Hap. eapply wp_conseq; [apply wp_and; [by apply dma_probe_empty |
    by apply (dma_probe_inv (dev := dev) (base := base) (n := n))]|].
  intros [r p] t e' [He Hinv] priv -> Hdev Hbase Hn64 Hr Hfar. destruct (He priv eq_refl) as (Hrx & Hnrx & Hemp).
  assert (Hi : tx_inv priv e').
  { apply Hinv; try done. intros i Hi. unfold ring_end, flag_at, dma_tx_flags, CCAT_ALIGNMENT in *.
    assert (sizeof_frame = 2048) by done. lia. }
  destruct Hi as (i & Hd & _). exists i. split; [split|].
  - done.
  - done.
  - by rewrite Hrx, Hr.
  - unfold rx_end. rewrite Hnrx. exact Hfar.
  - apply empty_wired; [apply (tx_slot _ _ (proj2 (proj2 Hd))) | by apply Hemp].
Qed.

End Wire.

(** ** Witnesses: an FPGA that sends one frame at every tick of the timer *)

Record wire_world := WW { ww_awake : bool; ww_carrier : bool; ww_view : tx_view }.

Definition serve (v : tx_view) : tx_view :=
  match v_pend v with
  | [] => v
  | w :: q =>
      let todo := 8 * desc_units w - zlen (v_cur v) in
      if todo <? 0 then v
      else View (upd (v_mem v) (desc_frame 0x10000 w + dma_tx_flags) 1) q []
             (v_wire v ++ [frame_of (v_cur v ++
                fslice (v_mem v) (0x10000 + desc_addr w + zlen (v_cur v)) (Z.to_nat todo))])
  end.

Lemma fetch_steps n m w q k cur out :
  zlen cur + Z.of_nat k = 8 * desc_units w ->
  rtc (fpga_step 0x10000 n) (View m (w :: q) cur out)
    (View m (w :: q) (cur ++ fslice m (0x10000 + desc_addr w + zlen cur) k) out).
Proof.
  revert cur. induction k as [|k IH]; intros cur Hk; simpl; [by rewrite app_nil_r|].
  eapply rtc_l; [apply fs_fetch; lia|]. set (b := m _).
  assert (Heq : cur ++ b :: fslice m (0x10000 + desc_addr w + zlen cur + 1) k
    = (cur ++ [b]) ++ fslice m (0x10000 + desc_addr w + zlen (cur ++ [b])) k).
  { rewrite <- app_assoc, zlen_app. simpl. do 3 f_equal. unfold zlen at 3. simpl. lia. }
  rewrite Heq. apply IH. rewrite zlen_app. unfold zlen at 2. simpl. lia.
Qed.

Lemma serve_steps n v : rtc (fpga_step 0x10000 n) v (serve v).
Proof.
  destruct v as [m [|w q] cur out]; [done|]. unfold serve. cbn [v_pend v_cur v_mem v_wire].
  destruct (Z.ltb_spec (8 * desc_units w - zlen cur) 0); [done|].
  eapply rtc_r; [apply (fetch_steps _ _ _ _ (Z.to_nat (8 * desc_units w - zlen cur))); lia|].
  apply fs_send.
  - rewrite zlen_app. unfold zlen at 2. rewrite length_fslice. lia.
  - intros a Ha. unfold upd. destruct (Z.eqb_spec a (desc_frame 0x10000 w + dma_tx_flags)); [|done].
    unfold dma_tx_flags in *. assert (sizeof_frame = 2048) by done. lia.
  - unfold upd. by rewrite Z.eqb_refl.
  - intros i Hi Hodd. unfold upd. by destruct (_ =? _).
Qed.

Definition wire_env : Env wire_world := fun c w =>
  let v := cpu 0x500 c (ww_view w) in
  match c with
  | Kernel (NetifStopQueue d) => (Resp 0 0, WW (if d =? 5 then false else ww_awake w) (ww_carrier w) v)
  | Kernel (NetifStartQueue d) | Kernel (NetifWakeQueue d) =>
      (Resp 0 0, WW (if d =? 5 then true else ww_awake w) (ww_carrier w) v)
  | Kernel (NetifCarrierOn d) => (Resp 0 0, WW (ww_awake w) (if d =? 5 then true else ww_carrier w) v)
  | Kernel (NetifCarrierOff d) => (Resp 0 0, WW (ww_awake w) (if d =? 5 then false else ww_carrier w) v)
  | Kernel (NetifCarrierOk d) => (Resp (b2z (ww_carrier w)) 0, WW (ww_awake w) (ww_carrier w) v)
  | Kernel HrtimerForwardNow => (Resp 0 0, WW (ww_awake w) (ww_carrier w) (serve v))
  | Kernel (DevAllocSkb _) => (Resp 0x900 0, WW (ww_awake w) (ww_carrier w) v)
  | MemRead wd a => (Resp (le_val (fslice (v_mem v) a (wbytes wd))) 0, WW (ww_awake w) (ww_carrier w) v)
  | IoRead W32 _ => (Resp (2 ^ 24) 0, WW (ww_awake w) (ww_carrier w) v)
  | _ => (Resp 0 0, WW (ww_awake w) (ww_carrier w) v)
  end.

#[export] Instance wire_env_kernel : @NetKernel wire_world wire_env 5.
Proof.
  unshelve refine (@Build_NetKernel _ wire_env 5 ww_awake ww_carrier _ _ _ _ _ _ _ _); try done.
  - intros w. simpl. by destruct (ww_carrier w).
  - intros w c Hc. destruct c as [[]|[]|[]|[]| |[]]; simpl in *; try done; case_match; done || lia.
  - intros w c Hc. destruct c as [[]|[]|[]|[]| |[]]; simpl in *; try done; case_match; done || lia.
Defined.

#[export] Instance wire_env_fpga n : @TxFpga wire_world wire_env 0x10000 n 0x500.
Proof.
  unshelve refine (@Build_TxFpga _ wire_env 0x10000 n 0x500 ww_view _ _).
  - intros w c. change (ext c w) with (wire_env c w).
    assert (Hv : ww_view (wire_env c w).2 = cpu 0x500 c (ww_view w) \/
                 ww_view (wire_env c w).2 = serve (cpu 0x500 c (ww_view w)))
      by (unfold wire_env; destruct c as [[]| | | | |[]]; auto).
    destruct Hv as [-> | ->]; [done | apply serve_steps].
  - done.
Defined.

Definition wire_idle : wire_world := WW true true (View (fun _ => 1) [] [] []).

Lemma wire_idle_sound : @sound wire_world wire_env 5 0x10000 4 0x500 _ net_priv wire_idle [].
Proof.
  exists 3%nat. split; [split|].
  - apply net_priv_ok.
  - reflexivity.
  - reflexivity.
  - right. vm_compute. discriminate.
  - apply empty_wired; [lia | by apply holds_nil].
Qed.

(** One frame is transmitted between the halves of [poll_tx]; the FPGA has sent it at the end. *)
Lemma ccat_eth_tx_channel_witness :
  exists priv e fl, @wire_run wire_world wire_env 5 0x10000 4 0x500 _ _ 0 (net_priv, wire_idle)
      [Accept (skb_data (small_skb 60))] (priv, e) /\
    v_wire (ww_view e) ++ fl = [skb_data (small_skb 60)] /\ fl = [].
Proof.
  pose proof wire_idle_sound as Hs.
  destruct (poll_look (H := wire_env) net_priv wire_idle) as [[o1 t1] e1] eqn:Hrun1.
  destruct (ccat_eth_start_xmit (H := wire_env) (small_skb 60) net_priv e1) as [[o2 t2] e2] eqn:Hrun2.
  assert (Hcomp : (let '(o1, _, e1) := poll_look (H := wire_env) net_priv wire_idle in
    let '(o2, _, e2) := ccat_eth_start_xmit (H := wire_env) (small_skb 60) net_priv e1 in
    match o1, o2 with
    | Ret p, Ret (r, priv) => r = NETDEV_TX_OK /\
        let '(o3, _, e3) := poll_back (H := wire_env) priv p e2 in
        match o3 with Ret _ => v_wire (ww_view e3) = [skb_data (small_skb 60)] | _ => False end
    | _, _ => False
    end)) by (vm_compute; split; reflexivity).
  rewrite Hrun1, Hrun2 in Hcomp. destruct o1 as [pl| |], o2 as [[r p2]| |]; try done.
  destruct Hcomp as [-> Hcomp].
  destruct (poll_back (H := wire_env) p2 pl e2) as [[[[]| |] t3] e3] eqn:Hrun3; try done.
  assert (Hwr : @wire_run wire_world wire_env 5 0x10000 4 0x500 _ _ 0 (net_priv, wire_idle)
      [Accept (skb_data (small_skb 60))] (p2, e3)).
  { apply (wr_step _ _ (net_priv, e1) _ [] [Accept (skb_data (small_skb 60))]); [exact (ws_look (dev := 5) 0 _ _ _ _ _ Hrun1)|].
    apply (wr_step _ _ (p2, e2) _ (xmit_events (small_skb 60) NETDEV_TX_OK) []).
    { eapply (ws_xmit (dev := 5) 0); [|exact Hrun2]. apply (bool_decide_unpack _). vm_compute. exact I. }
    apply (wr_step _ _ (p2, e3) _ [] []); [exact (ws_back (dev := 5) 0 _ _ _ _ _ Hrun3) | constructor]. }
  clear Hrun1 Hrun2 Hrun3.
  assert (Hcap : Z.of_nat 4 <= FIFO_LENGTH) by (vm_compute; discriminate).
  assert (Hreg : 0x500 <> 0) by discriminate. assert (Hpos : (2 <= 4)%nat) by lia.
  assert (Hfit : lengths_fit [Accept (skb_data (small_skb 60))]) by (apply (bool_decide_unpack _); vm_compute; exact I).
  pose proof (ccat_eth_tx_channel (H := wire_env) (dev := 5) (base := 0x10000) (n := 4) (reg := 0x500)
    Hcap Hreg Hpos 0 net_priv wire_idle [] [Accept (skb_data (small_skb 60))] p2 e3 Hs Hwr Hfit) as Hch.
  destruct Hch as (fl & _ & _ & Hfifo).
  exists p2, e3, fl. split; [exact Hwr|].
  assert (Hall : v_wire (ww_view e3) ++ fl = [skb_data (small_skb 60)]).
  { apply Hfifo. intros Hin. apply list_elem_of_singleton in Hin. discriminate. }
  split; [exact Hall|]. rewrite Hcomp in Hall. injection Hall. auto.
Defined.
