(* ===== verification/NetRxWire.v ===== *)
(** * Reception: what the FPGA receives is what the stack gets

    Against the engine of RxEngine.v this file shows that FPGA and driver together are a FIFO
    channel in the other direction as well: the frames [poll_rx] hands to the network stack are
    those the FPGA received, byte for byte and in order; only [ccat_eth_link_up], which resets the
    FIFO, and a kernel without a buffer for the frame lose any, and both are counted. *)

From S2P Require Import Prelude IO Info NetFifo Netdev NetTx NetProbe NetRx TxEngine RxEngine.

(** How often a run reported that the link came up. *)
Definition ups (t : list event) : nat :=
  length (omap (fun ev => match ev_call ev with Kernel (NetifCarrierOn _) => Some tt | _ => None end) t).

Lemma ups_app t t' : ups (t ++ t') = (ups t + ups t')%nat.
Proof. unfold ups. by rewrite omap_app, length_app. Qed.

(** How often the kernel had no buffer for a run. *)
Definition starved (t : list event) : nat :=
  length (omap (fun ev => match ev_call ev with
                          | Kernel (DevAllocSkb _) => if r_val (ev_resp ev) =? 0 then Some tt else None
                          | _ => None end) t).

Lemma starved_app t t' : starved (t ++ t') = (starved t + starved t')%nat.
Proof. unfold starved. by rewrite omap_app, length_app. Qed.

(** How often a channel was emptied. *)
Definition flushes (evs : list chan_ev) : nat :=
  length (omap (fun ev => match ev with Flush => Some tt | Accept _ => None end) evs).

Lemma flushes_app evs evs' : flushes (evs ++ evs') = (flushes evs + flushes evs')%nat.
Proof. unfold flushes. by rewrite omap_app, length_app. Qed.

Lemma flushes_accepts a : flushes (Accept <$> a) = 0%nat.
Proof. by induction a. Qed.

Lemma no_flush evs : flushes evs = 0%nat -> Flush ∉ evs.
Proof.
  unfold flushes. induction evs as [|[p|] evs IH]; simpl; intros Hn; [by intros ?%not_elem_of_nil | | done].
  intros [?|Hin]%elem_of_cons; [done | by apply IH].
Qed.

Section Wire.
Context {E : Type} `{Env E} {base : Z} {n : nat} {reg : Z}.
Context `{!RxFpga E base n reg} (Hcap : Z.of_nat n <= FIFO_LENGTH).
Local Abbreviation rvw := (rview base n reg).
Local Abbreviation rx_holds := (rx_holds (base := base) (n := n)).
Local Abbreviation arrives := (arrives (base := base) (n := n)).
Local Abbreviation rx_at := (NetRx.rx_at (base := base) (n := n)).
Local Abbreviation in_frame := (in_frame (base := base)).

Definition arrived (e : E) : list (list Z) := rv_in (rvw e).

Lemma fpga_arrives_at v e : rtc (rx_step base n) v (rvw e) -> arrives v (rvw e).
Proof. by apply fpga_arrives. Qed.

(** ** Runs that leave the ring to the FPGA *)

Definition mum (t : list event) : Prop := handed t = [] /\ ups t = 0%nat /\ starved t = 0%nat.

Lemma mum_app t t' : mum t -> mum t' -> mum (t ++ t').
Proof.
  intros (H1 & H2 & H3) (H4 & H5 & H6).
  split_and!; [by rewrite handed_app, H1, H4 | rewrite ups_app; lia | rewrite starved_app; lia].
Qed.

Definition passes (e : E) (t : list event) (e' : E) : Prop := arrives (rvw e) (rvw e') /\ mum t.

Lemma passes_refl e : passes e [] e.
Proof. by split. Qed.

Lemma passes_trans e1 t e2 t' e3 : passes e1 t e2 -> passes e2 t' e3 -> passes e1 (t ++ t') e3.
Proof. intros [H12 Ht] [H23 Ht']. split; [by etrans | by apply mum_app]. Qed.

Definition rx_ring_end : Z := base + sizeof_frame * Z.of_nat n.

(** No store into the ring, no access to the registers of its FIFO, nothing of interest to the
    stack. *)
Definition far (c : call) : Prop :=
  match c with
  | MemWrite w a _ => a + Z.of_nat (wbytes w) <= base \/ rx_ring_end <= a
  | IoWrite W32 a _ => a <> reg /\ a <> reg + 0x8
  | Kernel (NetifRx _ _) | Kernel (NetifCarrierOn _) | Kernel (DevAllocSkb _) => False
  | _ => True
  end.

Lemma far_arrives c e : far c -> arrives (rvw e) (rvw (ext c e).2).
Proof.
  intros Hc. etrans; [|by apply fpga_arrives_at, rf_ext].
  destruct c as [|w a x| |w a x| |]; simpl in *; try done.
  - destruct w; try done. destruct (Z.eqb_spec a reg), (Z.eqb_spec a (reg + 8)); done || lia.
  - destruct (rvw e) as [m q inn]. apply other_arrives. intros b Hb. apply fwrite_out.
    rewrite zlen_le_bytes. unfold rx_ring_end in Hc. lia.
Qed.

Lemma far_passes c e r : far c -> passes e [Ev c r] (ext c e).2.
Proof. intros Hc. split; [by apply far_arrives|]. by destruct c as [| | | | |[]]. Qed.

Lemma kernel_arrives k e : arrives (rvw e) (rvw (ext (Kernel k) e).2).
Proof. etrans; [|apply fpga_arrives_at, (rf_ext e (Kernel k))]. done. Qed.

(** A buffer that was granted. *)
Lemma granted_passes k e r :
  r_val r <> 0 -> passes e [Ev (Kernel (DevAllocSkb k)) r] (ext (Kernel (DevAllocSkb k)) e).2.
Proof. intros Hr. split; [apply kernel_arrives|]. split_and!; [done | done |]. unfold starved. simpl. by zknown. Qed.

Definition passing {A} (m : M E A) : Prop := forall e, passes e (trace_of m e) (env_of m e).

Lemma passing_ret {A} (a : A) : passing (mret a).
Proof. intros e. apply passes_refl. Qed.
Lemma passing_oops {A} : passing (oops : M E A).
Proof. intros e. apply passes_refl. Qed.
Lemma passing_hang {A} : passing (hang : M E A).
Proof. intros e. apply passes_refl. Qed.
Lemma passing_call c : far c -> passing (do_call c).
Proof.
  intros Hc e. pose proof (far_passes c e (ext c e).1 Hc) as Hp. unfold trace_of, env_of, do_call.
  by destruct (ext c e).
Qed.
Lemma passing_bind {A B} (m : M E A) (f : A -> M E B) :
  passing m -> (forall a, passing (f a)) -> passing (m ≫= f).
Proof.
  intros Hm Hf e. specialize (Hm e). unfold trace_of, env_of, mbind, M_bind in *.
  destruct (m e) as [[[a| |] t] e']; try done. simpl in Hm. specialize (Hf a e'). unfold trace_of, env_of in Hf.
  destruct (f a e') as [[o t'] e'']. simpl in *. by eapply passes_trans.
Qed.

Lemma wp_passing {A} F (m : M E A) (e : E) (Q : A -> list event -> E -> Prop) :
  passing m -> wpx F m e Q -> wpx F m e (fun a t e' => Q a t e' /\ passes e t e').
Proof.
  intros Hp. specialize (Hp e). unfold wpx, trace_of, env_of in *. by destruct (m e) as [[[a| |] t] e'].
Qed.

Lemma run_passes {A} (m : M E A) e o t e' : passing m -> m e = (o, t, e') -> passes e t e'.
Proof. intros Hp Hrun. specialize (Hp e). unfold trace_of, env_of in Hp. by rewrite Hrun in Hp. Qed.

Ltac pa_step :=
  match goal with
  | |- passing (mbind _ _) => apply passing_bind; [|intros ?]
  | |- passing (mret _) => apply passing_ret
  | |- passing oops => apply passing_oops
  | |- passing hang => apply passing_hang
  | |- passing (do_call _) => apply passing_call
  | |- passing (do_val _) => unfold do_val
  | |- passing (do_unit _) => unfold do_unit
  | |- passing (kern _) => unfold kern
  | |- passing (kern_ _) => unfold kern_
  | |- passing (ioread _ _) => unfold ioread
  | |- passing (iowrite _ _ _) => unfold iowrite
  | |- passing (memread _ _) => unfold memread
  | |- passing (memwrite _ _ _) => unfold memwrite
  | |- passing wmb => unfold wmb
  | |- passing (match ?x with _ => _ end) => destruct x eqn:?
  end.
Ltac pa_run := repeat (pa_step; cbv beta); try exact I.

(** ** The TX side *)

(** The TX ring is apart from the RX ring, and so are the registers of its FIFO. *)
Record tx_far (f : ccat_eth_fifo) : Prop := {
  tf_ops : ops f = dma_tx_fifo_ops;
  tf_ring : ring f;
  tf_reg : f_reg f + 0x10 = reg;
  tf_apart : rx_end f <= base \/ rx_ring_end <= start f;
}.

Lemma tx_far_is_tx f : tx_far f -> is_tx f.
Proof. intros [Ho _ _ _]. by left. Qed.

Lemma tx_far_inc f : tx_far f -> tx_far (ccat_eth_fifo_inc f).
Proof.
  intros [Ho [i Hi] Hr Ha]. pose proof (inc_slot f i Hi) as Hi'. rewrite (inc_eq f i Hi) in *.
  by split; [| eexists | |].
Qed.

Lemma tx_far_start f : tx_far f -> tx_far (set_next (start f) f).
Proof. intros [Ho _ Hr Ha]. split; try done. exists 0%nat. apply at_slot_0. Qed.

(** A store into the frame at [next]. *)
Lemma tx_store_far f w a x :
  tx_far f -> next f <= a -> a + Z.of_nat (wbytes w) <= next f + sizeof_frame -> far (MemWrite w a x).
Proof.
  intros [_ (i & Hi & Hx) _ Ha] Hlo Hhi. destruct (slot_inside f i Hi). rewrite Hx in *. simpl. lia.
Qed.

Lemma memwrite_passing f a l :
  tx_far f -> next f <= a -> a + zlen l <= next f + sizeof_frame -> passing (memwrite_bytes a l).
Proof.
  unfold zlen. intros Hf. revert a. induction l as [|b l IH]; intros a Ha Hl; simpl in *; pa_run.
  - apply (tx_store_far f); [done | done | simpl; lia].
  - apply IH; lia.
Qed.

Lemma ready_passing mac f : passing (ops_ready mac f).
Proof.
  unfold ops_ready, fifo_dma_rx_ready, fifo_dma_tx_ready, fifo_eim_rx_ready, fifo_eim_tx_ready. pa_run.
Qed.

Lemma queue_passing f skb : tx_far f -> skb_len skb <= MAX_PAYLOAD_SIZE -> passing (ops_skb f skb).
Proof.
  intros Hf Hl. unfold ops_skb. rewrite (tf_ops _ Hf). unfold fifo_dma_queue_skb. unfold skb_len in Hl.
  assert (sizeof_frame = 2048 /\ MAX_PAYLOAD_SIZE = 2024 /\ dma_tx_flags = 12 /\ dma_length = 8 /\ sizeof_dma_hdr = 24)
    as (H1 & H2 & H3 & H4 & H5) by done. pose proof (zlen_nonneg (skb_data skb)).
  pa_run.
  - apply (tx_store_far f); [done | lia | simpl; lia].
  - apply (tx_store_far f); [done | lia | simpl; lia].
  - apply (memwrite_passing f); [done | lia | lia].
  - simpl. pose proof (tf_reg _ Hf). lia.
Qed.

Lemma xmit_passing skb priv : tx_far (tx_fifo priv) -> passing (ccat_eth_start_xmit skb priv).
Proof.
  intros Hf. unfold ccat_eth_start_xmit, xmit_drop. pa_run; try apply ready_passing.
  apply queue_passing; [done|]. match goal with Hb : (_ <? _) = false |- _ => apply Z.ltb_ge in Hb; exact Hb end.
Qed.

(** Only the TX FIFO of a device changed. *)
Definition tx_only (priv priv' : ccat_eth_priv) : Prop :=
  exists f, tx_far f /\ priv' = set_tx_fifo f priv.

Lemma xmit_far skb priv (e : E) :
  tx_far (tx_fifo priv) ->
  wp (ccat_eth_start_xmit skb priv) e (fun '(_, priv') t e' => tx_only priv priv' /\ passes e t e').
Proof.
  intros Hf. eapply wp_conseq; [apply (wp_passing _ _ _ (fun '(_, p) _ _ => tx_only priv p)); [by apply xmit_passing|]|].
  2: { by intros [r p] t e' Hx. }
  assert (Hsame : tx_only priv priv) by (exists (tx_fifo priv); by destruct priv).
  assert (Hdrop : wp (xmit_drop skb priv) e (fun '(_, priv') _ _ => tx_only priv priv')).
  { unfold xmit_drop. wp_run. eexists. split; [|done]. by destruct Hf. }
  unfold ccat_eth_start_xmit. destruct (skb_nonlinear skb); [done|]. destruct (_ <? _); [done|].
  apply wp_bind. eapply wp_conseq; [by apply tx_ready_spec, tx_far_is_tx|]. intros r t1 e1 _.
  destruct (istrue r); cbn [negb]; wp_run; [|done].
  eapply wp_conseq; [by apply tx_queue_spec, tx_far_is_tx|]. intros ? t2 e2 _. wp_run. set (f1 := set_bytes _ _).
  assert (Hf1 : tx_far (ccat_eth_fifo_inc f1)) by (apply tx_far_inc; by destruct Hf).
  eapply wp_conseq; [by apply tx_ready_spec, tx_far_is_tx|]. intros r' t3 e3 _.
  destruct (istrue r'); cbn [negb]; wp_run; by eexists.
Qed.

Lemma tx_reset_loop_passing fuel f : tx_far f -> passing (reset_loop fuel f).
Proof.
  revert f. induction fuel as [|fuel IH]; intros f Hf; cbn [reset_loop]; pa_run.
  - unfold ops_add. rewrite (tf_ops _ Hf). unfold ccat_eth_tx_fifo_dma_add_free. pa_run.
    apply (tx_store_far f); [done | unfold dma_tx_flags; lia |].
    unfold dma_tx_flags. assert (sizeof_frame = 2048) by done. simpl. lia.
  - by apply IH, tx_far_inc.
Qed.

Lemma tx_reset_far f (e : E) :
  tx_far (set_next (start f) f) -> wp (ccat_eth_fifo_reset f) e (fun f' t e' => tx_far f' /\ passes e t e').
Proof.
  intros Hf. pose proof (tf_ops _ Hf) as Ho. pose proof (tf_reg _ Hf) as Hr. simpl in Ho, Hr. apply wp_passing.
  - unfold ccat_eth_fifo_reset, ccat_eth_fifo_hw_reset. rewrite Ho. pa_run; [simpl; lia|].
    by apply tx_reset_loop_passing.
  - eapply wp_conseq; [apply reset_spec; by rewrite Ho|]. by intros f' t e' [-> _].
Qed.

(** ** The ring *)

(** [fl] is received and not handed over yet, from frame [i] on; the FPGA has the other frames. *)
Definition armed (i : nat) (fl : list (list Z)) (e : E) : Prop :=
  exists s k, (s mod n)%nat = i /\ (length fl + k)%nat = n /\ rx_holds s fl k (rvw e).

(** From [fl] in the ring in [e] the channel comes to [fl'] in [e'], with the trace [t]; it was
    emptied [d] times more than the trace reports.  It delivered [out], of which the stack got all
    but as many frames as there was no buffer for. *)
Definition moves (d : nat) (fl : list (list Z)) (e : E) (t : list event) (fl' : list (list Z)) (e' : E) : Prop :=
  exists evs out, chan_run n evs (Chan fl []) (Chan fl' out) /\
    handed t `sublist_of` out /\ length out = (length (handed t) + starved t)%nat /\
    arrived e' = arrived e ++ accepted evs /\ flushes evs = (d + ups t)%nat.

Lemma moves_nil fl e : moves 0 fl e [] fl e.
Proof. exists [], []. split_and!; [constructor | done | done | by rewrite app_nil_r | done]. Qed.

Lemma moves_trans d d' fl e t fl1 e1 t' fl2 e2 :
  moves d fl e t fl1 e1 -> moves d' fl1 e1 t' fl2 e2 -> moves (d + d') fl e (t ++ t') fl2 e2.
Proof.
  intros (evs & out & Hc1 & Hs1 & Hl1 & Hi1 & Hf1) (evs' & out' & Hc2 & Hs2 & Hl2 & Hi2 & Hf2).
  exists (evs ++ evs'), (out ++ out'). split_and!.
  - eapply chan_run_app; [exact Hc1|].
    apply (chan_run_out _ _ _ _ _ _ out) in Hc2. by rewrite app_nil_r in Hc2.
  - rewrite handed_app. by apply sublist_app.
  - rewrite handed_app, starved_app, !length_app. lia.
  - by rewrite Hi2, Hi1, accepted_app, app_assoc.
  - rewrite flushes_app, ups_app. lia.
Qed.

(** Arrivals, without anything handed over. *)
Lemma armed_arrives i fl e e' :
  armed i fl e -> arrives (rvw e) (rvw e') -> exists a, armed i (fl ++ a) e' /\ arrived e' = arrived e ++ a.
Proof.
  intros (s & k & <- & Hk & Hs) Ha. destruct (Ha s fl k Hs) as (a & k' & -> & Hs' & Hin & _).
  exists a. split; [|done]. exists s, k'. split_and!; [done | rewrite length_app; lia | done].
Qed.

Lemma arrivals_move fl a t e e' :
  (length (fl ++ a) <= n)%nat -> arrived e' = arrived e ++ a -> mum t -> moves 0 fl e t (fl ++ a) e'.
Proof.
  rewrite length_app. intros Hl Hin (Hh & Hu & Hst). exists (Accept <$> a), [].
  rewrite Hh, Hu, Hst, accepted_accepts, flushes_accepts.
  split_and!; [by apply chan_run_accepts | done | done | done | done].
Qed.

Lemma armed_size i fl e : armed i fl e -> (length fl <= n)%nat.
Proof. intros (s & k & _ & Hk & _). lia. Qed.

Lemma passes_moves i fl e t e' :
  armed i fl e -> passes e t e' -> exists a, armed i (fl ++ a) e' /\ moves 0 fl e t (fl ++ a) e'.
Proof.
  intros Ha [Harr Hm]. destruct (armed_arrives _ _ _ _ Ha Harr) as (a & Ha' & Hin). exists a. split; [done|].
  apply arrivals_move; [by eapply armed_size | done | done].
Qed.

(** Somewhere in the ring. *)
Definition comes (d : nat) (fl : list (list Z)) (e : E) (t : list event) (i : nat) (e' : E) : Prop :=
  exists fl', armed i fl' e' /\ moves d fl e t fl' e'.

Lemma comes_after d d' fl e t fl1 e1 t' i e2 :
  moves d fl e t fl1 e1 -> comes d' fl1 e1 t' i e2 -> comes (d + d') fl e (t ++ t') i e2.
Proof. intros H1 (fl2 & Ha & H2). exists fl2. split; [done | by eapply moves_trans]. Qed.

Lemma comes_passes d fl e t i e1 t' e2 :
  comes d fl e t i e1 -> passes e1 t' e2 -> comes d fl e (t ++ t') i e2.
Proof.
  intros (fl1 & Ha1 & H1) Hp. destruct (passes_moves _ _ _ _ _ Ha1 Hp) as (a & Ha2 & H2).
  exists (fl1 ++ a). split; [done|]. rewrite <- (Nat.add_0_r d). by eapply moves_trans.
Qed.

Lemma comes_nil i fl e : armed i fl e -> comes 0 fl e [] i e.
Proof. intros Ha. exists fl. split; [done | apply moves_nil]. Qed.

Lemma passes_comes i fl e t e' : armed i fl e -> passes e t e' -> comes 0 fl e t i e'.
Proof. intros Ha. apply (comes_passes _ _ _ []). by apply comes_nil. Qed.

(** ** Looking at a frame *)

Lemma armed_lt i fl e : (0 < n)%nat -> armed i fl e -> (i < n)%nat.
Proof. intros Hn (s & k & <- & _). apply Nat.mod_upper_bound. lia. Qed.

Lemma frame_inside i : (i < n)%nat -> base <= frame_at base i /\ frame_at base i + sizeof_frame <= rx_ring_end.
Proof. intros Hi. unfold frame_at, rx_ring_end. assert (sizeof_frame = 2048) by done. lia. Qed.

Lemma frame_read i w o e :
  (i < n)%nat -> 0 <= o -> o + Z.of_nat (wbytes w) <= sizeof_frame ->
  r_val (ext (MemRead w (frame_at base i + o)) e).1
    = le_val (fslice (rv_mem (rvw e)) (frame_at base i + o) (wbytes w)).
Proof. intros Hi Ho Hw. destruct (frame_inside i Hi). apply rf_read; unfold rx_ring_end in *; lia. Qed.

Lemma armed_empty i e : (0 < n)%nat -> armed i [] e -> rx_flag_set (base := base) (rv_mem (rvw e)) i = false.
Proof.
  intros Hn (s & k & <- & Hk & [_ _ _ He]). simpl in *. specialize (He 0%nat ltac:(lia)).
  by rewrite !Nat.add_0_r in He.
Qed.

Lemma armed_head i p fl e : armed i (p :: fl) e ->
  received_at (rv_mem (rvw e)) (frame_at base i) p /\ rx_flag_set (base := base) (rv_mem (rvw e)) i = true.
Proof. intros (s & k & <- & Hk & [_ _ Hf _]). specialize (Hf 0%nat p eq_refl). by rewrite Nat.add_0_r in Hf. Qed.

(** The length of the payload of the first received frame, or 0. *)
Definition ready_len (fl : list (list Z)) (len : Z) : Prop :=
  len = 0 \/ exists p fl', fl = p :: fl' /\ len = zlen p.

Lemma ready_len_app fl a len : ready_len fl len -> ready_len (fl ++ a) len.
Proof. intros [->|(p & l & -> & ->)]; [by left|]. right. by eexists p, _. Qed.

Lemma rx_ready_wire mac f i fl (e : E) :
  rx_at f i -> armed i fl e ->
  wp (ops_ready mac f) e (fun len t e' => passes e t e' /\ ready_len fl len).
Proof.
  intros Hf Ha. eapply wp_conseq; [apply (wp_passing _ _ _ (fun len _ _ => ready_len fl len)); [apply ready_passing|]|
    by intros len t e' [Hl Hp]].
  destruct (rx_at_frame f i Hf) as [Hi Hx]. unfold ops_ready. rewrite (proj1 Hf).
  assert (sizeof_frame = 2048 /\ dma_rx_flags = 4 /\ dma_length = 8) as (H1 & H2 & H3) by done.
  unfold fifo_dma_rx_ready. rewrite Hx. wp_run. untrunc. rewrite frame_read by (simpl; lia). cbn [wbytes].
  change CCAT_FRAME_RECEIVED with 1. rewrite flag_word.
  change (Z.odd _) with (rx_flag_set (base := base) (rv_mem (rvw e)) i).
  destruct fl as [|p fl]; [rewrite (armed_empty i e) by (done || lia); wp_run; by left|].
  destruct (armed_head _ _ _ _ Ha) as [_ ->]. change (istrue (b2z true)) with true. cbv iota. wp_run. untrunc.
  set (c := MemRead W32 _). destruct (armed_arrives _ _ _ _ Ha (far_arrives c e I)) as (a & Ha' & _).
  rewrite frame_read by (simpl; lia). destruct (armed_head _ _ _ _ Ha') as [[Hfit _ Hlen _] _]. cbn [wbytes].
  assert (MAX_PAYLOAD_SIZE = 2024) by done.
  rewrite Hlen, u16_small by lia. destruct (Z.ltb_spec (zlen p + 4) dma_rx_flags); [lia|].
  right. exists p, fl. split; [done | lia].
Qed.

(** Copying out of the first received frame. *)
Lemma memread_wire i p fl k o (e : E) :
  (0 < n)%nat -> armed i (p :: fl) e -> (o + k <= length p)%nat ->
  wp (memread_bytes (frame_at base i + sizeof_dma_hdr + Z.of_nat o) k) e (fun l t e' =>
    l = take k (drop o p) /\ passes e t e').
Proof.
  intros Hn Ha Ho. pose proof (armed_lt _ _ _ Hn Ha) as Hi.
  revert fl o e Ha Ho. induction k as [|k IH]; intros fl o e Ha Ho; simpl; wp_run; [done|].
  destruct (armed_head _ _ _ _ Ha) as [[Hfit Hb _ Hd] _].
  assert (sizeof_frame = 2048 /\ MAX_PAYLOAD_SIZE = 2024 /\ sizeof_dma_hdr = 24) as (H1 & H2 & H3) by done.
  destruct (lookup_lt_is_Some_2 p o) as [b Hpo]; [lia|]. rewrite trunc8.
  replace (frame_at base i + sizeof_dma_hdr + Z.of_nat o) with (frame_at base i + (sizeof_dma_hdr + Z.of_nat o)) by lia.
  rewrite frame_read by (unfold zlen in Hfit; simpl; lia). cbn [wbytes fslice le_val].
  assert (Hval : rv_mem (rvw e) (frame_at base i + (sizeof_dma_hdr + Z.of_nat o)) = b).
  { rewrite <- Hd in Hpo. rewrite Z.add_assoc. rewrite lookup_fslice in Hpo by (unfold zlen in *; lia). congruence. }
  rewrite Hval. replace (u8 (b + 256 * 0)) with b
    by (rewrite Z.mul_0_r, Z.add_0_r; symmetry; apply u8_small; exact (Forall_lookup_1 _ _ _ _ Hb Hpo)).
  set (c := MemRead W8 _). destruct (armed_arrives _ _ _ _ Ha (far_arrives c e I)) as (a & Ha' & _).
  replace (frame_at base i + (sizeof_dma_hdr + Z.of_nat o) + 1)
    with (frame_at base i + sizeof_dma_hdr + Z.of_nat (S o)) by lia.
  eapply wp_conseq; [apply (IH (fl ++ a)); [exact Ha' | lia]|]. intros l t e' [-> Hp]. wp_run.
  split; [by rewrite (drop_S p b o Hpo)|]. rewrite app_nil_r.
  apply (passes_trans _ [_] _ _ _ (far_passes c e _ I) Hp).
Qed.

(** ** Handing a frame over and giving it back *)

Context (Hpos : (0 < n)%nat).

Lemma receive_wire ip priv i p fl (e : E) :
  rx_at (rx_fifo priv) i -> armed i (p :: fl) e ->
  wp (ccat_eth_receive ip priv (zlen p)) e (fun priv' t e' => exists b : bool,
    priv' = set_rx_fifo (counted b p (rx_fifo priv)) priv /\
    arrives (rvw e) (rvw e') /\ handed t = kept [b] [p] /\ starved t = (if b then 0 else 1)%nat /\ ups t = 0%nat).
Proof.
  intros Hf Ha. destruct (rx_at_frame _ i Hf) as [Hi Hx]. unfold ccat_eth_receive. wp_run.
  set (c1 := Kernel (DevAllocSkb _)). pose proof (kernel_arrives _ e : arrives _ (rvw (ext c1 e).2)) as Har1.
  apply wp_null; intros Hz.
  { wp_run. exists false. split_and!; try done. unfold starved. simpl. by rewrite Hz. }
  apply wp_bind. destruct (armed_arrives _ _ _ _ Ha Har1) as (a & Ha1 & _).
  unfold ops_copy_to_skb. rewrite (proj1 Hf). unfold fifo_dma_copy_to_linear_skb. rewrite Hx.
  rewrite <- (Z.add_0_r (frame_at base i + sizeof_dma_hdr)). unfold zlen at 1. rewrite Nat2Z.id.
  eapply wp_conseq; [apply (memread_wire i p (fl ++ a) (length p) 0); [done | exact Ha1 | done]|].
  intros l t e2 (-> & Har2 & (Hh & Hu & Hst)). wp_run. rewrite drop_0, take_ge by done. exists true.
  split_and!; [done | | | |].
  - etrans; [exact Har1|]. etrans; [exact Har2 | apply kernel_arrives].
  - rewrite !handed_app, Hh. done.
  - rewrite !starved_app, Hst. unfold starved. simpl. by zknown.
  - rewrite !ups_app, Hu. done.
Qed.

(** A frame the FPGA does not have, and that holds nothing received, is given to it. *)
Lemma add_wire f s fl k (e : E) :
  rx_at f ((s + length fl + k) mod n) -> f_reg f = reg -> (length fl + k < n)%nat -> rx_holds s fl k (rvw e) ->
  wp (ops_add f) e (fun _ t e' => mum t /\ exists a k',
    (length (fl ++ a) + k' = S (length fl + k))%nat /\ rx_holds s (fl ++ a) k' (rvw e') /\
    arrived e' = arrived e ++ a).
Proof.
  set (j := ((s + length fl + k) mod n)%nat). intros Hf Hr Hlt Hv. destruct (rx_at_frame f j Hf) as [Hj Hx].
  assert (Hidle : rx_idle (n := n) s (length fl + k) j).
  { unfold j. rewrite <- Nat.add_assoc. by apply rx_idle_next. }
  unfold ops_add. rewrite (proj1 Hf). unfold ccat_eth_rx_fifo_dma_add. rewrite Hx, (proj1 (proj2 Hf)), Hr.
  replace (frame_at base j - base) with (sizeof_frame * Z.of_nat j) by (unfold frame_at; lia).
  rewrite rx_word_eq by lia. wp_run. untrunc. change (u32 0) with 0.
  replace (u32 (rx_word j)) with (rx_word j)
    by (unfold rx_word; assert (sizeof_frame = 2048 /\ FIFO_LENGTH = 64) as [H1 H2] by done; by rewrite u32_small by lia).
  set (c1 := MemWrite W32 _ 0). set (e1 := (ext c1 e).2). set (c2 := IoWrite W32 reg _). set (e2 := (ext c2 e1).2).
  split; [done|]. assert (sizeof_frame = 2048 /\ dma_rx_flags = 4) as [H1 H2] by done.
  assert (Hv1 : rx_holds s fl k (rcpu reg c1 (rvw e))).
  { apply (rx_holds_mem _ _ _ _ _ _ Hv). intros i a Hi Hin. apply fwrite_out. rewrite zlen_le_bytes.
    assert (Hout : ~ in_frame j a) by (intros Hja; exact (Hidle i Hi (in_frame_inj _ _ _ Hin Hja))).
    unfold TxEngine.in_frame in Hout. simpl. lia. }
  destruct (fpga_arrives_at _ _ (rf_ext e c1) s fl k Hv1) as (a1 & k1 & -> & Hv1' & Hin1 & Hkeep).
  assert (Hflag : rx_flag_set (base := base) (rv_mem (rvw e1)) j = false).
  { unfold rx_flag_set. unfold e1. rewrite (Hkeep j); [|done | done | unfold TxEngine.in_frame; lia].
    simpl. rewrite fwrite_cons, fwrite_out by lia. unfold upd. by rewrite Z.eqb_refl. }
  assert (Hlen : (s + length fl + (length a1 + k1) = s + length (fl ++ a1) + k1)%nat) by (rewrite length_app; lia).
  assert (Hv2 : rx_holds s (fl ++ a1) (S k1) (rcpu reg c2 (rvw e1))).
  { simpl. rewrite Z.eqb_refl. unfold j. rewrite Hlen.
    apply give_holds; [done | rewrite length_app; lia | by rewrite <- Hlen]. }
  destruct (fpga_arrives_at _ _ (rf_ext e1 c2) _ _ _ Hv2) as (a2 & k2 & Hk2 & Hv2' & Hin2 & _).
  exists (a1 ++ a2), k2. rewrite app_assoc. split_and!; [rewrite !length_app in *; lia | done |].
  unfold arrived. unfold e2. rewrite Hin2. simpl. rewrite Z.eqb_refl. simpl. unfold e1. by rewrite Hin1, app_assoc.
Qed.

(** After the first frame was handed over it goes back to the FPGA. *)
Lemma rearm_wire f i p fl (e : E) :
  rx_at f i -> f_reg f = reg -> armed i (p :: fl) e ->
  wp (ops_add f) e (fun _ t e' => mum t /\ exists a,
    armed ((i + 1) mod n) (fl ++ a) e' /\ arrived e' = arrived e ++ a).
Proof.
  intros Hf Hr (s & k & Hs & Hk & Hv). simpl in Hk.
  assert (Hv' : rx_holds (S s) fl k (rvw e)).
  { pose proof (take_holds s p fl k (rvw e) (rv_mem (rvw e)) Hv) as Ht. destruct (rvw e). by apply Ht. }
  assert (Hi : i = ((S s + length fl + k) mod n)%nat).
  { rewrite <- Hs. replace (S s + length fl + k)%nat with (s + 1 * n)%nat by lia. by rewrite Nat.Div0.mod_add. }
  rewrite Hi in Hf. eapply wp_conseq; [by apply (add_wire f (S s) fl k); [| | lia |]|].
  intros ? t e' [Hm (a & k' & Hk' & Hv2 & Hin)]. split; [done|]. exists a. split; [|done]. exists (S s), k'.
  split_and!; [| lia | done]. rewrite <- Hs, Nat.Div0.add_mod_idemp_l. f_equal. lia.
Qed.

(** Handing over the first frame, or dropping it, is what the channel sends. *)
Lemma handed_moves i (b : bool) p fl t e e' :
  armed i (p :: fl) e -> arrives (rvw e) (rvw e') ->
  handed t = kept [b] [p] -> starved t = (if b then 0 else 1)%nat -> ups t = 0%nat ->
  exists a, armed i (p :: fl ++ a) e' /\ moves 0 (p :: fl) e t (fl ++ a) e'.
Proof.
  intros Ha Har Hh Hst Hu. destruct (armed_arrives _ _ _ _ Ha Har) as (a & Ha' & Hin). exists a. split; [done|].
  exists (Accept <$> a), [p]. rewrite Hh, Hu, Hst, accepted_accepts, flushes_accepts.
  split_and!; [| destruct b; simpl; [done | apply sublist_nil_l] | by destruct b | done | done].
  apply armed_size in Ha'. rewrite length_app in Ha'. simpl in Ha'. rewrite <- (app_nil_r (Accept <$> a)).
  eapply chan_run_app; [apply chan_run_accepts; simpl; lia|]. apply (chan_run_sends n [p] (fl ++ a) []).
Qed.

(** ** The loop *)

(** Reception changes the RX FIFO, and of it only the position and the counters. *)
Record rx_moved (priv : ccat_eth_priv) (i : nat) (priv' : ccat_eth_priv) : Prop := {
  rm_at : rx_at (rx_fifo priv') i;
  rm_reg : f_reg (rx_fifo priv') = reg;
  rm_priv : priv' = set_rx_fifo (rx_fifo priv') priv;
}.

Lemma rx_moved_trans p1 i p2 j p3 : rx_moved p1 i p2 -> rx_moved p2 j p3 -> rx_moved p1 j p3.
Proof. intros [_ _ H12] [H3 Hr H23]. split; [done | done |]. by rewrite H23, H12. Qed.

Lemma poll_rx_loop_wire ip m priv i len fl (e : E) :
  rx_at (rx_fifo priv) i -> f_reg (rx_fifo priv) = reg -> armed i fl e -> ready_len fl len ->
  wp (poll_rx_loop ip m priv len) e (fun priv' t e' =>
    exists i', rx_moved priv i' priv' /\ comes 0 fl e t i' e').
Proof.
  revert priv i len fl e. induction m as [|m IH]; intros priv i len fl e Hf Hr Ha Hlen.
  { wp_run. exists i. split; [by destruct priv | by apply comes_nil]. }
  assert (Hstop : exists i', rx_moved priv i' priv /\ comes 0 fl e [] i' e)
    by (exists i; split; [by destruct priv | by apply comes_nil]).
  destruct m as [|m]; cbn [poll_rx_loop]; [by wp_run|].
  destruct Hlen as [->|(p & fl1 & -> & ->)]; [by wp_run|].
  destruct (armed_head _ _ _ _ Ha) as [[Hfit _ _ _] _]. rewrite istrue_nz by lia. apply wp_bind.
  eapply wp_conseq; [by apply (receive_wire _ _ i p fl1)|]. intros p1 t1 e1 (b & -> & Har1 & Hh1 & Hst1 & Hu1).
  apply wp_bind. set (f1 := counted b p (rx_fifo priv)). assert (Hf1 : rx_at f1 i) by (unfold f1; by destruct b).
  assert (Hr1 : f_reg f1 = reg) by (unfold f1; by destruct b).
  destruct (handed_moves _ _ _ _ _ _ _ Ha Har1 Hh1 Hst1 Hu1) as (a1 & Ha1 & Hm1).
  eapply wp_conseq; [by apply (rearm_wire f1 i p (fl1 ++ a1))|]. intros ? t2 e2 (Hmum2 & a2 & Ha2 & Hin2).
  apply wp_bind. pose proof (rx_at_inc f1 i Hf1) as Hf2.
  assert (Hr2 : f_reg (ccat_eth_fifo_inc f1) = reg) by (by rewrite (proj2 (inc_table f1))).
  assert (Hm2 : moves 0 (fl1 ++ a1) e1 t2 ((fl1 ++ a1) ++ a2) e2)
    by (apply arrivals_move; [by eapply armed_size | done | done]).
  eapply wp_conseq; [by apply (rx_ready_wire _ _ ((i + 1) mod n) ((fl1 ++ a1) ++ a2))|].
  intros len' t3 e3 [Hp3 Hlen3]. destruct (passes_moves _ _ _ _ _ Ha2 Hp3) as (a3 & Ha3 & Hm3).
  set (p2 := set_rx_fifo (ccat_eth_fifo_inc _) _).
  eapply wp_conseq; [apply (IH p2 ((i + 1) mod n)%nat len' _ e3 Hf2 Hr2 Ha3); by apply ready_len_app|].
  intros p4 t4 e4 (i4 & Hm4 & Hr4). exists i4. split; [by eapply (rx_moved_trans _ ((i + 1) mod n) p2)|].
  do 3 (eapply (comes_after 0 0); [eassumption|]). exact Hr4.
Qed.

Lemma poll_rx_wire ip priv i fl (e : E) :
  rx_at (rx_fifo priv) i -> f_reg (rx_fifo priv) = reg -> armed i fl e ->
  wp (poll_rx ip priv) e (fun priv' t e' => exists i', rx_moved priv i' priv' /\ comes 0 fl e t i' e').
Proof.
  intros Hf Hr Ha. unfold poll_rx. apply wp_bind. eapply wp_conseq; [by apply (rx_ready_wire _ _ i fl)|].
  intros len t e1 [Hp Hlen]. destruct (passes_moves _ _ _ _ _ Ha Hp) as (a & Ha1 & Hm1).
  eapply wp_conseq; [apply (poll_rx_loop_wire ip _ priv i len (fl ++ a)); [done | done | done | by apply ready_len_app]|].
  intros p t' e2 (i' & Hm & Hr2). exists i'. split; [done | exact (comes_after 0 0 _ _ _ _ _ _ _ _ Hm1 Hr2)].
Qed.

(** ** Resetting the FIFO *)

Lemma holds_none s v : rv_pend v = [] -> rx_holds s [] 0 v.
Proof. intros Hp. split; simpl; [lia | done | done | lia]. Qed.

Lemma none_arrives s v e :
  rx_holds s [] 0 v -> arrives v (rvw e) -> rx_holds s [] 0 (rvw e) /\ arrived e = rv_in v.
Proof.
  intros Hv Ha. destruct (Ha s [] 0%nat Hv) as (a & k & Hk & Hv' & Hin & _). destruct a; [|done].
  simpl in Hk. subst k. split; [done|]. unfold arrived. by rewrite Hin, app_nil_r.
Qed.

(** From frame [i] on the loop gives all frames to the FPGA. *)
Lemma reset_loop_wire fuel f i fl k (e : E) :
  rx_at f i -> f_reg f = reg -> (length fl + k)%nat = i -> rx_holds 0 fl k (rvw e) -> (n - i <= fuel)%nat ->
  wp (reset_loop fuel f) e (fun f' t e' => rx_at f' 0 /\ f_reg f' = reg /\ mum t /\
    exists a, armed 0 (fl ++ a) e' /\ arrived e' = arrived e ++ a).
Proof.
  revert f i fl k e. induction fuel as [|fuel IH]; intros f i fl k e Hf Hr Hk Hv Hfuel.
  { destruct (rx_at_frame f i Hf). lia. }
  destruct (rx_at_frame f i Hf) as [Hi _]. cbn [reset_loop]. apply wp_bind.
  eapply wp_conseq; [apply (add_wire f 0 fl k); [|done | lia | done]|].
  { rewrite Nat.add_0_l, Hk, Nat.mod_small by done. done. }
  intros ? t1 e1 [Hm1 (a & k1 & Hk1 & Hv1 & Hin1)].
  pose proof (rx_at_inc f i Hf) as Hf'. destruct (rx_at_frame _ _ Hf') as [Hi' Hx'].
  assert (Hr' : f_reg (ccat_eth_fifo_inc f) = reg) by (by rewrite (proj2 (inc_table f))).
  rewrite Hx', (proj1 (proj2 Hf')). assert (sizeof_frame = 2048) as Hsz by done.
  destruct (decide (S i = n)) as [Hn|Hn].
  - assert (((i + 1) mod n)%nat = 0%nat) as Hz by (rewrite Nat.add_1_r, Hn; apply Nat.Div0.mod_same).
    rewrite Hz in *. replace (frame_at base 0) with base by (unfold frame_at; lia). rewrite Z.eqb_refl. wp_run.
    rewrite app_nil_r. split_and!; [done | done | done |]. exists a. split; [|done].
    exists 0%nat, k1. split_and!; [apply Nat.Div0.mod_0_l | lia | done].
  - rewrite Nat.mod_small in * by lia. rewrite Nat.add_1_r in *.
    destruct (Z.eqb_spec (frame_at base (S i)) base) as [Heq|_]; [unfold frame_at in Heq; lia|].
    eapply wp_conseq; [apply (IH _ (S i) (fl ++ a) k1); [done | done | lia | done | lia]|].
    intros f' t2 e2 (Hf2 & Hr2 & Hm2 & a2 & Ha2 & Hin2). split_and!; [done | done | by apply mum_app |].
    exists (a ++ a2). by rewrite !app_assoc, <- Hin1.
Qed.

Context (Hreg : reg <> 0).

Lemma rx_at_start f i : rx_at f i -> rx_at (set_next (start f) f) 0.
Proof. intros (Ho & Hs & Hn & _). split_and!; [done | done | done | apply at_slot_0]. Qed.

Lemma rx_reset_wire f fl (e : E) :
  rx_at (set_next (start f) f) 0 -> f_reg f = reg ->
  wp (ccat_eth_fifo_reset f) e (fun f' t e' => rx_at f' 0 /\ f_reg f' = reg /\ comes 1 fl e t 0 e').
Proof.
  intros Hf Hr. pose proof Hf as (Ho & Hs & Hns & _). simpl in Ho, Hs. unfold ccat_eth_fifo_reset, ccat_eth_fifo_hw_reset.
  rewrite Ho, Hr, istrue_nz by done. wp_run. untrunc. change (u32 0) with 0.
  set (c1 := IoWrite W32 (reg + 8) 0). set (e1 := (ext c1 e).2).
  assert (H1 : rx_holds 0 [] 0 (rvw e1) /\ arrived e1 = arrived e).
  { pose proof (fpga_arrives_at _ _ (rf_ext e c1)) as Har. simpl in Har.
    rewrite (proj2 (Z.eqb_neq (reg + 8) reg)), Z.eqb_refl in Har by lia.
    by apply (none_arrives 0 (RView (rv_mem (rvw e)) [] (rv_in (rvw e)))); [apply holds_none|]. }
  destruct H1 as [Hv1 Hin1]. destruct (none_arrives 0 _ _ Hv1 (far_arrives Wmb e1 I)) as [Hv2 Hin2].
  eapply wp_conseq; [apply (reset_loop_wire _ _ 0 [] 0); [done | done | done | exact Hv2 |]|].
  { change (nslots (set_next (start f) f)) with (nslots f) in Hns. lia. }
  intros f' t e' (Hf' & Hr' & (Hh & Hu & Hst) & a & Ha & Hin). split_and!; [done | done |]. exists a. split; [done|].
  exists (Flush :: (Accept <$> a)), []. rewrite !handed_app, !ups_app, !starved_app, Hh, Hu, Hst. split_and!.
  - constructor. apply (chan_run_accepts n a [] []). by apply armed_size in Ha.
  - done.
  - done.
  - cbn [accepted omap list_omap]. change (omap _ (Accept <$> a)) with (accepted (Accept <$> a)).
    rewrite accepted_accepts, Hin, Hin2. unfold arrived in *. by rewrite Hin1.
  - change (flushes (Flush :: (Accept <$> a))) with (S (flushes (Accept <$> a))). by rewrite flushes_accepts.
Qed.

(** ** The timer *)

Record rx_wire_ok (priv : ccat_eth_priv) (i : nat) : Prop := {
  rw_at : rx_at (rx_fifo priv) i;
  rw_reg : f_reg (rx_fifo priv) = reg;
  rw_tx : tx_far (tx_fifo priv);
}.

Lemma carrier_on_comes d fl e t i e1 r :
  comes 1 fl e t i e1 ->
  comes 0 fl e (t ++ [Ev (Kernel (NetifCarrierOn d)) r]) i (ext (Kernel (NetifCarrierOn d)) e1).2.
Proof.
  intros (fl1 & Ha1 & Hm1). set (c := Kernel (NetifCarrierOn d)).
  destruct (armed_arrives _ _ _ _ Ha1 (fpga_arrives_at _ _ (rf_ext e1 c))) as (a & Ha2 & Hin).
  exists (fl1 ++ a). split; [done|].
  pose proof (moves_trans _ _ _ _ _ _ _ [] _ _ Hm1
    (arrivals_move fl1 a [] _ _ (armed_size _ _ _ Ha2) Hin (conj eq_refl (conj eq_refl eq_refl))))
    as (evs & out & Hc & Hs & Hl & Hi & Hf).
  exists evs, out. rewrite app_nil_r in *. rewrite handed_app, starved_app, ups_app, app_nil_r, Nat.add_0_r.
  split_and!; [done | done | done | done |]. rewrite Hf. unfold ups at 3. simpl. lia.
Qed.

Lemma link_up_wire priv i fl (e : E) :
  rx_wire_ok priv i ->
  wpo no_buffer (ccat_eth_link_up priv) e (fun priv' t e' =>
    exists i', rx_wire_ok priv' i' /\ comes 0 fl e t i' e').
Proof.
  intros [Hf Hr Htx]. unfold ccat_eth_link_up. apply wpo_seq, wp_wpo; [auto with ccat|].
  eapply wp_conseq; [by apply (rx_reset_wire _ fl); [by apply (rx_at_start _ i) | done]|].
  intros rx t1 e1 (Hf1 & Hr1 & Hre1). apply wpo_seq, wp_wpo; [auto with ccat|].
  eapply wp_conseq; [by apply tx_reset_far, tx_far_start|]. intros tx t2 e2 [Htx2 Hp2].
  apply wpo_seq, xmit_raw_spec; [auto with ccat|]. set (c3 := Kernel (DevAllocSkb _)).
  set (x := r_val _). set (p2 := set_tx_fifo tx _). intros Hx.
  eapply wp_conseq; [apply (xmit_far (Skb x false frameForwardEthernetFrames) p2); exact Htx2|].
  intros [r p4] t4 e4 [(tx4 & Htx4 & ->) Hp4]. apply wp_wpo. wp_run. exists 0%nat. split; [by split|].
  set (c5 := Kernel (NetifCarrierOn _)). set (c6 := Kernel (NetifStartQueue _)).
  pose proof (comes_passes _ _ _ _ _ _ _ _ Hre1 Hp2) as Hre2.
  pose proof (comes_passes _ _ _ _ _ _ _ _ Hre2 (granted_passes 
    (zlen frameForwardEthernetFrames) e2 (ext c3 e2).1 Hx)) as Hre3.
  pose proof (comes_passes _ _ _ _ _ _ _ _ Hre3 Hp4) as Hre4.
  pose proof (carrier_on_comes (p_netdev (set_tx_fifo tx4 p2)) _ _ _ _ _ (ext c5 e4).1 Hre4) as Hre5.
  pose proof (comes_passes _ _ _ _ _ _ _ _ Hre5 (far_passes c6 (ext c5 e4).2 (ext c6 (ext c5 e4).2).1 I)) as Hre6.
  rewrite <- !app_assoc in Hre6. cbn [app] in *. exact Hre6.
Qed.

Lemma poll_link_wire priv i fl (e : E) :
  rx_wire_ok priv i -> armed i fl e ->
  wpo no_buffer (poll_link priv) e (fun priv' t e' => exists i', rx_wire_ok priv' i' /\ comes 0 fl e t i' e').
Proof.
  intros Hok Ha. unfold poll_link, ccat_eth_priv_read_link_state.
  apply wpo_seq, wp_wpo; [auto with ccat|]. wp_run. apply wpo_seq, wp_wpo; [auto with ccat|]. wp_run.
  set (c1 := IoRead W32 _). set (e1 := (ext c1 e).2). set (c2 := Kernel (NetifCarrierOk _)). set (e2 := (ext c2 e1).2).
  pose proof (passes_trans _ _ _ _ _ (far_passes c1 e (ext c1 e).1 I) (far_passes c2 e1 (ext c2 e1).1 I)) as Hp.
  fold e1 e2 in Hp. cbn [app] in *.
  destruct (negb _); [destruct (istrue (b2z _))|].
  - destruct (passes_moves _ _ _ _ _ Ha Hp) as (a & Ha2 & Hm2).
    eapply wpo_conseq; [by apply (link_up_wire _ i (fl ++ a))|]. intros p t e3 (i' & Hok' & Hr').
    exists i'. split; [done|]. exact (comes_after 0 0 _ _ _ _ _ _ _ _ Hm2 Hr').
  - apply wp_wpo. unfold ccat_eth_link_down. wp_run. exists i. split; [done|]. apply passes_comes; [done|].
    eapply (passes_trans _ [_; _]); [exact Hp|].
    eapply (passes_trans _ [_] _ [_]); by apply far_passes.
  - apply wp_wpo. wp_run. exists i. split; [done|]. by apply passes_comes.
Qed.

Lemma callback_wire ip priv i fl (e : E) :
  rx_wire_ok priv i -> armed i fl e ->
  wpo no_buffer (poll_timer_callback ip priv) e (fun priv' t e' =>
    exists i', rx_wire_ok priv' i' /\ comes 0 fl e t i' e').
Proof.
  intros Hok Ha. unfold poll_timer_callback. apply wpo_seq; [auto with ccat|].
  eapply wpo_conseq; [by apply (poll_link_wire _ i fl)|]. intros p1 t1 e1 (i1 & [Hf1 Hr1 Htx1] & fl1 & Ha1 & Hm1).
  apply wp_wpo, wp_bind. eapply wp_conseq; [by apply (poll_rx_wire _ _ i1 fl1)|].
  intros p2 t2 e2 (i2 & [Hf2 Hr2 Hp2] & Hre2). pose proof (comes_after 0 0 _ _ _ _ _ _ _ _ Hm1 Hre2) as Hre.
  assert (Hok2 : rx_wire_ok p2 i2) by (split; [done | done | by rewrite Hp2]).
  assert (Hrest : wp (poll_tx p2 ;; kern_ HrtimerForwardNow) e2 (fun _ t e' => True /\ passes e2 t e')).
  { apply wp_passing.
    - unfold poll_tx. pa_run. apply ready_passing.
    - unfold poll_tx. wp_run. eapply wp_conseq; [by apply tx_ready_spec, tx_far_is_tx, Hok2|].
      intros r t e' _. destruct (istrue r); by wp_run. }
  apply wp_assoc, wp_bind. eapply wp_conseq; [exact Hrest|]. intros ? t3 e3 [_ Hp3]. wp_run. exists i2.
  split; [done|]. rewrite app_nil_r, app_assoc. by eapply comes_passes.
Qed.

(** ** The device over time

    The calls of the kernel into the driver, in any order, and the FPGA; with what they do to the
    outside. *)
Inductive rx_dev_step (ip : Z) : ccat_eth_priv * E -> list event -> ccat_eth_priv * E -> Prop :=
  | ds_xmit skb priv e r priv' t e' :
      ccat_eth_start_xmit skb priv e = (Ret (r, priv'), t, e') -> rx_dev_step ip (priv, e) t (priv', e')
  | ds_poll priv e priv' t e' :
      poll_timer_callback ip priv e = (Ret priv', t, e') -> rx_dev_step ip (priv, e) t (priv', e')
  | ds_open priv e r t e' :
      ccat_eth_open priv e = (Ret r, t, e') -> rx_dev_step ip (priv, e) t (priv, e')
  | ds_stop priv e r t e' :
      ccat_eth_stop priv e = (Ret r, t, e') -> rx_dev_step ip (priv, e) t (priv, e')
  | ds_stats priv e r t e' :
      ccat_eth_get_stats64 priv e = (Ret r, t, e') -> rx_dev_step ip (priv, e) t (priv, e')
  | ds_fpga priv e e' :
      rtc (rx_step base n) (rvw e) (rvw e') -> rx_dev_step ip (priv, e) [] (priv, e').

Inductive rx_dev_run (ip : Z) : ccat_eth_priv * E -> list event -> ccat_eth_priv * E -> Prop :=
  | dr_nil s : rx_dev_run ip s [] s
  | dr_step s1 t1 s2 t2 s3 :
      rx_dev_step ip s1 t1 s2 -> rx_dev_run ip s2 t2 s3 -> rx_dev_run ip s1 (t1 ++ t2) s3.

(** The state of the device: [fl] is received and not handed over. *)
Definition rx_sound (priv : ccat_eth_priv) (e : E) (fl : list (list Z)) : Prop :=
  exists i, rx_wire_ok priv i /\ armed i fl e.

Lemma ioread_bytes_passing a k : passing (ioread_bytes a k : M E _).
Proof. revert a. induction k as [|k IH]; intros a; simpl; pa_run. apply IH. Qed.

Lemma step_wire ip s t s' fl :
  rx_dev_step ip s t s' -> rx_sound s.1 s.2 fl ->
  exists fl', rx_sound s'.1 s'.2 fl' /\ moves 0 fl s.2 t fl' s'.2.
Proof.
  intros Hstep (i & Hok & Ha).
  assert (Hsame : forall priv e, rx_wire_ok priv i -> passes s.2 t e ->
    exists fl', rx_sound priv e fl' /\ moves 0 fl s.2 t fl' e).
  { intros priv e Hp Hps. destruct (passes_moves _ _ _ _ _ Ha Hps) as (a & Ha' & Hm). exists (fl ++ a).
    split; [by exists i | done]. }
  destruct Hstep as [skb priv e r priv' t e' Hrun | priv e priv' t e' Hrun | priv e r t e' Hrun
    | priv e r t e' Hrun | priv e r t e' Hrun | priv e e' Hrun]; simpl in *.
  - pose proof (wpx_run _ _ _ _ _ _ _ (xmit_far skb priv e (rw_tx _ _ Hok)) Hrun) as [(f & Hf & ->) Hp].
    apply Hsame; [|done]. destruct Hok. by split.
  - pose proof (wpo_run _ _ _ _ _ _ _ (callback_wire ip priv i fl e Hok Ha) Hrun) as (j & Hok' & fl' & Ha' & Hm).
    exists fl'. split; [by exists j | done].
  - apply Hsame; [done|]. eapply run_passes; [|exact Hrun]. unfold ccat_eth_open. pa_run.
  - apply Hsame; [done|]. eapply run_passes; [|exact Hrun]. unfold ccat_eth_stop. pa_run.
  - apply Hsame; [done|]. eapply run_passes; [|exact Hrun]. unfold ccat_eth_get_stats64. pa_run.
    apply ioread_bytes_passing.
  - apply Hsame; [done|]. split; [by apply fpga_arrives_at | done].
Qed.

Lemma run_wire ip s t s' fl :
  rx_dev_run ip s t s' -> rx_sound s.1 s.2 fl ->
  exists fl', rx_sound s'.1 s'.2 fl' /\ moves 0 fl s.2 t fl' s'.2.
Proof.
  intros Hrun. revert fl. induction Hrun as [s | s1 t1 s2 t2 s3 Hstep _ IH]; intros fl Hs.
  { exists fl. split; [done | apply moves_nil]. }
  destruct (step_wire _ _ _ _ _ Hstep Hs) as (fl2 & Hs2 & Hm2). destruct (IH fl2 Hs2) as (fl3 & Hs3 & Hm3).
  exists fl3. split; [done | exact (moves_trans 0 0 _ _ _ _ _ _ _ _ Hm2 Hm3)].
Qed.

Lemma sublist_same_length {A} (l k : list A) : l `sublist_of` k -> length k = length l -> l = k.
Proof.
  induction 1 as [|x l k Hs IH|x l k Hs IH]; simpl; intros Hl; [done | f_equal; auto |].
  apply sublist_length in Hs. lia.
Qed.

(** C3: the FPGA and the driver are a FIFO channel in the receiving direction.  Over any sequence of
    calls into the driver (timer callbacks, transmissions, opening, stopping, statistics), each run
    to its end, with the FPGA storing frames into the DMA memory in any order of bytes while the CPU
    goes on, the driver takes from the ring what a FIFO of the ring's capacity delivers that is given
    exactly the frames the FPGA received, and is emptied once for every time the link came up.  Of
    the frames [out] it took, the network stack gets all, byte for byte and in order, but those for
    which the kernel had no buffer: as many as allocations failed.  So while the link does not come
    up and no allocation fails, the frames handed over followed by those still in the ring are those
    that were in the ring followed by those received: none is lost, doubled, reordered or changed.
    The timer callback has one fault only: a link that comes up with no buffer. *)
Theorem ccat_eth_rx_channel ip priv0 e0 fl0 t priv e :
  rx_sound priv0 e0 fl0 -> rx_dev_run ip (priv0, e0) t (priv, e) ->
  wpo no_buffer (poll_timer_callback ip priv) e (fun _ _ _ => True) /\
  exists evs out fl, rx_sound priv e fl /\ chan_run n evs (Chan fl0 []) (Chan fl out) /\
    arrived e = arrived e0 ++ accepted evs /\ flushes evs = ups t /\
    handed t `sublist_of` out /\ length out = (length (handed t) + starved t)%nat /\
    (ups t = 0%nat -> out ++ fl = fl0 ++ accepted evs) /\
    (ups t = 0%nat -> starved t = 0%nat -> handed t ++ fl = fl0 ++ accepted evs).
Proof.
  intros Hs Hrun.
  destruct (run_wire ip _ _ _ _ Hrun Hs) as (fl & (i & Hok & Ha) & evs & out & Hc & Hsub & Hl & Hin & Hf). split.
  - by eapply wpo_conseq; [apply (callback_wire ip priv i fl)|].
  - assert (Hfifo : ups t = 0%nat -> out ++ fl = fl0 ++ accepted evs)
      by (intros Hu; apply (chan_run_fifo _ _ _ _ Hc), no_flush; simpl in Hf; lia).
    exists evs, out, fl. split_and!; [by exists i | done | done | done | done | done | done |].
    intros Hu Hst. rewrite (sublist_same_length _ _ Hsub) by lia. by apply Hfifo.
Qed.

(** ** Probing sets the channel up *)

(** The address registers of the channel [ch] are not those of the FIFO. *)
Definition rx_chan_apart (bar2 ch : Z) : Prop :=
  let a := bar2 + 0x1000 + 8 * ch in a + 4 < reg \/ reg + 0x8 < a.

Lemma armed_passes i e t e' : (exists fl, armed i fl e) -> passes e t e' -> exists fl, armed i fl e'.
Proof. intros [fl Ha] [Har _]. destruct (armed_arrives _ _ _ _ Ha Har) as (a & Ha' & _). by eexists. Qed.

Lemma dma_init_armed pdev ch bar2 fifo (e : E) :
  ops fifo = dma_rx_fifo_ops -> rx_chan_apart bar2 ch -> n = 64%nat ->
  wp (ccat_dma_init pdev ch bar2 fifo) e (fun '(r, f) _ e' => r = 0 -> start f = base -> f_reg f = reg ->
    rx_at f 0 /\ exists fl, armed 0 fl e').
Proof.
  intros Ho Hap Hn. destruct (decide (f_reg fifo = reg)) as [Hr|Hr].
  2: { eapply wp_conseq; [apply dma_init_reg; by rewrite Ho|]. intros [r f] t e' Hf _ _ ?. congruence. }
  unfold ccat_dma_init, fifo_set_end. wp_run. destruct (_ || _); wp_run; [done|].
  set (x := _ + (_ - _)). set (f0 := set_end _ _).
  destruct (decide (x = base)) as [Heq|Hne].
  - eapply wp_conseq; [apply (rx_reset_wire f0 []); [|done]|].
    { split_and!; [done | done | | apply at_slot_0]. rewrite Hn. unfold nslots, f0. simpl.
      replace (x + CCAT_ALIGNMENT - sizeof_frame - x) with (63 * sizeof_frame) by (unfold CCAT_ALIGNMENT, sizeof_frame; lia).
      done. }
    intros f' t1 e1 (Hf' & _ & fl & Ha & _). wp_run. intros _ _ _. split; [done|].
    unfold rx_chan_apart in Hap.
    do 4 (eapply armed_passes; [|apply (far_passes _ _ (Resp 0 0)); simpl; done || lia]). by exists fl.
  - eapply wp_conseq; [apply reset_spec; unfold f0; simpl; by rewrite Ho|]. intros f' t1 e1 [-> _]. wp_run. by intros _ ?.
Qed.

(** The memory of the TX FIFO, known once it is allocated, is apart from the ring. *)
Definition tx_apart (f : ccat_eth_fifo) : Prop := start f + CCAT_ALIGNMENT <= base \/ rx_ring_end <= start f.

Lemma dma_init_far pdev ch bar2 fifo (e : E) :
  ops fifo = dma_tx_fifo_ops -> rx_chan_apart bar2 ch ->
  wp (ccat_dma_init pdev ch bar2 fifo) e (fun '(r, f) t e' =>
    r = 0 -> tx_apart f -> f_reg f + 0x10 = reg -> tx_far f /\ passes e t e').
Proof.
  intros Ho Hap. destruct (decide (f_reg fifo + 0x10 = reg)) as [Hr|Hr].
  2: { eapply wp_conseq; [apply dma_init_reg; by rewrite Ho|]. intros [r f] t e' Hf _ _ ?. congruence. }
  unfold ccat_dma_init, fifo_set_end. wp_run. set (c0 := Kernel (DmaAllocCoherent _)).
  pose proof (far_passes c0 e (ext c0 e).1 I) as Hp0. destruct (_ || _); wp_run; [done|].
  set (x := _ + (_ - _)). set (f0 := set_end _ _).
  destruct (decide (x + CCAT_ALIGNMENT <= base \/ rx_ring_end <= x)) as [Hx|Hne].
  - eapply wp_conseq; [apply (tx_reset_far f0)|].
    { split; [done | exists 0%nat; apply at_slot_0 | done |]. unfold rx_end, nslots, f0. simpl.
      replace (x + CCAT_ALIGNMENT - sizeof_frame - x) with (63 * sizeof_frame) by (unfold CCAT_ALIGNMENT, sizeof_frame; lia).
      exact Hx. }
    intros f' t1 e1 [Hf' Hp1]. wp_run. intros _ _ _. split; [done|]. unfold rx_chan_apart in Hap.
    eapply (passes_trans _ [_]); [exact Hp0|]. eapply passes_trans; [exact Hp1|].
    do 3 (eapply (passes_trans _ [_]); [apply far_passes; simpl; done || lia|]). apply far_passes. done.
  - eapply wp_conseq; [apply reset_spec; unfold f0; simpl; by rewrite Ho|]. intros f' t1 e1 [-> _]. wp_run.
    by intros _ ?.
Qed.

Lemma init_netdev_passes priv (e : E) :
  wp (ccat_eth_init_netdev priv) e (fun '(_, p) t e' => forall p', p = Some p' -> p' = priv /\ passes e t e').
Proof.
  unfold ccat_eth_init_netdev. apply wp_bind. eapply wp_conseq; [apply wp_passing;
    [apply ioread_bytes_passing | apply ioread_bytes_any]|]. intros l t e1 [_ Hp1]. wp_run.
  destruct (istrue _); cbn [negb]; wp_run; [|done]. apply wp_istrue; intros _; wp_run.
  - eapply wp_conseq; [apply priv_free_returns|]. intros p t' e' _. by wp_run.
  - intros p' [= <-]. split; [done|]. eapply passes_trans; [exact Hp1|].
    do 3 (eapply (passes_trans _ [_]); [by apply far_passes|]). by apply far_passes.
Qed.

(** After a successful probe the ring is armed. *)
Lemma dma_probe_rx_sound func (e : E) :
  rx_chan_apart (bar_2 (f_ccat func)) (rx_dma_chan (f_info func)) ->
  rx_chan_apart (bar_2 (f_ccat func)) (tx_dma_chan (f_info func)) -> n = 64%nat ->
  wp (ccat_eth_dma_probe func) e (fun '(_, p) _ e' =>
    forall priv, p = Some priv -> start (rx_fifo priv) = base -> f_reg (rx_fifo priv) = reg ->
      tx_apart (tx_fifo priv) -> exists fl, rx_sound priv e' fl).
Proof.
  intros Hrx Htx Hn. unfold ccat_eth_dma_probe, ccat_eth_alloc_netdev, ccat_eth_priv_init_reg. wp_run.
  apply wp_null; intros Hnd; wp_run; [done|].
  eapply wp_conseq; [apply ioread_bytes_any|]. intros l t0 e0 _. wp_run. unfold ccat_eth_priv_init_dma. wp_run.
  eapply wp_conseq; [apply wp_and; [by apply dma_init_armed | by apply dma_init_reg]|].
  intros [st rx] t1 e1 [Hinit1 Hreg1]. apply wp_istrue; intros Hst; wp_run; [rewrite (istrue_nz _ Hst); by wp_run|].
  eapply wp_conseq; [apply wp_and; [by apply dma_init_far | by apply dma_init_reg]|].
  intros [st2 tx] t2 e2 [Hinit2 Hreg2]. apply wp_istrue; intros Hst2; wp_run.
  { eapply wp_conseq; [apply dma_free_returns|]. intros dm t3 e3 _. wp_run. rewrite (istrue_nz _ Hst2). by wp_run. }
  unfold ccat_hw_disable_mac_filter. wp_run.
  eapply wp_conseq; [apply init_netdev_passes|]. intros [r p] t4 e4 Hp4 priv ->.
  destruct (Hp4 priv eq_refl) as [-> Hps4]. clear Hp4. simpl in *. intros Hs Hr Hap.
  destruct (Hinit1 Hst Hs Hr) as [Hat Harm]. destruct (Hinit2 Hst2 Hap) as [Hfar Hps2]; [lia|].
  assert (exists fl, armed 0 fl e4) as [fl Ha].
  { eapply armed_passes; [|exact Hps4]. do 2 (eapply armed_passes; [|apply (far_passes _ _ (Resp 0 0)); exact I]).
    exact (armed_passes _ _ _ _ Harm Hps2). }
  exists fl, 0%nat. by split.
Qed.

End Wire.

(** ** Witness: an FPGA that receives a frame at every start of the timer *)

Definition arriving (v : rx_view) : rx_view :=
  match rv_pend v with
  | [] => v
  | w :: q =>
      let a := rdesc_frame 0x20000 w in
      RView (fwrite (fwrite (fwrite (rv_mem v) (a + sizeof_dma_hdr) [1; 2; 3]) (a + dma_length) [7; 0])
               (a + dma_rx_flags) [1]) q (rv_in v ++ [[1; 2; 3]])
  end.

Lemma arriving_steps n v : rtc (rx_step 0x20000 n) v (arriving v).
Proof.
  destruct v as [m [|w q] inn]; [done|]. unfold arriving. cbn [rv_pend rv_mem rv_in].
  set (a := rdesc_frame 0x20000 w). apply rtc_once.
  assert (sizeof_frame = 2048 /\ dma_rx_flags = 4 /\ dma_length = 8 /\ sizeof_dma_hdr = 24 /\ MAX_PAYLOAD_SIZE = 2024)
    as (H1 & H2 & H3 & H4 & H5) by done. apply rs_done.
  - intros b Hb. unfold outside in Hb. fold a in Hb. rewrite !fwrite_out by (unfold zlen; simpl; lia). done.
  - fold a. rewrite fwrite_cons, fwrite_nil. unfold upd. by rewrite Z.eqb_refl.
  - fold a. split.
    + unfold zlen. simpl. lia.
    + apply (bool_decide_unpack _). vm_compute. exact I.
    + rewrite (fslice_ext _ (fwrite (fwrite m (a + sizeof_dma_hdr) [1; 2; 3]) (a + dma_length) [7; 0])).
      * change 2%nat with (length [7; 0]). by rewrite fslice_fwrite.
      * intros b Hb. apply fwrite_out. unfold zlen. simpl. lia.
    + rewrite (fslice_ext _ (fwrite m (a + sizeof_dma_hdr) [1; 2; 3])); [apply fslice_fwrite|].
      intros b Hb. rewrite !fwrite_out by (unfold zlen; simpl in *; lia). done.
Qed.

Definition rx_wire_env : Env rx_view := fun c v0 =>
  let v := rcpu 0x510 c v0 in
  match c with
  | Kernel HrtimerStart => (Resp 0 0, arriving v)
  | Kernel (NetifCarrierOk _) => (Resp 1 0, v)
  | Kernel (DevAllocSkb _) => (Resp 0x900 0, v)
  | MemRead wd a => (Resp (le_val (fslice (rv_mem v) a (wbytes wd))) 0, v)
  | IoRead W32 _ => (Resp (2 ^ 24) 0, v)
  | _ => (Resp 0 0, v)
  end.

#[export] Instance rx_wire_env_fpga n : @RxFpga rx_view rx_wire_env 0x20000 n 0x510.
Proof.
  unshelve refine (@Build_RxFpga _ rx_wire_env 0x20000 n 0x510 (fun v => v) _ _).
  - intros v c. change (ext c v) with (rx_wire_env c v).
    assert (Hv : (rx_wire_env c v).2 = rcpu 0x510 c v \/ (rx_wire_env c v).2 = arriving (rcpu 0x510 c v))
      by (unfold rx_wire_env; destruct c as [[]| | | | |[]]; auto).
    destruct Hv as [-> | ->]; [done | apply arriving_steps].
  - done.
Defined.

(** A ring of four empty frames, all with the FPGA. *)
Definition rx_wire_idle : rx_view := RView (fun _ => 0) (rx_word <$> seq 0 4) [].

Lemma rx_wire_idle_sound : @rx_sound rx_view rx_wire_env 0x20000 4 0x510 _ net_priv rx_wire_idle [].
Proof.
  exists 0%nat. split; [split|].
  - split_and!; [reflexivity | reflexivity | reflexivity | split; [vm_compute; lia | reflexivity]].
  - reflexivity.
  - split; [reflexivity | exists 3%nat; split; [vm_compute; lia | reflexivity] | reflexivity |].
    left. vm_compute. discriminate.
  - exists 0%nat, 4%nat. split_and!; [reflexivity | reflexivity|]. by split.
Qed.

Lemma ccat_eth_rx_channel_witness :
  exists priv t e fl, @rx_dev_run rx_view rx_wire_env 0x20000 4 0x510 _ 0 (net_priv, rx_wire_idle) t (priv, e) /\
    handed t ++ fl = [[1; 2; 3]] /\ fl = [].
Proof.
  pose proof rx_wire_idle_sound as Hs.
  assert (Hcap : Z.of_nat 4 <= FIFO_LENGTH) by (vm_compute; discriminate).
  assert (Hreg : 0x510 <> 0) by discriminate. assert (Hpos : (0 < 4)%nat) by lia.
  destruct (ccat_eth_open (H := rx_wire_env) net_priv rx_wire_idle) as [[o1 t1] e1] eqn:Hrun1.
  destruct (poll_timer_callback (H := rx_wire_env) 0 net_priv e1) as [[o2 t2] e2] eqn:Hrun2.
  assert (Hcomp : (let '(o1, t1, e1) := ccat_eth_open (H := rx_wire_env) net_priv rx_wire_idle in
    let '(o2, t2, e2) := poll_timer_callback (H := rx_wire_env) 0 net_priv e1 in
    match o1, o2 with Ret _, Ret _ => True | _, _ => False end /\ handed (t1 ++ t2) = [[1; 2; 3]] /\
    ups (t1 ++ t2) = 0%nat /\ starved (t1 ++ t2) = 0%nat /\ rv_in e2 = [[1; 2; 3]])) by (vm_compute; repeat split).
  rewrite Hrun1, Hrun2 in Hcomp. destruct Hcomp as (Hret & Hh & Hu & Hst & Hin).
  destruct o1 as [r1| |], o2 as [p2| |]; try done. clear Hret.
  assert (Hwr : @rx_dev_run rx_view rx_wire_env 0x20000 4 0x510 _ 0 (net_priv, rx_wire_idle) (t1 ++ t2) (p2, e2)).
  { eapply dr_step; [by eapply ds_open|]. rewrite <- (app_nil_r t2).
    eapply dr_step; [by eapply ds_poll | constructor]. }
  pose proof (ccat_eth_rx_channel (H := rx_wire_env) (base := 0x20000) (n := 4) (reg := 0x510)
    Hcap Hpos Hreg 0 net_priv rx_wire_idle [] (t1 ++ t2) p2 e2 Hs Hwr) as Hch.
  destruct Hch as (_ & evs & out & fl & _ & _ & Harr & _ & _ & _ & _ & Hfifo). specialize (Hfifo Hu Hst).
  change (rv_in e2 = [] ++ accepted evs) in Harr. rewrite Hin in Harr. cbn [app] in Harr, Hfifo.
  rewrite <- Harr in Hfifo.
  exists p2, (t1 ++ t2), e2, fl. split; [exact Hwr|]. split; [exact Hfifo|].
  rewrite Hh in Hfifo. by injection Hfifo.
Defined.
