(* ===== verification/NetEim.v ===== *)
(** * Transmission over the EIM bus: how often the queue is awake without room

    In the EIM variant a frame is handed over when the level of the TX FIFO reads 0.  Unlike in the
    DMA variant (NetTx.v) the invariant "an awake queue has room" does not hold even for calls that
    run to their end: [ccat_eth_link_up] sends a frame and then starts the queue without looking at
    the FIFO.  This file shows that this and the race inside [poll_tx] (NetRace.v) are the only ways
    it breaks: every [NETDEV_TX_BUSY] the kernel sees is paid for by a change of the link or by a
    transmission inside [poll_tx], by a potential argument over the runs of the device. *)

From S2P Require Import Prelude IO Info NetFifo Netdev NetTx NetRace.

(** ** The interface *)

(** The TX FIFO of the FPGA at [mac], filled by the trigger register [reg].  It counts as drained
    when the six bits of its level that the driver looks at read 0 (the mask is 0x3F, where
    [struct ccat_mac_register] gives the level seven bits); only the trigger makes them other than
    0. *)
Class EimTx (E : Type) `{Env E} (mac reg : Z) := {
  drained : E -> bool;
  et_level : forall e,
    istrue (Z.land (u8 (r_val (ext (IoRead W8 (mac + 0x20)) e).1)) 0x3F) = negb (drained e);
  et_mono : forall e c, (forall v, c <> IoWrite W32 reg v) -> drained e = true ->
    drained (ext c e).2 = true;
}.
Arguments drained {E _} mac reg {_} e.

Section Eim.
Context {E : Type} `{Env E} {dev mac reg : Z} `{!NetKernel E dev} `{!EimTx E mac reg}.
Local Abbreviation awk := (awake dev).
Local Abbreviation car := (carrier dev).
Local Abbreviation drn := (drained mac reg).

(** ** Calm runs: the queue and the carrier are untouched and nothing is put into the FIFO. *)
Definition calm (e e' : E) : Prop :=
  awk e' = awk e /\ car e' = car e /\ (drn e = true -> drn e' = true).

#[global] Instance calm_preorder : PreOrder calm.
Proof.
  split.
  - intros e. by split_and!.
  - intros e1 e2 e3 (Ha & Hc & Hs) (Ha' & Hc' & Hs'). split_and!; [congruence.. | auto].
Qed.

Definition calm_call (c : call) : Prop :=
  match c with
  | IoWrite W32 a _ => a <> reg
  | Kernel (NetifStopQueue _) | Kernel (NetifStartQueue _) | Kernel (NetifWakeQueue _)
  | Kernel (NetifCarrierOn _) | Kernel (NetifCarrierOff _) => False
  | _ => True
  end.

Lemma calm_ext c e : calm_call c -> calm e (ext c e).2.
Proof.
  intros Hc. split_and!.
  - apply nk_queue. destruct c as [| | | | |[]]; simpl in *; tauto.
  - apply nk_carrier. destruct c as [| | | | |[]]; simpl in *; tauto.
  - apply et_mono. intros v ->. by simpl in Hc.
Qed.

(** The frames: a ring each, with the registers of the two FIFOs 16 bytes apart. *)
Record eim_ok (priv : ccat_eth_priv) : Prop := {
  eo_dev : p_netdev priv = dev;
  eo_mac : r_mac (p_reg priv) = mac;
  eo_rx : ops (rx_fifo priv) = eim_rx_fifo_ops /\ f_reg (rx_fifo priv) = reg + 0x10;
  eo_tx : ops (tx_fifo priv) = eim_tx_fifo_ops /\ f_reg (tx_fifo priv) = reg;
}.

(** ** The parts of the driver that are calm *)

Lemma eim_ready_calm m f : evolves calm (ops_ready m f : M E _).
Proof.
  unfold ops_ready, fifo_dma_rx_ready, fifo_dma_tx_ready, fifo_eim_rx_ready, fifo_eim_tx_ready.
  ev_run; by apply calm_ext.
Qed.

Definition eim_ring (f : ccat_eth_fifo) : Prop :=
  (ops f = eim_rx_fifo_ops \/ ops f = eim_tx_fifo_ops) /\ f_reg f + 8 <> reg.

Lemma eim_add_calm f : eim_ring f -> evolves calm (ops_add f : M E _).
Proof.
  intros [Ho _]. unfold ops_add. destruct Ho as [-> | ->]; unfold fifo_eim_rx_add, fifo_eim_tx_add;
    ev_run; by apply calm_ext.
Qed.

Lemma eim_ring_next x f : eim_ring f -> eim_ring (set_next x f).
Proof. done. Qed.

Lemma eim_ring_inc f : eim_ring f -> eim_ring (ccat_eth_fifo_inc f).
Proof. unfold ccat_eth_fifo_inc. by destruct (_ <? _). Qed.

Lemma eim_reset_calm f : eim_ring f -> evolves calm (ccat_eth_fifo_reset f : M E _).
Proof.
  intros Hf. assert (Hloop : forall k f, eim_ring f -> evolves calm (reset_loop k f : M E _)).
  { intros k. induction k as [|k IH]; intros g Hg; cbn [reset_loop]; ev_run.
    - by apply eim_add_calm.
    - by apply IH, eim_ring_inc. }
  unfold ccat_eth_fifo_reset, ccat_eth_fifo_hw_reset. pose proof Hf as [_ Hr].
  ev_run; try (by apply calm_ext); by apply Hloop, eim_ring_next.
Qed.

Lemma eim_reset f (e : E) :
  eim_ring f -> wp (ccat_eth_fifo_reset f) e (fun f' _ e' => f' = set_next (start f) f /\ calm e e').
Proof.
  intros Hf. apply wp_evolves; [by apply eim_reset_calm|].
  eapply wp_conseq; [apply reset_spec; by destruct Hf as [[-> | ->] _]|]. by intros f' t e' [-> _].
Qed.

Lemma istrue_lnot x : istrue (lnot_c x) = negb (istrue x).
Proof. unfold lnot_c, istrue. by destruct (x =? 0). Qed.

Lemma eim_tx_level f (e : E) :
  ops f = eim_tx_fifo_ops ->
  wp (ops_ready mac f) e (fun r _ e' => istrue r = drn e /\ calm e e').
Proof.
  intros Ho. apply wp_evolves; [apply eim_ready_calm|]. unfold ops_ready. rewrite Ho.
  unfold fifo_eim_tx_ready. wp_run. untrunc. pose proof (et_level e) as Hl.
  rewrite istrue_lnot, Hl. by destruct (drn e).
Qed.

(** *** Reception *)

Lemma eim_memread_any a k (e : E) : wp (memread_bytes a k) e (fun _ _ e' => calm e e').
Proof.
  revert a e. induction k as [|k IH]; intros a e; simpl; wp_run; [done|].
  eapply wp_conseq; [apply IH|]. intros l t e' Hq. wp_run. etrans; [|exact Hq]. by apply calm_ext.
Qed.

Lemma eim_receive_calm ip priv len (e : E) :
  eim_ok priv -> wp (ccat_eth_receive ip priv len) e (fun priv' _ e' => eim_ok priv' /\ calm e e').
Proof.
  intros []. unfold ccat_eth_receive. wp_run.
  match goal with |- context [ext ?c e] => assert (Hq : calm e (ext c e).2) by (by apply calm_ext);
    set (e1 := (ext c e).2) in * end.
  apply wp_null; intros _; wp_run; [by split|].
  unfold ops_copy_to_skb. rewrite (proj1 eo_rx0). unfold fifo_eim_copy_to_linear_skb.
  eapply wp_conseq; [apply eim_memread_any|]. intros l t e2 Hq2. wp_run.
  split; [by split|]. etrans; [exact Hq|]. etrans; [exact Hq2|]. by apply calm_ext.
Qed.

Lemma eim_rx_ready priv (e : E) :
  eim_ok priv -> wp (ops_ready (r_mac (p_reg priv)) (rx_fifo priv)) e (fun _ _ e' => calm e e').
Proof.
  intros [_ _ [Ho _] _]. eapply wp_conseq; [apply (wp_evolves calm _ _ _ (fun _ _ _ => True));
    [apply eim_ready_calm|] | by intros ? ? ? [_ ?]].
  unfold ops_ready. rewrite Ho. unfold fifo_eim_rx_ready. by wp_run.
Qed.

Lemma eim_ok_rx priv : eim_ok priv -> eim_ring (rx_fifo priv).
Proof. intros [_ _ [Ho Hr] _]. split; [by left | lia]. Qed.

Lemma eim_ok_tx priv : eim_ok priv -> eim_ring (tx_fifo priv).
Proof. intros [_ _ _ [Ho Hr]]. split; [by right | lia]. Qed.

Lemma eim_rx_add priv (e : E) :
  eim_ok priv -> wp (ops_add (rx_fifo priv)) e (fun _ _ e' => calm e e').
Proof.
  intros Hp. eapply wp_conseq; [apply (wp_evolves calm _ _ _ (fun _ _ _ => True));
    [by apply eim_add_calm, eim_ok_rx|] | by intros ? ? ? [_ ?]].
  eapply wp_conseq; [apply ops_add_calls; by rewrite (proj1 (eo_rx _ Hp)) | done].
Qed.

Lemma eim_ok_set_rx priv f :
  eim_ok priv -> ops f = ops (rx_fifo priv) -> f_reg f = f_reg (rx_fifo priv) -> eim_ok (set_rx_fifo f priv).
Proof. intros [] Ho Hr. split; simpl; rewrite ?Ho, ?Hr; done. Qed.

Lemma eim_ok_set_tx priv f :
  eim_ok priv -> ops f = ops (tx_fifo priv) -> f_reg f = f_reg (tx_fifo priv) -> eim_ok (set_tx_fifo f priv).
Proof. intros [] Ho Hr. split; simpl; rewrite ?Ho, ?Hr; done. Qed.

Lemma eim_poll_rx_loop_calm ip k priv len (e : E) :
  eim_ok priv -> wp (poll_rx_loop ip k priv len) e (fun priv' _ e' => eim_ok priv' /\ calm e e').
Proof.
  revert priv len e. induction k as [|[|k] IH]; intros priv len e Hd; cbn [poll_rx_loop]; [by wp_run..|].
  destruct (istrue len); [|by wp_run]. apply wp_bind. eapply wp_conseq; [by apply eim_receive_calm|].
  intros p1 t1 e1 [Hd1 Hq1]. apply wp_bind. eapply wp_conseq; [by apply eim_rx_add|].
  intros ? t2 e2 Hq2. apply wp_bind.
  pose proof (eim_ok_set_rx p1 _ Hd1 (proj1 (inc_table (rx_fifo p1))) (proj2 (inc_table (rx_fifo p1)))) as Hd2.
  eapply wp_conseq; [by apply eim_rx_ready|]. intros l t3 e3 Hq3. cbn [poll_rx_loop] in IH.
  eapply wp_conseq; [by apply IH|]. intros p4 t4 e4 [Hd4 Hq4]. split; [done|].
  etrans; [exact Hq1|]. etrans; [exact Hq2|]. etrans; [exact Hq3 | exact Hq4].
Qed.

Lemma eim_poll_rx_calm ip priv (e : E) :
  eim_ok priv -> wp (poll_rx ip priv) e (fun priv' _ e' => eim_ok priv' /\ calm e e').
Proof.
  intros Hd. unfold poll_rx. apply wp_bind. eapply wp_conseq; [by apply eim_rx_ready|].
  intros len t e1 Hq1. eapply wp_conseq; [by apply eim_poll_rx_loop_calm|]. intros p t2 e2 [Hd2 Hq2].
  split; [done|]. etrans; [exact Hq1 | exact Hq2].
Qed.

(** ** Transmission *)

(** The potential: 1 while the queue is awake, or about to be woken, without room, so that the next
    frame the kernel hands over is refused. *)
Local Abbreviation open_to := (NetRace.open_to (dev := dev)).
Definition debt (e : E) (p : poller) : nat := Nat.b2n (open_to e p && negb (drn e)).

Lemma eim_debt_le e p : (debt e p <= 1)%nat.
Proof. unfold debt. by destruct (_ && _); simpl; lia. Qed.

Lemma calm_debt e e' p : calm e e' -> (debt e' p <= debt e p)%nat.
Proof.
  intros (Ha & _ & Hd). unfold debt, open_to. rewrite Ha.
  destruct p as [|v]; destruct (awk e), (drn e), (drn e'); simpl; try destruct (istrue v); simpl; lia || naive_solver.
Qed.

Lemma drained_debt e p : drn e = true -> debt e p = 0%nat.
Proof. unfold debt. intros ->. by rewrite andb_false_r. Qed.

Lemma asleep_debt e : awk e = false -> debt e PollIdle = 0%nat.
Proof. unfold debt, open_to. by intros ->. Qed.

Lemma awake_debt e p : awk e = true -> drn e = false -> debt e p = 1%nat.
Proof. unfold debt, open_to. intros -> ->. by destruct p. Qed.

Definition busy (r : Z) : nat := Nat.b2n (r =? NETDEV_TX_BUSY).

Lemma busy_le r : (busy r <= 1)%nat.
Proof. unfold busy. destruct (_ =? _); simpl; lia. Qed.

Lemma memwrite_bytes_calm a l (e : E) : wp (memwrite_bytes a l) e (fun _ _ e' => calm e e').
Proof.
  revert a e. induction l as [|b l IH]; intros a e; simpl; wp_run; [done|].
  eapply wp_conseq; [apply IH|]. intros ? t e' Hq. etrans; [|exact Hq]. by apply calm_ext.
Qed.

(** Handing a frame over leaves the queue and the carrier alone. *)
Lemma eim_queue priv skb (e : E) :
  eim_ok priv -> wp (ops_skb (tx_fifo priv) skb) e (fun _ _ e' => awk e' = awk e /\ car e' = car e).
Proof.
  intros [_ _ _ [Ho Hr]]. unfold ops_skb. rewrite Ho. unfold fifo_eim_queue_skb. wp_run.
  eapply wp_conseq; [apply memwrite_bytes_calm|]. intros ? t e1 (Ha & Hc & _). wp_run.
  by rewrite nk_queue, nk_carrier, Ha, Hc, nk_queue, nk_carrier by intros [].
Qed.

Definition xmitted (priv priv' : ccat_eth_priv) (e e' : E) (r : Z) : Prop :=
  eim_ok priv' /\ car e' = car e /\ (r = NETDEV_TX_OK \/ r = NETDEV_TX_BUSY) /\
  (drn e = true -> r = NETDEV_TX_OK) /\
  (awk e = true -> (debt e' PollIdle + busy r <= debt e PollIdle)%nat).

Lemma eim_drop skb priv (e : E) :
  eim_ok priv -> wp (xmit_drop skb priv) e (fun '(r, priv') _ e' => xmitted priv priv' e e' r).
Proof.
  intros Hp. unfold xmit_drop. wp_run.
  assert (Hq : calm e (ext (Kernel (DevKfreeSkbAny (skb_ptr skb))) e).2) by (by apply calm_ext).
  split; [by apply eim_ok_set_tx|]. split; [apply Hq|]. split; [by left|]. split; [done|]. intros _.
  pose proof (calm_debt _ _ PollIdle Hq). change (busy NETDEV_TX_OK) with 0%nat. lia.
Qed.

Lemma eim_xmit skb priv (e : E) :
  eim_ok priv ->
  wp (ccat_eth_start_xmit skb priv) e (fun '(r, priv') _ e' => xmitted priv priv' e e' r).
Proof.
  intros Hp. unfold ccat_eth_start_xmit. pose proof (eim_drop skb priv e Hp) as Hdrop.
  destruct (skb_nonlinear skb); [done|]. destruct (_ <? _); [done|]. clear Hdrop.
  pose proof (eo_tx _ Hp) as [Ho Hr]. rewrite (eo_mac _ Hp). apply wp_bind. unfold xmitted.
  eapply wp_conseq; [by apply eim_tx_level|]. intros r t1 e1 [-> Hq1].
  destruct (drn e) eqn:Hdrn; cbn [negb]; wp_run.
  - eapply wp_conseq; [by apply eim_queue|]. intros ? t2 e2 [Ha2 Hc2]. wp_run.
    match goal with |- context [ext ?c e2] => assert (Hq3 : calm e2 (ext c e2).2) by (by apply calm_ext);
      set (e3 := (ext c e2).2) in * end.
    set (f' := ccat_eth_fifo_inc _). assert (Hf : ops f' = eim_tx_fifo_ops /\ f_reg f' = f_reg (tx_fifo priv)).
    { unfold f'. rewrite !(proj1 (inc_table _)), !(proj2 (inc_table _)). by rewrite <- Ho. }
    eapply wp_conseq; [apply eim_tx_level, Hf|]. intros r4 t4 e4 [-> Hq4].
    assert (Hp' : eim_ok (set_tx_fifo f' priv)) by (apply eim_ok_set_tx; [done | rewrite Ho | idtac]; apply Hf).
    assert (Hc4 : car e4 = car e) by (destruct Hq1 as (_ & ? & _), Hq3 as (_ & ? & _), Hq4 as (_ & ? & _); congruence).
    destruct (drn e3) eqn:Hd3; cbn [negb]; wp_run; (split; [done|]).
    + split; [done|]. split; [by left|]. split; [done|]. intros _. rewrite drained_debt by (by apply Hq4). apply Nat.le_0_l.
    + rewrite (eo_dev _ Hp), nk_carrier by intros []. split; [done|]. split; [by left|]. split; [done|]. intros _.
      rewrite asleep_debt by apply nk_stop. apply Nat.le_0_l.
  - split; [done|]. rewrite (eo_dev _ Hp), nk_carrier by intros []. split; [apply Hq1|].
    split; [by right|]. split; [done|]. intros Haw. rewrite asleep_debt by apply nk_stop.
    by rewrite awake_debt.
Qed.

(** ** The timer *)

(** The carrier came on. *)
Definition came_up (e e' : E) : nat := Nat.b2n (negb (car e) && car e').

Lemma eim_link_up priv (e : E) :
  eim_ok priv -> wpo no_buffer (ccat_eth_link_up priv) e (fun priv' _ e' => eim_ok priv' /\ car e' = true).
Proof.
  intros Hp. unfold ccat_eth_link_up. apply wpo_seq, wp_wpo; [auto with ccat|].
  eapply wp_conseq; [by apply eim_reset, eim_ok_rx|]. intros rx t1 e1 [-> _].
  apply wpo_seq, wp_wpo; [auto with ccat|].
  set (p1 := set_rx_fifo _ priv). assert (Hp1 : eim_ok p1) by (by apply eim_ok_set_rx).
  eapply wp_conseq; [by apply eim_reset, eim_ok_tx|]. intros tx t2 e2 [-> _].
  set (p2 := set_tx_fifo _ p1). assert (Hp2 : eim_ok p2) by (by apply eim_ok_set_tx).
  apply wpo_seq, xmit_raw_spec; [auto with ccat|]. intros _.
  eapply wp_conseq; [by apply eim_xmit|]. intros [r p3] t3 e3 (Hp3 & _). apply wp_wpo. wp_run.
  split; [done|]. rewrite (eo_dev _ Hp3), nk_carrier by intros []. apply nk_on.
Qed.

Lemma eim_poll_link priv (e : E) :
  eim_ok priv ->
  wpo no_buffer (poll_link priv) e (fun priv' _ e' =>
    eim_ok priv' /\ (debt e' PollIdle <= debt e PollIdle + came_up e e')%nat).
Proof.
  intros Hp. unfold poll_link, ccat_eth_priv_read_link_state.
  apply wpo_seq, wp_wpo; [auto with ccat|]. wp_run. apply wpo_seq, wp_wpo; [auto with ccat|]. wp_run.
  match goal with |- context [ext ?c e] => assert (Hq1 : calm e (ext c e).2) by (by apply calm_ext);
    set (e1 := (ext c e).2) in * end.
  rewrite (eo_dev _ Hp), nk_ok. set (c2 := Kernel (NetifCarrierOk dev)).
  assert (Hq2 : calm e (ext c2 e1).2) by (etrans; [exact Hq1 | by apply calm_ext]).
  set (e2 := (ext c2 e1).2) in *. set (link := istrue (Z.land _ _)).
  destruct Hq1 as (_ & Hc1 & _). rewrite Hc1.
  assert (Hstay : eim_ok priv /\ (debt e2 PollIdle <= debt e PollIdle + came_up e e2)%nat)
    by (split; [done|]; pose proof (calm_debt _ _ PollIdle Hq2); lia).
  destruct link, (car e) eqn:Hcar; cbn [b2z Z.eqb negb istrue]; try (by apply wp_wpo; wp_run).
  - eapply wpo_conseq; [by apply eim_link_up|]. intros p3 t3 e3 [Hp3 Hc3]. split; [done|].
    unfold came_up. rewrite Hcar, Hc3. pose proof (eim_debt_le e3 PollIdle). simpl. lia.
  - apply wp_wpo. unfold ccat_eth_link_down. wp_run. split; [done|]. rewrite asleep_debt; [lia|].
    rewrite nk_queue by intros []. apply nk_stop.
Qed.

Lemma eim_front ip priv (e : E) :
  eim_ok priv ->
  wpo no_buffer (poll_front ip priv) e (fun priv' _ e' =>
    eim_ok priv' /\ (debt e' PollIdle <= debt e PollIdle + came_up e e')%nat).
Proof.
  intros Hp. unfold poll_front. apply wpo_seq; [auto with ccat|].
  eapply wpo_conseq; [by apply eim_poll_link|]. intros p1 t1 e1 [Hp1 Hd1]. apply wp_wpo.
  eapply wp_conseq; [by apply eim_poll_rx_calm|]. intros p2 t2 e2 [Hp2 Hq2]. split; [done|].
  pose proof (calm_debt _ _ PollIdle Hq2). destruct Hq2 as (_ & Hc2 & _). unfold came_up in *. rewrite Hc2. lia.
Qed.

Lemma eim_look priv (e : E) :
  eim_ok priv -> wp (poll_look priv) e (fun p _ e' => (debt e' p <= debt e PollIdle)%nat).
Proof.
  intros Hp. unfold poll_look. rewrite (eo_mac _ Hp). apply wp_bind.
  eapply wp_conseq; [apply eim_tx_level, (eo_tx _ Hp)|]. intros r t1 e1 [Hr Hq1]. wp_run.
  pose proof (calm_debt _ _ PollIdle Hq1) as Hd. destruct (drn e) eqn:Hdr.
  - rewrite drained_debt by (by apply Hq1). lia.
  - etrans; [|exact Hd]. unfold debt, open_to. by rewrite Hr, orb_false_r.
Qed.

Lemma eim_back priv p (e : E) :
  eim_ok priv -> wp (poll_back priv p) e (fun _ _ e' => (debt e' PollIdle <= debt e p)%nat).
Proof.
  intros Hp. unfold poll_back, poll_act.
  assert (Hlast : forall e1, (debt (ext (Kernel HrtimerForwardNow) e1).2 PollIdle <= debt e1 PollIdle)%nat)
    by (intros e1; by apply calm_debt, calm_ext).
  destruct p as [|v]; [wp_run; apply Hlast|].
  destruct (istrue v) eqn:Hv; wp_run; (etrans; [apply Hlast|]).
  - destruct (drn e) eqn:Hd; [rewrite drained_debt; [lia | by apply et_mono]|].
    unfold debt at 2, open_to. rewrite Hv, Hd, orb_true_r. apply eim_debt_le.
  - unfold debt, open_to. by rewrite Hv, orb_false_r.
Qed.

Lemma eim_stop priv p (e : E) :
  eim_ok priv -> wp (ccat_eth_stop priv) e (fun _ _ e' => (debt e' p <= debt e p)%nat).
Proof.
  intros Hp. unfold ccat_eth_stop. wp_run. rewrite (eo_dev _ Hp).
  set (c1 := Kernel (NetifStopQueue dev)). set (c2 := Kernel HrtimerCancel).
  assert (Ha : awk (ext c2 (ext c1 e).2).2 = false) by (rewrite nk_queue by intros []; apply nk_stop).
  unfold debt, open_to. rewrite Ha. destruct (drn e) eqn:Hd.
  - rewrite (et_mono _ c2), !andb_false_r by (done || by apply et_mono). lia.
  - destruct p as [|v]; simpl; [lia|]. destruct (istrue v); simpl; [|lia].
    destruct (awk e), (drn (ext c2 (ext c1 e).2).2); simpl; lia.
Qed.

Lemma eim_callback ip priv (e : E) :
  eim_ok priv -> wpo no_buffer (poll_timer_callback ip priv) e (fun _ _ _ => True).
Proof.
  intros Hp. unfold wpo. rewrite poll_timer_callback_parts.
  change (wpo no_buffer (priv ← poll_front ip priv; p ← poll_look priv; poll_back priv p ;; mret priv) e (fun _ _ _ => True)).
  apply wpo_seq; [auto with ccat|]. eapply wpo_conseq; [by apply eim_front|]. intros p1 t1 e1 [Hp1 _].
  apply wp_wpo, wp_bind. eapply wp_conseq; [by apply eim_look|]. intros p t2 e2 _. apply wp_bind.
  eapply wp_conseq; [by apply eim_back|]. intros ? t3 e3 _. by wp_run.
Qed.

(** ** The device over time

    One step is a call of the kernel into the driver, one of the parts of the timer callback
    (NetRace.v), or something the FPGA does in between, with the number of refused frames, the
    number of times the carrier came on, and the number of transmissions between the two halves of
    [poll_tx].  The kernel transmits only while the queue is awake. *)
Inductive eim_step (ip : Z) : race E -> nat -> nat -> nat -> race E -> Prop :=
  | es_xmit skb priv e p r priv' t e' :
      awk e = true -> ccat_eth_start_xmit skb priv e = (Ret (r, priv'), t, e') ->
      eim_step ip (Race priv e p) (busy r) 0 (Nat.b2n (saw_frame p)) (Race priv' e' p)
  | es_front priv e priv' t e' :
      poll_front ip priv e = (Ret priv', t, e') ->
      eim_step ip (Race priv e PollIdle) 0 (came_up e e') 0 (Race priv' e' PollIdle)
  | es_look priv e p t e' :
      poll_look priv e = (Ret p, t, e') -> eim_step ip (Race priv e PollIdle) 0 0 0 (Race priv e' p)
  | es_back priv e p t e' :
      poll_back priv p e = (Ret tt, t, e') -> eim_step ip (Race priv e p) 0 0 0 (Race priv e' PollIdle)
  | es_open priv e p r t e' :
      ccat_eth_open priv e = (Ret r, t, e') -> eim_step ip (Race priv e p) 0 0 0 (Race priv e' p)
  | es_stop priv e p r t e' :
      ccat_eth_stop priv e = (Ret r, t, e') -> eim_step ip (Race priv e p) 0 0 0 (Race priv e' p)
  | es_stats priv e p r t e' :
      ccat_eth_get_stats64 priv e = (Ret r, t, e') -> eim_step ip (Race priv e p) 0 0 0 (Race priv e' p)
  | es_fpga priv e p e' :
      calm e e' -> eim_step ip (Race priv e p) 0 0 0 (Race priv e' p).

Inductive eim_run (ip : Z) : race E -> nat -> nat -> nat -> race E -> Prop :=
  | er_done s : eim_run ip s 0 0 0 s
  | er_more s1 b u k s2 b' u' k' s3 :
      eim_step ip s1 b u k s2 -> eim_run ip s2 b' u' k' s3 -> eim_run ip s1 (b + b') (u + u') (k + k') s3.

Definition race_debt (s : race E) : nat := debt (ra_env s) (ra_poll s).

Lemma eim_stats_calm priv : evolves calm (ccat_eth_get_stats64 priv : M E _).
Proof.
  unfold ccat_eth_get_stats64. ev_run. generalize (r_mac (p_reg priv)).
  induction (Z.to_nat sizeof_mac_register) as [|k IH]; intros a; simpl; ev_run; [by apply calm_ext | apply IH].
Qed.

Lemma eim_open_calm priv : evolves calm (ccat_eth_open priv : M E _).
Proof. unfold ccat_eth_open. ev_run. by apply calm_ext. Qed.

Lemma eim_xmit_debt skb priv p e r priv' t e' :
  eim_ok priv -> awk e = true -> ccat_eth_start_xmit skb priv e = (Ret (r, priv'), t, e') ->
  eim_ok priv' /\ (busy r + debt e' p <= Nat.b2n (saw_frame p) + debt e p)%nat.
Proof.
  intros Hp Ha Hrun. destruct (wpx_run _ _ _ _ _ _ _ (eim_xmit skb priv e Hp) Hrun) as (Hp' & _ & _ & Hok & Hd).
  split; [done|]. specialize (Hd Ha). destruct p as [|v]; simpl saw_frame; [simpl; lia|].
  pose proof (eim_debt_le e' (PollSaw v)). pose proof (busy_le r). destruct (drn e) eqn:Hdr.
  - rewrite (Hok eq_refl). change (busy NETDEV_TX_OK) with 0%nat. simpl. lia.
  - rewrite (awake_debt e (PollSaw v)) by done. simpl. lia.
Qed.

Lemma eim_step_debt ip s b u k s' :
  eim_step ip s b u k s' -> eim_ok (ra_priv s) ->
  eim_ok (ra_priv s') /\ (b + race_debt s' <= u + k + race_debt s)%nat.
Proof.
  unfold race_debt.
  destruct 1 as [skb priv e p r priv' t e' Hw Hrun | priv e priv' t e' Hrun | priv e p t e' Hrun
    | priv e p t e' Hrun | priv e p r t e' Hrun | priv e p r t e' Hrun | priv e p r t e' Hrun | priv e p e' Hq];
    simpl; intros Hp.
  - by eapply eim_xmit_debt.
  - destruct (wpo_run _ _ _ _ _ _ _ (eim_front ip priv e Hp) Hrun). split; [done|]. lia.
  - split; [done|]. exact (wpx_run _ _ _ _ _ _ _ (eim_look priv e Hp) Hrun).
  - split; [done|]. exact (wpx_run _ _ _ _ _ _ _ (eim_back priv p e Hp) Hrun).
  - split; [done|]. apply calm_debt. eapply (evolves_run calm); [apply eim_open_calm | exact Hrun].
  - split; [done|]. exact (wpx_run _ _ _ _ _ _ _ (eim_stop priv p e Hp) Hrun).
  - split; [done|]. apply calm_debt. eapply (evolves_run calm); [apply eim_stats_calm | exact Hrun].
  - split; [done|]. by apply calm_debt.
Qed.

Lemma eim_run_debt ip s b u k s' :
  eim_run ip s b u k s' -> eim_ok (ra_priv s) ->
  eim_ok (ra_priv s') /\ (b + race_debt s' <= u + k + race_debt s)%nat.
Proof.
  induction 1 as [s | s1 b u k s2 b' u' k' s3 Hs _ IH]; intros Hp; [by split; [|lia]|].
  destruct (eim_step_debt _ _ _ _ _ _ Hs Hp) as [Hp2 Hd]. destruct (IH Hp2). split; [done | lia].
Qed.

(** C34: the EIM variant.  Over any run of transmissions, openings, stops, statistics, parts of
    the timer callback ([poll_link] with [poll_rx], and the two halves of [poll_tx], with
    transmissions in between) and whatever the FPGA does, that starts outside [poll_tx] and with a
    stopped queue or a drained FIFO, the kernel is refused a frame ([NETDEV_TX_BUSY], the branch the
    driver reports as a bug) at most as often as the carrier came on plus the number of
    transmissions between the halves of [poll_tx].  In every state reached a transmission runs to
    its end, and the timer callback has one fault only: a link that comes up with no buffer. *)
Theorem ccat_eth_eim_busy_bound ip priv0 e0 b u k priv e p :
  eim_ok priv0 -> (awk e0 = true -> drn e0 = true) ->
  eim_run ip (Race priv0 e0 PollIdle) b u k (Race priv e p) ->
  (b <= u + k)%nat /\
  (forall skb, wp (ccat_eth_start_xmit skb priv) e (fun '(r, _) _ _ =>
     r = NETDEV_TX_OK \/ r = NETDEV_TX_BUSY)) /\
  wpo no_buffer (poll_timer_callback ip priv) e (fun _ _ _ => True).
Proof.
  intros Hp H0 Hrun. destruct (eim_run_debt _ _ _ _ _ _ Hrun Hp) as [Hp' Hd]. simpl in *. split_and!.
  - assert (race_debt (Race priv0 e0 PollIdle) = 0%nat); [|lia]. unfold race_debt. simpl.
    destruct (awk e0) eqn:Ha; [apply drained_debt | apply asleep_debt]; auto.
  - intros skb. eapply wp_conseq; [by apply eim_xmit|]. intros [r p'] t e' (_ & _ & Hr & _). done.
  - by apply eim_callback.
Qed.

(** The frame that [ccat_eth_link_up] sends is given up without a trace when the FIFO is not
    drained: it is neither handed over nor freed, and [ccat_eth_xmit_raw] does not look. *)
Lemma ccat_eth_eim_raw_frame_lost priv data (e : E) :
  eim_ok priv -> zlen data <= MAX_PAYLOAD_SIZE ->
  r_val (ext (Kernel (DevAllocSkb (zlen data))) e).1 <> 0 ->
  drn (ext (Kernel (DevAllocSkb (zlen data))) e).2 = false ->
  wp (ccat_eth_xmit_raw priv data) e (fun priv' t _ => priv' = priv /\
    calls t = [Kernel (DevAllocSkb (zlen data)); IoRead W8 (mac + 0x20); Kernel (NetifStopQueue dev)]).
Proof.
  intros Hp Hl Hbuf Hfull. unfold ccat_eth_xmit_raw. wp_run.
  apply wp_null; intros Hz; [by destruct Hbuf|]. unfold ccat_eth_start_xmit, skb_len. cbn [skb_nonlinear skb_data].
  destruct (Z.ltb_spec MAX_PAYLOAD_SIZE (zlen data)); [lia|]. unfold ops_ready.
  rewrite (proj1 (eo_tx _ Hp)), (eo_mac _ Hp), (eo_dev _ Hp). unfold fifo_eim_tx_ready. wp_run. untrunc.
  rewrite istrue_lnot, et_level, Hfull. cbn [negb]. by wp_run.
Qed.

(** ** Setting up *)

Lemma init_netdev_same priv (e : E) :
  wp (ccat_eth_init_netdev priv) e (fun '(r, p) _ _ =>
    match p with Some priv' => r = 0 /\ priv' = priv | None => r <> 0 end).
Proof.
  unfold ccat_eth_init_netdev. wp_run. eapply wp_conseq; [apply ioread_bytes_any|].
  intros l t e1 _. wp_run. destruct (istrue _); cbn [negb]; wp_run; [|done].
  apply wp_istrue; intros Hst; wp_run; [|done].
  eapply wp_conseq; [apply priv_free_returns|]. intros p t' e' _. by wp_run.
Qed.

(** A successful probe of the EIM variant leaves a device as the bound above needs it. *)
Lemma ccat_eth_eim_probe_establishes func (e : E) :
  wp (ccat_eth_eim_probe func) e (fun '(r, p) _ _ =>
    match p with
    | None => r <> 0
    | Some priv => r = 0 /\
        (p_netdev priv = dev -> r_mac (p_reg priv) = mac -> f_reg (tx_fifo priv) = reg -> eim_ok priv)
    end).
Proof.
  unfold ccat_eth_eim_probe, ccat_eth_alloc_netdev, ccat_eth_priv_init_reg. wp_run.
  apply wp_null; intros Hnd; wp_run; [done|].
  eapply wp_conseq; [apply ioread_bytes_any|]. intros l t0 e0 _. wp_run.
  unfold ccat_eth_priv_init_eim, fifo_set_end. wp_run.
  eapply wp_conseq; [by apply reset_spec|]. intros rx t1 e1 [-> _]. wp_run.
  eapply wp_conseq; [by apply reset_spec|]. intros tx t2 e2 [-> _].
  unfold ccat_hw_disable_mac_filter. wp_run.
  eapply wp_conseq; [apply init_netdev_same|]. intros [r [p|]] t4 e4; [|done].
  intros [-> ->]. split; [done|]. intros Hdev Hmac Hreg. split; [done | done | | done].
  split; [done|]. rewrite <- Hreg. simpl. lia.
Qed.

End Eim.

(** ** Witness: a link that comes up while the FIFO holds a frame *)

Record eim_world := EW { ew_awake : bool; ew_carrier : bool; ew_level : Z }.

Definition eim_env : Env eim_world := fun c w =>
  match c with
  | Kernel (NetifStopQueue 5) => (Resp 0 0, EW false (ew_carrier w) (ew_level w))
  | Kernel (NetifStartQueue 5) | Kernel (NetifWakeQueue 5) => (Resp 0 0, EW true (ew_carrier w) (ew_level w))
  | Kernel (NetifCarrierOn 5) => (Resp 0 0, EW (ew_awake w) true (ew_level w))
  | Kernel (NetifCarrierOff 5) => (Resp 0 0, EW (ew_awake w) false (ew_level w))
  | Kernel (NetifCarrierOk _) => (Resp (b2z (ew_carrier w)) 0, w)
  | Kernel (DevAllocSkb _) => (Resp 0x900 0, w)
  | IoRead W8 0x220 => (Resp (ew_level w) 0, w)
  | IoRead W32 _ => (Resp (2 ^ 24) 0, w)
  | IoWrite W32 0x500 _ => (Resp 0 0, EW (ew_awake w) (ew_carrier w) 1)
  | _ => (Resp 0 0, w)
  end.

#[export] Instance eim_env_kernel : @NetKernel eim_world eim_env 5.
Proof.
  unshelve refine (@Build_NetKernel _ eim_env 5 ew_awake ew_carrier _ _ _ _ _ _ _ _); try done.
  - intros w. simpl. by destruct (ew_carrier w).
  - intros w c Hc. unfold ext, eim_env. repeat case_match; simpl in *; done.
  - intros w c Hc. unfold ext, eim_env. repeat case_match; simpl in *; done.
Defined.

#[export] Instance eim_env_tx : @EimTx eim_world eim_env 0x200 0x500.
Proof.
  unshelve refine (@Build_EimTx _ eim_env 0x200 0x500 (fun w => negb (istrue (Z.land (u8 (ew_level w)) 0x3F))) _ _).
  - intros w. simpl. by rewrite negb_involutive.
  - intros w c Hc. unfold ext, eim_env. repeat case_match; simpl in *; subst; done || naive_solver.
Defined.

Definition eim_priv : ccat_eth_priv :=
  Priv net_func 5 (EthReg 0x100 0x200 0x300 0x400 0x600)
    (Fifo eim_rx_fifo_ops 0x20000 0x510 0 0 no_dma_mem 0x20000 0x20000) (small_fifo eim_tx_fifo_ops).

Lemma eim_priv_ok : @eim_ok 5 0x200 0x500 eim_priv.
Proof. by split. Qed.

(** The run: the link comes up, and then the kernel transmits. *)
Definition after_link_up := poll_front (H := eim_env) 0 eim_priv (EW false false 0).
Definition linked : ccat_eth_priv * eim_world :=
  match after_link_up with (Ret p, _, w) => (p, w) | (_, _, w) => (eim_priv, w) end.
Definition after_xmit := ccat_eth_start_xmit (H := eim_env) (small_skb 60) linked.1 linked.2.
Definition refused : ccat_eth_priv * eim_world :=
  match after_xmit with (Ret (_, p), _, w) => (p, w) | (_, _, w) => (eim_priv, w) end.

Lemma link_up_then_busy :
  @eim_run eim_world eim_env 5 0x200 0x500 _ _ 0 (Race eim_priv (EW false false 0) PollIdle) 1 1 0
    (Race refused.1 refused.2 PollIdle).
Proof.
  assert (Hp : after_link_up = (Ret linked.1, after_link_up.1.2, linked.2)) by (vm_compute; reflexivity).
  assert (Hx : after_xmit = (Ret (NETDEV_TX_BUSY, refused.1), after_xmit.1.2, refused.2))
    by (vm_compute; reflexivity).
  apply (er_more 0 _ 0 1 0 (Race linked.1 linked.2 PollIdle) 1 0 0); [exact (es_front 0 _ _ _ _ _ Hp)|].
  apply (er_more 0 _ 1 0 0 (Race refused.1 refused.2 PollIdle) 0 0 0); [|apply er_done].
  refine (es_xmit 0 (small_skb 60) _ _ PollIdle _ _ _ _ _ Hx). vm_compute. reflexivity.
Qed.

Lemma ccat_eth_eim_busy_bound_witness :
  (1 <= 1 + 0)%nat /\ exists r p t w,
    ccat_eth_start_xmit (H := eim_env) (small_skb 60) refused.1 refused.2 = (Ret (r, p), t, w).
Proof.
  destruct (ccat_eth_eim_busy_bound (H := eim_env) (dev := 5) (mac := 0x200) (reg := 0x500) 0
    eim_priv (EW false false 0) 1 1 0 refused.1 refused.2 PollIdle eim_priv_ok) as (Hle & Hx & _).
  - intros Ha. discriminate Ha.
  - exact link_up_then_busy.
  - split; [exact Hle|]. destruct (wp_elim _ _ _ (Hx (small_skb 60))) as ([r p] & t & w & Hrun & _).
    exists r, p, t, w. exact Hrun.
Defined.
