(* ===== verification/NetEimRx.v ===== *)
(** * Reception over the EIM bus

    The RX side of the EIM variant is a mailbox of one frame in the memory of the FPGA: a length
    other than 0 announces a frame, writing 0 to it asks for the next one.  Against that interface
    a look at the mailbox moves the frames the FPGA holds to the network stack: none is repeated or
    overtaken, however many arrive meanwhile, and only those for which the kernel has no buffer
    are lost, which the driver counts. *)

From S2P Require Import Prelude IO Info NetFifo Netdev NetTx NetRx.

(** ** Interface *)

Definition no_store (c : call) : Prop :=
  match c with IoWrite _ _ _ | MemWrite _ _ _ => False | _ => True end.

(** The frames the FPGA holds for the CPU: the first is in the mailbox at [base], with a length that
    counts the header; giving it back brings the next one, and frames may arrive at any time. *)
Class EimRx (E : Type) `{Env E} (base : Z) := {
  held : E -> list (list Z);
  er_length : forall e, u16 (r_val (ext (IoRead W16 (base + eim_length)) e).1) =
    match held e with [] => 0 | p :: _ => zlen p + sizeof_eim_hdr end;
  er_data : forall e p l k b, held e = p :: l -> p !! k = Some b ->
    u8 (r_val (ext (MemRead W8 (base + sizeof_eim_hdr + Z.of_nat k)) e).1) = b;
  er_fits : forall e, Forall (fun p => 0 < zlen p <= MAX_PAYLOAD_SIZE) (held e);
  er_next : forall e, tail (held e) `prefix_of` held (ext (IoWrite W16 base 0) e).2;
  er_arrive : forall e c, no_store c -> held e `prefix_of` held (ext c e).2;
}.
Arguments held {E _} base {_} e.

(** How often a run gave the mailbox back. *)
Definition returned (base : Z) (t : list event) : nat :=
  length (omap (fun ev => match ev_call ev with
                          | IoWrite W16 a v => if (a =? base) && (v =? 0) then Some tt else None
                          | _ => None end) t).

Lemma returned_app base t t' : returned base (t ++ t') = (returned base t + returned base t')%nat.
Proof. unfold returned. by rewrite omap_app, length_app. Qed.

Section EimRx.
Context {E : Type} `{Env E} {base : Z} `{!EimRx E base}.
Local Abbreviation hld := (held base).

(** Frames only arrive. *)
Definition grows (e e' : E) : Prop := hld e `prefix_of` hld e'.

#[global] Instance grows_preorder : PreOrder grows.
Proof. split; [intros e; unfold grows; done | intros e1 e2 e3; unfold grows; apply transitivity]. Qed.

(** An RX FIFO of the EIM variant: a ring of one frame. *)
Definition mailbox (f : ccat_eth_fifo) : Prop :=
  ops f = eim_rx_fifo_ops /\ start f = base /\ next f = base /\ f_end f = base.

Lemma mailbox_inc f : mailbox f -> ccat_eth_fifo_inc f = f.
Proof.
  intros (Ho & Hs & Hn & He). unfold ccat_eth_fifo_inc. rewrite He, Hn, Hs.
  assert (sizeof_frame = 2048) by done. destruct (Z.ltb_spec base (base + sizeof_frame)); [|lia].
  rewrite <- Hn. by destruct f.
Qed.

Definition silent (t : list event) : Prop := handed t = [] /\ returned base t = 0%nat /\ buffers t = [].

Lemma silent_app t t' : silent t -> silent t' -> silent (t ++ t').
Proof.
  intros (H1 & H2 & H3) (H4 & H5 & H6). split_and!;
    [by rewrite handed_app, H1, H4 | rewrite returned_app; lia | by rewrite buffers_app, H3, H6].
Qed.

(** The [ready] callback. *)
Lemma mailbox_ready mac f (e : E) :
  mailbox f ->
  wp (ops_ready mac f) e (fun len t e' => grows e e' /\ silent t /\
    len = match hld e with [] => 0 | p :: _ => zlen p end).
Proof.
  intros (Ho & _ & Hn & _). unfold ops_ready. rewrite Ho. unfold fifo_eim_rx_ready. rewrite Hn. wp_run.
  untrunc. split; [by apply er_arrive|]. split; [done|]. rewrite er_length.
  destruct (hld e) as [|p l] eqn:Hh; [done|]. pose proof (zlen_nonneg p). unfold sizeof_eim_hdr.
  destruct (Z.ltb_spec (zlen p + 16) 16); lia.
Qed.

Lemma head_grows e e' p l : hld e = p :: l -> grows e e' -> exists l', hld e' = p :: l'.
Proof. intros Hp [l' Hg]. rewrite Hg, Hp. by eexists. Qed.

Lemma memread_mailbox p k o (e : E) :
  (exists l, hld e = p :: l) -> (o + k <= length p)%nat ->
  wp (memread_bytes (base + sizeof_eim_hdr + Z.of_nat o) k) e (fun x t e' =>
    x = take k (drop o p) /\ grows e e' /\ silent t).
Proof.
  revert o e. induction k as [|k IH]; intros o e [l Hp] Ho; simpl; wp_run; [by split_and!|]. untrunc.
  destruct (lookup_lt_is_Some_2 p o) as [b Hb]; [lia|]. rewrite (er_data _ p l _ b) by done.
  set (c := MemRead W8 _). assert (Hk : grows e (ext c e).2) by by apply er_arrive.
  replace (base + sizeof_eim_hdr + Z.of_nat o + 1) with (base + sizeof_eim_hdr + Z.of_nat (S o)) by lia.
  eapply wp_conseq; [apply IH; [by eapply head_grows | lia]|]. intros x t e' (-> & Hk' & Hs). wp_run.
  split_and!.
  - by rewrite (drop_S p b o Hb).
  - by etrans.
  - rewrite app_nil_r. by apply (silent_app [_] t).
Qed.

Lemma receive_mailbox ip priv p l (e : E) :
  mailbox (rx_fifo priv) -> hld e = p :: l ->
  wp (ccat_eth_receive ip priv (zlen p)) e (fun priv' t e' => exists b,
    priv' = set_rx_fifo (counted b p (rx_fifo priv)) priv /\ buffers t = [b] /\
    grows e e' /\ handed t = kept [b] [p] /\ returned base t = 0%nat).
Proof.
  intros (Ho & _ & Hn & _) Hp. unfold ccat_eth_receive. wp_run.
  match goal with |- context [ext ?c e] => assert (Hk : grows e (ext c e).2) by (by apply er_arrive);
    set (e1 := (ext c e).2) in *; set (r := (ext c e).1) in * end.
  apply wp_null; intros Hz; [wp_run; exists false; split_and!; try done; simpl; by rewrite Hz|].
  apply wp_bind. unfold ops_copy_to_skb. rewrite Ho. unfold fifo_eim_copy_to_linear_skb. rewrite Hn.
  rewrite <- (Z.add_0_r (base + sizeof_eim_hdr)). unfold zlen at 1. rewrite Nat2Z.id.
  eapply wp_conseq; [apply (memread_mailbox p (length p) 0); [by eapply head_grows | done]|].
  intros x t e2 (-> & Hk2 & (Hh & Hr & Hbu)). wp_run. rewrite drop_0, take_ge by done. exists true.
  split_and!; [done | | | |].
  - rewrite !buffers_app, Hbu. simpl. by zknown.
  - etrans; [exact Hk|]. etrans; [exact Hk2|]. by apply er_arrive.
  - rewrite !handed_app, Hh. done.
  - rewrite !returned_app, Hr. done.
Qed.

(** Giving the frame back. *)
Lemma mailbox_add f (e : E) :
  mailbox f ->
  wp (ops_add f) e (fun _ t e' => tail (hld e) `prefix_of` hld e' /\
    handed t = [] /\ buffers t = [] /\ returned base t = 1%nat).
Proof.
  intros (Ho & _ & Hn & _). unfold ops_add. rewrite Ho. unfold fifo_eim_rx_add. rewrite Hn. wp_run. untrunc.
  change (u16 0) with 0. split_and!; [|done | done |].
  - etrans; [apply er_next | by apply er_arrive].
  - unfold returned. simpl. by rewrite Z.eqb_refl.
Qed.

(** ** The loop *)

(** What a run did that took [d] out of the mailbox: with the frames [l] that arrived meanwhile,
    those held before are those taken followed by those held after. *)
Definition collected (priv priv' : ccat_eth_priv) (d : list (list Z)) (t : list event) (e e' : E) : Prop :=
  length (buffers t) = length d /\ handed t = kept (buffers t) d /\
  returned base t = length d /\ mailbox (rx_fifo priv') /\
  bytes (rx_fifo priv') = u64 (bytes (rx_fifo priv) + total (handed t)) /\
  dropped (rx_fifo priv') = u64 (dropped (rx_fifo priv) + (zlen d - zlen (handed t))) /\
  priv' = set_rx_fifo (rx_fifo priv') priv /\
  exists l, hld e ++ l = d ++ hld e'.

Lemma collected_nil priv t e e' :
  mailbox (rx_fifo priv) -> counts (rx_fifo priv) -> silent t -> grows e e' ->
  collected priv priv [] t e e'.
Proof.
  intros Hf [Hb Hd] (Hh & Hr & Hbu) [l Hl]. unfold collected. rewrite Hh, Hbu. unfold total, zlen. simpl.
  rewrite !Z.add_0_r, !u64_small by done.
  split_and!; try done; [by destruct priv | by exists l].
Qed.

Lemma collected_cons priv f1 priv' b p l d t1 t2 t3 t e e3 e' :
  bytes f1 = bytes (counted b p (rx_fifo priv)) -> dropped f1 = dropped (counted b p (rx_fifo priv)) ->
  buffers t1 = [b] -> handed t1 = kept [b] [p] -> returned base t1 = 0%nat ->
  buffers t2 = [] -> handed t2 = [] -> returned base t2 = 1%nat -> silent t3 ->
  hld e = p :: l -> l `prefix_of` hld e3 ->
  collected (set_rx_fifo f1 priv) priv' d t e3 e' ->
  collected priv priv' (p :: d) (t1 ++ t2 ++ t3 ++ t) e e'.
Proof.
  intros Hby Hdr Hb1 Hh1 Hr1 Hb2 Hh2 Hr2 (Hh3 & Hr3 & Hb3) He [y Hy] (Hl & Hh & Hr & Hm & Hb & Hd & Hp & x & Hx).
  simpl in *. unfold collected.
  rewrite !handed_app, !returned_app, !buffers_app, Hb1, Hb2, Hb3, Hh1, Hh2, Hh3, Hr1, Hr2, Hr3, Hr.
  cbn [app]. split_and!; try done.
  - simpl. by rewrite Hl.
  - rewrite Hh. by destruct b.
  - rewrite Hb, Hby, total_app. destruct b; simpl; [|by rewrite Z.add_0_l].
    rewrite total_cons. change (total []) with 0. unfold u64. rewrite Z.add_mod_idemp_l by lia. f_equal. lia.
  - rewrite Hd, Hdr. unfold zlen. destruct b; simpl; [f_equal; lia|].
    unfold u64. rewrite Z.add_mod_idemp_l by lia. f_equal. lia.
  - exists (y ++ x). rewrite He. simpl. by rewrite app_assoc, <- Hy, Hx.
Qed.

Lemma prefix_tail {A} (w l : list A) p : w `prefix_of` p :: l -> tail w `prefix_of` l.
Proof. destruct w as [|q w]; [intros _; apply prefix_nil | apply prefix_cons_inv_2]. Qed.

Lemma poll_rx_loop_collects ip m priv len w (e : E) :
  mailbox (rx_fifo priv) -> counts (rx_fifo priv) -> (0 < m)%nat -> w `prefix_of` hld e ->
  (len = 0 /\ w = [] \/ exists p l, hld e = p :: l /\ len = zlen p) ->
  wp (poll_rx_loop ip m priv len) e (fun priv' t e' =>
    exists d, (length d < m)%nat /\ ((S (length d) < m)%nat -> w `prefix_of` d) /\
      collected priv priv' d t e e').
Proof.
  revert priv len w e. induction m as [|[|m] IH]; intros priv len w e Hf Hb Hm Hw Hlen; [lia| |]; cbn [poll_rx_loop].
  { wp_run. exists []. split; [simpl; lia|]. split; [simpl; lia | by apply collected_nil]. }
  destruct Hlen as [[-> ->]|(p & l & Hp & ->)].
  { wp_run. exists []. split; [simpl; lia|]. split; [done | by apply collected_nil]. }
  pose proof (er_fits e) as Hfit. rewrite Hp in Hfit. apply Forall_cons in Hfit as [Hfit _].
  rewrite istrue_nz by lia. apply wp_bind.
  eapply wp_conseq; [by apply (receive_mailbox _ _ p l)|]. intros p1 t1 e1 (b & -> & Hb1 & Hg1 & Hh1 & Hr1).
  apply wp_bind. set (f1 := counted b p (rx_fifo priv)).
  assert (Hf1 : mailbox f1) by (unfold f1; by destruct b).
  eapply wp_conseq; [by apply mailbox_add|]. intros ? t2 e2 (Hn2 & Hh2 & Hb2 & Hr2). apply wp_bind.
  change (rx_fifo (set_rx_fifo f1 priv)) with f1. rewrite (mailbox_inc f1 Hf1).
  eapply wp_conseq; [by apply mailbox_ready|]. intros len' t3 e3 (Hg3 & Hs3 & Hlen').
  assert (Hl2 : l `prefix_of` hld e2).
  { destruct Hg1 as [y Hy]. rewrite Hp in Hy. rewrite Hy in Hn2. simpl in Hn2. etrans; [|exact Hn2]. by eexists. }
  assert (Hl3 : l `prefix_of` hld e3) by (etrans; [exact Hl2 | exact Hg3]).
  rewrite Hp in Hw. pose proof (prefix_tail _ _ _ Hw) as Hwl.
  eapply wp_conseq; [apply (IH _ len' (tail w)); [done | by apply counted_counts | lia | by etrans |]|].
  - destruct (hld e2) as [|q l2] eqn:Hq; [left | right; destruct (head_grows _ _ _ _ Hq Hg3) as [l3 Hl3']; eauto].
    split; [done|]. apply prefix_nil_inv. by etrans.
  - intros p4 t4 e4 (d & Hd & Hall & Hcol). exists (p :: d). split; [simpl; lia|]. split.
    + intros Hlt. destruct w as [|q w]; [apply prefix_nil|]. rewrite (prefix_cons_inv_1 _ _ _ _ Hw).
      apply prefix_cons, Hall. simpl in Hlt. lia.
    + by apply (collected_cons priv f1 p4 b p l d t1 t2 t3 t4 e e3 e4).
Qed.

(** C33: reception over the EIM bus.  A look at the mailbox takes frames [d] from the FPGA, in the
    order in which the FPGA received them: those held before, followed by those that arrived
    meanwhile, are those taken followed by those held afterwards.  At most 31 are taken, and unless
    it is 31 all that were held at the start are.  The kernel is asked for one buffer per frame; the
    frames that get one are handed to the network stack, complete and in order, and count with their
    bytes, the others count as dropped; so all are handed over when memory suffices.  The mailbox is
    given back once per frame taken. *)
Theorem poll_rx_eim_delivers ip priv (e : E) :
  mailbox (rx_fifo priv) -> counts (rx_fifo priv) ->
  wp (poll_rx ip priv) e (fun priv' t e' => exists d l,
    hld e ++ l = d ++ hld e' /\ (length d <= 31)%nat /\
    ((length d < 31)%nat -> hld e `prefix_of` d) /\
    length (buffers t) = length d /\ handed t = kept (buffers t) d /\
    (Forall (eq true) (buffers t) -> handed t = d) /\ returned base t = length d /\
    mailbox (rx_fifo priv') /\ bytes (rx_fifo priv') = u64 (bytes (rx_fifo priv) + total (handed t)) /\
    dropped (rx_fifo priv') = u64 (dropped (rx_fifo priv) + (zlen d - zlen (handed t)))).
Proof.
  intros Hf Hb. unfold poll_rx. apply wp_bind. eapply wp_conseq; [by apply mailbox_ready|].
  intros len t1 e1 (Hg & (Hh1 & Hr1 & Hb1) & Hlen). pose proof Hg as [y Hy].
  change (Z.to_nat (FIFO_LENGTH / 2)) with 32%nat.
  eapply wp_conseq; [apply (poll_rx_loop_collects _ _ _ len (hld e)); [done | done | lia | done |]|].
  - destruct (hld e) as [|p l] eqn:Hp; [by left | right]. destruct (head_grows _ _ _ _ Hp Hg) as [l' Hl']. eauto.
  - intros priv' t e' (d & Hd & Hall & Hbl & Hh & Hr & Hm & Hby & Hdr & _ & x & Hx). exists d, (y ++ x).
    rewrite handed_app, returned_app, buffers_app, Hh1, Hr1, Hb1, Hr, app_assoc, <- Hy. cbn [app].
    split_and!; try done; [lia | intros Hlt; apply Hall; lia |]. intros Ht. rewrite Hh. by apply kept_all.
Qed.

(** The probe sets the mailbox up. *)
Lemma init_eim_mailbox priv (e : E) :
  r_rx_mem (p_reg priv) = base ->
  wp (ccat_eth_priv_init_eim priv) e (fun '(_, priv') _ _ => mailbox (rx_fifo priv')).
Proof.
  intros Hbase. unfold ccat_eth_priv_init_eim, fifo_set_end. wp_run.
  eapply wp_conseq; [by apply reset_spec|]. intros rx t1 e1 [-> _]. wp_run.
  eapply wp_conseq; [by apply reset_spec|]. intros tx t2 e2 [-> _].
  unfold ccat_hw_disable_mac_filter. wp_run. unfold mailbox. simpl. split_and!; [done..|]. lia.
Qed.

End EimRx.

(** ** Witness: an FPGA that holds [n] frames, numbered backwards; every other one finds a buffer *)

Definition eim_frame (k : nat) : list Z := [u8 (Z.of_nat k); 0xAA].
Fixpoint eim_frames (n : nat) : list (list Z) :=
  match n with O => [] | S k => eim_frame k :: eim_frames k end.

Definition eim_rx_env : Env nat := fun c n =>
  match c with
  | IoRead W16 0x20000 => (Resp (match n with O => 0 | S _ => 18 end) 0, n)
  | IoWrite W16 0x20000 0 => (Resp 0 0, Nat.pred n)
  | MemRead W8 a => (Resp (nth (Z.to_nat (a - 0x20010)) (eim_frame (Nat.pred n)) 0) 0, n)
  | Kernel (DevAllocSkb _) => (Resp (if Nat.even n then 0x900 else 0) 0, n)
  | _ => (Resp 0 0, n)
  end.

#[export] Instance eim_rx_env_box : @EimRx nat eim_rx_env 0x20000.
Proof.
  unshelve refine (@Build_EimRx _ eim_rx_env 0x20000 eim_frames _ _ _ _ _).
  - by intros [|k].
  - intros [|k] p l j b Hp Hj; simplify_eq/=. replace (Z.to_nat _) with j by (unfold sizeof_eim_hdr; lia).
    destruct j as [|[|j]]; simplify_eq/=; [apply u8_small, u8_byte | done].
  - intros n. change MAX_PAYLOAD_SIZE with 2024. induction n as [|k IH]; constructor; [unfold zlen; simpl; lia | done].
  - by intros [|k].
  - intros n c Hc. unfold ext, eim_rx_env. repeat case_match; simpl in *; done.
Defined.

Definition eim_rx_priv : ccat_eth_priv :=
  Priv net_func 5 (EthReg 0x100 0x200 0x20000 0x400 0x600)
    (Fifo eim_rx_fifo_ops 0x20000 0x510 0 0 no_dma_mem 0x20000 0x20000) (small_fifo eim_tx_fifo_ops).

(** Forty frames: 31 are taken, the others stay; 16 of the 31 are handed over. *)
Lemma poll_rx_eim_delivers_witness :
  exists p t n, poll_rx (H := eim_rx_env) 2 eim_rx_priv 40%nat = (Ret p, t, n) /\
    exists d l, eim_frames 40 ++ l = d ++ eim_frames n /\ (length d <= 31)%nat /\
      handed t = kept (buffers t) d.
Proof.
  pose proof (poll_rx_eim_delivers (H := eim_rx_env) (base := 0x20000) 2 eim_rx_priv 40%nat) as Hw.
  apply wp_elim in Hw as (p & t & n & Hrun & d & l & Hc & Hd & _ & _ & Hh & _); [|by split_and! | split; simpl; lia].
  exists p, t, n. split; [exact Hrun|]. exists d, l. split; [exact Hc|]. split; [exact Hd | exact Hh].
Defined.

Example poll_rx_eim_run :
  let '(_, t, n) := poll_rx (H := eim_rx_env) 2 eim_rx_priv 40%nat in
  handed t = kept (buffers t) (take 31 (eim_frames 40)) /\ length (handed t) = 16%nat /\ n = 9%nat.
Proof. vm_compute. split_and!; reflexivity. Qed.
