(* ===== verification/System.v ===== *)
(** * The drivers together: sub-devices on the platform bus

    The core driver asks for one sub-device per function of the FPGA; the platform bus gives each
    to the driver of the same name, by calling that driver's [probe], and takes it away with its
    [remove].  Here are the tables of the six drivers ([struct platform_driver]), the static data
    of their modules, and the sequences of calls the bus can make.  The bus is the kernel's: what
    is used of it is that it binds a sub-device to the driver with its name, removes only
    sub-devices whose probe returned 0, and runs one probe or remove of a module at a time. *)

From S2P Require Import Prelude IO Info Cdev Sram Update Gpio Systemtime Core NetFifo Netdev NetProbe.

(** ** The drivers *)

Inductive platform_driver :=
  | ccat_eth_eim_driver | ccat_eth_dma_driver | gpio_driver
  | update_driver | sram_driver | systemtime_driver.

#[export] Instance platform_driver_eq_dec : EqDecision platform_driver.
Proof. solve_decision. Defined.

Definition drivers : list platform_driver :=
  [ccat_eth_eim_driver; ccat_eth_dma_driver; gpio_driver; update_driver; sram_driver; systemtime_driver].

(** The static data of the modules: the [cdev_class] of the update and of the SRAM driver and the
    number of the next clock. *)
Record statics := Statics { update_cdevs : ccat_class; sram_cdevs : ccat_class; clock_cnt : Z }.

Definition set_update (c : ccat_class) (s : statics) := Statics c (sram_cdevs s) (clock_cnt s).
Definition set_sram (c : ccat_class) (s : statics) := Statics (update_cdevs s) c (clock_cnt s).
Definition set_clock (n : Z) (s : statics) := Statics (update_cdevs s) (sram_cdevs s) n.

(** The two static [cdev_class], before the first probe. *)
Definition update_cdev_class : ccat_class := fresh_class CCAT_DEVICES_MAX "ccat_update".
Definition sram_cdev_class : ccat_class := fresh_class CCAT_SRAM_DEVICES_MAX "ccat_sram".

Definition statics_start : statics := Statics update_cdev_class sram_cdev_class 0.

(** [func->private_data] of a probed sub-device. *)
Inductive private :=
  | PSlot (i : nat)
  | PGpio (g : ccat_gpio)
  | PClock (s : ccat_systemtime)
  | PEth (p : ccat_eth_priv).

(** [struct platform_driver]: the name, [.probe] and [.remove].  A remove finds its data in
    [func->private_data]; NULL, or the data of another driver, is a fault. *)
Record driver_ops (E : Type) := Driver {
  op_name : string;
  op_probe : ccat_function -> statics -> M E (Z * statics * option private);
  op_remove : option private -> statics -> M E statics;
}.
Arguments Driver {E} _ _ _.
Arguments op_name {E} _.
Arguments op_probe {E} _ _ _.
Arguments op_remove {E} _ _ _.

Section Drivers.
Context {E : Type} `{Env E}.

Definition eth_eim_ops : driver_ops E :=
  Driver "ccat_eth_eim"
    (fun func st => '(r, p) ← ccat_eth_eim_probe func; mret (r, st, PEth <$> p))
    (fun data st => match data with Some (PEth p) => ccat_eth_eim_remove p ;; mret st | _ => oops end).

Definition eth_dma_ops : driver_ops E :=
  Driver "ccat_eth_dma"
    (fun func st => '(r, p) ← ccat_eth_dma_probe func; mret (r, st, PEth <$> p))
    (fun data st => match data with Some (PEth p) => ccat_eth_dma_remove p ;; mret st | _ => oops end).

(** [size] is [sizeof(struct ccat_gpio)] *)
Definition gpio_ops (size : Z) : driver_ops E :=
  Driver "ccat_gpio"
    (fun func st => '(r, g) ← ccat_gpio_probe size func; mret (r, st, PGpio <$> g))
    (fun data st => match data with Some (PGpio g) => ccat_gpio_remove g ;; mret st | _ => oops end).

Definition update_ops : driver_ops E :=
  Driver "ccat_update"
    (fun func st => '(r, c, i) ← ccat_update_probe func (update_cdevs st); mret (r, set_update c st, PSlot <$> i))
    (fun data st => match data with
       | Some (PSlot i) => c ← ccat_cdev_remove (Some i) (update_cdevs st); mret (set_update c st)
       | _ => oops end).

Definition sram_ops : driver_ops E :=
  Driver "ccat_sram"
    (fun func st => '(r, c, i) ← ccat_sram_probe func (sram_cdevs st); mret (r, set_sram c st, PSlot <$> i))
    (fun data st => match data with
       | Some (PSlot i) => c ← ccat_cdev_remove (Some i) (sram_cdevs st); mret (set_sram c st)
       | _ => oops end).

(** [size] is [sizeof(struct ccat_systemtime)] *)
Definition systemtime_ops (size : Z) : driver_ops E :=
  Driver "ccat_systemtime"
    (fun func st => '(r, n, s) ← ccat_systemtime_probe size func (clock_cnt st);
       mret (r, set_clock n st, PClock <$> s))
    (fun data st => match data with Some (PClock s) => ccat_systemtime_remove s ;; mret st | _ => oops end).

Context (gpio_size time_size : Z).

Definition ops_of (d : platform_driver) : driver_ops E :=
  match d with
  | ccat_eth_eim_driver => eth_eim_ops
  | ccat_eth_dma_driver => eth_dma_ops
  | gpio_driver => gpio_ops gpio_size
  | update_driver => update_ops
  | sram_driver => sram_ops
  | systemtime_driver => systemtime_ops time_size
  end.

Definition driver_probe (d : platform_driver) := op_probe (ops_of d).
Definition driver_remove (d : platform_driver) := op_remove (ops_of d).

(** ** The bus *)

(** The driver the bus finds for a sub-device: as the platform bus documents it, the first whose name
    is that of the sub-device. *)
Definition bus_match (name : string) : option platform_driver :=
  head (filter (fun d => op_name (ops_of d) = name) drivers).

End Drivers.

Inductive binding := Unbound | Bound (data : option private).

Record cell := Cell { c_driver : platform_driver; c_func : ccat_function; c_state : binding }.

Definition set_state (b : binding) (c : cell) : cell := Cell (c_driver c) (c_func c) b.

(** The functions a driver is for. *)
Definition driver_type (d : platform_driver) : ccat_info_t :=
  match d with
  | ccat_eth_eim_driver => CCATINFO_ETHERCAT_NODMA
  | ccat_eth_dma_driver => CCATINFO_ETHERCAT_MASTER_DMA
  | gpio_driver => CCATINFO_GPIO
  | update_driver => CCATINFO_EPCS_PROM
  | sram_driver => CCATINFO_SRAM
  | systemtime_driver => CCATINFO_SYSTEMTIME
  end.

Definition function_cell (ccatdev : ccat_device) (bytes : list Z) : option cell :=
  let info := info_of_bytes bytes in
  (fun d => Cell d (Function_ ccatdev info) Unbound) <$>
    head (filter (fun d => info_code (driver_type d) = i_type info) drivers).

Lemma omap_omap {A B C} (f : A -> option B) (g : B -> option C) (l : list A) :
  omap g (omap f l) = omap (fun x => f x ≫= g) l.
Proof.
  induction l as [|x l IH]; simpl; [done|]. destruct (f x) as [y|]; simpl; [|exact IH].
  destruct (g y); [by f_equal | exact IH].
Qed.

Section Dispatch.
Context {E : Type} `{Env E} (gpio_size time_size : Z).
Local Abbreviation bus_match := (bus_match gpio_size time_size).

(** The sub-devices a scan created, in the order it asked for them. *)
Definition bus_cells (ccatdev : ccat_device) (t : list event) : list cell :=
  omap (fun ev => match ev_call ev with
    | Kernel (MfdAddDevices _ name l) =>
        if r_val (ev_resp ev) <? 0 then None
        else (fun d => Cell d (Function_ ccatdev (info_of_bytes l)) Unbound) <$> bus_match name
    | _ => None end) t.

(** The name in the table of cells leads to the driver of the type. *)
Lemma wanted_cell ccatdev bytes :
  (x ← wanted bytes; (fun d => Cell d (Function_ ccatdev (info_of_bytes x.2)) Unbound) <$> bus_match x.1) =
  function_cell ccatdev bytes.
Proof.
  unfold wanted, function_cell, block_type, cell_name, ccat_cells, drivers.
  set (ty := i_type (info_of_bytes bytes)).
  destruct (decide (Exists (fun d => ty = info_code (driver_type d)) drivers)) as [Hin|Hout].
  - unfold drivers in Hin. rewrite !Exists_cons, Exists_nil in Hin.
    destruct Hin as [Ht|[Ht|[Ht|[Ht|[Ht|[Ht|[]]]]]]]; rewrite Ht; reflexivity.
  - unfold drivers in Hout. rewrite !Exists_cons, Exists_nil in Hout.
    rewrite !filter_cons_False by (simpl in *; lia). done.
Qed.

Lemma bus_cells_subdevices d t :
  Forall (fun a => 0 <= a) (answers t) ->
  bus_cells d t = omap (fun x => (fun dr => Cell dr (Function_ d (info_of_bytes x.2)) Unbound) <$> bus_match x.1)
                    (subdevices t).
Proof.
  induction t as [|[c r] t IH]; [done|]. destruct c as [| | | | |[]]; try exact IH.
  intros [Hr Ht]%Forall_cons. specialize (IH Ht). simpl in Hr |- *. rewrite (proj2 (Z.ltb_ge _ _) Hr).
  destruct (bus_match name); [by f_equal | exact IH].
Qed.

(** C18: from the table of the FPGA to the drivers.  After a scan that reported no error and did
    not run out of memory, the bus hands every block of the table whose type has a driver to
    exactly that driver, in the order of the table, with the block's own contents, and nothing
    else: the names the core driver asks for and those the drivers register under agree. *)
Theorem ccat_functions_reach_drivers {io rom} `{!InfoRom E io rom} d (e : E) :
  bar_0 d = io ->
  wp (ccat_functions_init d) e (fun r t _ =>
    r = 0 -> ~ alloc_failed t ->
    bus_cells d t = omap (function_cell d) (blocks rom (Z.to_nat (rom 4)))).
Proof.
  intros Hio. eapply wp_conseq; [by apply functions_init_spec|].
  intros r t e' (k & _ & Hs & _ & Hend) Hr Hmem. destruct Hend as [(_ & Ha & [->|?])|(? & _)]; [|done|lia].
  rewrite bus_cells_subdevices, Hs, omap_omap by done. apply list_omap_ext, Forall_Forall2_diag, Forall_true.
  intros bytes. apply wanted_cell.
Qed.

End Dispatch.

(** ** Sequences of probes and removes *)

Record system := System { sys_statics : statics; sys_cells : list cell; sys_trace : list event }.

Definition sys_start : system := System statics_start [] [].

(** What failed probes of network devices leave behind: for each invalid MAC address the network
    device and its DMA memories, none or two, and the DMA memory at the device address 0. *)
Definition net_block (b : list net_resource) : Prop :=
  exists bases d, b = (NDma <$> bases) ++ [NNetdev d] /\ (length bases = 0%nat \/ length bases = 2%nat).

Definition left_behind (t : list event) (left : list net_resource) : Prop :=
  exists blocks, left ≡ₚ concat blocks ++ at_zero t /\ length blocks = bad_macs t /\ Forall net_block blocks.

Lemma left_nothing t : bad_macs t = 0%nat -> left_behind t (at_zero t).
Proof. intros Hb. exists []. by rewrite Hb. Qed.

Lemma left_none t left : bad_macs t = 0%nat -> at_zero t = [] -> left_behind t left -> left = [].
Proof.
  intros Hb Hz (blocks & Hp & Hl & _). rewrite Hb in Hl. apply length_zero_iff_nil in Hl as ->.
  rewrite Hz in Hp. by apply Permutation_nil_r in Hp.
Qed.

Lemma left_app t t' l l' : left_behind t l -> left_behind t' l' -> left_behind (t ++ t') (l ++ l').
Proof.
  intros (b & Hp & Hl & Hb) (b' & Hp' & Hl' & Hb'). exists (b ++ b').
  rewrite concat_app, at_zero_app, bad_macs_app, length_app, Hp, Hp'. split_and!; [|lia | by apply Forall_app].
  rewrite <- !app_assoc. apply Permutation_app_head. rewrite !app_assoc. apply Permutation_app_tail, Permutation_app_comm.
Qed.

#[local] Instance left_behind_proper t : Proper ((≡ₚ) ==> iff) (left_behind t).
Proof. intros l l' Hl. unfold left_behind. by setoid_rewrite Hl. Qed.

Lemma left_neutral t l t' : left_behind t l -> at_zero t' = [] /\ bad_macs t' = 0%nat -> left_behind (t ++ t') l.
Proof.
  intros Hl [Hz Hb]. rewrite <- (app_nil_r l). apply left_app; [done|]. rewrite <- Hz. by apply left_nothing.
Qed.

Section Bus.
Context {E : Type} `{Env E} (gpio_size time_size : Z).

(** A step of the bus: a new sub-device, a probe that returns, with success or an error, a remove,
    the end of an unbound sub-device. *)
Inductive sys_step : system -> system -> Prop :=
  | bus_add s d func :
      sys_step s (System (sys_statics s) (sys_cells s ++ [Cell d func Unbound]) (sys_trace s))
  | bus_probe s k c (e e' : E) r st' p t :
      sys_cells s !! k = Some c -> c_state c = Unbound ->
      driver_probe gpio_size time_size (c_driver c) (c_func c) (sys_statics s) e = (Ret (r, st', p), t, e') ->
      sys_step s (System st' (<[k := set_state (if r =? 0 then Bound p else Unbound) c]> (sys_cells s))
                    (sys_trace s ++ t))
  | bus_remove s k c p (e e' : E) st' t :
      sys_cells s !! k = Some c -> c_state c = Bound p ->
      driver_remove gpio_size time_size (c_driver c) p (sys_statics s) e = (Ret st', t, e') ->
      sys_step s (System st' (<[k := set_state Unbound c]> (sys_cells s)) (sys_trace s ++ t))
  | bus_del s k c :
      sys_cells s !! k = Some c -> c_state c = Unbound ->
      sys_step s (System (sys_statics s) (delete k (sys_cells s)) (sys_trace s)).

(** *** What a bound sub-device holds *)

(** Its slot in the table of its class. *)
Definition slot_of (d : platform_driver) (c : cell) : option nat :=
  match c_state c with
  | Bound (Some (PSlot i)) => if decide (c_driver c = d) then Some i else None
  | _ => None
  end.

(** Its network device. *)
Definition net_of (c : cell) : list net_resource :=
  match c_state c with Bound (Some (PEth p)) => eth_held p | _ => [] end.

(** Its private data is that of its driver. *)
Definition private_ok (d : platform_driver) (p : private) : bool :=
  match d, p with
  | ccat_eth_eim_driver, PEth _ | ccat_eth_dma_driver, PEth _ | gpio_driver, PGpio _
  | update_driver, PSlot _ | sram_driver, PSlot _ | systemtime_driver, PClock _ => true
  | _, _ => false
  end.

Definition cell_ok (c : cell) : Prop :=
  match c_state c with
  | Unbound => True
  | Bound p => exists x, p = Some x /\ private_ok (c_driver c) x = true
  end.

(** The class of the slots [sl]: as many instances, each slot in use, none twice. *)
Record class_held (base : ccat_class) (sl : list nat) : Prop := {
  ch_ok : class_ok base;
  ch_nodup : NoDup sl;
  ch_inst : instances base = Z.of_nat (length sl);
  ch_used : Forall (fun i => exists c, devices base !! i = Some c /\ dev c <> 0) sl;
}.

#[local] Instance class_held_proper base : Proper ((≡ₚ) ==> iff) (class_held base).
Proof.
  assert (Hone : forall l l', l ≡ₚ l' -> class_held base l -> class_held base l').
  { intros l l' Hp []. split; [done | by rewrite <- Hp | by rewrite <- Hp | by rewrite <- Hp]. }
  intros l l' Hp. split; apply Hone; [done | by symmetry].
Qed.

Lemma class_held_insert base base' sl i c x :
  class_held base sl -> class_ok base' -> instances base' = instances base ->
  devices base !! i = Some c -> dev c = 0 -> devices base' = <[i := x]> (devices base) ->
  class_held base' sl.
Proof.
  intros [] Hok' Hinst Hi Hc Hd. split; [done | done | congruence |].
  eapply Forall_impl; [exact ch_used0|]. intros j (y & Hj & Hy). exists y. split; [|done].
  rewrite Hd, list_lookup_insert_ne; [done|]. intros ->. rewrite Hi in Hj. congruence.
Qed.

Lemma cdev_probe_held func base size sl (e : E) :
  class_held base sl ->
  wlp (ccat_cdev_probe func base size) e (fun '(r, base', slot) t _ => registered t ->
    (r = 0 <-> is_Some slot) /\ class_held base' (option_list slot ++ sl)).
Proof.
  intros Hh. eapply wp_conseq; [apply (ccat_cdev_probe_spec func base size e), Hh|].
  intros [[r base'] [i|]] t e' Hspec Hreg; destruct (Hspec Hreg) as [Hok' Hs]; clear Hspec.
  - destruct Hs as (-> & Hinst & (c & Hi & Hc) & _ & Hd). destruct Hh as [Hok Hnd Hin Hus].
    split; [by split|]. assert (Hfree : i ∉ sl).
    { intros Hil. eapply Forall_forall in Hus as (y & Hy & Hne); [|exact Hil]. congruence. }
    simpl. split; [done | by constructor | simpl; lia |]. constructor.
    + eexists. rewrite Hd, list_lookup_insert_eq by (by eapply lookup_lt_Some). split; [done|]. simpl.
      pose proof (lookup_lt_Some _ _ _ Hi). pose proof (ok_len _ Hok). pose proof (ok_count _ Hok).
      apply MKDEV_nonzero; [|lia]. apply (ok_region _ Hok'). lia.
    + eapply Forall_impl; [exact Hus|]. intros j (y & Hj & Hy). exists y. split; [|done].
      rewrite Hd, list_lookup_insert_ne; [done|]. intros ->. congruence.
  - destruct Hs as [(-> & -> & _)|(-> & Hinst & i & c & x & Hi & Hc & _ & Hd)];
      (split; [split; [done | by intros []]|]); simpl; [done|]. by eapply class_held_insert.
Qed.

Lemma cdev_remove_held base i sl (e : E) :
  class_held base (i :: sl) ->
  wp (ccat_cdev_remove (Some i) base) e (fun base' _ _ => class_held base' sl).
Proof.
  intros [Hok [Hni Hnd]%NoDup_cons Hin Hus]. simpl in Hin. apply Forall_cons in Hus as [(c & Hi & Hc) Hus].
  eapply wp_conseq; [by apply (ccat_cdev_remove_spec base i c)|].
  intros base' t e' (Hok' & Hd & Hinst & _). split; [done | done | lia |].
  apply Forall_forall. intros j Hj. eapply Forall_forall in Hus as (y & Hy & Hne); [|exact Hj].
  exists y. split; [|done]. rewrite Hd, list_lookup_insert_ne; [done|]. by intros ->.
Qed.

(** *** One probe, one remove *)

(** Show the function a driver has in its table. *)
Ltac open_driver :=
  cbn [driver_probe driver_remove ops_of op_probe op_remove
       eth_eim_ops eth_dma_ops gpio_ops update_ops sram_ops systemtime_ops].

(** What the classes are used for. *)
Definition statics_held (st : statics) (su ss : list nat) : Prop :=
  class_held (update_cdevs st) su /\ class_held (sram_cdevs st) ss.

Lemma cdev_probe_neutral func base size : forall_calls neutral (ccat_cdev_probe func base size : M E _).
Proof.
  unfold ccat_cdev_probe, alloc_ccat_cdev, ccat_class_init, ccat_cdev_init, free_ccat_cdev, ccat_class_exit.
  by fc_run.
Qed.

Lemma cdev_remove_neutral slot base : forall_calls neutral (ccat_cdev_remove slot base : M E _).
Proof. unfold ccat_cdev_remove, free_ccat_cdev, ccat_class_exit. by fc_run. Qed.

(** The sub-device after a probe with the result [r] and the private data [p]. *)
Definition probed (d : platform_driver) (func : ccat_function) (r : Z) (p : option private) : cell :=
  Cell d func (if r =? 0 then Bound p else Unbound).

(** A probe adds what its sub-device holds to what is held; what is left behind comes on top. *)
Definition probe_adds (d : platform_driver) (func : ccat_function) (st : statics) su ss
    (res : Z * statics * option private) (t : list event) : Prop :=
  let '(r, st', p) := res in
  cell_ok (probed d func r p) /\
  statics_held st' (option_list (slot_of update_driver (probed d func r p)) ++ su)
                   (option_list (slot_of sram_driver (probed d func r p)) ++ ss) /\
  exists left, left_behind t left /\
    forall h, held_from net_hold h t = Some (net_of (probed d func r p) ++ left ++ h).

(** For the drivers without a network device. *)
Lemma neutral_adds t :
  Forall neutral (calls t) -> exists left, left_behind t left /\ forall h, held_from net_hold h t = Some (left ++ h).
Proof.
  intros Ht. destruct (neutral_silent _ Ht) as [Hz Hb]. exists [].
  split; [rewrite <- Hz; by apply left_nothing | intros h; by apply neutral_hold].
Qed.

Context `{!ChrdevKernel E}.

(** A class is given a sub-device, or not. *)
Lemma cdev_probe_adds func base size sl (e : E) :
  class_held base sl ->
  wlp (ccat_cdev_probe func base size) e (fun '(r, base', slot) t _ =>
    match slot with Some i => r = 0 /\ class_held base' (i :: sl) | None => r <> 0 /\ class_held base' sl end /\
    Forall neutral (calls t)).
Proof.
  intros Hh. eapply wp_conseq;
    [apply wp_and; [apply wp_forall_calls; [apply cdev_probe_neutral | by apply (cdev_probe_held func base size sl)]
      | by apply cdev_probe_registered, Hh]|].
  intros [[r base'] slot] t e' [[Hc Ht] Hreg]. split; [|done].
  destruct (Hc Hreg) as [Hr Hcl]. destruct slot as [i|]; (split; [|exact Hcl]).
  - by apply Hr.
  - intros Hz. apply Hr in Hz as [? [=]].
Qed.

Lemma update_probe_adds func st su ss (e : E) :
  statics_held st su ss ->
  wlp (driver_probe gpio_size time_size update_driver func st) e (fun res t _ =>
    probe_adds update_driver func st su ss res t).
Proof.
  intros [Hu Hs]. open_driver. unfold ccat_update_probe. apply wp_bind.
  case_match; wp_run; [split_and!; [done | by split | by apply neutral_adds]|].
  eapply wp_conseq; [by apply (cdev_probe_adds func _ _ su)|]. intros [[r c] slot] t e' [Hcl Hn]. wp_run.
  rewrite app_nil_r. unfold probe_adds, probed, cell_ok, statics_held, slot_of, net_of.
  destruct slot as [i|]; destruct Hcl as [Hr Hcl].
  - subst r. simpl. split; [by eexists|]. split; [done | by apply neutral_adds].
  - rewrite (proj2 (Z.eqb_neq r 0) Hr). split; [done|]. split; [done | by apply neutral_adds].
Qed.

Lemma sram_probe_adds func st su ss (e : E) :
  statics_held st su ss ->
  wlp (driver_probe gpio_size time_size sram_driver func st) e (fun res t _ =>
    probe_adds sram_driver func st su ss res t).
Proof.
  intros [Hu Hs]. open_driver. unfold ccat_sram_probe. apply wp_bind.
  case_match; wp_run. case_match; wp_run; [split_and!; [done | by split | by apply neutral_adds]|].
  eapply wp_conseq; [by apply (cdev_probe_adds func _ _ ss)|]. intros [[r c] slot] t e' [Hcl Hn]. wp_run.
  rewrite app_nil_r. unfold probe_adds, probed, cell_ok, statics_held, slot_of, net_of.
  destruct slot as [i|]; destruct Hcl as [Hr Hcl].
  - subst r. simpl. split; [by eexists|]. split; [done | by apply neutral_adds].
  - rewrite (proj2 (Z.eqb_neq r 0) Hr). split; [done|]. split; [done | by apply neutral_adds].
Qed.

(** The DMA memories of a device. *)
Lemma dma_held_bases priv : exists bases, dma_held priv = NDma <$> bases.
Proof.
  assert (Hf : forall f, exists l, dma_of f = NDma <$> l)
    by (intros f; unfold dma_of; destruct (_ =? 0); [by exists [] | by eexists [_]]).
  destruct (Hf (tx_fifo priv)) as [l Hl], (Hf (rx_fifo priv)) as [l' Hl']. exists (l ++ l').
  unfold dma_held. by rewrite Hl, Hl', fmap_app.
Qed.

(** A network device that was probed, from any account. *)
Lemma net_balanced_adds k remove d func st su ss r p t (e' : E) :
  k = 0%nat \/ k = 2%nat ->
  (forall x, private_ok d (PEth x) = true) -> statics_held st su ss ->
  net_balanced k remove (r, p) t e' -> probe_adds d func st su ss (r, st, PEth <$> p) t.
Proof.
  intros Hk Hd Hst [Hb Hl]. unfold probe_adds, probed, cell_ok, slot_of, net_of. destruct p as [priv|]; simpl in Hl.
  - destruct Hl as (-> & Hm & Hz & _ & Hheld & _). simpl. split; [by eexists|]. split; [exact Hst|].
    exists []. split; [rewrite <- Hz; apply left_nothing; by rewrite Hb, Hm|].
    intros h. apply (held_frame net_hold t [] _ h Hheld).
  - destruct Hl as (Hr & Hheld). rewrite (proj2 (Z.eqb_neq r 0) Hr). simpl.
    split; [done|]. split; [exact Hst|]. destruct (at_mac_check t).
    + destruct Hheld as (Hz & priv & Hlen & Hheld). eexists. split; [|intros h; apply (held_frame net_hold t [] _ h Hheld)].
      exists [dma_held priv ++ [NNetdev (p_netdev priv)]]. rewrite Hz. simpl. rewrite !app_nil_r.
      split_and!; [done | by rewrite Hb |]. constructor; [|done]. destruct (dma_held_bases priv) as [l Hl].
      exists l, (p_netdev priv). rewrite Hl in *. split; [done|]. rewrite length_fmap in Hlen. by rewrite Hlen.
    + exists (at_zero t). split; [by apply left_nothing|]. intros h. apply (held_frame net_hold t [] _ h Hheld).
Qed.

Lemma driver_probe_adds d func st su ss (e : E) :
  statics_held st su ss ->
  wlp (driver_probe gpio_size time_size d func st) e (fun res t _ => probe_adds d func st su ss res t).
Proof.
  intros Hst. destruct d.
  - open_driver. apply wp_bind. eapply wp_mono; [apply ccat_eth_eim_lifecycle | done|].
    intros [r p] t e' Hb. wp_run. rewrite app_nil_r. (eapply net_balanced_adds; [|done | done | exact Hb]); auto.
  - open_driver. apply wp_bind. eapply wp_mono; [apply dma_probe_balanced | done|].
    intros [r p] t e' Hb. wp_run. rewrite app_nil_r. (eapply net_balanced_adds; [|done | done | exact Hb]); auto.
  - open_driver. unfold ccat_gpio_probe. wp_run.
    case_match; wp_run; [split; [done|]; split; [done|]; apply neutral_adds; by repeat constructor|].
    apply wp_istrue; intros Hr; wp_run; unfold probe_adds, probed, cell_ok, slot_of, net_of.
    + rewrite (proj2 (Z.eqb_neq _ 0) Hr). split; [done|]. split; [done|]. apply neutral_adds. by repeat constructor.
    + simpl. split; [by eexists|]. split; [done|]. apply neutral_adds. by repeat constructor.
  - by apply update_probe_adds.
  - by apply sram_probe_adds.
  - open_driver. unfold ccat_systemtime_probe. wp_run.
    case_match; wp_run; [split; [done|]; split; [done|]; apply neutral_adds; by repeat constructor|].
    unfold probe_adds, probed, cell_ok, slot_of, net_of. clear -Hst. simpl.
    destruct (_ =? 0); simpl; (split; [done || by eexists|]);
      (split; [exact Hst | apply neutral_adds; by repeat constructor]).
Qed.

(** A remove takes away exactly what its sub-device held. *)
Lemma driver_remove_takes c p st su ss (e : E) :
  cell_ok c -> c_state c = Bound p ->
  statics_held st (option_list (slot_of update_driver c) ++ su) (option_list (slot_of sram_driver c) ++ ss) ->
  wp (driver_remove gpio_size time_size (c_driver c) p st) e (fun st' t _ =>
    statics_held st' su ss /\ forall h, held_from net_hold (net_of c ++ h) t = Some h).
Proof.
  unfold cell_ok, slot_of, net_of. intros Hok Hp. rewrite Hp in *. destruct Hok as (x & -> & Hx).
  destruct c as [d func b]. simpl in *. destruct d, x; try done; open_driver; intros Hst.
  - apply wp_bind. eapply wp_conseq; [apply remove_from|]. intros ? t e' Ht. wp_run. by rewrite app_nil_r.
  - apply wp_bind. eapply wp_conseq; [apply remove_from|]. intros ? t e' Ht. wp_run. by rewrite app_nil_r.
  - unfold ccat_gpio_remove. wp_run. done.
  - destruct Hst as [Hu Hs]. apply wp_bind.
    eapply wp_conseq; [apply wp_forall_calls; [apply cdev_remove_neutral | by apply (cdev_remove_held _ i su)]|].
    intros b' t e' [Hb Ht]. wp_run. rewrite app_nil_r. split; [done|]. intros h. by apply neutral_hold.
  - destruct Hst as [Hu Hs]. apply wp_bind.
    eapply wp_conseq; [apply wp_forall_calls; [apply cdev_remove_neutral | by apply (cdev_remove_held _ i ss)]|].
    intros b' t e' [Hb Ht]. wp_run. rewrite app_nil_r. split; [done|]. intros h. by apply neutral_hold.
  - unfold ccat_systemtime_remove. wp_run. done.
Qed.

(** Removing asks neither for memory nor for a MAC address. *)
Lemma driver_remove_silent d p st (e : E) :
  wlp (driver_remove gpio_size time_size d p st) e (fun _ t _ => at_zero t = [] /\ bad_macs t = 0%nat).
Proof.
  assert (Hc : forall_calls (fun c => match c with
    | Kernel (DmaAllocCoherent _) | Kernel (IsValidEtherAddr _) => False | _ => True end)
    (driver_remove gpio_size time_size d p st : M E _)).
  { destruct d; open_driver; unfold ccat_eth_eim_remove, ccat_eth_dma_remove, ccat_eth_priv_free, ccat_eth_fifo_hw_reset,
      ccat_dma_free, ccat_gpio_remove, ccat_systemtime_remove, ccat_cdev_remove, free_ccat_cdev, ccat_class_exit;
      by fc_run. }
  eapply wp_mono; [apply wp_forall_calls; [exact Hc | apply wlp_true] | done|]. intros x t e' [_ Ht].
  split; [apply at_zero_none | apply bad_macs_none]; (eapply Forall_impl; [exact Ht|]); intros c; by destruct c as [| | | | |[]].
Qed.

(** *** The invariant of the system *)

Definition slots (d : platform_driver) (l : list cell) : list nat := omap (slot_of d) l.

Record sys_ok (s : system) : Prop := {
  so_statics : statics_held (sys_statics s) (slots update_driver (sys_cells s)) (slots sram_driver (sys_cells s));
  so_cells : Forall cell_ok (sys_cells s);
  so_net : exists h left, net_held (sys_trace s) = Some h /\ left_behind (sys_trace s) left /\
    h ≡ₚ (sys_cells s ≫= net_of) ++ left;
}.

#[local] Instance statics_held_proper st : Proper ((≡ₚ) ==> (≡ₚ) ==> iff) (statics_held st).
Proof. intros u u' Hu v v' Hv. unfold statics_held. by rewrite Hu, Hv. Qed.

#[local] Instance slots_proper d : Proper ((≡ₚ) ==> (≡ₚ)) (slots d).
Proof. intros l l' Hl. unfold slots. by rewrite Hl. Qed.

Lemma slots_cons d c l : slots d (c :: l) = option_list (slot_of d c) ++ slots d l.
Proof. unfold slots. simpl. by destruct (slot_of d c). Qed.

Lemma unbound_slots d c l : c_state c = Unbound -> slots d (c :: l) = slots d l.
Proof. rewrite slots_cons. unfold slot_of. by intros ->. Qed.

Lemma new_slots d l d' func : slots d (l ++ [Cell d' func Unbound]) = slots d l.
Proof. unfold slots. rewrite omap_app. apply app_nil_r. Qed.

Lemma unbound_net c : c_state c = Unbound -> net_of c = [].
Proof. unfold net_of. by intros ->. Qed.

(** One sub-device of the system in front of the others. *)
Lemma cells_front (l : list cell) k c c' :
  l !! k = Some c -> l ≡ₚ c :: delete k l /\ <[k := c']> l ≡ₚ c' :: delete k l.
Proof.
  intros Hk. split; [by apply delete_Permutation|].
  rewrite insert_take_drop, delete_take_drop by (by eapply lookup_lt_Some).
  symmetry. apply Permutation_middle.
Qed.

Lemma sys_start_ok : sys_ok sys_start.
Proof.
  assert (Hf : forall n name, (0 < n)%nat -> Z.of_nat n <= 2 ^ 20 -> class_held (fresh_class n name) []).
  { intros n name H0 H1. split; [by apply fresh_class_ok | apply NoDup_nil_2 | done | done]. }
  split; [split; apply Hf; unfold CCAT_DEVICES_MAX, CCAT_SRAM_DEVICES_MAX; lia | constructor |].
  exists [], []. split_and!; [done | by apply (left_nothing []) | done].
Qed.

(** Changing one sub-device, with the rest as it was. *)
Lemma sys_ok_change s k c c' st' t :
  sys_ok s -> sys_cells s !! k = Some c -> cell_ok c' ->
  (forall su ss, statics_held (sys_statics s) (option_list (slot_of update_driver c) ++ su)
                                         (option_list (slot_of sram_driver c) ++ ss) ->
     statics_held st' (option_list (slot_of update_driver c') ++ su) (option_list (slot_of sram_driver c') ++ ss)) ->
  (exists left, left_behind t left /\ forall h, held_from net_hold (net_of c ++ h) t = Some (net_of c' ++ left ++ h)) ->
  sys_ok (System st' (<[k := c']> (sys_cells s)) (sys_trace s ++ t)).
Proof.
  intros [Hst Hc (h & left & Hh & Hleft & Hp)] Hk Hok Hcls (new & Hnew & Hnet). destruct (cells_front _ k c c' Hk) as [Hf Hf'].
  split; simpl.
  - rewrite Hf', !slots_cons. apply Hcls. by rewrite Hf, !slots_cons in Hst.
  - by apply Forall_insert.
  - rewrite Hf in Hp. set (rest := (delete k (sys_cells s) ≫= net_of) ++ left).
    destruct (held_perm net_hold t _ _ h (Hnet rest)) as (h' & Ht & Hp').
    + rewrite Hp. unfold rest. csimpl. by rewrite app_assoc.
    + exists h', (left ++ new). split; [unfold net_held in *; by rewrite held_from_app, Hh|].
      split; [by apply left_app|]. rewrite Hf', <- Hp'. unfold rest. csimpl. rewrite <- !app_assoc.
      apply Permutation_app_head. rewrite (Permutation_app_comm new). by rewrite <- !app_assoc.
Qed.

Lemma sys_step_ok s s' : sys_step s s' -> sys_ok s -> sys_ok s'.
Proof.
  intros Hstep Hok. destruct Hstep as [s d func|s k c e e' r st' p t Hk Hun Hrun|
    s k c p e e' st' t Hk Hb Hrun|s k c Hk Hun].
  - destruct Hok as [Hst Hc Hn]. split; simpl.
    + by rewrite !new_slots.
    + apply Forall_app. by repeat constructor.
    + rewrite bind_app. simpl. by rewrite app_nil_r.
  - eapply (sys_ok_change s k c); [done..| | |];
      pose proof (so_statics _ Hok) as Hst; destruct (cells_front _ k c c Hk) as [Hf _];
      rewrite Hf, !unbound_slots in Hst by done;
      pose proof (wpx_run _ _ _ _ _ _ _ (driver_probe_adds _ (c_func c) _ _ _ e Hst) Hrun)
        as (Hcell & _ & Hh).
    + exact Hcell.
    + intros su ss Hs. unfold slot_of in Hs at 1 2. rewrite Hun in Hs.
      apply (wpx_run _ _ _ _ _ _ _ (driver_probe_adds _ (c_func c) _ _ _ e Hs) Hrun).
    + by rewrite unbound_net by done.
  - pose proof (so_cells _ Hok) as Hc. eapply Forall_lookup_1 in Hc; [|exact Hk].
    eapply (sys_ok_change s k c); [done..| | |]; simpl.
    + done.
    + intros su ss Hs. apply (wpx_run _ _ _ _ _ _ _ (driver_remove_takes c p _ su ss e Hc Hb Hs) Hrun).
    + pose proof (so_statics _ Hok) as Hst. destruct (cells_front _ k c c Hk) as [Hf _].
      rewrite Hf, !slots_cons in Hst. exists []. split.
      * destruct (wpx_run _ _ _ _ _ _ _ (driver_remove_silent _ _ _ e) Hrun) as [Hz Hbm].
        rewrite <- Hz. by apply left_nothing.
      * apply (wpx_run _ _ _ _ _ _ _ (driver_remove_takes c p _ _ _ e Hc Hb Hst) Hrun).
  - destruct (cells_front _ k c c Hk) as [Hf _]. destruct Hok as [Hst Hc (h & left & Hh & Hleft & Hp)]. rewrite Hf in Hp.
    rewrite Hf, !unbound_slots in Hst by done. split; simpl; [done | by apply Forall_delete |].
    exists h, left. split_and!; [done | done|]. rewrite Hp. csimpl. by rewrite unbound_net.
Qed.

Lemma sys_reachable_ok s : rtc sys_step sys_start s -> sys_ok s.
Proof. intros Hr. pose proof sys_start_ok as Hok. revert Hok. induction Hr; eauto using sys_step_ok. Qed.

(** Removing a bound sub-device returns. *)
Lemma remove_returns s k c p (e : E) :
  sys_ok s -> sys_cells s !! k = Some c -> c_state c = Bound p ->
  wp (driver_remove gpio_size time_size (c_driver c) p (sys_statics s)) e (fun _ _ _ => True).
Proof.
  intros [Hst Hc _] Hk Hb. eapply Forall_lookup_1 in Hc; [|exact Hk].
  destruct (cells_front _ k c c Hk) as [Hf _]. rewrite Hf, !slots_cons in Hst.
  by eapply wp_conseq; [eapply driver_remove_takes|].
Qed.

(** The sub-devices bound to a driver. *)
Definition is_bound (c : cell) : bool := match c_state c with Unbound => false | Bound _ => true end.
Definition bound_to (d : platform_driver) (l : list cell) : list cell :=
  filter (fun c => c_driver c = d /\ is_bound c = true) l.

Lemma slots_bound d l :
  (d = update_driver \/ d = sram_driver) -> Forall cell_ok l -> length (slots d l) = length (bound_to d l).
Proof.
  intros Hd. induction 1 as [|[d' func b] l Hc Hl IH]; [done|]. unfold bound_to in *.
  rewrite slots_cons, length_app, IH, filter_cons. unfold cell_ok, slot_of, is_bound in *. simpl in *.
  destruct b as [|p]; [by rewrite decide_False by (by intros [])|]. destruct Hc as (x & -> & Hx).
  destruct (decide (d' = d)) as [->|Hne].
  - rewrite decide_True by done. by destruct Hd as [-> | ->], x.
  - rewrite decide_False by tauto. by destruct x.
Qed.

Lemma unbound_all l :
  Forall (fun c => c_state c = Unbound) l -> (forall d, bound_to d l = []) /\ l ≫= net_of = [].
Proof.
  induction 1 as [|c l Hc _ [IH1 IH2]]; [done|]. split.
  - intros d. unfold bound_to in *. rewrite filter_cons_False; [done|]. unfold is_bound. rewrite Hc. by intros [].
  - csimpl. by rewrite (unbound_net c), IH2.
Qed.

Lemma unbound_nothing_held s :
  sys_ok s -> Forall (fun c => c_state c = Unbound) (sys_cells s) ->
  Cdev.n_used (devices (update_cdevs (sys_statics s))) = 0%nat /\
  Cdev.n_used (devices (sram_cdevs (sys_statics s))) = 0%nat /\
  exists left, net_held (sys_trace s) = Some left /\ left_behind (sys_trace s) left.
Proof.
  intros [[Hu Hs] Hc (h & left & Hh & Hleft & Hp)] Hall. destruct (unbound_all _ Hall) as [Hno Hnet].
  pose proof (ch_inst _ _ Hu) as Hiu. pose proof (ch_inst _ _ Hs) as His.
  rewrite slots_bound, Hno in Hiu, His by tauto. rewrite Hnet in Hp.
  pose proof (ok_inst _ (ch_ok _ _ Hu)). pose proof (ok_inst _ (ch_ok _ _ Hs)).
  simpl in *. split_and!; [lia | lia |]. exists h. split; [done | by rewrite Hp].
Qed.

(** C9: the drivers on the bus.  In every state that any sequence of new sub-devices, probes that
    return (with success or with an error) and removes can reach, whatever the kernel answers (a
    granted region has a major number, [ChrdevKernel]):
    removing a bound sub-device returns without a fault; each class counts exactly the sub-devices
    bound to its driver; nothing is given back that is not held; and the network devices,
    registrations and DMA memories held are those of the bound sub-devices and, exactly, what the
    failed probes left behind: for each MAC address found invalid one network device with its DMA
    memories, none or two, and each DMA memory that lay at the device address 0.  With every
    sub-device unbound no class has an instance, every slot is free, and only what was left behind
    is held: nothing, if neither of the two happened. *)
Theorem ccat_bus_lifecycle s :
  rtc sys_step sys_start s ->
  (forall k c p (e : E), sys_cells s !! k = Some c -> c_state c = Bound p ->
     wp (driver_remove gpio_size time_size (c_driver c) p (sys_statics s)) e (fun _ _ _ => True)) /\
  instances (update_cdevs (sys_statics s)) = Z.of_nat (length (bound_to update_driver (sys_cells s))) /\
  instances (sram_cdevs (sys_statics s)) = Z.of_nat (length (bound_to sram_driver (sys_cells s))) /\
  (exists h left, net_held (sys_trace s) = Some h /\ left_behind (sys_trace s) left /\
     h ≡ₚ (sys_cells s ≫= net_of) ++ left) /\
  (Forall (fun c => c_state c = Unbound) (sys_cells s) ->
     Cdev.n_used (devices (update_cdevs (sys_statics s))) = 0%nat /\
     Cdev.n_used (devices (sram_cdevs (sys_statics s))) = 0%nat /\
     (bad_macs (sys_trace s) = 0%nat -> at_zero (sys_trace s) = [] -> net_held (sys_trace s) = Some [])).
Proof.
  intros Hr. apply sys_reachable_ok in Hr as Hok. pose proof Hok as [Hst Hc Hn]. pose proof Hst as [Hu Hs].
  pose proof (ch_inst _ _ Hu) as Hiu. pose proof (ch_inst _ _ Hs) as His.
  rewrite slots_bound in Hiu, His by tauto. split_and!; [| done | done | done |].
  - intros k c p e Hk Hb. by eapply remove_returns.
  - intros Hall. destruct (unbound_nothing_held _ Hok Hall) as (H1 & H2 & left & Hl & Hb). split_and!; [done | done|].
    intros Hm Hz. by rewrite Hl, (left_none _ _ Hm Hz Hb).
Qed.

End Bus.

(** ** Witnesses *)

Lemma ccat_functions_reach_drivers_witness :
  exists r t, ccat_functions_init (H := rom_env) (Device 1 1 4096 0) tt = (Ret r, t, tt) /\
    bus_cells (H := rom_env) 64 64 (Device 1 1 4096 0) t =
      [Cell gpio_driver (Function_ (Device 1 1 4096 0) (info_of_bytes (block small_rom 1))) Unbound].
Proof.
  pose proof (ccat_functions_reach_drivers (H := rom_env) 64 64 (rom := small_rom) (Device 1 1 4096 0) tt eq_refl) as Hw.
  apply wp_elim in Hw as (r & t & [] & Hrun & Hb). exists r, t. split; [exact Hrun|].
  assert (Hr : r = 0 /\ ~ alloc_failed t).
  { vm_compute in Hrun. injection Hrun as <- <-. split; [reflexivity|]. intros (ev & Hin & Hc & Hz).
    repeat (apply elem_of_cons in Hin as [->|Hin]; [try discriminate Hc; discriminate Hz|]).
    by apply elem_of_nil in Hin. }
  rewrite (Hb (proj1 Hr) (proj2 Hr)). vm_compute. reflexivity.
Defined.

(** An SRAM and two EIM network devices are probed; the hardware of the second, whose registers are
    at 0x20000, has no valid MAC address. *)
Definition sys_env : Env unit := fun c e =>
  match c with
  | Kernel AllocEtherdev => (Resp 8192 0, e)
  | Kernel (IsValidEtherAddr mac) => (Resp (b2z (bool_decide (mac = repeat 0 6))) 0, e)
  | IoRead W8 a => (Resp (b2z (0x20000 <=? a)) 0, e)
  | _ => grant c e
  end.

Lemma sys_env_chrdev : @ChrdevKernel unit sys_env.
Proof. intros e n _. by vm_compute. Qed.

Definition eth_func : ccat_function :=
  Function_ (Device 1 1 65536 0) (Info (info_code CCATINFO_ETHERCAT_NODMA) 0 0 512 0).

Definition bad_func : ccat_function :=
  Function_ (Device 1 1 0x20000 0) (Info (info_code CCATINFO_ETHERCAT_NODMA) 0 0 512 0).

Definition sys_three : system :=
  System statics_start [Cell sram_driver sram_func Unbound; Cell ccat_eth_eim_driver eth_func Unbound;
                        Cell ccat_eth_eim_driver bad_func Unbound] [].

(** A probe of sub-device [k], computed. *)
Definition after_probe (s : system) (k : nat) : option system :=
  c ← sys_cells s !! k;
  match c_state c, driver_probe (H := sys_env) 64 64 (c_driver c) (c_func c) (sys_statics s) tt with
  | Unbound, (Ret (r, st', p), t, _) =>
      Some (System st' (<[k := set_state (if r =? 0 then Bound p else Unbound) c]> (sys_cells s)) (sys_trace s ++ t))
  | _, _ => None
  end.

Lemma after_probe_step s k s' : after_probe s k = Some s' -> sys_step (H := sys_env) 64 64 s s'.
Proof.
  unfold after_probe. destruct (sys_cells s !! k) as [c|] eqn:Hk; [|done]. simpl.
  destruct (c_state c) eqn:Hc; [|done].
  destruct (driver_probe _ _ _ _ _ _) as [[[[[r st'] p]| |] t] []] eqn:Hrun; try done.
  intros [= <-]. by eapply bus_probe.
Qed.

Definition sys_probed : option system :=
  s ← after_probe sys_three 0; s ← after_probe s 1; after_probe s 2.
Definition sys_both : system := default sys_start sys_probed.

Lemma sys_both_reached : rtc (sys_step (H := sys_env) 64 64) sys_start sys_both.
Proof.
  eapply rtc_l; [apply (bus_add (H := sys_env) _ _ sys_start sram_driver sram_func)|].
  eapply rtc_l; [apply (bus_add (H := sys_env) _ _ _ ccat_eth_eim_driver eth_func)|].
  eapply rtc_l; [apply (bus_add (H := sys_env) _ _ _ ccat_eth_eim_driver bad_func)|].
  change (rtc (sys_step (H := sys_env) 64 64) sys_three sys_both).
  assert (Hrun : bool_decide (is_Some sys_probed) = true) by (vm_compute; reflexivity).
  apply bool_decide_eq_true in Hrun as [s' Hrun]. unfold sys_both. rewrite Hrun. unfold sys_probed in Hrun.
  apply bind_Some in Hrun as (s & H0 & Hrun). apply bind_Some in Hrun as (s1 & H1 & H2).
  eapply rtc_l; [exact (after_probe_step _ _ _ H0)|]. eapply rtc_l; [exact (after_probe_step _ _ _ H1)|].
  apply rtc_once. exact (after_probe_step _ _ _ H2).
Qed.

(** The second network device leaves its [struct net_device] behind. *)
Lemma ccat_bus_lifecycle_witness :
  instances (sram_cdevs (sys_statics sys_both)) = 1 /\
  exists h left, net_held (sys_trace sys_both) = Some h /\ h ≡ₚ [NRegistered 8192; NNetdev 8192] ++ left /\
    left_behind (sys_trace sys_both) left /\ bad_macs (sys_trace sys_both) = 1%nat.
Proof.
  pose proof (ccat_bus_lifecycle (H := sys_env) 64 64 (ChrdevKernel0 := sys_env_chrdev) sys_both sys_both_reached)
    as (_ & _ & Hi & Hn & _).
  split; [rewrite Hi; vm_compute; reflexivity|].
  destruct Hn as (h & left & Hh & Hl & Hp). exists h, left. split; [exact Hh|].
  split; [rewrite Hp; vm_compute; reflexivity|]. split; [exact Hl | vm_compute; reflexivity].
Defined.
