(* ===== verification/Lifecycle.v ===== *)
(** * From plugging in to unplugging: the core driver and the function drivers together

    Core.v follows the resources of a front end, System.v those of the drivers on the bus.  Here
    both run: a CCAT is plugged in, probed and scanned; its sub-devices are bound to drivers and
    unbound in any order; unplugging it removes the sub-devices that are still bound, and then gives
    back mapping, regions and device.  Any number of times. *)

From S2P Require Import Prelude IO Info Cdev Sram Update Gpio Systemtime Core NetFifo Netdev NetProbe System.

(** ** What the function drivers do not do *)

(** The calls that are the core driver's alone. *)
Definition core_call (c : call) : bool :=
  match c with
  | Kernel (PciEnableDeviceMem _) | Kernel (PciDisableDevice _) | Kernel (PciRequestRegions _)
  | Kernel (PciReleaseRegions _) | Kernel (RequestMemRegion _ _) | Kernel (ReleaseMemRegion _ _)
  | Kernel (PciIomap _ _) | Kernel (Ioremap _ _) | Kernel (PciIounmap _ _) | Kernel (Iounmap _)
  | Kernel (MfdAddDevices _ _ _) | Kernel (MfdRemoveDevices _) => true
  | _ => false
  end.

Definition driver_call (c : call) : Prop := core_call c = false.

(** They leave the account of the front end as it is, as long as registers are mapped. *)
Lemma driver_holds h t :
  existsb is_map h = true -> Forall driver_call (calls t) -> held_from hold h t = Some h.
Proof.
  intros Hm. apply held_neutral. intros [c r] Hc. unfold hold. destruct c as [| | | | |[]]; simpl in *;
    rewrite ?Hm; done.
Qed.

Section Drivers.
Context {E : Type} `{Env E} (gpio_size time_size : Z).

Lemma ioread_bytes_driver a k : forall_calls driver_call (ioread_bytes a k : M E (list Z)).
Proof. revert a. induction k as [|k IH]; intros a; simpl; fc_run; done || apply IH. Qed.

Lemma reset_driver f : forall_calls driver_call (ccat_eth_fifo_reset f : M E _).
Proof.
  assert (Hloop : forall k f, forall_calls driver_call (reset_loop k f : M E _)).
  { intros k. induction k as [|k IH]; intros g; cbn [reset_loop]; unfold ops_add, ccat_eth_rx_fifo_dma_add,
      ccat_eth_tx_fifo_dma_add_free, fifo_eim_rx_add, fifo_eim_tx_add; fc_run; done || apply IH. }
  unfold ccat_eth_fifo_reset, ccat_eth_fifo_hw_reset. fc_run; done || apply Hloop.
Qed.

Lemma priv_free_driver priv : forall_calls driver_call (ccat_eth_priv_free priv : M E _).
Proof. unfold ccat_eth_priv_free, ccat_eth_fifo_hw_reset, ccat_dma_free. fc_run; done. Qed.

Lemma init_netdev_driver priv : forall_calls driver_call (ccat_eth_init_netdev priv : M E _).
Proof. unfold ccat_eth_init_netdev. fc_run; done || apply ioread_bytes_driver || apply priv_free_driver. Qed.

Lemma dma_init_driver pdev ch bar2 f : forall_calls driver_call (ccat_dma_init pdev ch bar2 f : M E _).
Proof. unfold ccat_dma_init, fifo_set_end. fc_run; done || apply reset_driver. Qed.

Lemma driver_probe_calls d func st :
  forall_calls driver_call (driver_probe gpio_size time_size d func st : M E _).
Proof.
  unfold driver_probe. destruct d; simpl.
  all: unfold ccat_eth_eim_probe, ccat_eth_dma_probe, ccat_eth_alloc_netdev, ccat_eth_priv_init_reg,
    ccat_eth_priv_init_dma, ccat_eth_priv_init_eim, fifo_set_end, ccat_hw_disable_mac_filter, ccat_dma_free,
    ccat_gpio_probe, ccat_update_probe, ccat_sram_probe, ccat_systemtime_probe.
  all: fc_run; try done; try apply ioread_bytes_driver; try apply init_netdev_driver; try apply dma_init_driver;
    try apply reset_driver.
  all: unfold ccat_cdev_probe, alloc_ccat_cdev, ccat_class_init, ccat_cdev_init, free_ccat_cdev, ccat_class_exit;
    by fc_run.
Qed.

Lemma driver_remove_calls d p st :
  forall_calls driver_call (driver_remove gpio_size time_size d p st : M E _).
Proof.
  unfold driver_remove. destruct d; simpl.
  all: unfold ccat_eth_eim_remove, ccat_eth_dma_remove, ccat_gpio_remove, ccat_systemtime_remove,
    ccat_cdev_remove, free_ccat_cdev, ccat_class_exit.
  all: fc_run; try done; apply priv_free_driver.
Qed.

End Drivers.

(** ** The front ends *)

(** The memory regions of the EIM bus that stay reserved: one for each [ioremap] that failed. *)
Definition lost_regions (t : list event) : list resource :=
  omap (fun ev => match ev_call ev with
    | Kernel (Ioremap _ _) => if r_val (ev_resp ev) =? 0 then Some RMem else None
    | _ => None end) t.

Lemma lost_app t t' : lost_regions (t ++ t') = lost_regions t ++ lost_regions t'.
Proof. apply omap_app. Qed.

Definition no_remap (c : call) : Prop := match c with Kernel (Ioremap _ _) => False | _ => True end.

Lemma lost_none t : Forall no_remap (calls t) -> lost_regions t = [].
Proof.
  induction t as [|[c r] t IH]; [done|]. intros [Hc Ht]%Forall_cons. specialize (IH Ht). simpl in *.
  by destruct c as [| | | | |[]].
Qed.

Lemma lost_mem t : Forall (eq RMem) (lost_regions t).
Proof.
  induction t as [|[c r] t IH]; [constructor|]. simpl. destruct c as [| | | | |[]]; try done.
  destruct (_ =? _); [by constructor | done].
Qed.

(** Regions that stay reserved do not matter to what comes after. *)
Lemma hold_frame k ev h h' :
  Forall (eq RMem) k -> hold ev h = Some h' -> hold ev (h ++ k) = Some (h' ++ k).
Proof.
  intros Hk. assert (Hc : existsb is_cell k = false /\ filter (fun x => x <> RCell) k = k).
  { induction Hk as [|x k <- _ [IH1 IH2]]; [done|]. split; [done|]. rewrite filter_cons_True by done. by f_equal. }
  destruct Hc as [Hc Hf], ev as [c r]. unfold hold. cbn [ev_call ev_resp].
  destruct c as [| | | | |[]]; try (intros [= <-]; try done; by destruct (_ =? _)); try apply give_back_frame.
  all: rewrite ?existsb_app, ?Hc, ?orb_false_r.
  - destruct (existsb is_map h); [|done]. by intros [= <-].
  - destruct (existsb is_map h); [|done]. by intros [= <-].
  - intros [= <-]. by destruct (_ <? _).
  - intros [= <-]. by rewrite filter_app, Hf.
  - destruct (existsb is_cell h); [done | apply give_back_frame].
  - destruct (existsb is_cell h); [done | apply give_back_frame].
Qed.

Lemma held_from_frame k t h h' :
  Forall (eq RMem) k -> held_from hold h t = Some h' -> held_from hold (h ++ k) t = Some (h' ++ k).
Proof.
  intros Hk. revert h. induction t as [|ev t IH]; intros h; simpl; [by intros [= <-]|].
  destruct (hold ev h) as [h1|] eqn:Hev; [|done]. rewrite (hold_frame k _ _ _ Hk Hev). apply IH.
Qed.

(** What the bus needs of the front end a CCAT is plugged into: while it is there it holds mapped
    registers, and removing it first removes the sub-devices and then gives everything back; a probe
    that fails leaves nothing but the region of a failed [ioremap]. *)

Class FrontEnd (E : Type) `{Env E} := {
  fe_probe : M E (Z * option ccat_device);
  fe_remove : option ccat_device -> M E unit;
  fe_balanced : forall e, wp fe_probe e (fun '(r, d) t _ =>
    if r =? 0
    then lost_regions t = [] /\ exists ccatdev n h, d = Some ccatdev /\ held t = Some (replicate n RCell ++ h) /\
      existsb is_map h = true /\ Forall (fun x => x <> RCell) h /\
      forall e', wp (fe_remove d) e' (fun _ t' _ => exists ev t2, t' = ev :: t2 /\
        ev_call ev = Kernel (MfdRemoveDevices (d_dev ccatdev)) /\ held_from hold h t2 = Some [])
    else held t = Some (lost_regions t));
  fe_probe_net : forall_calls neutral fe_probe;
  fe_remove_net : forall d, forall_calls neutral (fe_remove d);
  fe_remove_maps : forall d, forall_calls no_remap (fe_remove d);
}.

Section FrontEnds.
Context {E : Type} `{Env E}.

Lemma functions_init_net d : forall_calls neutral (ccat_functions_init d : M E _).
Proof.
  assert (Hconn : forall cells func, forall_calls neutral (function_connect_from cells func d : M E _)).
  { intros cells func. induction cells as [|[ty nm] cells IH]; simpl; fc_run; done. }
  assert (Hloop : forall k a x, forall_calls neutral (functions_loop d k a x : M E _)).
  { intros k. induction k as [|k IH]; intros a x; cbn [functions_loop]; unfold ccat_function_connect; fc_run;
      try done; auto using ioread_bytes_neutral. }
  unfold ccat_functions_init. fc_run; done.
Qed.

Lemma functions_init_maps d : forall_calls no_remap (ccat_functions_init d : M E _).
Proof.
  unfold ccat_functions_init. fc_run; try done. eapply forall_calls_impl; [|apply functions_loop_scan].
  intros c. by destruct c as [| | | | |[]].
Qed.

Lemma pci_probe_maps pdev : forall_calls no_remap (ccat_pci_probe pdev : M E _).
Proof.
  unfold ccat_pci_probe, pci_map_and_init, pci_release_regions, pci_disable_device.
  fc_run; try done; apply functions_init_maps.
Qed.

(** The one [ioremap] of the EIM front end. *)
Lemma eim_probe_lost pdev (e : E) :
  wp (ccat_eim_probe pdev) e (fun '(r, _) t _ =>
    lost_regions t = if r =? 0 then [] else match last (calls t) with Some (Kernel (Ioremap _ _)) => [RMem] | _ => [] end).
Proof.
  unfold ccat_eim_probe. wp_run. apply wp_null; intros Hp; wp_run; [done|].
  apply wp_null; intros Hr; wp_run; [done|].
  apply wp_null; intros Hb0; wp_run; [unfold lost_regions; simpl; by rewrite Hb0|].
  eapply wp_conseq; [apply (wp_forall_calls _ no_remap _ _ (fun _ _ _ => True)); [apply functions_init_maps |
    unfold ccat_functions_init; wp_run; eapply wp_conseq; [apply functions_loop_any | done]]|]. intros r t e' [_ Ht]. wp_run.
  rewrite !lost_app, (lost_none _ Ht). unfold lost_regions. simpl. by zknown.
Qed.

(** Removing, from what is held behind the sub-devices. *)
Lemma pci_remove_gives pdev d (e : E) :
  wp (ccat_pci_remove pdev (Some d)) e (fun _ t _ => exists ev t2, t = ev :: t2 /\
    ev_call ev = Kernel (MfdRemoveDevices (d_dev d)) /\
    held_from hold ((if istrue (bar_2 d) then [RMap (bar_2 d)] else []) ++
                    [RMap (bar_0 d); RRegions; RDevice]) t2 = Some []).
Proof.
  unfold ccat_pci_remove. wp_run. destruct (istrue (bar_2 d)) eqn:Hb2; wp_run; eexists _, _;
    (split; [reflexivity|]); (split; [reflexivity|]); simpl app;
    repeat (erewrite held_cons by apply give_back_head); done.
Qed.

#[export] Instance pci_front (pdev : Z) : FrontEnd E.
Proof.
  refine {| fe_probe := ccat_pci_probe pdev; fe_remove := ccat_pci_remove pdev |}.
  - intros e. eapply wp_conseq; [apply wp_forall_calls; [apply pci_probe_maps | apply pci_probe_balanced]|].
    intros [r d] t e' [Hb Hm]. rewrite (lost_none _ Hm). unfold pci_balanced in Hb.
    destruct (r =? 0); [|done]. split; [done|]. destruct Hb as (ccatdev & n & -> & _ & Hh & _). eexists ccatdev, n, _.
    split_and!; [done | exact Hh | | | intros e2; apply pci_remove_gives].
    + by destruct (istrue _).
    + destruct (istrue _); by repeat constructor.
  - unfold ccat_pci_probe, pci_map_and_init, pci_release_regions, pci_disable_device.
    fc_run; try done; apply functions_init_net.
  - intros d. unfold ccat_pci_remove. fc_run; done.
  - intros d. unfold ccat_pci_remove. fc_run; done.
Defined.

#[export] Instance eim_front (pdev : Z) : FrontEnd E.
Proof.
  refine {| fe_probe := ccat_eim_probe pdev; fe_remove d := _ ← ccat_eim_remove pdev d; mret tt |}.
  - intros e. eapply wp_conseq; [apply wp_and; [apply eim_probe_balanced | apply eim_probe_lost]|].
    intros [r d] t e' [Hb Hl]. rewrite Hl. destruct (r =? 0).
    + split; [done|]. destruct Hb as (ccatdev & n & -> & _ & Hh & _). eexists ccatdev, n, [RMap (bar_0 ccatdev); RMem].
      split_and!; [done | exact Hh | done | by repeat constructor |]. intros e2. unfold ccat_eim_remove. wp_run.
      eexists _, _. split; [reflexivity|]. split; [reflexivity|].
      cbn [app]. repeat (erewrite held_cons by apply give_back_head); done.
    + by destruct (last (calls t)) as [[| | | | |[]]|].
  - unfold ccat_eim_probe. fc_run; try done; apply functions_init_net.
  - intros d. unfold ccat_eim_remove. fc_run; done.
  - intros d. unfold ccat_eim_remove. fc_run; done.
Defined.

End FrontEnds.

(** ** The machine *)

(** The driver data of the CCAT that is plugged in, and the bus behind it. *)
Record machine := Machine { m_dev : option ccat_device; m_sys : system }.

Definition machine_start : machine := Machine None sys_start.

Definition all_unbound (l : list cell) : Prop := Forall (fun c => c_state c = Unbound) l.

Lemma run_calls {E A} R (m : M E A) (e : E) o t e' : forall_calls R m -> m e = (o, t, e') -> Forall R (calls t).
Proof. intros HR Hrun. specialize (HR e). unfold trace_of in HR. by rewrite Hrun in HR. Qed.

Section Machine.
Context {E : Type} `{Env E} `{!FrontEnd E} (gpio_size time_size : Z).
Local Abbreviation sys_step := (sys_step gpio_size time_size).

(** Removing one sub-device, as [mfd_remove_devices] has it done for each. *)
Inductive unbind : system -> system -> Prop :=
  | unbind_cell s k c p (e e' : E) st' t :
      sys_cells s !! k = Some c -> c_state c = Bound p ->
      driver_remove gpio_size time_size (c_driver c) p (sys_statics s) e = (Ret st', t, e') ->
      unbind s (System st' (<[k := set_state Unbound c]> (sys_cells s)) (sys_trace s ++ t)).

(** Plugging a CCAT in, successfully or not; a sub-device bound or unbound; unplugging it, in the
    course of which [mfd_remove_devices], the first call of the remove function, unbinds every
    sub-device. *)
Inductive machine_step : machine -> machine -> Prop :=
  | ms_plug m (e e' : E) r d t :
      m_dev m = None -> fe_probe e = (Ret (r, d), t, e') ->
      machine_step m (Machine (if r =? 0 then d else None)
        (System (sys_statics (m_sys m))
          (if r =? 0 then from_option (fun ccatdev => bus_cells gpio_size time_size ccatdev t) [] d else [])
          (sys_trace (m_sys m) ++ t)))
  | ms_bus m s' d :
      m_dev m = Some d -> sys_step (m_sys m) s' -> length (sys_cells s') = length (sys_cells (m_sys m)) ->
      machine_step m (Machine (Some d) s')
  | ms_unplug m (e e' : E) d ev t s1 :
      m_dev m = Some d -> fe_remove (Some d) e = (Ret tt, ev :: t, e') ->
      rtc unbind (System (sys_statics (m_sys m)) (sys_cells (m_sys m)) (sys_trace (m_sys m) ++ [ev])) s1 ->
      all_unbound (sys_cells s1) ->
      machine_step m (Machine None (System (sys_statics s1) [] (sys_trace s1 ++ t))).

(** The front end holds [h], besides sub-devices, and removing it gives [h] back. *)
Definition plugged (d : ccat_device) (h : list resource) : Prop :=
  existsb is_map h = true /\ Forall (fun x => x <> RCell) h /\
  forall e, wp (fe_remove (Some d)) e (fun _ t' _ => exists ev t2, t' = ev :: t2 /\
    ev_call ev = Kernel (MfdRemoveDevices (d_dev d)) /\ held_from hold h t2 = Some []).

Record machine_ok (m : machine) : Prop := {
  mo_sys : sys_ok (m_sys m);
  mo_dev : match m_dev m with
           | None => held (sys_trace (m_sys m)) = Some (lost_regions (sys_trace (m_sys m))) /\
               sys_cells (m_sys m) = []
           | Some d => exists n h, plugged d h /\
               held (sys_trace (m_sys m)) = Some (replicate n RCell ++ h ++ lost_regions (sys_trace (m_sys m)))
           end;
}.

(** Events of no interest to the network drivers. *)
Lemma sys_ok_trace st l tr t :
  sys_ok (System st l tr) -> Forall neutral (calls t) -> sys_ok (System st l (tr ++ t)).
Proof.
  intros [Hst Hc (h & left & Hh & Hl & Hp)] Ht. split; [done | done |]. exists h, left. simpl in *.
  split_and!; [| by apply left_neutral, neutral_silent | done].
  unfold net_held in *. rewrite held_from_app, Hh. simpl. by apply neutral_hold.
Qed.

(** Unbound sub-devices may come and go. *)
Lemma unbound_slots_nil d l : all_unbound l -> slots d l = [].
Proof. induction 1 as [|c l Hc _ IH]; [done|]. by rewrite unbound_slots. Qed.

Lemma sys_ok_unbound st l l' tr :
  all_unbound l -> all_unbound l' -> sys_ok (System st l tr) -> sys_ok (System st l' tr).
Proof.
  intros Hl Hl' [Hst Hc (h & left & Hh & Hleft & Hp)]. simpl in *. split; simpl.
  - by rewrite !unbound_slots_nil in * by done.
  - eapply Forall_impl; [exact Hl'|]. intros c Hu. unfold cell_ok. by rewrite Hu.
  - exists h, left. split_and!; [done | done |]. by rewrite (proj2 (unbound_all _ Hl')), <- (proj2 (unbound_all _ Hl)).
Qed.

Lemma bus_cells_unbound d t : all_unbound (bus_cells gpio_size time_size d t).
Proof.
  unfold all_unbound, bus_cells. apply Forall_forall. intros c (ev & _ & Hev)%list_elem_of_omap.
  destruct (ev_call ev) as [| | | | |[]]; try done. destruct (_ <? _); [done|].
  by apply fmap_Some in Hev as (dr & _ & ->).
Qed.

Lemma unbind_step s s' : unbind s s' -> sys_step s s'.
Proof. intros []. by eapply bus_remove. Qed.

(** The bus leaves the account of the front end alone. *)
Lemma bus_trace s s' :
  sys_step s s' -> exists t, sys_trace s' = sys_trace s ++ t /\ Forall driver_call (calls t).
Proof.
  intros [s0 d func|s0 k c e e' r st' p t Hk Hun Hrun|s0 k c p e e' st' t Hk Hb Hrun|s0 k c Hk Hun]; simpl.
  - exists []. by rewrite app_nil_r.
  - exists t. split; [done|]. eapply run_calls; [apply driver_probe_calls | exact Hrun].
  - exists t. split; [done|]. eapply run_calls; [apply driver_remove_calls | exact Hrun].
  - exists []. by rewrite app_nil_r.
Qed.

Lemma mem_comm k l : Forall (eq RMem) k -> Forall (eq RMem) l -> k ++ l = l ++ k.
Proof.
  assert (Hr : forall l, Forall (eq RMem) l -> l = replicate (length l) RMem).
  { induction 1 as [|x l' <- _ IH]; [done|]. simpl. by f_equal. }
  intros Hk Hl. rewrite (Hr k Hk), (Hr l Hl), <- !replicate_add. f_equal. lia.
Qed.

Lemma map_front h k : existsb is_map h = true -> existsb is_map (h ++ k) = true.
Proof. intros Hm. by rewrite existsb_app, Hm. Qed.

Lemma cells_mapped n h : existsb is_map h = true -> existsb is_map (replicate n RCell ++ h) = true.
Proof. intros Hm. by induction n. Qed.

Lemma bus_held s s' h :
  existsb is_map h = true -> sys_step s s' -> held (sys_trace s) = Some h ->
  held (sys_trace s') = Some h /\ lost_regions (sys_trace s') = lost_regions (sys_trace s).
Proof.
  intros Hm Hs Hh. destruct (bus_trace _ _ Hs) as (t & -> & Ht). split.
  - unfold held in *. rewrite held_from_app, Hh. simpl. by apply driver_holds.
  - rewrite lost_app, (lost_none t), app_nil_r; [done|]. eapply Forall_impl; [exact Ht|].
    intros c. by destruct c as [| | | | |[]].
Qed.

Context `{!ChrdevKernel E}.

Lemma unbind_run s s' h :
  existsb is_map h = true -> rtc unbind s s' -> sys_ok s -> held (sys_trace s) = Some h ->
  sys_ok s' /\ held (sys_trace s') = Some h /\ lost_regions (sys_trace s') = lost_regions (sys_trace s).
Proof.
  intros Hm. induction 1 as [s|s1 s2 s3 H12 _ IH]; [done|]. intros Hok Hh. apply unbind_step in H12.
  destruct (bus_held _ _ _ Hm H12 Hh) as [Hh2 <-]. apply IH; [by eapply sys_step_ok | done].
Qed.

(** The sub-devices are gone when [mfd_remove_devices] returns. *)
Lemma remove_cells_held tr n h ev d :
  ev_call ev = Kernel (MfdRemoveDevices d) -> Forall (fun x => x <> RCell) h ->
  held tr = Some (replicate n RCell ++ h) -> held (tr ++ [ev]) = Some h.
Proof.
  destruct ev as [c r]. simpl. intros -> Hc Hh. unfold held in *. rewrite held_from_app, Hh. simpl.
  exact (held_remove_cells n h d r [] Hc).
Qed.

Lemma machine_step_ok m m' : machine_step m m' -> machine_ok m -> machine_ok m'.
Proof.
  intros Hstep [Hsys Hdev]. destruct Hstep as [m e e' r d t Hno Hrun|m s' d Hd Hs _|m e e' d ev t s1 Hd Hrun Hub Hall].
  - rewrite Hno in Hdev. destruct Hdev as [Hh Hcells], m as [? [st l tr]]. simpl in *. subst l.
    pose proof (run_calls _ _ _ _ _ _ fe_probe_net Hrun) as Hnet.
    pose proof (wpx_run _ _ _ _ _ _ _ (fe_balanced e) Hrun) as Hbal. cbn beta iota in Hbal.
    assert (Hheld : forall x, held t = Some x -> held (tr ++ t) = Some (x ++ lost_regions tr)).
    { intros x Hx. unfold held in *. rewrite held_from_app, Hh. exact (held_from_frame _ _ [] x (lost_mem tr) Hx). }
    assert (Hnew : forall l, all_unbound l -> sys_ok (System st l (tr ++ t))).
    { intros l Hl. apply sys_ok_trace; [|done]. by apply (sys_ok_unbound st []); [constructor | |]. }
    destruct (r =? 0).
    + destruct Hbal as (Hl & ccatdev & n & h & -> & Ht & Hm & Hc & Hrm). split; simpl.
      * apply Hnew, bus_cells_unbound.
      * exists n, h. split; [by split_and!|]. rewrite (Hheld _ Ht), lost_app, Hl, app_nil_r. by rewrite <- app_assoc.
    + split; simpl; [apply Hnew; constructor|]. split; [|done]. rewrite (Hheld _ Hbal), lost_app. f_equal. apply mem_comm;
        apply lost_mem.
  - rewrite Hd in Hdev. destruct Hdev as (n & h & Hp & Hh). split; simpl; [by eapply sys_step_ok|].
    exists n, h. split; [done|]. destruct (bus_held _ _ _ ltac:(apply cells_mapped, map_front, Hp) Hs Hh) as [Hh' ->]. done.
  - rewrite Hd in Hdev. destruct Hdev as (n & h & (Hm & Hc & Hrm) & Hh).
    pose proof (run_calls _ _ _ _ _ _ (fe_remove_net _) Hrun) as [Hn1 Hn2]%Forall_cons.
    pose proof (run_calls _ _ _ _ _ _ (fe_remove_maps _) Hrun) as [Hl1 Hl2]%Forall_cons.
    destruct (wpx_run _ _ _ _ _ _ _ (Hrm e) Hrun) as (ev' & t2 & [= <- <-] & Hev & Hback).
    destruct m as [? [st l tr]]. simpl in *.
    assert (Hlost : lost_regions (tr ++ [ev]) = lost_regions tr)
      by (rewrite lost_app, (lost_none [ev]), app_nil_r by (by repeat constructor); done).
    destruct (unbind_run _ _ (h ++ lost_regions tr) (map_front _ _ Hm) Hub) as (Hok1 & Hh1 & Hlost1).
    { by apply sys_ok_trace; [|repeat constructor]. }
    { eapply remove_cells_held; [exact Hev | | exact Hh]. apply Forall_app. split; [done|].
      eapply Forall_impl; [apply lost_mem|]. by intros x <-. }
    destruct s1 as [st1 l1 tr1]. simpl in *. split; simpl.
    + apply sys_ok_trace; [|done]. by apply (sys_ok_unbound st1 l1); [|constructor|].
    + split; [|done]. rewrite lost_app, (lost_none t), app_nil_r, Hlost1, Hlost by done.
      unfold held in *. rewrite held_from_app, Hh1. exact (held_from_frame _ _ h [] (lost_mem tr) Hback).
Qed.

Lemma machine_reachable_ok m : rtc machine_step machine_start m -> machine_ok m.
Proof.
  intros Hr. assert (Hok : machine_ok machine_start) by (split; [apply sys_start_ok | done]).
  revert Hok. induction Hr; eauto using machine_step_ok.
Qed.

(** Every sub-device can be unbound. *)
Lemma unbind_all (e : E) s : sys_ok s -> exists s', rtc unbind s s' /\ all_unbound (sys_cells s').
Proof.
  remember (length (filter (fun c => is_bound c = true) (sys_cells s))) as k eqn:Hk.
  revert s Hk. induction k as [k IH] using lt_wf_ind. intros s Hk Hok.
  destruct (decide (Forall (fun c => is_bound c = false) (sys_cells s))) as [Hall|Hsome].
  { exists s. split; [done|]. eapply Forall_impl; [exact Hall|]. intros c. unfold is_bound. by destruct (c_state c). }
  apply not_Forall_Exists in Hsome; [|apply _]. apply Exists_exists in Hsome as (c & Hin & Hb).
  apply list_elem_of_lookup_1 in Hin as [i Hi].
  destruct (c_state c) as [|p] eqn:Hst; [by exfalso; apply Hb; unfold is_bound; rewrite Hst|].
  pose proof (remove_returns gpio_size time_size s i c p e Hok Hi Hst) as Hw.
  apply wp_elim in Hw as (st' & t & e' & Hrun & _).
  pose proof (unbind_cell s i c p e e' st' t Hi Hst Hrun) as Hub. set (s1 := System _ _ _) in Hub.
  destruct (IH (length (filter (fun c => is_bound c = true) (sys_cells s1)))) with (s := s1) as (s' & Hr & Hall).
  - rewrite Hk. destruct (cells_front _ i c (set_state Unbound c) Hi) as [Hf Hf']. simpl.
    set (P := fun c => is_bound c = true).
    assert (Hl : length (filter P (sys_cells s)) = length (filter P (c :: delete i (sys_cells s)))) by (by rewrite <- Hf).
    rewrite Hl, Hf', filter_cons_False by done. rewrite filter_cons_True; [simpl; lia|].
    unfold P, is_bound. by rewrite Hst.
  - done.
  - eapply sys_step_ok; [done | by apply unbind_step | done].
  - exists s'. split; [by eapply rtc_l | done].
Qed.

Lemma unplug_possible m d (e : E) :
  machine_ok m -> m_dev m = Some d -> exists m', machine_step m m' /\ m_dev m' = None.
Proof.
  intros [Hsys Hdev] Hd. rewrite Hd in Hdev. destruct Hdev as (n & h & (Hm & Hc & Hrm) & Hh).
  destruct (wp_elim _ _ _ (Hrm e)) as ([] & t & e' & Hrun & ev & t2 & -> & Hev & _).
  destruct m as [? [st l tr]]. simpl in *.
  pose proof (run_calls _ _ _ _ _ _ (fe_remove_net _) Hrun) as [Hn1 _]%Forall_cons.
  destruct (unbind_all e (System st l (tr ++ [ev]))) as (s1 & Hub & Hall).
  { by apply sys_ok_trace; [|repeat constructor]. }
  eexists. split; [by eapply ms_unplug | done].
Qed.


End Machine.

(** ** Witnesses: a PCI card with one GPIO function *)

Definition plug_env : Env unit := fun c e =>
  match c with
  | IoRead W8 a => (Resp (small_rom (a - 4096)) 0, e)
  | Kernel (Kzalloc _) | Kernel (DevmKzalloc _) => (Resp 512 0, e)
  | Kernel (PciIomap _ bar) => (Resp (4096 + 4096 * bar) 0, e)
  | Kernel (AllocChrdevRegion _) => (Resp 0 (240 * 2 ^ 20), e)
  | _ => (Resp 0 0, e)
  end.

Lemma plug_env_chrdev : @ChrdevKernel unit plug_env.
Proof. intros e n _. done. Qed.

