(* ===== verification/EtherCat.v ===== *)
(** * The EtherCAT test application (unittest/main.c) and the frame generators

    A program of the test stage that runs over the network device of the driver: it drives digital
    outputs of an EtherCAT terminal, which are wired to digital inputs, and counts how often the
    inputs do not follow.  [cyclic_task] runs once per alarm of a 100 Hz timer.  The file also
    holds the two programs that inject the forwarding frame (forward_frames.c, udp_burst.c).

    The EtherCAT master library (ecrt) is a parameter: its functions are calls, and the fields of
    its state structures that the program prints are read from the answer by the accessors of the
    section below. *)

From S2P Require Import Prelude IO Netdev.

(** ** Tables of process data objects *)

Record ec_pdo_entry_info_t := Entry { en_index : Z; en_subindex : Z; en_bits : Z }.

(** A pointer into an array is the array from there on. *)
Record ec_pdo_info_t := Pdo { pdo_index : Z; n_entries : nat; entries : list ec_pdo_entry_info_t }.

Inductive ec_direction_t := EC_DIR_OUTPUT | EC_DIR_INPUT.

Record ec_sync_info_t := Sync { sync_index : Z; dir : ec_direction_t; n_pdos : nat; pdos : list ec_pdo_info_t }.

Definition el1004_channels : list ec_pdo_entry_info_t :=
  [Entry 0x6000 1 1; Entry 0x6010 1 1; Entry 0x6020 1 1; Entry 0x6030 1 1].
Definition el1004_pdos : list ec_pdo_info_t :=
  [Pdo 0x1a00 1 (drop 0 el1004_channels); Pdo 0x1a01 1 (drop 1 el1004_channels);
   Pdo 0x1a02 1 (drop 2 el1004_channels); Pdo 0x1a03 1 (drop 3 el1004_channels)].
(** The terminating entry [{0xff}] of these tables is the end of the list. *)
Definition el1004_syncs : list ec_sync_info_t :=
  [Sync 2 EC_DIR_OUTPUT 0 []; Sync 3 EC_DIR_INPUT 4 el1004_pdos].

Definition el1008_channels : list ec_pdo_entry_info_t :=
  [Entry 0x6000 1 1; Entry 0x6010 1 1; Entry 0x6020 1 1; Entry 0x6030 1 1;
   Entry 0x6040 1 1; Entry 0x6050 1 1; Entry 0x6060 1 1; Entry 0x6070 1 1].
Definition el1008_pdos : list ec_pdo_info_t :=
  [Pdo 0x1a00 1 (drop 0 el1008_channels); Pdo 0x1a01 1 (drop 1 el1008_channels);
   Pdo 0x1a02 1 (drop 2 el1008_channels); Pdo 0x1a03 1 (drop 3 el1008_channels);
   Pdo 0x1a04 1 (drop 4 el1008_channels); Pdo 0x1a05 1 (drop 5 el1008_channels);
   Pdo 0x1a06 1 (drop 6 el1008_channels); Pdo 0x1a07 1 (drop 7 el1008_channels)].
Definition el1008_syncs : list ec_sync_info_t :=
  [Sync 2 EC_DIR_OUTPUT 0 []; Sync 3 EC_DIR_INPUT 8 el1008_pdos].

Definition el2004_channels : list ec_pdo_entry_info_t :=
  [Entry 0x7000 1 1; Entry 0x7010 1 1; Entry 0x7020 1 1; Entry 0x7030 1 1].
Definition el2004_pdos : list ec_pdo_info_t :=
  [Pdo 0x1600 1 (drop 0 el2004_channels); Pdo 0x1601 1 (drop 1 el2004_channels);
   Pdo 0x1602 1 (drop 2 el2004_channels); Pdo 0x1603 1 (drop 3 el2004_channels)].
Definition el2004_syncs : list ec_sync_info_t :=
  [Sync 0 EC_DIR_OUTPUT 4 el2004_pdos; Sync 1 EC_DIR_INPUT 0 []].

Definition el2008_channels : list ec_pdo_entry_info_t :=
  [Entry 0x7000 1 1; Entry 0x7010 1 1; Entry 0x7020 1 1; Entry 0x7030 1 1;
   Entry 0x7040 1 1; Entry 0x7050 1 1; Entry 0x7060 1 1; Entry 0x7070 1 1].
Definition el2008_pdos : list ec_pdo_info_t :=
  [Pdo 0x1600 1 (drop 0 el2008_channels); Pdo 0x1601 1 (drop 1 el2008_channels);
   Pdo 0x1602 1 (drop 2 el2008_channels); Pdo 0x1603 1 (drop 3 el2008_channels);
   Pdo 0x1604 1 (drop 4 el2008_channels); Pdo 0x1605 1 (drop 5 el2008_channels);
   Pdo 0x1606 1 (drop 6 el2008_channels); Pdo 0x1607 1 (drop 7 el2008_channels)].
Definition el2008_syncs : list ec_sync_info_t :=
  [Sync 0 EC_DIR_OUTPUT 8 el2008_pdos; Sync 1 EC_DIR_INPUT 0 []].

(** What the library reads of a table: the sync managers with, for each, as many PDOs and entries
    as their counts say. *)
Definition entry_words (e : ec_pdo_entry_info_t) : list Z := [en_index e; en_subindex e; en_bits e].
Definition pdo_words (p : ec_pdo_info_t) : list Z :=
  pdo_index p :: Z.of_nat (n_entries p) :: concat (entry_words <$> take (n_entries p) (entries p)).
Definition sync_words (dir_code : ec_direction_t -> Z) (s : ec_sync_info_t) : list Z :=
  sync_index s :: dir_code (dir s) :: Z.of_nat (n_pdos s) :: concat (pdo_words <$> take (n_pdos s) (pdos s)).

(** ** State *)

Definition FREQUENCY : Z := 100.
Definition SIGALRM : Z := 14.
Definition INT_MAX : Z := 2 ^ 31 - 1.

(** The terminals: PDO index, vendor and product, as the macros expand in the calls. *)
Record terminal := Terminal { tm_index : Z; tm_vendor : Z; tm_product : Z }.
Definition Beckhoff_EL1004 : terminal := Terminal 0x6000 0x00000002 0x03ec3052.
Definition Beckhoff_EL2004 : terminal := Terminal 0x7000 0x00000002 0x07d43052.
(** [BusCouplerPos] and [Beckhoff_EK1100] *)
Definition BusCouplerPos : Z * Z := (0, 4).
Definition Beckhoff_EK1100 : Z * Z := (0x00000002, 0x04562c52).

(** The static variables of the program and of [cyclic_task].  A state structure of the library
    is kept as the two numbers of the answer it came in. *)
Record app := App {
  master : Z;
  domain1 : Z;
  domain1_pd : Z;
  off_dig_in : Z * Z;
  off_dig_out : Z * Z;
  domain1_state : Z * Z;
  master_state : Z * Z;
  sc_ana_in_state : Z;
  sig_alarms : Z;
  user_alarms : Z;
  counter : Z;
  outputValue : Z;
  numAsyncCycles : Z;
  error : Z;
}.

Definition set_domain1_state x s := App (master s) (domain1 s) (domain1_pd s) (off_dig_in s) (off_dig_out s)
  x (master_state s) (sc_ana_in_state s) (sig_alarms s) (user_alarms s)
  (counter s) (outputValue s) (numAsyncCycles s) (error s).
Definition set_master_state x s := App (master s) (domain1 s) (domain1_pd s) (off_dig_in s) (off_dig_out s)
  (domain1_state s) x (sc_ana_in_state s) (sig_alarms s) (user_alarms s)
  (counter s) (outputValue s) (numAsyncCycles s) (error s).
Definition set_sc_ana_in_state x s := App (master s) (domain1 s) (domain1_pd s) (off_dig_in s) (off_dig_out s)
  (domain1_state s) (master_state s) x (sig_alarms s) (user_alarms s)
  (counter s) (outputValue s) (numAsyncCycles s) (error s).
Definition set_alarms sig user s := App (master s) (domain1 s) (domain1_pd s) (off_dig_in s) (off_dig_out s)
  (domain1_state s) (master_state s) (sc_ana_in_state s) sig user (counter s) (outputValue s) (numAsyncCycles s) (error s).
Definition set_cycle c o n x s := App (master s) (domain1 s) (domain1_pd s) (off_dig_in s) (off_dig_out s)
  (domain1_state s) (master_state s) (sc_ana_in_state s) (sig_alarms s) (user_alarms s) c o n x.

(** The statics before [main] has set anything up. *)
Definition app_start (m d pd : Z) (ins outs : Z * Z) : app :=
  App m d pd ins outs (0, 0) (0, 0) 0 0 0 10 0 0 0.

Section Operations.
Context {E : Type} `{Env E}.

(** Fields of the library's [ec_master_state_t] and [ec_slave_config_state_t], packed in one word
    each; the direction codes of [ec_direction_t]. *)
Context (al_states link_up : Z -> Z) (al_state online operational : Z -> Z).
Context (dir_code : ec_direction_t -> Z).

Definition print_if (b : bool) (msg : string) (v : Z) : M E unit :=
  if b then kern_ (Print msg v) else mret tt.

(** [working_counter] and [wc_state] are the two numbers of the answer. *)
Definition check_domain1_state (s : app) : M E app :=
  ds ← do_call (Kernel (EcrtDomainState (domain1 s)));
  print_if (negb (r_val ds =? (domain1_state s).1)) "Domain1: WC %u." (r_val ds) ;;
  print_if (negb (r_out ds =? (domain1_state s).2)) "Domain1: State %u." (r_out ds) ;;
  mret (set_domain1_state (r_val ds, r_out ds) s).

(** [slaves_responding] is the first number, the bit fields are in the second. *)
Definition check_master_state (s : app) : M E app :=
  ms ← do_call (Kernel (EcrtMasterState (master s)));
  let old := (master_state s).2 in
  let new := r_out ms in
  print_if (negb (r_val ms =? (master_state s).1)) "%u slave(s)." (r_val ms) ;;
  print_if (negb (al_states new =? al_states old)) "AL states: 0x%02X." (al_states new) ;;
  print_if (negb (link_up new =? link_up old)) "Link is %s." (link_up new) ;;
  mret (set_master_state (r_val ms, new) s).

(** Not called by the program; [sc_ana_in] stays NULL. *)
Definition check_slave_config_states (s : app) : M E app :=
  r ← kern (EcrtSlaveConfigState 0);
  let old := sc_ana_in_state s in
  print_if (negb (al_state r =? al_state old)) "AnaIn: State 0x%02X." (al_state r) ;;
  print_if (negb (online r =? online old)) "AnaIn: %s." (online r) ;;
  print_if (negb (operational r =? operational old)) "AnaIn: %soperational." (operational r) ;;
  mret (set_sc_ana_in_state r s).

(** [++] on an [int]: overflow is undefined. *)
Definition int_inc (n : Z) : M E Z := if INT_MAX <=? n then oops else mret (n + 1).

Definition cyclic_task (s : app) : M E app :=
  kern_ (EcrtMasterReceive (master s)) ;;
  kern_ (EcrtDomainProcess (domain1 s)) ;;
  s ← check_domain1_state s;
  v ← memread W8 (domain1_pd s + (off_dig_in s).2);
  let inputValue := Z.land v 0x0F in
  numAsync ← (if negb (inputValue =? outputValue s) then int_inc (numAsyncCycles s) else mret 0);
  let err := if (2 <? numAsync) && negb (error s =? 0xff) then u8 (error s + 1) else error s in
  s ← (if istrue (counter s)
       then mret (set_cycle (counter s - 1) (outputValue s) numAsync err s)
       else check_master_state (set_cycle 5 (Z.land (outputValue s + 1) 0x0F) numAsync err s));
  memwrite W8 (domain1_pd s + (off_dig_out s).1) (outputValue s) ;;
  memwrite W8 (domain1_pd s + (off_dig_out s).2) (error s) ;;
  kern_ (EcrtDomainQueue (domain1 s)) ;;
  kern_ (EcrtMasterSend (master s)) ;;
  mret s.

Definition signal_handler (signum : Z) (s : app) : app :=
  if signum =? SIGALRM then set_alarms (u32 (sig_alarms s + 1)) (user_alarms s) s else s.

(** *** Setting up *)

(** The result and [*off], an [int] stored in an [unsigned int]. *)
Definition Init_EL100x (m d position off : Z) (tm : terminal) (syncs : list ec_sync_info_t) : M E (Z * Z) :=
  sc ← kern (EcrtMasterSlaveConfig m 0 position (tm_vendor tm) (tm_product tm));
  if sc =? 0 then kern_ (Print "Failed to get slave configuration." 0) ;; mret (-1, off)
  else
    r ← kern (EcrtSlaveConfigPdos sc (concat (sync_words dir_code <$> syncs)));
    if istrue r then kern_ (Print "Failed to configure PDOs." 0) ;; mret (-1, off)
    else
      r ← kern (EcrtSlaveConfigRegPdoEntry sc (tm_index tm) 1 d);
      let off := u32 r in
      if r <? 0 then kern_ (Print "Failed to configure reg PDOs." 0) ;; mret (-1, off)
      else kern_ (Print "Slave configured @ pos %d." position) ;; mret (0, off).

(** [main] up to its loop: the exit code, or the state the loop starts with.  The block under
    [#if PRIORITY] is not compiled. *)
Definition main_setup : M E (Z + app) :=
  m ← kern (EcrtRequestMaster 0);
  if m =? 0 then mret (inl (-1))
  else
    d ← kern (EcrtMasterCreateDomain m);
    if d =? 0 then mret (inl (-1))
    else
      kern_ (Print "Configuring PDOs..." 0) ;;
      '(_, in0) ← Init_EL100x m d 0 0 Beckhoff_EL1004 el1004_syncs;
      '(_, in1) ← Init_EL100x m d 1 0 Beckhoff_EL1004 el1004_syncs;
      '(_, out0) ← Init_EL100x m d 2 0 Beckhoff_EL2004 el2004_syncs;
      '(_, out1) ← Init_EL100x m d 3 0 Beckhoff_EL2004 el2004_syncs;
      sc ← kern (EcrtMasterSlaveConfig m BusCouplerPos.1 BusCouplerPos.2 Beckhoff_EK1100.1 Beckhoff_EK1100.2);
      if sc =? 0 then mret (inl (-1))
      else
        kern_ (Print "EK1100 configured." 0) ;;
        kern_ (Print "Activating master..." 0) ;;
        r ← kern (EcrtMasterActivate m);
        if istrue r then mret (inl (-1))
        else
          pd ← kern (EcrtDomainData d);
          if pd =? 0 then mret (inl (-1))
          else
            r ← kern (Sigaction SIGALRM);
            if istrue r then kern_ (Print "Failed to install signal handler!" 0) ;; mret (inl (-1))
            else
              kern_ (Print "Starting timer..." 0) ;;
              r ← kern (Setitimer (1000000 / FREQUENCY) 1000);
              if istrue r then kern_ (Print "Failed to start timer: %s" 0) ;; mret (inl 1)
              else
                kern_ (Print "Started." 0) ;;
                mret (inr (app_start m d pd (in0, in1) (out0, out1))).

(** *** The loop *)

(** [n] alarms handled, one after the other. *)
Definition alarms (n : nat) (s : app) : app := Nat.iter n (signal_handler SIGALRM) s.

(** The inner loop.  [arrivals] are the alarms that arrive during each of its rounds; [fuel]
    bounds the rounds. *)
Fixpoint serve_alarms (fuel : nat) (arrivals : list nat) (s : app) : M E app :=
  match fuel with
  | O => hang
  | S fuel' =>
      if sig_alarms s =? user_alarms s then mret s
      else
        s ← cyclic_task s;
        let s := alarms (hd 0%nat arrivals) s in
        serve_alarms fuel' (tl arrivals) (set_alarms (sig_alarms s) (u32 (user_alarms s + 1)) s)
  end.

(** The outer loop, one round per element: the alarms that end the pause, and those that arrive
    while they are served. *)
Fixpoint main_loop (fuel : nat) (rounds : list (nat * list nat)) (s : app) : M E app :=
  match rounds with
  | [] => mret s
  | (n, arrivals) :: rounds' =>
      kern_ Pause ;;
      s ← serve_alarms fuel arrivals (alarms n s);
      main_loop fuel rounds' s
  end.

(** ** The frame generators *)

(** The frames of the two programs: each has its own copy. *)
Definition burst_frame : list Z :=
  [0x01; 0x01; 0x05; 0x01; 0x00; 0x00;
   0x00; 0x1b; 0x21; 0x36; 0x1b; 0xce;
   0x88; 0xa4; 0x0e; 0x10;
   0x08;
   0x00;
   0x00; 0x00;
   0x00; 0x01;
   0x02; 0x00;
   0x00; 0x00;
   0x00; 0x00;
   0x00; 0x00].
Definition forward_frame : list Z :=
  [0x01; 0x01; 0x05; 0x01; 0x00; 0x00;
   0x00; 0x1b; 0x21; 0x36; 0x1b; 0xce;
   0x88; 0xa4; 0x0e; 0x10;
   0x08;
   0x00;
   0x00; 0x00;
   0x00; 0x01;
   0x02; 0x00;
   0x00; 0x00;
   0x00; 0x00;
   0x00; 0x00].

Definition PCAP_SNAPLEN : Z := 96.

(** [main] of forward_frames.c, which injects its frame once, and of udp_burst.c.  The second number of
    the answer of [pcap_open_live] says whether it left a message. *)
Fixpoint inject_frames (frame : list Z) (n : nat) (pcap : Z) : M E unit :=
  match n with
  | O => mret tt
  | S n' =>
      r ← kern (PcapInject pcap frame);
      print_if (r =? -1) "pcap error" 0 ;;
      inject_frames frame n' pcap
  end.

Definition pcap_main (frame : list Z) (n : nat) : M E Z :=
  r ← do_call (Kernel (PcapOpenLive "eth2" PCAP_SNAPLEN));
  print_if (istrue (r_out r)) "%s" 0 ;;
  if r_val r =? 0 then mret 1
  else
    inject_frames frame n (r_val r) ;;
    kern_ (PcapClose (r_val r)) ;;
    mret 0.

Definition forward_frames_main : M E Z := pcap_main forward_frame 1.
Definition udp_burst_main : M E Z := pcap_main burst_frame 1000.

End Operations.

(** ** One cycle *)

(** The control part of a cycle that reads the input byte [v]. *)
Record cycle := Cycle { cy_counter : Z; cy_output : Z; cy_async : Z; cy_error : Z }.
Definition cycle_of (s : app) : cycle := Cycle (counter s) (outputValue s) (numAsyncCycles s) (error s).

Definition next_cycle (v : Z) (c : cycle) : cycle :=
  let async := if Z.land v 0x0F =? cy_output c then 0 else cy_async c + 1 in
  let err := if 2 <? async then Z.min 255 (cy_error c + 1) else cy_error c in
  if cy_counter c =? 0 then Cycle 5 ((cy_output c + 1) mod 16) async err
  else Cycle (cy_counter c - 1) (cy_output c) async err.

(** What a cycle leaves alone: the library's handles, the offsets, the alarms. *)
Definition same_setup (s s' : app) : Prop :=
  master s' = master s /\ domain1 s' = domain1 s /\ domain1_pd s' = domain1_pd s /\
  off_dig_in s' = off_dig_in s /\ off_dig_out s' = off_dig_out s /\
  sig_alarms s' = sig_alarms s /\ user_alarms s' = user_alarms s.

#[export] Instance same_setup_preorder : PreOrder same_setup.
Proof.
  split; unfold same_setup; [done|]. intros x y z Hxy Hyz. destruct_and!. split_and!; congruence.
Qed.

(** The frames a run hands to the network. *)
Definition is_send (c : call) : nat := match c with Kernel (EcrtMasterSend _) => 1 | _ => 0 end.
Definition sends (t : list event) : nat := sum_list_with is_send (calls t).

Lemma sends_app t t' : sends (t ++ t') = (sends t + sends t')%nat.
Proof. unfold sends. by rewrite calls_app, sum_list_with_app. Qed.
Lemma sends_cons ev t : sends (ev :: t) = (is_send (ev_call ev) + sends t)%nat.
Proof. done. Qed.
#[export] Hint Rewrite sends_app sends_cons : ccat.

Definition cycle_wf (c : cycle) : Prop := 0 <= cy_output c < 16 /\ 0 <= cy_error c < 256 /\ 0 <= cy_async c.

Lemma next_cycle_wf v c : cycle_wf c -> cycle_wf (next_cycle v c).
Proof.
  unfold cycle_wf, next_cycle. intros (Ho & He & Ha).
  pose proof (Z.mod_pos_bound (cy_output c + 1) 16 ltac:(lia)).
  destruct (cy_counter c =? 0), (Z.land v 0x0F =? cy_output c); simpl;
    try match goal with |- context [2 <? ?n] => destruct (2 <? n) end; lia.
Qed.

Section OneCycle.
Context {E : Type} `{Env E} (al_states link_up : Z -> Z).

(** [R] relates environments that the library's calls, other than through the process data, cannot
    tell apart. *)
Context (R : E -> E -> Prop) `{!PreOrder R} (HR : forall k e, R e (ext (Kernel k) e).2).

Lemma print_if_quiet b msg v (e : E) :
  wp (print_if b msg v) e (fun _ t e' => sends t = 0%nat /\ R e e').
Proof. unfold print_if. destruct b; wp_run; (split; [done|]); [apply HR | reflexivity]. Qed.

Lemma check_domain1_quiet s (e : E) :
  wp (check_domain1_state s) e (fun s' t e' =>
    (same_setup s s' /\ cycle_of s' = cycle_of s) /\ sends t = 0%nat /\ R e e').
Proof.
  unfold check_domain1_state. wp_run. eapply wp_conseq; [apply print_if_quiet|].
  intros ? t1 e1 [Ht1 He1]. wp_run. eapply wp_conseq; [apply print_if_quiet|].
  intros ? t2 e2 [Ht2 He2]. wp_run. autorewrite with ccat. split_and!; [done..| |].
  - rewrite Ht1, Ht2. done.
  - etrans; [|exact He2]. etrans; [|exact He1]. apply HR.
Qed.

Lemma check_master_quiet s (e : E) :
  wp (check_master_state al_states link_up s) e (fun s' t e' =>
    (same_setup s s' /\ cycle_of s' = cycle_of s) /\ sends t = 0%nat /\ R e e').
Proof.
  unfold check_master_state. wp_run. eapply wp_conseq; [apply print_if_quiet|].
  intros ? t1 e1 [Ht1 He1]. wp_run. eapply wp_conseq; [apply print_if_quiet|].
  intros ? t2 e2 [Ht2 He2]. wp_run. eapply wp_conseq; [apply print_if_quiet|].
  intros ? t3 e3 [Ht3 He3]. wp_run. autorewrite with ccat. split_and!; [done..| |].
  - rewrite Ht1, Ht2, Ht3. done.
  - etrans; [|exact He3]. etrans; [|exact He2]. etrans; [|exact He1]. apply HR.
Qed.

(** A cycle reads the input byte once, advances the control part by it, writes the output and the
    error byte, and sends one frame. *)
Definition cycle_done (s s' : app) (t : list event) (e e' : E) : Prop :=
  exists e1 e2,
    let read := ext (MemRead W8 (domain1_pd s + (off_dig_in s).2)) e1 in
    let out := ext (MemWrite W8 (domain1_pd s + (off_dig_out s).1) (outputValue s')) e2 in
    let err := ext (MemWrite W8 (domain1_pd s + (off_dig_out s).2) (error s')) out.2 in
    R e e1 /\ R read.2 e2 /\ R err.2 e' /\
    same_setup s s' /\ cycle_of s' = next_cycle (u8 (r_val read.1)) (cycle_of s) /\ sends t = 1%nat.

Lemma error_step n x : 0 <= x < 256 ->
  (if (2 <? n) && negb (x =? 0xff) then u8 (x + 1) else x) = if 2 <? n then Z.min 255 (x + 1) else x.
Proof.
  intros Hx. destruct (2 <? n); [|done]. cbn [andb]. destruct (Z.eqb_spec x 0xff); cbn [negb]; [lia|].
  rewrite u8_small; unfold is_byte; lia.
Qed.

Definition async_step (v : Z) (s : app) : Z :=
  if Z.land v 0x0F =? outputValue s then 0 else numAsyncCycles s + 1.
Definition err_step (n : Z) (s : app) : Z := if 2 <? n then Z.min 255 (error s + 1) else error s.

Lemma async_spec v s (e : E) :
  numAsyncCycles s < INT_MAX ->
  wp (if negb (Z.land v 0x0F =? outputValue s) then int_inc (numAsyncCycles s) else mret 0) e
    (fun n t e' => n = async_step v s /\ t = [] /\ e' = e).
Proof.
  intros Hmax. unfold async_step, int_inc. destruct (_ =? outputValue s); cbn [negb]; [by wp_run|].
  rewrite (proj2 (Z.leb_gt _ _)) by done. by wp_run.
Qed.

(** The countdown: a step of it, or a new output and a look at the master. *)
Lemma countdown_spec v s s1 (e : E) :
  same_setup s s1 -> cycle_of s1 = cycle_of s ->
  let n := async_step v s in
  wp (if istrue (counter s1) then mret (set_cycle (counter s1 - 1) (outputValue s1) n (err_step n s) s1)
      else check_master_state al_states link_up
             (set_cycle 5 (Z.land (outputValue s1 + 1) 0x0F) n (err_step n s) s1)) e
    (fun s' t e' => same_setup s s' /\ cycle_of s' = next_cycle v (cycle_of s) /\ sends t = 0%nat /\ R e e').
Proof.
  intros Hset Hcyc n. injection Hcyc as Hc Ho Hn Hx. rewrite Hc, Ho. unfold next_cycle, istrue.
  cbn [cy_counter cy_output cy_async cy_error cycle_of]. fold (async_step v s) n. fold (err_step n s).
  destruct (counter s =? 0); cbn [negb]; wp_run;
    [|split; [exact Hset | split_and!; done || reflexivity]].
  eapply wp_conseq; [apply check_master_quiet|]. intros s2 t e' ([Hs2 Hcy] & Ht & He').
  split; [etrans; [exact Hset | exact Hs2]|]. split_and!; [|done | done]. rewrite Hcy. unfold cycle_of. simpl.
  f_equal. change 0x0F with (2 ^ 4 - 1). by rewrite land_mask_mod.
Qed.

Lemma cyclic_task_spec s (e : E) :
  cycle_wf (cycle_of s) -> numAsyncCycles s < INT_MAX ->
  wp (cyclic_task al_states link_up s) e (fun s' t e' => cycle_done s s' t e e').
Proof.
  intros Hwf Hmax. unfold cyclic_task. wp_run.
  eapply wp_conseq; [apply check_domain1_quiet|]. intros s1 t1 e1 ([Hset Hcyc] & Ht1 & He1). wp_run. untrunc.
  set (a := domain1_pd s1 + (off_dig_in s1).2). set (v := u8 (r_val (ext (MemRead W8 a) e1).1)).
  assert (Ha1 : a = domain1_pd s + (off_dig_in s).2)
    by (unfold a; destruct Hset as (_ & _ & -> & -> & _); done).
  assert (Hf : outputValue s1 = outputValue s /\ numAsyncCycles s1 = numAsyncCycles s /\ error s1 = error s)
    by (injection Hcyc; done). destruct Hf as (Ho1 & Hn1 & Hx1).
  eapply wp_conseq; [apply async_spec; lia|]. intros n t2 e2 (-> & -> & ->).
  assert (Hn : async_step v s1 = async_step v s) by (unfold async_step; by rewrite Ho1, Hn1).
  rewrite Hn, error_step by (rewrite Hx1; apply Hwf). rewrite Hx1. fold (err_step (async_step v s) s).
  apply wp_bind. eapply wp_conseq; [by apply (countdown_spec v s s1)|].
  intros s2 t3 e3 (Hset2 & Hcy & Ht3 & He3). wp_run. untrunc.
  pose proof (next_cycle_wf v (cycle_of s) Hwf) as (Ho2 & Hx2 & _). rewrite <- Hcy in Ho2, Hx2.
  cbn [cy_output cy_error cycle_of] in Ho2, Hx2.
  rewrite !u8_small by (unfold is_byte; lia). exists e1, e3. cbv zeta. rewrite <- Ha1. fold v.
  assert (Hpd : domain1_pd s2 = domain1_pd s /\ off_dig_out s2 = off_dig_out s)
    by (destruct Hset2 as (_ & _ & Hp & _ & Hq & _); done). destruct Hpd as [-> ->].
  split_and!; [| done | | done | done |].
  - etrans; [|exact He1]. etrans; [apply HR|]. apply HR.
  - etrans; [apply HR|]. apply HR.
  - autorewrite with ccat. rewrite Ht1, Ht3. done.
Qed.

End OneCycle.

(** The same for any environment. *)
Lemma cyclic_task_any {E} `{Env E} al_states link_up s (e : E) :
  cycle_wf (cycle_of s) -> numAsyncCycles s < INT_MAX ->
  wp (cyclic_task al_states link_up s) e (fun s' t _ =>
    same_setup s s' /\ cycle_wf (cycle_of s') /\ numAsyncCycles s' <= numAsyncCycles s + 1 /\ sends t = 1%nat).
Proof.
  intros Hwf Hmax. assert (Hpre : PreOrder (fun _ _ : E => True)) by (split; done).
  eapply wp_conseq; [by apply (cyclic_task_spec al_states link_up (fun _ _ => True))|].
  intros s' t e' (e1 & e2 & _ & _ & _ & Hset & Hcy & Ht).
  pose proof (next_cycle_wf (u8 (r_val (ext (MemRead W8 (domain1_pd s + (off_dig_in s).2)) e1).1)) _ Hwf).
  rewrite <- Hcy in *. split_and!; [done..| |done]. destruct Hwf as (_ & _ & Ha).
  change (numAsyncCycles s') with (cy_async (cycle_of s')). rewrite Hcy. unfold next_cycle. simpl in *.
  destruct (_ =? outputValue s), (_ =? 0); simpl; lia.
Qed.

(** ** Every alarm is served once *)

Section Alarms.
Context {E : Type} `{Env E} (al_states link_up : Z -> Z).

(** Alarms counted and not yet served. *)
Definition pending (s : app) : Z := u32 (sig_alarms s - user_alarms s).

Definition alarms_wf (s : app) : Prop :=
  0 <= sig_alarms s < 2 ^ 32 /\ 0 <= user_alarms s < 2 ^ 32 /\ cycle_wf (cycle_of s).

Lemma alarms_spec n s :
  0 <= sig_alarms s < 2 ^ 32 ->
  sig_alarms (alarms n s) = u32 (sig_alarms s + Z.of_nat n) /\ user_alarms (alarms n s) = user_alarms s /\
  cycle_of (alarms n s) = cycle_of s.
Proof.
  intros Hs. induction n as [|n (IH1 & IH2 & IH3)].
  - simpl. rewrite Z.add_0_r, u32_small by lia. done.
  - change (alarms (S n) s) with (signal_handler SIGALRM (alarms n s)).
    unfold signal_handler. rewrite Z.eqb_refl. simpl. rewrite IH1, IH2. split_and!; [|done|exact IH3].
    unfold u32. rewrite Zplus_mod_idemp_l. f_equal. lia.
Qed.

Lemma u32_range z : 0 <= u32 z < 2 ^ 32.
Proof. apply Z.mod_pos_bound. lia. Qed.

Lemma sum_list_hd l : sum_list l = (hd 0 l + sum_list (tl l))%nat.
Proof. by destruct l. Qed.

Lemma sum_take_hd k l : sum_list (take (S k) l) = (hd 0 l + sum_list (take k (tl l)))%nat.
Proof. destruct l; simpl; [by rewrite take_nil | done]. Qed.

(** C25: the inner loop of [main] ends with every alarm served, those that arrive meanwhile
    included: it runs [cyclic_task] exactly once per alarm, also when the two unsigned counters
    wrap around, and each run sends one frame. *)
Theorem serve_alarms_once fuel arrivals s (e : E) :
  alarms_wf s ->
  let work := pending s + Z.of_nat (sum_list arrivals) in
  work < 2 ^ 32 -> work < Z.of_nat fuel -> numAsyncCycles s + work < INT_MAX ->
  wp (serve_alarms al_states link_up fuel arrivals s) e (fun s' t _ => exists k,
    Z.of_nat k = pending s + Z.of_nat (sum_list (take k arrivals)) /\
    user_alarms s' = u32 (user_alarms s + Z.of_nat k) /\ sig_alarms s' = user_alarms s' /\
    sends t = k).
Proof.
  cbv zeta. revert arrivals s e. induction fuel as [|fuel IH]; intros arrivals s e (Hs & Hu & Hc) Hw Hf Hm.
  { pose proof (Z.mod_pos_bound (sig_alarms s - user_alarms s) 4294967296 ltac:(lia)).
    unfold pending, u32 in *. lia. }
  cbn [serve_alarms]. destruct (Z.eqb_spec (sig_alarms s) (user_alarms s)) as [Heq|Hne].
  { wp_run. exists 0%nat. unfold pending. rewrite Heq, Z.sub_diag.
    split_and!; [done | by rewrite Z.add_0_r, u32_small by lia | done | done]. }
  assert (Hp : 0 < pending s) by (unfold pending; clear -Hs Hu Hne; mach).
  apply wp_bind. eapply wp_conseq; [apply cyclic_task_any; [done | lia]|].
  intros s1 t1 e1 (Hset & Hwf & Hn & Ht1). destruct Hset as (_ & _ & _ & _ & _ & Hsig & Husr).
  set (a := hd 0%nat arrivals). destruct (alarms_spec a s1) as (Ha1 & Ha2 & Ha3); [by rewrite Hsig|].
  set (s2 := set_alarms _ _ _). rewrite Hsig in Ha1. rewrite Husr in Ha2.
  assert (Hp2 : pending s2 = pending s - 1 + Z.of_nat a).
  { unfold pending, s2 in *. simpl. rewrite Ha1, Ha2. rewrite (sum_list_hd arrivals) in *. fold a in Hw.
    clear -Hs Hu Hp Hw. mach. }
  assert (Hwf2 : cycle_wf (cycle_of s2)) by (change (cycle_of s2) with (cycle_of (alarms a s1)); by rewrite Ha3).
  injection Ha3 as _ _ Ha3 _. rewrite (sum_list_hd arrivals) in *. fold a in Hw, Hf, Hm.
  eapply wp_conseq; [apply (IH (tl arrivals) s2)|].
  - split; [simpl; rewrite Ha1; apply u32_range|]. split; [apply u32_range|]. exact Hwf2.
  - lia.
  - lia.
  - change (numAsyncCycles s2) with (numAsyncCycles (alarms a s1)). lia.
  - intros s' t e' (k & Hk & Hus & Hsi & Ht). exists (S k). rewrite sum_take_hd. fold a.
    split_and!; [lia | | done |].
    + rewrite Hus. simpl. rewrite Ha2. unfold u32. rewrite Zplus_mod_idemp_l. f_equal. lia.
    + rewrite sends_app, Ht1, Ht. done.
Qed.

End Alarms.

(** ** A wired loop is not reported *)

(** The outputs at [aout] are wired to the inputs at [ain]: [sent e] are the bytes written so far,
    the last first, and the inputs show the one before the last [d] (0 while there is none). *)
Class Wired (E : Type) `{Env E} (ain aout : Z) (d : nat) := {
  sent : E -> list Z;
  wired_write : forall e v, is_byte v -> sent (ext (MemWrite W8 aout v) e).2 = v :: sent e;
  wired_read : forall e,
    Z.land (u8 (r_val (ext (MemRead W8 ain) e).1)) 0x0F = nth d (sent e) 0 mod 16;
  wired_other : forall e c, (forall v, c <> MemWrite W8 aout v) -> sent (ext c e).2 = sent e;
}.
Arguments sent {E _} ain aout d {_} e.

(** The outputs [n] cycles after the start, and the countdown to the next change. *)
Definition output_after (n : Z) : Z := if n <? 5 then 0 else ((n - 5) / 6) mod 16.
Definition counter_after (n : Z) : Z := if n <? 5 then 10 - n else 5 - (n - 5) mod 6.

Lemma schedule_step v n c :
  0 <= n -> cy_counter c = counter_after n -> cy_output c = output_after n ->
  cy_counter (next_cycle v c) = counter_after (n + 1) /\ cy_output (next_cycle v c) = output_after (n + 1).
Proof.
  intros Hn Hc Ho. unfold next_cycle. rewrite Hc, Ho. unfold counter_after, output_after.
  destruct (Z.ltb_spec n 5), (Z.ltb_spec (n + 1) 5); try lia.
  - destruct (Z.eqb_spec (10 - n) 0); simpl; lia.
  - replace n with 4 by lia. done.
  - destruct (Z.eqb_spec (5 - (n - 5) mod 6) 0); cbn [cy_counter cy_output]; split; mach.
Qed.

(** The loop as the program sees it: [h] are the outputs so far.  After a change the last
    [6 - counter] outputs are the current one, and the mismatches fewer. *)
Definition loop_ok (c : cycle) (h : list Z) : Prop :=
  cycle_wf c /\ cy_error c = 0 /\ 0 <= cy_counter c <= 10 /\
  (forall i, Z.of_nat i < 6 - cy_counter c \/ 5 < cy_counter c -> nth i h 0 = cy_output c) /\
  (cy_async c = 0 \/ cy_async c < 6 - cy_counter c <= 3).

Lemma loop_step d v c h :
  (d <= 2)%nat -> loop_ok c h -> Z.land v 0x0F = nth d h 0 mod 16 ->
  loop_ok (next_cycle v c) (cy_output (next_cycle v c) :: h) /\ cy_async (next_cycle v c) <= 2.
Proof.
  intros Hd (Hwf & Herr & Hc & Hh & Ha) Hv. pose proof (next_cycle_wf v c Hwf) as Hwf'.
  destruct Hwf as (Ho & _ & Ha0).
  set (async := if Z.land v 0x0F =? cy_output c then 0 else cy_async c + 1).
  assert (Hsmall : async = 0 \/ async <= 6 - cy_counter c <= 2).
  { unfold async. destruct (Z.eqb_spec (Z.land v 0x0F) (cy_output c)) as [|Hne]; [by left|]. right.
    assert (~ (Z.of_nat d < 6 - cy_counter c \/ 5 < cy_counter c)).
    { intros Hin. apply Hne. by rewrite Hv, Hh, Z.mod_small by done. }
    lia. }
  assert (Hle : async <= 2) by lia.
  unfold next_cycle in *. fold async in Hwf' |- *. rewrite (proj2 (Z.ltb_ge 2 async)) in * by done.
  destruct (Z.eqb_spec (cy_counter c) 0) as [Hz|Hnz]; (split; [|done]);
    (split; [exact Hwf'|]); cbn [cy_counter cy_output cy_async cy_error]; split_and!; try done; try lia.
  - intros [|i] Hi; [done | lia].
  - intros [|i] Hi; [done|]. apply Hh. lia.
Qed.

Fixpoint run_cycles {E} `{Env E} (al_states link_up : Z -> Z) (n : nat) (s : app) : M E app :=
  match n with
  | O => mret s
  | S n' => s ← run_cycles al_states link_up n' s; cyclic_task al_states link_up s
  end.

Section Loop.
Context {E : Type} `{Env E} (al_states link_up : Z -> Z) (m dom pd : Z) (ins outs : Z * Z) (d : nat).
Context `{!Wired E (pd + ins.2) (pd + outs.1) d}.
Local Abbreviation outputs := (sent (pd + ins.2) (pd + outs.1) d).

#[local] Instance outputs_preorder : PreOrder (fun e e' : E => outputs e' = outputs e).
Proof. split; [done|]. intros x y z Hxy Hyz. congruence. Qed.

Lemma loop_start : loop_ok (Cycle 10 0 0 0) [].
Proof. unfold loop_ok, cycle_wf. simpl. split_and!; try lia. by intros []. Qed.

Lemma loop_cycle s (e : E) :
  (d <= 2)%nat -> outs.1 <> outs.2 -> same_setup (app_start m dom pd ins outs) s ->
  loop_ok (cycle_of s) (outputs e) -> numAsyncCycles s <= 2 ->
  wp (cyclic_task al_states link_up s) e (fun s' t e' =>
    same_setup (app_start m dom pd ins outs) s' /\ loop_ok (cycle_of s') (outputs e') /\
    numAsyncCycles s' <= 2 /\ sends t = 1%nat /\ exists v, cycle_of s' = next_cycle v (cycle_of s)).
Proof.
  intros Hd Hne Hset Hok Hn. eapply wp_conseq.
  { apply (cyclic_task_spec al_states link_up (fun e e' => outputs e' = outputs e)).
    - intros k e1. by apply wired_other.
    - apply Hok.
    - unfold INT_MAX. lia. }
  intros s' t e' (e1 & e2 & H1 & H2 & H3 & Hset' & Hcy & Ht).
  assert (domain1_pd s = pd /\ off_dig_in s = ins /\ off_dig_out s = outs) as (Hpd & Hin & Hout)
    by (destruct Hset as (_ & _ & -> & -> & -> & _); done).
  rewrite Hpd, Hin, Hout in *.
  set (v := u8 (r_val (ext (MemRead W8 (pd + ins.2)) e1).1)) in *.
  destruct (loop_step d v (cycle_of s) (outputs e) Hd Hok) as [Hok' Hn'].
  { unfold v. rewrite wired_read, H1. done. }
  rewrite <- Hcy in Hok', Hn'. split_and!; [by etrans | | done | done | by exists v].
  assert (Hbyte : is_byte (outputValue s')) by (destruct Hok' as ((Hb & _) & _); simpl in Hb; unfold is_byte; lia).
  rewrite H3, wired_other, wired_write, H2, wired_other, H1; [done | done | done |].
  intros x Hx. injection Hx as Hx _. lia.
Qed.

(** C20: as long as the inputs follow the outputs at most two cycles later than they could, the
    program never counts an error, however long it runs; meanwhile the outputs count up modulo 16
    every six cycles, and each cycle sends one frame. *)
Theorem cyclic_task_loop n (e : E) :
  (d <= 2)%nat -> outs.1 <> outs.2 -> outputs e = [] ->
  wp (run_cycles al_states link_up n (app_start m dom pd ins outs)) e (fun s t _ =>
    error s = 0 /\ numAsyncCycles s <= 2 /\
    outputValue s = output_after (Z.of_nat n) /\ counter s = counter_after (Z.of_nat n) /\ sends t = n).
Proof.
  intros Hd Hne Hnil. set (s0 := app_start m dom pd ins outs).
  eapply (wp_conseq _ _ _ (fun s t e' => same_setup s0 s /\ loop_ok (cycle_of s) (outputs e') /\
    numAsyncCycles s <= 2 /\ outputValue s = output_after (Z.of_nat n) /\
    counter s = counter_after (Z.of_nat n) /\ sends t = n)).
  - induction n as [|n IH]; cbn [run_cycles].
    + wp_run. rewrite Hnil. split; [done|]. split; [apply loop_start | done].
    + apply wp_bind. eapply wp_conseq; [exact IH|]. intros s t e1 (Hset & Hok & Hn & Ho & Hc & Ht).
      eapply wp_conseq; [by apply loop_cycle|]. intros s' t' e' (Hset' & Hok' & Hn' & Ht' & v & Hv).
      destruct (schedule_step v (Z.of_nat n) (cycle_of s)) as [Hc' Ho']; [lia | done | done |].
      rewrite <- Hv in Hc', Ho'. simpl in Hc', Ho'. rewrite sends_app, Ht, Ht', Nat2Z.inj_succ.
      split_and!; [done | done | done | done | done | lia].
  - intros s t e' (_ & (_ & Herr & _) & Hn & Ho & Hc & Ht). done.
Qed.

End Loop.

(** ** The frame generators *)

(** Both frames are the one the driver sends at every link-up. *)
Lemma injected_frames_same :
  burst_frame = frameForwardEthernetFrames /\ forward_frame = frameForwardEthernetFrames.
Proof. done. Qed.

Definition injected (t : list event) : list (list Z) :=
  omap (fun ev => match ev_call ev with Kernel (PcapInject _ l) => Some l | _ => None end) t.

Lemma injected_app t t' : injected (t ++ t') = injected t ++ injected t'.
Proof. apply omap_app. Qed.

Lemma inject_frames_spec {E} `{Env E} frame n pcap (e : E) :
  wp (inject_frames frame n pcap) e (fun _ t _ => injected t = replicate n frame).
Proof.
  revert e. induction n as [|n IH]; intros e; cbn [inject_frames]; wp_run; [done|].
  eapply (wp_conseq _ _ _ (fun _ t _ => injected t = [])); [unfold print_if; destruct (_ =? _); by wp_run|].
  intros ? t1 e1 Ht1. eapply wp_conseq; [apply IH|]. intros ? t2 e2 Ht2.
  rewrite !injected_app, Ht1, Ht2. done.
Qed.

(** Such a program opens the interface, injects its frame [n] times whatever each injection
    returns, and closes it; it gives up with exit code 1 exactly when the interface cannot be
    opened, without injecting anything. *)
Lemma pcap_main_injects {E} `{Env E} frame n (e : E) :
  wp (pcap_main frame n) e (fun r t _ =>
    (r = 0 /\ injected t = replicate n frame /\
       exists pcap, pcap <> 0 /\ last (calls t) = Some (Kernel (PcapClose pcap))) \/
    (r = 1 /\ injected t = [])).
Proof.
  unfold pcap_main. wp_run.
  eapply (wp_conseq _ _ _ (fun _ t _ => injected t = [])); [unfold print_if; destruct (istrue _); by wp_run|].
  intros ? t1 e1 Ht1. apply wp_null; intros Hp; wp_run.
  - right. split; [done|]. by rewrite !injected_app, Ht1.
  - eapply wp_conseq; [apply inject_frames_spec|]. intros ? t2 e2 Ht2. wp_run. left.
    split; [done|]. split.
    + rewrite !injected_app, Ht1, Ht2. by rewrite !app_nil_r.
    + eexists. split; [exact Hp|]. rewrite app_nil_r, !app_assoc, calls_app. apply last_snoc.
Qed.

(** The burst test sends the driver's forwarding frame a thousand times, the other program once. *)
Lemma generators_inject {E} `{Env E} (e : E) :
  wp udp_burst_main e (fun r t _ => r = 0 -> injected t = replicate 1000 frameForwardEthernetFrames) /\
  wp forward_frames_main e (fun r t _ => r = 0 -> injected t = [frameForwardEthernetFrames]).
Proof.
  split; (eapply wp_conseq; [apply pcap_main_injects|]); intros r t e' [(_ & Ht & _) | [-> _]]; done.
Qed.

(** ** Witnesses *)

(** Outputs at address 101 wired to inputs at 100, seen [d] cycles late. *)
Definition wire_env (d : nat) : Env (list Z) := fun c h =>
  match c with
  | MemRead W8 a => (Resp (if a =? 100 then nth d h 0 else 0) 0, h)
  | MemWrite W8 a v => (Resp 0 0, if a =? 101 then v :: h else h)
  | _ => (Resp 1 0, h)
  end.

#[export] Instance wire_env_wired d : @Wired (list Z) (wire_env d) 100 101 d.
Proof.
  unshelve refine (@Build_Wired _ (wire_env d) _ _ _ (fun h => h) _ _ _).
  - done.
  - intros h. simpl. change 0x0F with (2 ^ 4 - 1). rewrite land_mask_mod by lia.
    change (2 ^ 4) with 16. unfold u8. mach.
  - intros h c Hc. destruct c as [| |w a|w a v| |]; try (destruct w); try done. simpl.
    destruct (Z.eqb_spec a 101) as [->|]; [by destruct (Hc v) | done].
Defined.

Lemma cyclic_task_loop_witness :
  exists s t h, run_cycles (H := wire_env 2) id id 40 (app_start 7 8 90 (0, 10) (11, 12)) [] = (Ret s, t, h) /\
    error s = 0 /\ outputValue s = 5.
Proof.
  pose proof (cyclic_task_loop (H := wire_env 2) id id 7 8 90 (0, 10) (11, 12) 2
    (Wired0 := wire_env_wired 2) 40 [] ltac:(lia) ltac:(simpl; lia) eq_refl) as Hw.
  apply wp_elim in Hw as (s & t & h & Hrun & He & _ & Ho & _). exists s, t, h.
  split; [exact Hrun|]. split; [exact He|]. rewrite Ho. reflexivity.
Defined.

(** One cycle later is reported. *)
Example late_loop_reported :
  match run_cycles (H := wire_env 3) id id 14 (app_start 7 8 90 (0, 10) (11, 12)) [] with
  | (Ret s, _, _) => error s = 1
  | _ => False
  end.
Proof. vm_compute. reflexivity. Qed.

Lemma serve_alarms_once_witness :
  exists s t h, serve_alarms (H := wire_env 0) id id 10 [1%nat; 0%nat; 2%nat]
    (set_alarms 1 4294967295 (app_start 7 8 90 (0, 10) (11, 12))) [] = (Ret s, t, h) /\
    user_alarms s = sig_alarms s.
Proof.
  pose proof (serve_alarms_once (H := wire_env 0) id id 10 [1%nat; 0%nat; 2%nat]
    (set_alarms 1 4294967295 (app_start 7 8 90 (0, 10) (11, 12))) []) as Hw.
  apply wp_elim in Hw as (s & t & h & Hrun & k & _ & _ & Hs & _).
  - exists s, t, h. split; [exact Hrun | symmetry; exact Hs].
  - unfold alarms_wf, cycle_wf. simpl. lia.
  - vm_compute. reflexivity.
  - vm_compute. reflexivity.
  - vm_compute. reflexivity.
Defined.

(** The results of [Init_EL100x] are not looked at: when registering the entries fails, the
    program goes on with the offset 2^32 - 1. *)
Definition no_entry_env : Env unit := fun c e =>
  match c with
  | Kernel (EcrtSlaveConfigRegPdoEntry _ _ _ _) => (Resp (-1) 0, e)
  | Kernel (EcrtSlaveConfigPdos _ _) | Kernel (EcrtMasterActivate _)
  | Kernel (Sigaction _) | Kernel (Setitimer _ _) => (Resp 0 0, e)
  | _ => (Resp 512 0, e)
  end.

Example setup_failure_ignored :
  match main_setup (H := no_entry_env) (fun _ => 1) tt with
  | (Ret (inr s), _, _) => off_dig_out s = (4294967295, 4294967295)
  | _ => False
  end.
Proof. reflexivity. Qed.
